(* ===== verification/_CoqProject ===== *)
-Q . S2P
Prelude.v
GoStrings.v
Flags.v
Utf8.v
GoPath.v
GoFS.v
GoFSFacts.v
Uuid.v
GoTime.v
Poll.v
Models.v
Datalayer.v
FakeDL.v
Postgres.v
PostgresFacts.v
K8s.v
GoSlice.v
Grpc.v
Monitor.v
GrpcFacts.v
Builder.v
BuilderFacts.v
Json.v
FuranJob.v
FuranJobFacts.v
JobRunner.v
JobWatch.v
JobRunnerFacts.v
Buildkit.v
BuildkitFacts.v
Client.v
ClientFacts.v
S3.v
S3Facts.v
TagCheck.v
TagCheckFacts.v
Auth.v
Secrets.v
CmdClient.v
CmdClientFacts.v
Integration.v
IntegrationFacts.v
Cmd.v
CmdLine.v
CmdFacts.v
CmdLineFacts.v
SecretsFacts.v
StreamAdapter.v
Jsonapi.v
JsonapiFacts.v
Github.v
GithubFacts.v
Lifecycle.v
LifecycleFacts.v
LifecycleRefines.v
Testsuite.v
TestsuiteFacts.v
