(* ===== verification/Prelude.v ===== *)
(** * Furan 2: a verification library

    Furan builds container images.  A client asks a server over gRPC to build a
    repository at a reference and to push the image; the server records the build in
    PostgreSQL and creates a Kubernetes job for it; the pod of the job takes the build
    over, fetches the source from GitHub and a cache from S3, lets BuildKit solve it,
    and records how it ended.  Server, pods and clients share the database only: they
    write the status of a build there, and wake each other with LISTEN and NOTIFY.

    Every file models one package of the program, or holds the theorems about one
    (<File>Facts).

    ** The library under the program

    - Prelude: errors, outcomes ([res]: a value, an error or a panic) and the monad
      [M W] of computations over a world W, with [wp] as its logic and [same] for
      computations that leave a part of the world alone.
    - GoStrings, Utf8, GoPath, GoTime, GoSlice, Json: the functions of Go's library the
      program calls, as far as it uses them.  Strings are bytes; runes, int32 and
      int64 have their width; slices share arrays.
    - Flags: pflag and cobra, from the vendored sources: flag sets, the parsing of a
      command line, the choice of the command it runs.
    - GoFS (GoFSFacts): a Unix file system of inodes, links and faults.
    - Uuid, K8s: the identifiers, and the Kubernetes objects the program touches.

    ** The components

    - Models (pkg/models): the build, its status, its stored credential.  Datalayer
      (pkg/datalayer): the interface DataLayer and [DataLayerSpec], what its
      implementations promise and its clients rely on.
    - Postgres (datalayer.go): a database of rows, transactions that may fail before or
      after they took effect, NOTIFY text that is assembled and parsed, and a listen
      pool.  FakeDL (fake.go): the same operations on maps and channels.
    - Grpc (pkg/grpc/grpc.go): interceptors and handlers, over any data layer; Monitor:
      the goroutines of MonitorBuild; StreamAdapter (streamadapter.go).
    - Builder (pkg/builder): Manager.Start on the server, Manager.Run in the pod; its
      module Cancellation interleaves Run with the cancelling goroutine.
    - FuranJob, JobRunner, JobWatch (pkg/jobrunner): the job, the pod's knowledge of
      itself, the cleanup; the goroutine that watches a job.
    - Buildkit, S3, Github, TagCheck, Auth (the packages of these names): what a job
      does with BuildKit, the cache bucket, the source archive and the registries.
    - Secrets (pkg/config, pkg/secrets): configuration, and the secrets filled into it.
    - Client (pkg/client), Jsonapi (pkg/jsonapi): the two ways to reach the server.
      [Client.loopback] closes the circle: it is a connection to the server of Grpc,
      behind its interceptors.
    - Cmd, CmdClient, Integration (cmd): the commands, which put the components together.
      [Cmd.server] and [Cmd.runbuild] are the two processes of the system.  CmdLine: the
      flags of the commands, and which function is run with which variables.  Poll: the loop
      with which a job waits for BuildKit, and the integration tests for the server.
    - Testsuite (pkg/datalayer/testsuite): the tests of a data layer as programs over any
      data layer.  A call that listens while another goroutine acts is a parameter of
      the tests ([tr_go]).  TestsuiteFacts runs them all on both data layers, and derives
      four of them (create, delete, get, set status) from the contract.
    - Lifecycle: server, pods and clients of one build as automata over their calls of
      the data layer, interleaved; an answer can be lost, a pod killed.  LifecycleRefines:
      Grpc and Builder implement these automata.

    An interface of the program (models.Builder, TagChecker, CacheFetcher, JobRunner,
    CodeFetcher, DataLayer) is a record of operations; what a client's theorem needs of
    it is a class or a record of laws ([DataLayerSpec], [SecretBoxLaws], [framed_manager]
    and the like) that the theorems about the implementations provide.  A goroutine that only ends in a
    value is that value; goroutines that race are a step relation, with its reachable
    states.  A handler that leaves a goroutine behind returns it as a computation.

    ** The theorems

    - The data layers (PostgresFacts, FakeDL): both refine the contract; a status and its
      notification become visible together; what the status of a build forbids changes
      nothing; channel names are legal and distinct; both list the same builds, where
      PostgreSQL lists, and when a list is cut short; no clear-text credential is ever
      stored; and what the listen pool leaks.
    - The server (GrpcFacts, JsonapiFacts, ClientFacts): who gets in, what a request
      must satisfy, what is then stored (and in what form its credential), what happens
      when its job cannot start and which event says so, what a client finds afterwards,
      whatever the job has done meanwhile.
    - The job (BuilderFacts, BuildkitFacts, S3Facts, GithubFacts, TagCheckFacts,
      FuranJobFacts, JobRunnerFacts): functional correctness of each part - the image
      names, the tags that are missing and in whose registry, the tree of an archive
      and how far it can reach, the outcome of a build and what becomes of its cache, the
      resources of its job, what is left on the disk - and its invariants.
    - Concurrency (Monitor, StreamAdapter, BuilderFacts, JobRunnerFacts): invariants of
      all interleavings, and the bad states that can be reached.
    - The whole (CmdFacts, CmdLineFacts, SecretsFacts, CmdClientFacts, IntegrationFacts,
      LifecycleFacts, LifecycleRefines): a job gets the configuration of its server on its
      command line, and completes the build it took over with the status of its outcome;
      the token of a request is what the job decrypts; the checker and the pusher of a job
      agree on registries; what the row of a build says once all processes are gone, and
      that their code makes no other calls than those this is proved of; what [furan
      trigger] has done when it succeeds, and what it means that the integration tests
      pass.

    ** Bounds and fuel

    Loops over data are structural.  The others have fuel:
    - [Poll.poll] waits for a server: a dial and a sleep of at least its interval per
      round, until its timeout.  [Poll.poll_ends] counts the rounds that suffice for every
      clock that does not run backwards and sleeps that are not cut short:
      VerifyAddr_terminates has 26, WaitForFuranServer_ends one per second of its flag.
    - [Github.extract_loop] reads a tar stream; extractArchive_is_fold shows that one
      round more than the stream has entries is enough, for every reader that ends.
    - Resolving a path follows at most 40 links (MAXSYMLINKS), as Linux does.
    - Loops the program means to run for ever ([JobRunner] cleanup, the receiving loops
      of the clients, ticks) take the number of their rounds as an argument, and their
      theorems hold for every number.
    The retry of the data layer's connection is bounded in the source.

    ** What is a parameter

    Code that is not the program's own: the Kubernetes, BuildKit, GitHub, AWS and HTTP
    clients, the transport of gRPC, the tar and archive libraries, the secret store pvc,
    secretbox, and the choices of the Go run time (random bytes, the clock, the order
    of maps, the winner of a select).  ECR answers by session and registry: a request
    that names no registry is about the account of the keys.  PostgreSQL is given by the
    meaning of the statements the program sends it; it refuses texts that hold a NUL or
    are not UTF-8.

    ** Not modelled

    - Tracing and profiling: no state of the program depends on them.
    - Of command lines, the parsing of durations and comma-separated values, and the
      text of help and usage messages.
    - The generated code of pkg/generated: protoc's.
    - The mutexes of FakeDL and Secrets: their critical sections are single steps.
    - The log lines, except where a log line is all that becomes of an error. *)

From stdpp Require Export base gmap strings list fin_maps numbers option.
From stdpp Require Export pretty sorting.
From Stdlib Require Export Ascii.

#[global] Set Default Goal Selector "!".
#[global] Set Warnings "-clear-no-such-hyp".

(** ** Go errors *)

(** The status codes of google.golang.org/grpc/codes the program uses. *)
Inductive code :=
  | OK | Unknown | InvalidArgument | Unauthenticated | Internal | FailedPrecondition.

(** A non-nil Go [error].  [fmt.Errorf] without [%w] and [errors.New] make an
    [ErrText]; ["msg: %w"] makes an [ErrWrap]; the sentinel values the code
    compares with [==] have a constructor each; [ErrLib] is an error made by a
    third-party library, with its text. *)
Inductive error :=
  | ErrText (msg : string)
  | ErrWrap (msg : string) (cause : error)
  | ErrNotFound
  | ErrNoRows
  | ErrEOF
  | ErrNetOp (timeout temporary : bool)
  | ErrAWS (awscode : string)
  | ErrLib (msg : string)
  | ErrStatus (c : code) (msg : string).

(** The outcome of a Go call that returns an [error]: a value and a nil error,
    a non-nil error, or a run-time panic. *)
Inductive res (A : Type) :=
  | Ok (a : A)
  | Err (e : error)
  | Panic (msg : string).

Arguments Ok {_} _.
Arguments Err {_} _.
Arguments Panic {_} _.

#[export] Instance code_eq_dec : EqDecision code.
Proof. solve_decision. Defined.
#[export] Instance error_eq_dec : EqDecision error.
Proof. solve_decision. Defined.
#[export] Instance res_eq_dec `{EqDecision A} : EqDecision (res A).
Proof. solve_decision. Defined.

Definition code_String (c : code) : string :=
  match c with
  | OK => "OK"
  | Unknown => "Unknown"
  | InvalidArgument => "InvalidArgument"
  | Unauthenticated => "Unauthenticated"
  | Internal => "Internal"
  | FailedPrecondition => "FailedPrecondition"
  end.

(** A fallible value used by the next. *)
Definition res_bind {A B} (r : res A) (f : A → res B) : res B :=
  match r with Ok a => f a | Err e => Err e | Panic e => Panic e end.

(** [err.Error()]. *)
Fixpoint error_String (e : error) : string :=
  match e with
  | ErrText m => m
  | ErrWrap m c => m +:+ ": " +:+ error_String c
  | ErrNotFound => "not found"
  | ErrNoRows => "no rows in result set"
  | ErrEOF => "EOF"
  | ErrNetOp _ _ => "network error"
  | ErrAWS c => c
  | ErrLib m => m
  | ErrStatus c m => "rpc error: code = " +:+ code_String c +:+ " desc = " +:+ m
  end.

(** ** Stateful, fallible computations *)

(** A Go function that acts on a world [W] (database, cluster, network, other
    goroutines) and returns [(A, error)]. *)
Definition M (W A : Type) : Type := W → res A * W.

#[export] Instance M_ret W : MRet (M W) := λ A a w, (Ok a, w).
#[export] Instance M_bind W : MBind (M W) := λ A B f m w,
  match m w with
  | (Ok a, w') => f a w'
  | (Err e, w') => (Err e, w')
  | (Panic p, w') => (Panic p, w')
  end.
#[export] Instance M_throw W : MThrow error (M W) := λ A e w, (Err e, w).

Definition throw {W A} (e : error) : M W A := λ w, (Err e, w).
Definition panic {W A} (msg : string) : M W A := λ w, (Panic msg, w).

(** What a loop panics with when its bound on the rounds was too small. *)
Definition out_of_fuel : string := "out of fuel".

(** [r := f()]: the error is a value the caller looks at (or ignores); a panic
    is not. *)
Definition attempt {W A} (m : M W A) : M W (res A) := λ w,
  match m w with
  | (Panic p, w') => (Panic p, w')
  | (r, w') => (Ok r, w')
  end.

(** [if err != nil { return g(err) }]. *)
Definition on_err {W A} (g : error → error) (m : M W A) : M W A := λ w,
  match m w with
  | (Err e, w') => (Err (g e), w')
  | p => p
  end.

(** [if err != nil { return fmt.Errorf("msg: %w", err) }]. *)
Definition wrapf {W A} (msg : string) (m : M W A) : M W A := on_err (ErrWrap msg) m.

(** A value computed beforehand. *)
Definition lift_res {W A} (r : res A) : M W A := λ w, (r, w).

(** A call that cannot fail. *)
Definition run {W A} (f : W → A * W) : M W A := λ w, let '(a, w') := f w in (Ok a, w').

(** [f()] called for its effect, its error dropped. *)
Definition ignore_err {W A} (m : M W A) : M W () := attempt m ≫= λ _, mret ().

(** [defer d(err)]: [d] sees the outcome of the body and runs on every exit;
    an error [d] returns itself is dropped, as the code's deferred closures do. *)
Definition deferring {W A} (d : res A → M W ()) (m : M W A) : M W A := λ w,
  let (r, w1) := m w in
  match d r w1 with
  | (Panic p, w2) => (Panic p, w2)
  | (_, w2) => (r, w2)
  end.

(** [for _, x := range l { body }] where the body can fail. *)
Fixpoint mforeach {W A} (f : A → M W ()) (l : list A) : M W () :=
  match l with
  | [] => mret ()
  | x :: l' => f x ≫= λ _, mforeach f l'
  end.

(** The weakest precondition of a computation: all reasoning about programs
    goes through it. *)
Definition wp {W A} (m : M W A) (Q : res A → W → Prop) (w : W) : Prop :=
  Q (m w).1 (m w).2.

(** ** Machine integers *)

#[local] Open Scope Z_scope.

(** Two's complement wrap-around of a signed [n]-bit integer. *)
Definition wrap_signed (n : Z) (z : Z) : Z := (z + 2 ^ (n - 1)) `mod` 2 ^ n - 2 ^ (n - 1).
Definition int64 (z : Z) : Z := wrap_signed 64 z.
Definition int32 (z : Z) : Z := wrap_signed 32 z.
Definition in_int64 (z : Z) : Prop := - 2 ^ 63 ≤ z < 2 ^ 63.
Definition in_int32 (z : Z) : Prop := - 2 ^ 31 ≤ z < 2 ^ 31.

(** ** Lemmas *)

Section wp.
Context {W : Type}.
Implicit Types w : W.

Lemma wp_mono {A} (m : M W A) (P Q : res A → W → Prop) w :
  (∀ r w', P r w' → Q r w') → wp m P w → wp m Q w.
Proof. unfold wp. auto. Qed.

Lemma wp_and {A} (m : M W A) (P Q : res A → W → Prop) w :
  wp m (λ r w', P r w' ∧ Q r w') w ↔ wp m P w ∧ wp m Q w.
Proof. done. Qed.

Lemma wp_ret {A} (a : A) Q w : wp (mret a) Q w ↔ Q (Ok a) w.
Proof. done. Qed.

Lemma wp_throw {A} e (Q : res A → W → Prop) w : wp (throw e) Q w ↔ Q (Err e) w.
Proof. done. Qed.

Lemma wp_panic {A} p (Q : res A → W → Prop) w : wp (panic p) Q w ↔ Q (Panic p) w.
Proof. done. Qed.

Lemma wp_lift_res {A} (r : res A) Q w : wp (lift_res r) Q w ↔ Q r w.
Proof. done. Qed.

Lemma wp_run {A} (f : W → A * W) (Q : res A → W → Prop) w :
  wp (run f) Q w ↔ Q (Ok (f w).1) (f w).2.
Proof. unfold wp, run. by destruct (f w). Qed.

Lemma wp_bind {A B} (m : M W A) (f : A → M W B) Q w :
  wp (m ≫= f) Q w ↔
  wp m (λ r w', match r with
                | Ok a => wp (f a) Q w'
                | Err e => Q (Err e) w'
                | Panic p => Q (Panic p) w'
                end) w.
Proof.
  unfold wp, mbind, M_bind. destruct (m w) as [[a|e|p] w'] eqn:E; simpl; by rewrite ?E.
Qed.

Lemma wp_attempt {A} (m : M W A) Q w :
  wp (attempt m) Q w ↔
  wp m (λ r w', match r with Panic p => Q (Panic p) w' | _ => Q (Ok r) w' end) w.
Proof. unfold wp, attempt. by destruct (m w) as [[a|e|p] w']. Qed.

Lemma wp_on_err {A} g (m : M W A) Q w :
  wp (on_err g m) Q w ↔
  wp m (λ r w', match r with Err e => Q (Err (g e)) w' | _ => Q r w' end) w.
Proof. unfold wp, on_err. by destruct (m w) as [[a|e|p] w']. Qed.

Lemma wp_wrapf {A} msg (m : M W A) Q w :
  wp (wrapf msg m) Q w ↔
  wp m (λ r w', match r with Err e => Q (Err (ErrWrap msg e)) w' | _ => Q r w' end) w.
Proof. apply wp_on_err. Qed.

Lemma wp_ignore_err {A} (m : M W A) Q w :
  wp (ignore_err m) Q w ↔
  wp m (λ r w', match r with Panic p => Q (Panic p) w' | _ => Q (Ok ()) w' end) w.
Proof.
  unfold ignore_err. rewrite wp_bind, wp_attempt. unfold wp.
  by destruct (m w) as [[a|e|p] w'].
Qed.

Lemma wp_deferring {A} d (m : M W A) Q w :
  wp (deferring d m) Q w ↔
  wp m (λ r w1, wp (d r) (λ r2 w2,
    match r2 with Panic p => Q (Panic p) w2 | _ => Q r w2 end) w1) w.
Proof.
  unfold wp, deferring. destruct (m w) as [r w1]. simpl.
  by destruct (d r w1) as [[?|?|?] w2].
Qed.
End wp.

(** A computation that leaves the part [view] of the world as it is. *)
Definition same {W X A} (view : W → X) (m : M W A) : Prop := ∀ w, view (m w).2 = view w.

Section same.
Context {W X : Type} (view : W → X).

Lemma same_bind {A B} (m : M W A) (f : A → M W B) :
  same view m → (∀ a, same view (f a)) → same view (m ≫= f).
Proof.
  intros Hm Hf w. unfold mbind, M_bind. specialize (Hm w).
  destruct (m w) as [[a|e|e] w']; simpl in *; [|done..]. by rewrite Hf.
Qed.
Lemma same_on_err {A} g (m : M W A) : same view m → same view (on_err g m).
Proof. intros Hm w. unfold on_err. specialize (Hm w). by destruct (m w) as [[a|e|e] w']. Qed.
Lemma same_attempt {A} (m : M W A) : same view m → same view (attempt m).
Proof. intros Hm w. unfold attempt. specialize (Hm w). by destruct (m w) as [[a|e|e] w']. Qed.
Lemma same_ignore {A} (m : M W A) : same view m → same view (ignore_err m).
Proof. intros Hm. apply same_bind; [by apply same_attempt|done]. Qed.
Lemma same_run {A} (f : W → A * W) : (∀ w, view (f w).2 = view w) → same view (run f).
Proof. intros Hf w. unfold run. specialize (Hf w). by destruct (f w). Qed.
End same.

Lemma wrap_signed_range n z : 0 < n → - 2 ^ (n - 1) ≤ wrap_signed n z < 2 ^ (n - 1).
Proof.
  intros Hn. unfold wrap_signed.
  assert (2 ^ n = 2 * 2 ^ (n - 1)) as ->.
  { rewrite <-Z.pow_succ_r by lia. f_equal. lia. }
  pose proof (Z.pow_pos_nonneg 2 (n - 1) ltac:(lia) ltac:(lia)) as Hp.
  pose proof (Z.mod_pos_bound (z + 2 ^ (n - 1)) (2 * 2 ^ (n - 1)) ltac:(lia)). lia.
Qed.

Lemma wrap_signed_id n z : 0 < n → - 2 ^ (n - 1) ≤ z < 2 ^ (n - 1) → wrap_signed n z = z.
Proof.
  intros Hn Hz. unfold wrap_signed. rewrite Z.mod_small; [lia|].
  assert (2 ^ n = 2 * 2 ^ (n - 1)) as ->.
  { rewrite <-Z.pow_succ_r by lia. f_equal. lia. }
  lia.
Qed.

Lemma wrap_signed_add_sub n z c : 0 < n →
  wrap_signed n (wrap_signed n (z + c) - c) = wrap_signed n z.
Proof.
  intros Hn. unfold wrap_signed.
  set (h := 2 ^ (n - 1)). set (m := 2 ^ n).
  assert (m ≠ 0) by (unfold m; apply Z.pow_nonzero; lia).
  f_equal. replace ((z + c + h) `mod` m - h - c + h) with ((z + c + h) `mod` m - c) by lia.
  rewrite Zminus_mod_idemp_l. f_equal. lia.
Qed.

Lemma int64_id z : in_int64 z → int64 z = z.
Proof. unfold in_int64, int64. intros. apply wrap_signed_id; lia. Qed.

Lemma int32_id z : in_int32 z → int32 z = z.
Proof. unfold in_int32, int32. intros. apply wrap_signed_id; lia. Qed.

Lemma int64_range z : in_int64 (int64 z).
Proof. apply (wrap_signed_range 64). lia. Qed.

(** ** Lists *)

Lemma filter_all {A} (P : A → Prop) `{∀ x, Decision (P x)} (l : list A) :
  (∀ x, P x) → filter P l = l.
Proof. intros HP. induction l as [|x l IH]; [done|]. by rewrite filter_cons_True, IH. Qed.

Lemma filter_fmap {A B} (f : A → B) (P : A → Prop) (Q : B → Prop)
    `{∀ x, Decision (P x), ∀ y, Decision (Q y)} (l : list A) :
  (∀ x, x ∈ l → P x ↔ Q (f x)) → f <$> filter P l = filter Q (f <$> l).
Proof.
  induction l as [|x l IH]; intros HPQ; [done|]. rewrite fmap_cons.
  assert (P x ↔ Q (f x)) as Hx by (apply HPQ; left).
  assert (f <$> filter P l = filter Q (f <$> l)) as IH' by (apply IH; intros; apply HPQ; by right).
  destruct (decide (P x)).
  - rewrite !filter_cons_True by tauto. by rewrite fmap_cons, IH'.
  - by rewrite !filter_cons_False by tauto.
Qed.

Lemma existsb_elem_of `{EqDecision A} (x : A) l :
  existsb (λ y, bool_decide (y = x)) l = true ↔ x ∈ l.
Proof.
  rewrite existsb_exists. setoid_rewrite bool_decide_eq_true.
  setoid_rewrite <-list_elem_of_In. split; [by intros (?&?&->)|by exists x].
Qed.

(** ** Automation *)

Create HintDb furan discriminated.
Create Rewrite HintDb wp.
#[export] Hint Resolve int64_range : furan.
#[export] Hint Rewrite @wp_ret @wp_throw @wp_panic @wp_lift_res @wp_run @wp_bind @wp_attempt
  @wp_on_err @wp_wrapf @wp_ignore_err @wp_deferring : wp.

(** Push [wp] through the program text down to the calls of the environment. *)
Ltac wp_simpl := repeat (progress (autorewrite with wp; simpl)).

(** Case analysis on the first call of the environment that blocks the goal. *)
Ltac wp_call :=
  match goal with
  | |- wp ?m ?Q ?w => unfold wp at 1; destruct (m w) as [[?|?|?] ?] eqn:?; simpl
  end.

(** Case analysis on the scrutinee of a [match] or [if] of the goal. *)
Ltac case_goal :=
  match goal with
  | |- context [match ?x with _ => _ end] => destruct x eqn:?; simplify_eq/=
  end.
