(* ===== verification/GoStrings.v ===== *)
(** * The string functions of Go's standard library the program calls

    A Go string is a sequence of bytes, here a [string] of [ascii].  Each
    definition is the function of [strings], [strconv], [unicode/utf8] or
    [time] it is named after, at the arguments the program uses (a separator
    or an old text of one byte where the program passes one). *)

From S2P Require Import Prelude.

#[local] Open Scope string_scope.

Abbreviation slash := ("/"%char) (only parsing).
Abbreviation dash := ("-"%char) (only parsing).
Abbreviation colon := (":"%char) (only parsing).
Abbreviation underscore := ("_"%char) (only parsing).
Abbreviation squote := ("'"%char) (only parsing).

(** ** package strings *)

Definition HasPrefix (s p : string) : bool := String.prefix p s.

Fixpoint str_rev_app (s acc : string) : string :=
  match s with
  | "" => acc
  | String c s' => str_rev_app s' (String c acc)
  end.
Definition str_rev (s : string) : string := str_rev_app s "".

Definition HasSuffix (s p : string) : bool := String.prefix (str_rev p) (str_rev s).

Definition TrimPrefix (s p : string) : string :=
  if HasPrefix s p then String.substring (String.length p) (String.length s) s else s.

(** [strings.Contains(s, string(c))]. *)
Fixpoint ContainsByte (s : string) (c : ascii) : bool :=
  match s with
  | "" => false
  | String d s' => bool_decide (d = c) || ContainsByte s' c
  end.

(** The part of [s] before the first [c], and the part after it if there is one. *)
Fixpoint Cut (s : string) (c : ascii) : string * option string :=
  match s with
  | "" => ("", None)
  | String d s' =>
      if decide (d = c) then ("", Some s')
      else let '(b, a) := Cut s' c in (String d b, a)
  end.

(** [strings.Split(s, string(c))]. *)
Fixpoint Split (s : string) (c : ascii) : list string :=
  match s with
  | "" => [""]
  | String d s' =>
      if decide (d = c) then "" :: Split s' c
      else match Split s' c with
           | p :: ps => String d p :: ps
           | [] => [String d ""]
           end
  end.

(** [strings.SplitN(s, string(c), 2)]. *)
Definition SplitN2 (s : string) (c : ascii) : list string :=
  match Cut s c with
  | (b, Some a) => [b; a]
  | (b, None) => [b]
  end.

(** [strings.Replace(s, string(c), new, -1)] and [strings.ReplaceAll]. *)
Fixpoint ReplaceAll (s : string) (c : ascii) (new : string) : string :=
  match s with
  | "" => ""
  | String d s' => (if decide (d = c) then new else String d "") +:+ ReplaceAll s' c new
  end.

(** [strings.Replace(s, old, new, 1)]. *)
Fixpoint Replace1 (s old new : string) : string :=
  if String.prefix old s
  then new +:+ String.substring (String.length old) (String.length s) s
  else match s with
       | "" => ""
       | String d s' => String d (Replace1 s' old new)
       end.

(** [strings.Join(l, sep)]. *)
Fixpoint Join (l : list string) (sep : string) : string :=
  match l with
  | [] => ""
  | [x] => x
  | x :: l' => x +:+ sep +:+ Join l' sep
  end.

(** [%v] of a slice of strings. *)
Definition fmt_strings (l : list string) : string := "[" +:+ Join l " " +:+ "]".

(** ** package unicode/utf8 *)

#[local] Open Scope Z_scope.

Definition byte_val (a : ascii) : Z := Z.of_N (N_of_ascii a).
Definition byte_of (z : Z) : ascii := ascii_of_N (Z.to_N z).

Definition RuneError : Z := 65533. (* U+FFFD *)

(** Acceptable range of the second byte of a sequence that starts with [b0],
    and the length of the sequence (0: [b0] starts no sequence). *)
Definition utf8_first (b0 : Z) : nat * Z * Z :=
  if b0 <? 128 then (1%nat, 0, 0)
  else if b0 <? 194 then (0%nat, 0, 0)
  else if b0 <=? 223 then (2%nat, 128, 191)
  else if b0 =? 224 then (3%nat, 160, 191)
  else if b0 =? 237 then (3%nat, 128, 159)
  else if b0 <=? 239 then (3%nat, 128, 191)
  else if b0 =? 240 then (4%nat, 144, 191)
  else if b0 <=? 243 then (4%nat, 128, 191)
  else if b0 =? 244 then (4%nat, 128, 143)
  else (0%nat, 0, 0).

Definition in_range (lo hi : Z) (a : ascii) : bool :=
  (lo <=? byte_val a) && (byte_val a <=? hi).
Definition cont_bits (a : ascii) : Z := Z.land (byte_val a) 63.

(** The runes of a byte string with the bytes each was decoded from; a byte
    that starts no valid sequence is [RuneError]. *)
Fixpoint decode_runes (l : list ascii) : list (Z * list ascii) :=
  match l with
  | [] => []
  | a :: l1 =>
      let b0 := byte_val a in
      let '(n, lo, hi) := utf8_first b0 in
      let bad (_ : ()) := (RuneError, [a]) :: decode_runes l1 in
      match n, l1 with
      | 1%nat, _ => (b0, [a]) :: decode_runes l1
      | 2%nat, b :: l2 =>
          if in_range lo hi b
          then (Z.lor (Z.shiftl (Z.land b0 31) 6) (cont_bits b), [a; b]) :: decode_runes l2
          else bad tt
      | 3%nat, b :: c :: l3 =>
          if in_range lo hi b && in_range 128 191 c
          then (Z.lor (Z.shiftl (Z.land b0 15) 12)
                  (Z.lor (Z.shiftl (cont_bits b) 6) (cont_bits c)), [a; b; c]) :: decode_runes l3
          else bad tt
      | 4%nat, b :: c :: d :: l4 =>
          if in_range lo hi b && in_range 128 191 c && in_range 128 191 d
          then (Z.lor (Z.shiftl (Z.land b0 7) 18)
                 (Z.lor (Z.shiftl (cont_bits b) 12)
                   (Z.lor (Z.shiftl (cont_bits c) 6) (cont_bits d))), [a; b; c; d])
               :: decode_runes l4
          else bad tt
      | _, _ => bad tt
      end
  end.

(** [utf8.EncodeRune] at a valid rune. *)
Definition encode_rune (r : Z) : list ascii :=
  if r <? 128 then [byte_of r]
  else if r <? 2048 then [byte_of (Z.lor 192 (Z.shiftr r 6)); byte_of (Z.lor 128 (Z.land r 63))]
  else if r <? 65536 then
    [byte_of (Z.lor 224 (Z.shiftr r 12)); byte_of (Z.lor 128 (Z.land (Z.shiftr r 6) 63));
     byte_of (Z.lor 128 (Z.land r 63))]
  else
    [byte_of (Z.lor 240 (Z.shiftr r 18)); byte_of (Z.lor 128 (Z.land (Z.shiftr r 12) 63));
     byte_of (Z.lor 128 (Z.land (Z.shiftr r 6) 63)); byte_of (Z.lor 128 (Z.land r 63))].

(** [[]rune(s)] and [string(r)]. *)
Definition runes_of_string (s : string) : list Z :=
  (decode_runes (String.list_ascii_of_string s)).*1.
Definition string_of_runes (l : list Z) : string :=
  String.string_of_list_ascii (l ≫= encode_rune).

(** [unicode.IsSpace]. *)
Definition IsSpace (r : Z) : bool :=
  ((9 <=? r) && (r <=? 13)) || (r =? 32) || (r =? 133) || (r =? 160) || (r =? 5760)
  || ((8192 <=? r) && (r <=? 8202)) || (r =? 8232) || (r =? 8233) || (r =? 8239)
  || (r =? 8287) || (r =? 12288).

Fixpoint drop_spaces (l : list (Z * list ascii)) : list (Z * list ascii) :=
  match l with
  | (r, b) :: l' => if IsSpace r then drop_spaces l' else l
  | [] => []
  end.

(** [strings.TrimSpace]. *)
Definition TrimSpace (s : string) : string :=
  String.string_of_list_ascii
    ((rev (drop_spaces (rev (drop_spaces (decode_runes (String.list_ascii_of_string s)))))) ≫= snd).

(** ** package strconv and the verbs of fmt *)

(** [%d] at a non-negative integer and at a signed one. *)
Definition fmt_nat (n : nat) : string := pretty n.
Definition fmt_int (z : Z) : string := pretty z.

Definition digit_val (a : ascii) : option Z :=
  let b := byte_val a in if (48 <=? b) && (b <=? 57) then Some (b - 48) else None.

Fixpoint digits_val (acc : Z) (s : string) : option Z :=
  match s with
  | ""%string => Some acc
  | String c s' => d ← digit_val c; digits_val (acc * 10 + d) s'
  end.

(** [strconv.Atoi] with a 64-bit [int]. *)
Definition Atoi (s : string) : option Z :=
  let '(neg, ds) := match s with
                    | String "-" s' => (true, s')
                    | String "+" s' => (false, s')
                    | _ => (false, s)
                    end in
  match ds with
  | ""%string => None
  | _ => v ← digits_val 0 ds;
         let z := if neg then - v else v in
         if bool_decide (- 2 ^ 63 ≤ z < 2 ^ 63) then Some z else None
  end.

(** ** package time: Duration.String *)

(** [fmtFrac]: the [prec] low decimal digits of [v] as a fraction without
    trailing zeros, and what is left of [v]. *)
Fixpoint fmt_frac (prec : nat) (v : Z) (started : bool) (acc : string) : string * Z :=
  match prec with
  | O => ((if started then "."%string +:+ acc else acc), v)
  | S p =>
      let d := v `mod` 10 in
      let started' := started || negb (d =? 0) in
      fmt_frac p (v / 10) started' (if started' then fmt_int d +:+ acc else acc)
  end.

Definition Nanosecond : Z := 1.
Definition Microsecond : Z := 1000.
Definition Millisecond : Z := 1000000.
Definition Second : Z := 1000000000.
Definition Minute : Z := 60 * Second.
Definition Hour : Z := 60 * Minute.

Definition Duration_String (d : Z) : string :=
  let u := Z.abs d in
  let body :=
    if u =? 0 then "0s"%string
    else if u <? Microsecond then fmt_int u +:+ "ns"
    else if u <? Millisecond then
      let '(f, v) := fmt_frac 3 u false "" in
      fmt_int v +:+ f +:+ String (byte_of 194) (String (byte_of 181) "s")
    else if u <? Second then
      let '(f, v) := fmt_frac 6 u false "" in fmt_int v +:+ f +:+ "ms"
    else
      let '(f, v) := fmt_frac 9 u false "" in
      let m := v / 60 in
      let sec := fmt_int (v `mod` 60) +:+ f +:+ "s" in
      if m =? 0 then sec
      else
        let h := m / 60 in
        let mins := fmt_int (m `mod` 60) +:+ "m" +:+ sec in
        if h =? 0 then mins else fmt_int h +:+ "h" +:+ mins
  in if d <? 0 then "-"%string +:+ body else body.

(** ** Lemmas *)

#[local] Arguments String.append !_ _ / : simpl nomatch.

#[local] Close Scope Z_scope.
#[local] Open Scope nat_scope.

Lemma str_app_nil_r s : s +:+ "" = s.
Proof. induction s; simpl; congruence. Qed.

Lemma str_app_assoc s t u : (s +:+ t) +:+ u = s +:+ (t +:+ u).
Proof. induction s; simpl; congruence. Qed.

Lemma str_app_length s t : String.length (s +:+ t) = String.length s + String.length t.
Proof. induction s; simpl; congruence. Qed.

Lemma str_app_inj_l s t u : s +:+ t = s +:+ u → t = u.
Proof. induction s; simpl; intros; simplify_eq; auto. Qed.

Lemma str_app_inj_len s s' t t' :
  String.length s = String.length s' → s +:+ t = s' +:+ t' → s = s' ∧ t = t'.
Proof.
  revert s'. induction s as [|c s IH]; intros [|c' s'] Hl; simplify_eq/=; [done|].
  intros [= -> H]. by destruct (IH s' Hl H) as [-> ->].
Qed.

Lemma prefix_refl s : String.prefix s s = true.
Proof. induction s; simpl; [done|]. by destruct (ascii_dec a a). Qed.

Lemma prefix_app p s : String.prefix p (p +:+ s) = true.
Proof. induction p; simpl; [by destruct s|]. by destruct (ascii_dec a a). Qed.

Lemma prefix_spec p s : String.prefix p s = true ↔ ∃ t, s = p +:+ t.
Proof.
  split.
  - revert s. induction p as [|c p IH]; simpl; intros s H; [by exists s|].
    destruct s as [|d s]; simpl in H; [congruence|]. destruct (ascii_dec c d) as [->|]; [|congruence].
    destruct (IH s H) as [t ->]. by exists t.
  - intros [t ->]. apply prefix_app.
Qed.

Lemma substring_full s n : String.length s ≤ n → String.substring 0 n s = s.
Proof.
  revert n. induction s as [|c s IH]; intros [|n] Hn; simpl in *; try done; [lia|].
  rewrite IH; [done|lia].
Qed.

Lemma substring_drop p s n :
  String.length s ≤ n → String.substring (String.length p) n (p +:+ s) = s.
Proof. intros Hn. induction p; simpl; [by apply substring_full|done]. Qed.

Lemma TrimPrefix_app p s : TrimPrefix (p +:+ s) p = s.
Proof.
  unfold TrimPrefix, HasPrefix. rewrite prefix_app. apply substring_drop.
  rewrite str_app_length. lia.
Qed.

Lemma Replace1_prefix p s new : Replace1 (p +:+ s) p new = new +:+ s.
Proof.
  destruct (p +:+ s) as [|c u] eqn:E.
  - destruct p; simplify_eq/=. by rewrite str_app_nil_r.
  - unfold Replace1; fold Replace1. rewrite <-E, prefix_app, substring_drop; [done|].
    rewrite str_app_length. lia.
Qed.

Lemma ContainsByte_app s t c :
  ContainsByte (s +:+ t) c = ContainsByte s c || ContainsByte t c.
Proof. induction s as [|d s IH]; simpl; [done|]. by rewrite IH, orb_assoc. Qed.

Lemma Cut_Some s c b a : Cut s c = (b, Some a) → s = b +:+ String c a ∧ ContainsByte b c = false.
Proof.
  revert b. induction s as [|d s IH]; simpl; intros b H; [done|].
  case_decide; simplify_eq; [done|].
  destruct (Cut s c) as [b' [a'|]] eqn:E; simplify_eq.
  destruct (IH b' eq_refl) as [-> Hb]. simpl. rewrite Hb, bool_decide_false; done.
Qed.

Lemma Cut_None s c b : Cut s c = (b, None) → b = s ∧ ContainsByte s c = false.
Proof.
  revert b. induction s as [|d s IH]; simpl; intros b H; simplify_eq; [done|].
  case_decide; [done|].
  destruct (Cut s c) as [b' [a'|]] eqn:E; simplify_eq.
  destruct (IH b' eq_refl) as [-> Hb]. by rewrite Hb, bool_decide_false.
Qed.

Lemma Cut_app b c a : ContainsByte b c = false → Cut (b +:+ String c a) c = (b, Some a).
Proof.
  induction b as [|d b IH]; simpl; intros H.
  - by rewrite decide_True.
  - apply orb_false_iff in H as [H1%bool_decide_eq_false H2].
    by rewrite decide_False, IH.
Qed.

Lemma Split_nonempty s c : Split s c ≠ [].
Proof.
  destruct s as [|d s]; simpl; [done|]. case_decide; [done|]. by destruct (Split s c).
Qed.

Lemma Join_Split s c : Join (Split s c) (String c "") = s.
Proof.
  induction s as [|d s IH]; simpl; [done|].
  pose proof (Split_nonempty s c). case_decide; subst; destruct (Split s c) as [|p ps]; try done.
  - by rewrite <-IH.
  - rewrite <-IH. by destruct ps.
Qed.

Lemma Split_app_last s c t :
  ContainsByte t c = false →
  Split (s +:+ String c t) c = (Split s c ++ [t])%list.
Proof.
  intros Ht. assert (Split t c = [t]) as Hs.
  { clear s. induction t as [|d t IH]; simpl in *; [done|].
    apply orb_false_iff in Ht as [H1%bool_decide_eq_false H2].
    rewrite decide_False, IH by done. done. }
  induction s as [|d s IH]; simpl.
  - by rewrite decide_True, Hs.
  - rewrite IH. case_decide; [done|].
    pose proof (Split_nonempty s c). by destruct (Split s c).
Qed.

Lemma ReplaceAll_app s t c new :
  ReplaceAll (s +:+ t) c new = ReplaceAll s c new +:+ ReplaceAll t c new.
Proof. induction s; simpl; [done|]. by rewrite IHs, str_app_assoc. Qed.

Lemma ReplaceAll_length_1 s c d :
  String.length (ReplaceAll s c (String d "")) = String.length s.
Proof. induction s; simpl; [done|]. case_decide; simpl; by rewrite IHs. Qed.

(** Replacing one byte by another that does not occur is injective. *)
Lemma ReplaceAll_inj s t c d :
  ContainsByte s d = false → ContainsByte t d = false →
  ReplaceAll s c (String d "") = ReplaceAll t c (String d "") → s = t.
Proof.
  revert t. induction s as [|a s IH]; intros [|b t]; simpl; try done.
  - by case_decide.
  - by case_decide.
  - intros [Ha%bool_decide_eq_false Hs]%orb_false_iff [Hb%bool_decide_eq_false Ht]%orb_false_iff.
    do 2 case_decide; simpl; intros; simplify_eq; f_equal; eauto.
Qed.

Lemma Join_cons x l sep : l ≠ [] → Join (x :: l) sep = x +:+ sep +:+ Join l sep.
Proof. by destruct l. Qed.

Lemma Join_snoc l x sep :
  Join (l ++ [x])%list sep = match l with [] => x | _ => Join l sep +:+ sep +:+ x end.
Proof.
  induction l as [|y l IH]; [done|].
  destruct l as [|z l]; [done|].
  change (Join ((y :: z :: l) ++ [x])%list sep) with (y +:+ sep +:+ Join ((z :: l) ++ [x])%list sep).
  rewrite IH. change (Join (y :: z :: l) sep) with (y +:+ sep +:+ Join (z :: l) sep).
  by rewrite !str_app_assoc.
Qed.

Create Rewrite HintDb str.
#[export] Hint Rewrite str_app_nil_r str_app_assoc str_app_length : str.
