(* ===== verification/Flags.v ===== *)
(** * Command lines: the packages pflag and cobra the program is built with

    The vendored sources (src/vendor/github.com/spf13) as far as the commands of the
    program use them: flag sets, their parser, and the choice of the command that is run.
    What the flags were set to is kept by name; a flag that was not set has its default.
    Parsing durations and CSV is left to [Texts]. *)

From S2P Require Import Prelude GoStrings.

#[local] Open Scope Z_scope.

Abbreviation equals := ("="%char) (only parsing).
Abbreviation dash := ("-"%char) (only parsing).

(** ** pflag *)

Inductive flag_value :=
  | VString (s : string)
  | VBool (b : bool)
  | VDuration (d : Z)
  | VStrings (l : list string).

#[export] Instance flag_value_eq_dec : EqDecision flag_value.
Proof. solve_decision. Defined.

Inductive flag_kind := KString | KBool | KDuration | KStringSlice | KStringArray.

Record flag := Flag {
  fl_Name : string;
  fl_Shorthand : option ascii;
  fl_kind : flag_kind;
  fl_DefValue : flag_value;
}.

Definition StringVar (name def : string) : flag := Flag name None KString (VString def).
Definition BoolVar (name : string) (def : bool) : flag := Flag name None KBool (VBool def).
Definition DurationVar (name : string) (def : Z) : flag := Flag name None KDuration (VDuration def).
Definition StringSliceVar (name : string) (def : list string) : flag := Flag name None KStringSlice (VStrings def).
Definition StringArrayVar (name : string) (def : list string) : flag := Flag name None KStringArray (VStrings def).

(** time.ParseDuration, the CSV reader, and [%q] of strings and bytes. *)
Class Texts := {
  ParseDuration : string → res Z;
  readAsCSV : string → res (list string);
  quoted : string → string;
  quoted_byte : ascii → string;
}.

(** [strconv.ParseBool]. *)
Definition ParseBool (s : string) : res bool :=
  if decide (s ∈ ["1"; "t"; "T"; "true"; "TRUE"; "True"]%string) then Ok true
  else if decide (s ∈ ["0"; "f"; "F"; "false"; "FALSE"; "False"]%string) then Ok false
  else Err (ErrLib ("strconv.ParseBool: parsing " +:+ s +:+ ": invalid syntax")).

(** The value of a flag without an argument: empty if it needs one. *)
Definition NoOptDefVal (f : flag) : string := match fl_kind f with KBool => "true" | _ => "" end.

Definition Lookup (formal : list flag) (name : string) : option flag :=
  snd <$> list_find (λ f, fl_Name f = name) formal.
Definition ShorthandLookup (formal : list flag) (c : ascii) : option flag :=
  snd <$> list_find (λ f, fl_Shorthand f = Some c) formal.

(** What the command line set so far ([actual]), and the arguments that are no flags. *)
Record parsed := Parsed { actual : gmap string flag_value; Args : list string }.

Definition ErrHelp : error := ErrLib "pflag: help requested".

(** What a string is to the parser: its first and its second character. *)
Definition is_flag (s : string) : bool :=
  match s with String c (String _ _) => bool_decide (c = dash) | _ => false end.
Definition is_long (s : string) : bool := HasPrefix s "--".
Definition after_dashes (s : string) : string := match s with String _ (String _ n) => n | _ => "" end.

Section pflag.
Context `{Texts}.

(** [flag.Value.Set(val)]; [old] is what the flag was set to before. *)
Definition Value_Set (k : flag_kind) (old : option flag_value) (val : string) : res flag_value :=
  let before := match old with Some (VStrings l) => l | _ => [] end in
  match k with
  | KString => Ok (VString val)
  | KBool => res_bind (ParseBool val) (λ b, Ok (VBool b))
  | KDuration => res_bind (ParseDuration val) (λ d, Ok (VDuration d))
  | KStringSlice => res_bind (if decide (val = ""%string) then Ok [] else readAsCSV val) (λ l, Ok (VStrings (before ++ l)))
  | KStringArray => Ok (VStrings (before ++ [val]))
  end.

Definition flag_text (f : flag) : string :=
  match fl_Shorthand f with
  | Some c => "-" +:+ String c "" +:+ ", --" +:+ fl_Name f
  | None => "--" +:+ fl_Name f
  end.

(** [FlagSet.Set]. *)
Definition Set_ (f : flag) (value : string) (st : parsed) : res parsed :=
  match Value_Set (fl_kind f) (actual st !! fl_Name f) value with
  | Ok v => Ok (Parsed (<[fl_Name f := v]> (actual st)) (Args st))
  | Err err => Err (ErrText ("invalid argument " +:+ quoted value +:+ " for " +:+ quoted (flag_text f) +:+
                             " flag: " +:+ error_String err))
  | Panic p => Panic p
  end.

Variable formal : list flag.

(** The parsers of one argument see the [next] one, and say whether they took it. *)
Definition parseLongArg (s : string) (next : option string) (st : parsed) : res (bool * parsed) :=
  let took b r := res_bind r (λ st', Ok (b, st')) in
  match after_dashes s with
  | "" => Err (ErrText ("bad flag syntax: " +:+ s))
  | String c _ as name =>
      if bool_decide (c = dash) || bool_decide (c = equals) then Err (ErrText ("bad flag syntax: " +:+ s))
      else
        let '(name, value) := Cut name equals in
        match Lookup formal name with
        | None => if decide (name = "help"%string) then Err ErrHelp else Err (ErrText ("unknown flag: --" +:+ name))
        | Some f =>
            match value with
            | Some value => took false (Set_ f value st)
            | None =>
                if decide (NoOptDefVal f ≠ ""%string) then took false (Set_ f (NoOptDefVal f) st)
                else match next with
                     | Some value => took true (Set_ f value st)
                     | None => Err (ErrText ("flag needs an argument: " +:+ s))
                     end
            end
        end
  end.

(** The loop of parseShortArg with the body parseSingleShortArg: [shorthands] are left. *)
Fixpoint parseShortArg (shorthands : string) (next : option string) (st : parsed) : res (bool * parsed) :=
  match shorthands with
  | "" => Ok (false, st)
  | String c outShorts =>
      if HasPrefix shorthands "test." then Ok (false, st)
      else
        match ShorthandLookup formal c with
        | None =>
            if bool_decide (c = "h"%char) then Err ErrHelp
            else Err (ErrText ("unknown shorthand flag: " +:+ quoted_byte c +:+ " in -" +:+ shorthands))
        | Some f =>
            let rest_value := match outShorts with
                              | String e (String _ _ as v) => if bool_decide (e = equals) then Some v else None
                              | _ => None
                              end in
            match rest_value with
            | Some value => res_bind (Set_ f value st) (λ st', Ok (false, st'))
            | None =>
                if decide (NoOptDefVal f ≠ ""%string) then
                  res_bind (Set_ f (NoOptDefVal f) st) (λ st', parseShortArg outShorts next st')
                else if decide (outShorts ≠ ""%string) then res_bind (Set_ f outShorts st) (λ st', Ok (false, st'))
                else match next with
                     | Some value => res_bind (Set_ f value st) (λ st', Ok (true, st'))
                     | None => Err (ErrText ("flag needs an argument: " +:+ quoted_byte c +:+ " in -" +:+ shorthands))
                     end
            end
        end
  end.

Definition parseArg (s : string) (next : option string) (st : parsed) : res (bool * parsed) :=
  if is_long s then parseLongArg s next st
  else parseShortArg (match s with String _ n => n | _ => "" end) next st.

(** Flags and other arguments may be mixed; "--" ends the flags. *)
Fixpoint parseArgs (args : list string) (st : parsed) : res parsed :=
  match args with
  | [] => Ok st
  | s :: rest =>
      if negb (is_flag s) then parseArgs rest (Parsed (actual st) (Args st ++ [s]))
      else if decide (s = "--"%string) then Ok (Parsed (actual st) (Args st ++ rest))
      else
        match parseArg s (head rest) st with
        | Ok (false, st') => parseArgs rest st'
        | Ok (true, st') => match rest with _ :: rest' => parseArgs rest' st' | [] => Ok st' end
        | Err err => Err err
        | Panic p => Panic p
        end
  end.
End pflag.

(** ** cobra *)

Record Command := { cmd_Name : string; cmd_Flags : list flag }.

(** A flag whose argument would be the next one, as far as the flags are known. *)
Definition takes_next (flags : list flag) (s : string) : bool :=
  let no_opt o := match o with Some f => bool_decide (NoOptDefVal f ≠ ""%string) | None => false end in
  negb (ContainsByte s equals) &&
  ((is_long s && negb (no_opt (Lookup flags (after_dashes s)))) ||
   match s with
   | String d (String c "") => bool_decide (d = dash) && negb (no_opt (ShorthandLookup flags c))
   | _ => false
   end).

Fixpoint stripFlags (flags : list flag) (args : list string) : list string :=
  match args with
  | [] => []
  | s :: rest =>
      if decide (s = "--"%string) then []
      else if takes_next flags s then
        match rest with
        | [] | [_] => []
        | _ :: rest' => stripFlags flags rest'
        end
      else if bool_decide (s = ""%string) || HasPrefix s "-" then stripFlags flags rest
      else s :: stripFlags flags rest
  end.

Fixpoint argsMinusFirstX (args : list string) (x : string) : list string :=
  match args with
  | [] => []
  | y :: args' => if decide (x = y) then args' else y :: argsMinusFirstX args' x
  end.

(** The command, or none if it is the root, and its arguments.  No subcommand has
    subcommands of its own, and the root has no flags when it is looked for.  (The text of
    the error goes on with suggestions.) *)
Definition Find (commands : list Command) (args : list string) : res (option Command * list string) :=
  match stripFlags [] args with
  | [] => Ok (None, args)
  | x :: _ =>
      match list_find (λ c, cmd_Name c = x) commands with
      | Some (_, c) => Ok (Some c, argsMinusFirstX args x)
      | None => Err (ErrText ("unknown command " +:+ x))
      end
  end.

Section cobra.
Context `{Texts}.

Definition help_flag : flag := Flag "help" (Some "h"%char) KBool (VBool false).
Definition with_help (flags : list flag) : list flag := flags ++ [help_flag].

(** [Command.execute] up to the command's function: what its flags are set to. *)
Definition execute (flags : list flag) (a : list string) : res parsed :=
  res_bind (parseArgs (with_help flags) a (Parsed ∅ [])) (λ st,
    if decide (actual st !! "help"%string = Some (VBool true)) then Err ErrHelp else Ok st).

(** [Command.ExecuteC]: the command that is run with its flags, or none where help is
    shown; the root cannot be run. *)
Definition Execute (commands : list Command) (args : list string) : res (option (Command * parsed)) :=
  res_bind (Find commands args) (λ '(cmd, a),
    match cmd, execute (match cmd with Some c => cmd_Flags c | None => [] end) a with
    | Some c, Ok st => Ok (Some (c, st))
    | None, Ok _ => Ok None
    | _, Err err => if decide (err = ErrHelp) then Ok None else Err err
    | _, Panic p => Panic p
    end).
End cobra.

(** ** What a command reads *)

Definition flag_of (flags : list flag) (st : parsed) (name : string) : option flag_value :=
  match actual st !! name with Some v => Some v | None => fl_DefValue <$> Lookup flags name end.

Definition string_flag flags st name : string := match flag_of flags st name with Some (VString s) => s | _ => "" end.
Definition bool_flag flags st name : bool := match flag_of flags st name with Some (VBool b) => b | _ => false end.
Definition duration_flag flags st name : Z := match flag_of flags st name with Some (VDuration d) => d | _ => 0 end.
Definition strings_flag flags st name : list string := match flag_of flags st name with Some (VStrings l) => l | _ => [] end.
