(* ===== verification/Utf8.v ===== *)
(** * UTF-8: encoding and decoding runes

    Lemmas on the conversions [string(runes)] and [[]rune(s)] of [GoStrings]: an
    encoded rune decodes to itself, decoding only gives valid runes, and an ASCII
    byte never belongs to the sequence of another rune. *)

From S2P Require Import Prelude GoStrings.

#[local] Open Scope Z_scope.

(** A Unicode scalar value. *)
Definition valid_rune (r : Z) : Prop := 0 ≤ r < 55296 ∨ 57344 ≤ r < 1114112.

(** ** Bit fields *)

Lemma lor_disjoint a b k : 0 ≤ k → 0 ≤ b < 2 ^ k → Z.lor (Z.shiftl a k) b = a * 2 ^ k + b.
Proof.
  intros Hk Hb. rewrite <-Z.shiftl_mul_pow2 by done.
  rewrite <-Z.add_lor_land. replace (Z.land (Z.shiftl a k) b) with 0; [lia|].
  symmetry. apply Z.bits_inj'. intros i Hi. rewrite Z.land_spec, Z.shiftl_spec, Z.bits_0 by done.
  destruct (Z.lt_ge_cases i k).
  - by rewrite (Z.testbit_neg_r a) by lia.
  - rewrite andb_comm. rewrite <-(Z.mod_small b (2 ^ k)) by done.
    by rewrite Z.mod_pow2_bits_high by lia.
Qed.

Lemma lor_lead lead b k : 0 ≤ k → 0 ≤ b < 2 ^ k → lead `mod` 2 ^ k = 0 → Z.lor lead b = lead + b.
Proof.
  intros Hk Hb Hl. pose proof (Z.div_mod lead (2 ^ k) ltac:(apply Z.pow_nonzero; lia)) as Hd.
  rewrite Hl, Z.add_0_r, Z.mul_comm in Hd. rewrite Hd at 1.
  rewrite <-Z.shiftl_mul_pow2 by done. rewrite lor_disjoint by done. lia.
Qed.

Lemma land_ones' z k m : 0 ≤ k → m = Z.ones k → Z.land z m = z `mod` 2 ^ k.
Proof. intros Hk ->. by apply Z.land_ones. Qed.

Lemma byte_val_of z : 0 ≤ z < 256 → byte_val (byte_of z) = z.
Proof.
  intros Hz. unfold byte_val, byte_of. rewrite N_ascii_embedding by lia. lia.
Qed.

Lemma byte_val_range a : 0 ≤ byte_val a < 256.
Proof. unfold byte_val. pose proof (N_ascii_bounded a). lia. Qed.

Lemma byte_of_val a : byte_of (byte_val a) = a.
Proof. unfold byte_of, byte_val. by rewrite N2Z.id, ascii_N_embedding. Qed.

(** The bit operations of the encoder and the decoder as arithmetic. *)
Lemma enc_lead k lead x : 0 ≤ k → 0 ≤ x < 2 ^ k → lead `mod` 2 ^ k = 0 → lead + x < 256 → 0 ≤ lead →
  byte_val (byte_of (Z.lor lead x)) = lead + x.
Proof. intros. rewrite (lor_lead _ _ k) by done. apply byte_val_of. lia. Qed.

Lemma enc_cont z : byte_val (byte_of (Z.lor 128 (Z.land z 63))) = 128 + z `mod` 64.
Proof.
  rewrite (land_ones' z 6) by done. pose proof (Z.mod_pos_bound z 64 ltac:(lia)).
  apply (enc_lead 6); change (2 ^ 6) with 64; done || lia.
Qed.

Lemma cont_bits_val a : cont_bits a = byte_val a `mod` 64.
Proof. unfold cont_bits. by rewrite (land_ones' _ 6). Qed.

(** ** Encoding, then decoding *)

Ltac boolz :=
  repeat match goal with
  | |- context [?a <? ?b] => destruct (Z.ltb_spec a b); try lia; cbn [andb]
  | |- context [?a <=? ?b] => destruct (Z.leb_spec a b); try lia; cbn [andb]
  | |- context [?a =? ?b] => destruct (Z.eqb_spec a b); try lia; cbn [andb]
  end.

Lemma in_range_val lo hi a v : byte_val a = v → lo ≤ v ≤ hi → in_range lo hi a = true.
Proof. unfold in_range. intros -> ?. by boolz. Qed.

Lemma mod_lead k lead x : 0 < k → lead `mod` k = 0 → 0 ≤ x < k → (lead + x) `mod` k = x.
Proof. intros. rewrite <-Z.add_mod_idemp_l by lia. rewrite Z.mod_small by lia. lia. Qed.

Lemma cont_bits_enc z : cont_bits (byte_of (Z.lor 128 (Z.land z 63))) = z `mod` 64.
Proof.
  rewrite cont_bits_val, enc_cont. apply mod_lead; try done. by apply Z.mod_pos_bound.
Qed.

Lemma div_range r k lo hi : 0 < k → lo * k ≤ r < hi * k → lo ≤ r / k < hi.
Proof. intros. split; [apply Z.div_le_lower_bound|apply Z.div_lt_upper_bound]; lia. Qed.

Lemma lor_cont a b : 0 ≤ b < 64 → Z.lor (Z.shiftl a 6) b = a * 64 + b.
Proof. intros. by rewrite lor_disjoint. Qed.

Lemma lor_cont_12 a b : 0 ≤ b < 4096 → Z.lor (Z.shiftl a 12) b = a * 4096 + b.
Proof. intros. by rewrite lor_disjoint. Qed.

Lemma lor_cont_18 a b : 0 ≤ b < 262144 → Z.lor (Z.shiftl a 18) b = a * 262144 + b.
Proof. intros. by rewrite lor_disjoint. Qed.

Lemma decode_step_1 a l : byte_val a < 128 → decode_runes (a :: l) = (byte_val a, [a]) :: decode_runes l.
Proof.
  intros Ha. simpl. assert (utf8_first (byte_val a) = (1%nat, 0, 0)) as ->; [|done].
  unfold utf8_first. pose proof (byte_val_range a). by boolz.
Qed.

Lemma decode_step_2 a b l lo hi :
  utf8_first (byte_val a) = (2%nat, lo, hi) → in_range lo hi b = true →
  decode_runes (a :: b :: l) =
  (Z.lor (Z.shiftl (Z.land (byte_val a) 31) 6) (cont_bits b), [a; b]) :: decode_runes l.
Proof. intros H1 H2. simpl. by rewrite H1, H2. Qed.

Lemma decode_step_3 a b c l lo hi :
  utf8_first (byte_val a) = (3%nat, lo, hi) → in_range lo hi b = true → in_range 128 191 c = true →
  decode_runes (a :: b :: c :: l) =
  (Z.lor (Z.shiftl (Z.land (byte_val a) 15) 12)
     (Z.lor (Z.shiftl (cont_bits b) 6) (cont_bits c)), [a; b; c]) :: decode_runes l.
Proof. intros H1 H2 H3. simpl. by rewrite H1, H2, H3. Qed.

Lemma decode_step_4 a b c d l lo hi :
  utf8_first (byte_val a) = (4%nat, lo, hi) → in_range lo hi b = true →
  in_range 128 191 c = true → in_range 128 191 d = true →
  decode_runes (a :: b :: c :: d :: l) =
  (Z.lor (Z.shiftl (Z.land (byte_val a) 7) 18)
     (Z.lor (Z.shiftl (cont_bits b) 12)
       (Z.lor (Z.shiftl (cont_bits c) 6) (cont_bits d))), [a; b; c; d]) :: decode_runes l.
Proof. intros H1 H2 H3 H4. simpl. by rewrite H1, H2, H3, H4. Qed.

Lemma decode_encode_1 r rest : 0 ≤ r < 128 →
  decode_runes (encode_rune r ++ rest) = (r, encode_rune r) :: decode_runes rest.
Proof.
  intros Hr. unfold encode_rune. boolz. cbn [app].
  rewrite decode_step_1; rewrite byte_val_of by lia; [done|lia].
Qed.

Lemma decode_encode_2 r rest : 128 ≤ r < 2048 →
  decode_runes (encode_rune r ++ rest) = (r, encode_rune r) :: decode_runes rest.
Proof.
  intros Hr. unfold encode_rune. boolz. cbn [app].
  rewrite Z.shiftr_div_pow2 by lia. change (2 ^ 6) with 64.
  pose proof (div_range r 64 2 32 ltac:(lia) ltac:(lia)) as Hq.
  pose proof (Z.mod_pos_bound r 64 ltac:(lia)) as Hm.
  assert (byte_val (byte_of (Z.lor 192 (r / 64))) = 192 + r / 64) as Hlead
    by (apply (enc_lead 5); change (2 ^ 5) with 32; done || lia).
  rewrite (decode_step_2 _ _ _ 128 191).
  - rewrite cont_bits_enc, Hlead, (land_ones' _ 5 31) by done. change (2 ^ 5) with 32.
    rewrite mod_lead by (done || lia). rewrite lor_cont by lia. do 2 f_equal.
    pose proof (Z.div_mod r 64). lia.
  - rewrite Hlead. unfold utf8_first. by boolz.
  - apply (in_range_val _ _ _ _ (enc_cont r)). lia.
Qed.

Lemma decode_encode_3 r rest : 2048 ≤ r < 65536 → valid_rune r →
  decode_runes (encode_rune r ++ rest) = (r, encode_rune r) :: decode_runes rest.
Proof.
  intros Hr Hv. unfold encode_rune. boolz. cbn [app].
  rewrite !Z.shiftr_div_pow2 by lia. change (2 ^ 6) with 64. change (2 ^ 12) with 4096.
  pose proof (div_range r 4096 0 16 ltac:(lia) ltac:(lia)) as Hq.
  pose proof (Z.mod_pos_bound r 64 ltac:(lia)) as Hm.
  pose proof (Z.mod_pos_bound (r / 64) 64 ltac:(lia)) as Hm2.
  assert (r = (r / 4096) * 4096 + ((r / 64) `mod` 64) * 64 + r `mod` 64) as Hsplit.
  { pose proof (Z.div_mod r 64 ltac:(lia)). pose proof (Z.div_mod (r / 64) 64 ltac:(lia)) as Hd.
    rewrite Z.div_div in Hd by lia. change (64 * 64) with 4096 in Hd. lia. }
  assert (byte_val (byte_of (Z.lor 224 (r / 4096))) = 224 + r / 4096) as Hlead
    by (apply (enc_lead 4); change (2 ^ 4) with 16; done || lia).
  assert (∃ lo hi, utf8_first (224 + r / 4096) = (3%nat, lo, hi) ∧
            lo ≤ 128 + (r / 64) `mod` 64 ≤ hi) as (lo & hi & Hf & Hlo).
  { unfold utf8_first. destruct Hv; boolz; do 2 eexists; (split; [reflexivity|lia]). }
  rewrite (decode_step_3 _ _ _ _ lo hi).
  - rewrite !cont_bits_enc, Hlead, (land_ones' _ 4 15) by done. change (2 ^ 4) with 16.
    rewrite mod_lead by (done || lia). rewrite lor_cont by lia. rewrite lor_cont_12 by lia.
    do 2 f_equal. lia.
  - by rewrite Hlead.
  - by apply (in_range_val _ _ _ _ (enc_cont (r / 64))).
  - apply (in_range_val _ _ _ _ (enc_cont r)). lia.
Qed.

Lemma decode_encode_4 r rest : 65536 ≤ r < 1114112 →
  decode_runes (encode_rune r ++ rest) = (r, encode_rune r) :: decode_runes rest.
Proof.
  intros Hr. unfold encode_rune. boolz. cbn [app].
  rewrite !Z.shiftr_div_pow2 by lia. change (2 ^ 6) with 64. change (2 ^ 12) with 4096.
  change (2 ^ 18) with 262144.
  pose proof (div_range r 262144 0 5 ltac:(lia) ltac:(lia)) as Hq.
  pose proof (Z.mod_pos_bound r 64 ltac:(lia)) as Hm.
  pose proof (Z.mod_pos_bound (r / 64) 64 ltac:(lia)) as Hm2.
  pose proof (Z.mod_pos_bound (r / 4096) 64 ltac:(lia)) as Hm3.
  assert (r = (r / 262144) * 262144 + ((r / 4096) `mod` 64) * 4096 +
              ((r / 64) `mod` 64) * 64 + r `mod` 64) as Hsplit.
  { pose proof (Z.div_mod r 64 ltac:(lia)). pose proof (Z.div_mod (r / 64) 64 ltac:(lia)) as Hd.
    rewrite Z.div_div in Hd by lia. change (64 * 64) with 4096 in Hd.
    pose proof (Z.div_mod (r / 4096) 64 ltac:(lia)) as Hd2.
    rewrite Z.div_div in Hd2 by lia. change (4096 * 64) with 262144 in Hd2. lia. }
  assert (byte_val (byte_of (Z.lor 240 (r / 262144))) = 240 + r / 262144) as Hlead
    by (apply (enc_lead 3); change (2 ^ 3) with 8; done || lia).
  assert (∃ lo hi, utf8_first (240 + r / 262144) = (4%nat, lo, hi) ∧
            lo ≤ 128 + (r / 4096) `mod` 64 ≤ hi) as (lo & hi & Hf & Hlo).
  { unfold utf8_first. boolz; do 2 eexists; (split; [reflexivity|lia]). }
  rewrite (decode_step_4 _ _ _ _ _ lo hi).
  - rewrite !cont_bits_enc, Hlead, (land_ones' _ 3 7) by done. change (2 ^ 3) with 8.
    rewrite mod_lead by (done || lia). rewrite lor_cont by lia. rewrite lor_cont_12 by lia.
    rewrite lor_cont_18 by lia. do 2 f_equal. lia.
  - by rewrite Hlead.
  - by apply (in_range_val _ _ _ _ (enc_cont (r / 4096))).
  - apply (in_range_val _ _ _ _ (enc_cont (r / 64))). lia.
  - apply (in_range_val _ _ _ _ (enc_cont r)). lia.
Qed.

Lemma decode_encode r rest : valid_rune r →
  decode_runes (encode_rune r ++ rest) = (r, encode_rune r) :: decode_runes rest.
Proof.
  intros Hv. assert (0 ≤ r < 1114112) as Hr by (destruct Hv; lia).
  destruct (Z.lt_ge_cases r 128); [apply decode_encode_1; lia|].
  destruct (Z.lt_ge_cases r 2048); [apply decode_encode_2; lia|].
  destruct (Z.lt_ge_cases r 65536); [apply decode_encode_3; [lia|done]|].
  apply decode_encode_4; lia.
Qed.

(** ** Decoding *)

(** Every rune the decoder gives is valid: the second byte excludes overlong
    sequences, surrogates and runes beyond U+10FFFF. *)
Lemma RuneError_valid : valid_rune RuneError.
Proof. unfold valid_rune, RuneError. lia. Qed.

Lemma cont_range a : in_range 128 191 a = true → cont_bits a = byte_val a - 128 ∧ 128 ≤ byte_val a ≤ 191.
Proof.
  unfold in_range. intros [?%Z.leb_le ?%Z.leb_le]%andb_true_iff. split; [|lia].
  rewrite cont_bits_val. replace (byte_val a) with (128 + (byte_val a - 128)) at 1 by lia.
  by apply mod_lead; [..|lia].
Qed.

Lemma in_range_weaken lo hi a : 128 ≤ lo → hi ≤ 191 → in_range lo hi a = true →
  in_range 128 191 a = true ∧ lo ≤ byte_val a ≤ hi.
Proof.
  unfold in_range. intros ? ? [?%Z.leb_le ?%Z.leb_le]%andb_true_iff. split; [|lia].
  apply andb_true_iff. split; apply Z.leb_le; lia.
Qed.

Ltac bool_hyps :=
  repeat match goal with
  | H : context [?a <? ?b] |- _ => destruct (Z.ltb_spec a b); try lia
  | H : context [?a <=? ?b] |- _ => destruct (Z.leb_spec a b); try lia
  | H : context [?a =? ?b] |- _ => destruct (Z.eqb_spec a b); try lia
  end.

Lemma utf8_first_inv b0 n lo hi : 0 ≤ b0 < 256 → utf8_first b0 = (n, lo, hi) →
  (n = 1%nat ∧ b0 < 128) ∨ n = 0%nat ∨
  (128 ≤ lo ∧ hi ≤ 191 ∧
   ((n = 2%nat ∧ 194 ≤ b0 < 224) ∨
    (n = 3%nat ∧ 224 ≤ b0 < 240 ∧ (b0 = 224 → 160 ≤ lo) ∧ (b0 = 237 → hi ≤ 159)) ∨
    (n = 4%nat ∧ 240 ≤ b0 < 245 ∧ (b0 = 240 → 144 ≤ lo) ∧ (b0 = 244 → hi ≤ 143)))).
Proof. intros Hb. unfold utf8_first. intros Hf. bool_hyps; injection Hf as <- <- <-; lia. Qed.

Lemma rune_2_valid a b lo hi :
  utf8_first (byte_val a) = (2%nat, lo, hi) → in_range lo hi b = true →
  valid_rune (Z.lor (Z.shiftl (Z.land (byte_val a) 31) 6) (cont_bits b)).
Proof.
  intros Hf Hb. pose proof (utf8_first_inv _ _ _ _ (byte_val_range a) Hf) as Hi.
  destruct (in_range_weaken lo hi b) as [[Hc Hb']%cont_range Hr]; [lia|lia|done|].
  rewrite (land_ones' _ 5), lor_cont by (done || lia). change (2 ^ 5) with 32.
  replace (byte_val a) with (192 + (byte_val a - 192)) by lia.
  rewrite mod_lead by (done || lia). unfold valid_rune. lia.
Qed.

Lemma rune_3_valid a b c lo hi :
  utf8_first (byte_val a) = (3%nat, lo, hi) → in_range lo hi b = true → in_range 128 191 c = true →
  valid_rune (Z.lor (Z.shiftl (Z.land (byte_val a) 15) 12)
                (Z.lor (Z.shiftl (cont_bits b) 6) (cont_bits c))).
Proof.
  intros Hf Hb [Hc Hc']%cont_range. pose proof (utf8_first_inv _ _ _ _ (byte_val_range a) Hf) as Hi.
  destruct (in_range_weaken lo hi b) as [[Hb' ?]%cont_range Hr]; [lia|lia|done|].
  rewrite (land_ones' _ 4), lor_cont, lor_cont_12 by (done || lia). change (2 ^ 4) with 16.
  replace (byte_val a) with (224 + (byte_val a - 224)) by lia.
  rewrite mod_lead by (done || lia). unfold valid_rune. lia.
Qed.

Lemma rune_4_valid a b c d lo hi :
  utf8_first (byte_val a) = (4%nat, lo, hi) → in_range lo hi b = true →
  in_range 128 191 c = true → in_range 128 191 d = true →
  valid_rune (Z.lor (Z.shiftl (Z.land (byte_val a) 7) 18)
                (Z.lor (Z.shiftl (cont_bits b) 12)
                  (Z.lor (Z.shiftl (cont_bits c) 6) (cont_bits d)))).
Proof.
  intros Hf Hb [Hc Hc']%cont_range [Hd Hd']%cont_range.
  pose proof (utf8_first_inv _ _ _ _ (byte_val_range a) Hf) as Hi.
  destruct (in_range_weaken lo hi b) as [[Hb' ?]%cont_range Hr]; [lia|lia|done|].
  rewrite (land_ones' _ 3), lor_cont, lor_cont_12, lor_cont_18 by (done || lia).
  change (2 ^ 3) with 8. replace (byte_val a) with (240 + (byte_val a - 240)) by lia.
  rewrite mod_lead by (done || lia). unfold valid_rune. lia.
Qed.

(** One step of the decoder: a sequence [bs] is read and the rest decoded alone. *)
Inductive decodes_first : list ascii → Z → list ascii → list ascii → Prop :=
  | first_bad a l : decodes_first (a :: l) RuneError [a] l
  | first_seq r bs l : valid_rune r → (∀ x, bs = [x] → byte_val x = r ∧ r < 128) →
      (∀ x y bs', bs = x :: y :: bs' → Forall (λ z, 128 ≤ byte_val z) bs) → bs ≠ [] →
      decodes_first (bs ++ l) r bs l.

Lemma decode_first a l : ∃ r bs l',
  decode_runes (a :: l) = (r, bs) :: decode_runes l' ∧ decodes_first (a :: l) r bs l'.
Proof.
  destruct (utf8_first (byte_val a)) as [[n lo] hi] eqn:Hf.
  pose proof (utf8_first_inv _ _ _ _ (byte_val_range a) Hf) as Hi.
  pose proof (byte_val_range a) as Ha.
  assert (∃ r bs l', (RuneError, [a]) :: decode_runes l = (r, bs) :: decode_runes l' ∧
            decodes_first (a :: l) r bs l') as Hbad by (do 3 eexists; split; [done|constructor]).
  destruct Hi as [[-> Hlt]|[->|(Hlo & Hhi & Hn)]].
  { rewrite decode_step_1 by done. exists (byte_val a), [a], l. split; [done|].
    apply (first_seq _ [a]); [unfold valid_rune; lia|by intros ? [= ->]|by intros|done]. }
  { simpl. rewrite Hf. done. }
  destruct Hn as [[-> Hr]|[(-> & Hr & _ & _)|(-> & Hr & _ & _)]]; simpl; rewrite Hf; try done.
  - destruct l as [|b l]; [done|]. destruct (in_range lo hi b) eqn:Hb; [|done].
    do 3 eexists. split; [reflexivity|]. apply (first_seq _ [a; b]); try by intros.
    + by eapply rune_2_valid.
    + apply in_range_weaken in Hb as [Hb _]; [|done..]. apply cont_range in Hb.
      intros. repeat constructor; lia.
  - destruct l as [|b [|c l]]; [done|done|]. destruct (in_range lo hi b) eqn:Hb; [|done].
    destruct (in_range 128 191 c) eqn:Hc; [|done]. simpl.
    do 3 eexists. split; [reflexivity|]. apply (first_seq _ [a; b; c]); try by intros.
    + by eapply rune_3_valid.
    + apply in_range_weaken in Hb as [Hb _]; [|done..]. apply cont_range in Hb.
      apply cont_range in Hc. intros. repeat constructor; lia.
  - destruct l as [|b [|c [|d l]]]; [done..|]. destruct (in_range lo hi b) eqn:Hb; [|done].
    destruct (in_range 128 191 c) eqn:Hc; [|done]. destruct (in_range 128 191 d) eqn:Hd; [|done].
    simpl. do 3 eexists. split; [reflexivity|]. apply (first_seq _ [a; b; c; d]); try by intros.
    + by eapply rune_4_valid.
    + apply in_range_weaken in Hb as [Hb _]; [|done..]. apply cont_range in Hb.
      apply cont_range in Hc. apply cont_range in Hd. intros. repeat constructor; lia.
Qed.

Lemma decode_valid l : Forall (λ p, valid_rune p.1) (decode_runes l).
Proof.
  induction l as [l IH] using (induction_ltof1 _ (@length ascii)). destruct l as [|a l]; [constructor|].
  destruct (decode_first a l) as (r & bs & l' & -> & Hd). 
  assert (valid_rune r ∧ (length l' < S (length l))%nat) as [Hr Hl].
  { inversion Hd as [|? ? ? Hv ? ? Hne Heq]; subst; [split; [apply RuneError_valid|lia]|].
    split; [done|]. change (S (length l)) with (length (a :: l)). rewrite <-Heq, length_app.
    destruct bs; [done|simpl; lia]. }
  constructor; [done|]. by apply IH.
Qed.

Lemma runes_of_string_valid s : Forall valid_rune (runes_of_string s).
Proof. unfold runes_of_string. apply Forall_fmap. apply decode_valid. Qed.

Lemma decode_encodes l rest : Forall valid_rune l →
  (decode_runes ((l ≫= encode_rune) ++ rest)).*1 = l ++ (decode_runes rest).*1.
Proof.
  induction 1 as [|r l Hr _ IH]; [done|]. cbn [mbind list_bind]. rewrite <-app_assoc.
  rewrite decode_encode by done. by rewrite fmap_cons, IH.
Qed.

Lemma runes_string_of_runes l : Forall valid_rune l → runes_of_string (string_of_runes l) = l.
Proof.
  intros Hl. unfold runes_of_string, string_of_runes.
  rewrite String.list_ascii_of_string_of_list_ascii.
  rewrite <-(app_nil_r (l ≫= encode_rune)), decode_encodes by done. by rewrite app_nil_r.
Qed.

Lemma string_of_runes_inj l l' : Forall valid_rune l → Forall valid_rune l' →
  string_of_runes l = string_of_runes l' → l = l'.
Proof. intros ? ? H%(f_equal runes_of_string). by rewrite !runes_string_of_runes in H. Qed.

(** ** Concatenation *)

Definition ascii_byte (a : ascii) : Prop := byte_val a < 128.
Definition ascii_string (s : string) : Prop := Forall ascii_byte (String.list_ascii_of_string s).

Lemma in_range_ascii lo hi a : 128 ≤ lo → ascii_byte a → in_range lo hi a = false.
Proof. unfold in_range, ascii_byte. intros. by boolz. Qed.

(** The rune at the head of [a :: l], and how many bytes of [l] belong to it. *)
Definition rune_at (a : ascii) (l : list ascii) : Z * nat :=
  let b0 := byte_val a in
  let '(n, lo, hi) := utf8_first b0 in
  match n, l with
  | 1%nat, _ => (b0, 0%nat)
  | 2%nat, b :: _ =>
      if in_range lo hi b then (Z.lor (Z.shiftl (Z.land b0 31) 6) (cont_bits b), 1%nat)
      else (RuneError, 0%nat)
  | 3%nat, b :: c :: _ =>
      if in_range lo hi b && in_range 128 191 c
      then (Z.lor (Z.shiftl (Z.land b0 15) 12)
              (Z.lor (Z.shiftl (cont_bits b) 6) (cont_bits c)), 2%nat)
      else (RuneError, 0%nat)
  | 4%nat, b :: c :: d :: _ =>
      if in_range lo hi b && in_range 128 191 c && in_range 128 191 d
      then (Z.lor (Z.shiftl (Z.land b0 7) 18)
             (Z.lor (Z.shiftl (cont_bits b) 12)
               (Z.lor (Z.shiftl (cont_bits c) 6) (cont_bits d))), 3%nat)
      else (RuneError, 0%nat)
  | _, _ => (RuneError, 0%nat)
  end.

Lemma decode_cons a l :
  decode_runes (a :: l) = ((rune_at a l).1, a :: take (rune_at a l).2 l)
                          :: decode_runes (drop (rune_at a l).2 l).
Proof.
  simpl. unfold rune_at. destruct (utf8_first (byte_val a)) as [[n lo] hi].
  destruct n as [|[|[|[|[|n]]]]]; try done;
    destruct l as [|b [|c [|d l]]]; try done; by repeat case_match.
Qed.

Lemma rune_at_length a l : ((rune_at a l).2 ≤ length l)%nat.
Proof.
  unfold rune_at. destruct (utf8_first (byte_val a)) as [[n lo] hi].
  destruct n as [|[|[|[|[|n]]]]]; destruct l as [|b [|c [|d l]]]; repeat case_match; simpl; lia.
Qed.

(** A sequence that is cut off is cut off by an ASCII byte too. *)
Lemma rune_at_app a l1 l2 : Forall ascii_byte (take 1 l2) → rune_at a (l1 ++ l2) = rune_at a l1.
Proof.
  intros H2. destruct l2 as [|x l2]; [by rewrite app_nil_r|]. unfold rune_at.
  destruct (utf8_first (byte_val a)) as [[n lo] hi] eqn:Hf.
  assert (∀ lo' hi', 128 ≤ lo' → in_range lo' hi' x = false) as Hx.
  { intros. apply in_range_ascii; [done|]. by inversion H2. }
  destruct (utf8_first_inv _ _ _ _ (byte_val_range a) Hf) as [[-> _]|[->|(Hlo & _ & Hn)]]; try done.
  pose proof (Hx lo hi Hlo) as Hx1. pose proof (Hx 128 191 ltac:(lia)) as Hx2.
  destruct Hn as [[-> _]|[[-> _]|[-> _]]]; destruct l1 as [|b [|c [|d l1]]]; simpl; try done;
    destruct l2 as [|y [|z l2]]; try done; by rewrite ?Hx1, ?Hx2, ?andb_false_r.
Qed.

Lemma decode_app l1 l2 : Forall ascii_byte (take 1 l2) →
  decode_runes (l1 ++ l2) = decode_runes l1 ++ decode_runes l2.
Proof.
  intros H2. induction l1 as [l1 IH] using (induction_ltof1 _ (@length ascii)).
  destruct l1 as [|a l1]; [done|]. unfold ltof in IH. cbn [app].
  rewrite !decode_cons, rune_at_app by done. pose proof (rune_at_length a l1).
  rewrite drop_app_le, take_app_le by done. rewrite IH; [done|]. rewrite length_drop. simpl. lia.
Qed.

Lemma list_ascii_app s t :
  String.list_ascii_of_string (s +:+ t) =
  String.list_ascii_of_string s ++ String.list_ascii_of_string t.
Proof. induction s as [|a s IH]; simpl; [done|]. by rewrite <-IH. Qed.

Lemma ascii_string_app s t : ascii_string (s +:+ t) ↔ ascii_string s ∧ ascii_string t.
Proof. unfold ascii_string. by rewrite list_ascii_app, Forall_app. Qed.

Lemma runes_app s t : ascii_string t → runes_of_string (s +:+ t) = runes_of_string s ++ runes_of_string t.
Proof.
  intros Ht. unfold runes_of_string. rewrite list_ascii_app, decode_app, fmap_app; [done|].
  apply Forall_take, Ht.
Qed.

Lemma runes_ascii s : ascii_string s → runes_of_string s = byte_val <$> String.list_ascii_of_string s.
Proof.
  unfold ascii_string, runes_of_string. induction 1 as [|a l Ha _ IH]; [done|].
  rewrite decode_step_1 by done. by rewrite fmap_cons, IH.
Qed.

Lemma runes_ascii_app s t : ascii_string s → runes_of_string (s +:+ t) = runes_of_string s ++ runes_of_string t.
Proof.
  unfold ascii_string, runes_of_string. rewrite list_ascii_app.
  induction 1 as [|a l Ha _ IH]; [done|]. cbn [app]. rewrite !decode_step_1 by done.
  by rewrite !fmap_cons, IH.
Qed.

Lemma byte_val_inj a b : byte_val a = byte_val b → a = b.
Proof. intros H. by rewrite <-(byte_of_val a), <-(byte_of_val b), H. Qed.

Lemma length_runes_ascii s : ascii_string s → length (runes_of_string s) = String.length s.
Proof.
  intros Hs. rewrite runes_ascii, length_fmap by done. clear. induction s; simpl; congruence.
Qed.

Lemma ascii_runes_inj s t : ascii_string s → ascii_string t →
  runes_of_string s = runes_of_string t → s = t.
Proof.
  intros Hs Ht. rewrite !runes_ascii by done. intros H%list_fmap_eq_inj; [|exact byte_val_inj].
  rewrite <-(String.string_of_list_ascii_of_string s), H.
  apply String.string_of_list_ascii_of_string.
Qed.
