(* ===== verification/GoPath.v ===== *)
(** * Go's package path/filepath on Unix

    [Clean] and [Join], on the components of a path. *)

From S2P Require Import Prelude GoStrings.

#[local] Open Scope string_scope.

(** One component of the path, [out] being the components kept so far, the last
    one first. *)
Definition clean_step (rooted : bool) (out : list string) (c : string) : list string :=
  if decide (c = "" ∨ c = ".") then out
  else if decide (c = "..") then
    match out with
    | p :: out' => if decide (p = "..") then ".." :: out else out'
    | [] => if rooted then [] else [".."]
    end
  else c :: out.

Definition clean_comps (rooted : bool) (cs : list string) : list string :=
  rev (foldl (clean_step rooted) [] cs).

Definition rooted (p : string) : bool := HasPrefix p "/".

(** [filepath.Clean]. *)
Definition Clean (p : string) : string :=
  let r := rooted p in
  match clean_comps r (Split p slash) with
  | [] => if r then "/" else "."
  | cs => (if r then "/" else "") +:+ Join cs "/"
  end.

(** [filepath.Join(a, b)]: the elements that are not empty, joined and cleaned. *)
Definition Join2 (a b : string) : string :=
  match base.filter (λ s, s ≠ "") [a; b] with
  | [] => ""
  | es => Clean (Join es "/")
  end.

(** [filepath.Dir]: all but the last element, cleaned. *)
Definition Dir (p : string) : string :=
  Clean (Join (removelast (Split p slash) ++ [""])%list "/").

(** ** Lemmas *)

#[local] Arguments String.append !_ _ / : simpl nomatch.

(** A name that is a single, ordinary component. *)
Definition plain (c : string) : Prop :=
  c ≠ "" ∧ c ≠ "." ∧ c ≠ ".." ∧ ContainsByte c slash = false.

Lemma clean_step_plain r out c : plain c → clean_step r out c = c :: out.
Proof.
  intros (H1 & H2 & H3 & _). unfold clean_step.
  destruct (decide _) as [[->| ->]|_]; [done..|]. by rewrite decide_False.
Qed.

Lemma clean_comps_plain r cs : Forall plain cs → clean_comps r cs = cs.
Proof.
  intros Hcs. unfold clean_comps.
  assert (∀ out, foldl (clean_step r) out cs = (rev cs ++ out)%list) as H.
  { induction Hcs as [|c cs Hc Hcs IH]; intros out; [done|]. simpl.
    by rewrite clean_step_plain, IH, <-app_assoc. }
  by rewrite H, app_nil_r, rev_involutive.
Qed.

(** An absolute path that is clean already. *)
Definition clean_abs (cs : list string) : string := "/" +:+ Join cs "/".

Lemma Split_Join c cs :
  Forall plain (c :: cs) → Split (Join (c :: cs) "/") slash = c :: cs.
Proof.
  induction cs as [|d cs IH] using rev_ind; intros Hcs.
  - apply Forall_cons in Hcs as [(_ & _ & _ & Hc) _].
    assert (Split c slash = [c]) as H; [|exact H].
    { induction c as [|a c IH]; simpl in *; [done|].
      apply orb_false_iff in Hc as [Ha%bool_decide_eq_false Hc]. rewrite decide_False, IH by done.
      done. }
  - assert (Forall plain (c :: cs) ∧ plain d) as [H1 (_ & _ & _ & Hd)].
    { rewrite app_comm_cons, Forall_app in Hcs. destruct Hcs as [? Hd].
      split; [done|]. by apply Forall_cons in Hd as [? _]. }
    rewrite app_comm_cons, Join_snoc. cbn [app].
    change ("/" +:+ d) with (String slash d). rewrite Split_app_last by done. by rewrite IH.
Qed.
