(* ===== verification/GoFS.v ===== *)
(** * The file system the program sees through package os

    A Unix file tree: directories, regular files (by inode, so that hard links share
    one) and symbolic links, which the resolution of a path follows.  Permissions,
    quotas and hardware are the [faults] of the tree: any call can fail, and then
    it has changed nothing (a write can have written a part). *)

From S2P Require Import Prelude GoStrings GoPath.

#[local] Open Scope string_scope.

(** A resolved path: its components, none of them a symbolic link or special. *)
Abbreviation path := (list string).

Inductive node :=
  | NDir (mode : Z)
  | NFile (inode : nat)
  | NLink (target : string).

#[export] Instance node_eq_dec : EqDecision node.
Proof. solve_decision. Defined.

Record file := { f_mode : Z; f_data : string }.

Record fs := Fs {
  tree : gmap path node;              (* without the root, which is a directory *)
  inodes : gmap nat file;
  cwd : path;
  umask : Z;
  faults : nat → option (error * nat);  (* what goes wrong at a call; bytes written *)
  calls : nat;
}.

Definition with_tree (t : gmap path node) (s : fs) : fs :=
  Fs t (inodes s) (cwd s) (umask s) (faults s) (calls s).
Definition with_inodes (i : gmap nat file) (s : fs) : fs :=
  Fs (tree s) i (cwd s) (umask s) (faults s) (calls s).

Definition ENOENT : error := ErrLib "no such file or directory".
Definition ENOTDIR : error := ErrLib "not a directory".
Definition EEXIST : error := ErrLib "file exists".
Definition EISDIR : error := ErrLib "is a directory".
Definition ELOOP : error := ErrLib "too many levels of symbolic links".
Definition EPERM : error := ErrLib "operation not permitted".
Definition ENOTEMPTY : error := ErrLib "directory not empty".

(** The node at a resolved path. *)
Definition node_at (t : gmap path node) (p : path) : option node :=
  match p with [] => Some (NDir 493) | _ => t !! p end.

(** ** Resolution *)

(** Follow [todo] from the directory [at]; [links] more symbolic links may be followed, and
    one in last position is only if [follow].  What the path leads to need not
    exist, but its directory must. *)
Fixpoint walk (t : gmap path node) (follow : bool) (links : nat) : path → list string → res path :=
  fix go (here : path) (todo : list string) : res path :=
    match todo with
    | [] => Ok here
    | c :: rest =>
        if decide (c = "" ∨ c = ".") then go here rest
        else if decide (c = "..") then go (removelast here) rest
        else
          let last := bool_decide (rest = []) in
          match node_at t (here ++ [c]) with
          | None => if last then Ok (here ++ [c])%list else Err ENOENT
          | Some (NDir _) => go (here ++ [c])%list rest
          | Some (NFile _) => if last then Ok (here ++ [c])%list else Err ENOTDIR
          | Some (NLink target) =>
              if last && negb follow then Ok (here ++ [c])%list
              else match links with
                   | O => Err ELOOP
                   | S l => walk t follow l (if rooted target then [] else here)
                              (Split target slash ++ rest)
                   end
          end
    end.

(** The number of symbolic links Linux follows in one resolution. *)
Definition MAXSYMLINKS : nat := 40.

Definition resolve (s : fs) (follow : bool) (name : string) : res path :=
  if decide (name = "") then Err ENOENT
  else walk (tree s) follow MAXSYMLINKS (if rooted name then [] else cwd s) (Split name slash).

(** ** System calls *)

(** A call with its own effect, which the next fault replaces by an error. *)
Definition syscall {A} (f : fs → res A * fs) : M fs A := λ s,
  let s1 := Fs (tree s) (inodes s) (cwd s) (umask s) (faults s) (S (calls s)) in
  match faults s (calls s) with
  | Some (e, _) => (Err e, s1)
  | None => f s1
  end.

Definition lookup_node (follow : bool) (name : string) : M fs node :=
  syscall (λ s, match resolve s follow name with
    | Ok p => match node_at (tree s) p with Some n => (Ok n, s) | None => (Err ENOENT, s) end
    | Err e => (Err e, s)
    | Panic m => (Panic m, s)
    end).

Definition Stat : string → M fs node := lookup_node true.
Definition Lstat : string → M fs node := lookup_node false.

Definition is_dir (n : node) : bool := match n with NDir _ => true | _ => false end.

(** A call that makes a node at [name], where nothing may be. *)
Definition make_node (name : string) (n : fs → node) : M fs () :=
  syscall (λ s, match resolve s false name with
    | Ok p => match node_at (tree s) p with
              | Some _ => (Err EEXIST, s)
              | None => (Ok (), with_tree (<[p := n s]> (tree s)) s)
              end
    | Err e => (Err e, s)
    | Panic m => (Panic m, s)
    end).

Definition Mkdir (name : string) (mode : Z) : M fs () := 
  make_node name (λ s, NDir (Z.ldiff mode (umask s))).

Definition Symlink (target name : string) : M fs () :=
  if decide (target = "") then throw ENOENT else make_node name (λ _, NLink target).

(** [os.Link]: it does not follow [target] if that is a symbolic link, and does not link
    directories. *)
Definition Link (target name : string) : M fs () :=
  n ← lookup_node false target;
  if is_dir n then throw EPERM else make_node name (λ _, n).

Definition has_children (t : gmap path node) (p : path) : bool :=
  bool_decide (map_Exists (λ q _, p `prefix_of` q ∧ p ≠ q) t).

(** [os.Remove]. *)
Definition Remove (name : string) : M fs () :=
  syscall (λ s, match resolve s false name with
    | Ok p => match node_at (tree s) p with
              | None => (Err ENOENT, s)
              | Some _ => if has_children (tree s) p || bool_decide (p = [])
                          then (Err ENOTEMPTY, s)
                          else (Ok (), with_tree (delete p (tree s)) s)
              end
    | Err e => (Err e, s)
    | Panic m => (Panic m, s)
    end).

(** [os.Create]: the inode of the file, empty now; a new file gets the mode 0666
    less the umask. *)
Definition Create (name : string) : M fs nat :=
  syscall (λ s, match resolve s true name with
    | Ok p => match node_at (tree s) p with
              | Some (NFile i) =>
                  (Ok i, with_inodes (alter (λ f, {| f_mode := f_mode f; f_data := "" |}) i (inodes s)) s)
              | Some _ => (Err EISDIR, s)
              | None =>
                  let i := fresh (dom (inodes s)) in
                  (Ok i, with_tree (<[p := NFile i]> (tree s))
                           (with_inodes (<[i := {| f_mode := Z.ldiff 438 (umask s); f_data := "" |}]> (inodes s)) s))
              end
    | Err e => (Err e, s)
    | Panic m => (Panic m, s)
    end).

(** [f.Chmod]. *)
Definition Fchmod (i : nat) (mode : Z) : M fs () :=
  syscall (λ s,
    (Ok (), with_inodes (alter (λ f, {| f_mode := mode; f_data := f_data f |}) i (inodes s)) s)).

(** Writing [data] at the end of an open file; a fault leaves the first bytes written. *)
Definition Write (i : nat) (data : string) : M fs () := λ s,
  let put d s := with_inodes
    (alter (λ f, {| f_mode := f_mode f; f_data := f_data f +:+ d |}) i (inodes s)) s in
  let s1 := Fs (tree s) (inodes s) (cwd s) (umask s) (faults s) (S (calls s)) in
  match faults s (calls s) with
  | Some (e, n) => (Err e, put (String.substring 0 n data) s1)
  | None => (Ok (), put data s1)
  end.

(** [os.MkdirAll]: the directory exists, or [parent] makes the one above and Mkdir this
    one, unless another process has just made it. *)
Definition mkdir_step (name : string) (perm : Z) (parent : M fs ()) : M fs () :=
  d ← attempt (Stat name);
  match d with
  | Ok n => if is_dir n then mret () else throw ENOTDIR
  | _ =>
      parent ;;
      m ← attempt (Mkdir name perm);
      match m with
      | Err e =>
          l ← attempt (Lstat name);
          match l with Ok (NDir _) => mret () | _ => throw e end
      | _ => mret ()
      end
  end.

(** The recursion, on the components of the path, the last one first. *)
Fixpoint mkdir_all (rcs : list string) (perm : Z) : M fs () :=
  match rcs with
  | [] | [""] => mret ()
  | _ :: parent => mkdir_step (Join (rev rcs) "/") perm (mkdir_all parent perm)
  end.

Definition MkdirAll (name : string) (perm : Z) : M fs () :=
  mkdir_all (rev (Split name slash)) perm.

(** [os.IsNotExist]. *)
Definition IsNotExist (e : error) : bool := bool_decide (e = ENOENT).
