(* ===== verification/GoFSFacts.v ===== *)
(** * Facts about the file system

    Absolute clean names resolve to their components unless a symbolic link is on
    the way; what each call does to a tree. *)

From S2P Require Import Prelude GoStrings GoPath GoFS.

#[local] Open Scope string_scope.

#[local] Arguments String.append !_ _ / : simpl nomatch.

(** ** Names *)

Lemma Split_app_sep a c b : Split (a +:+ String c b) c = (Split a c ++ Split b c)%list.
Proof.
  induction a as [|x a IH]; simpl.
  - by rewrite decide_True.
  - rewrite IH. case_decide as Hx; [done|].
    destruct (Split a c) eqn:E; [by destruct (Split_nonempty a c)|done].
Qed.

Lemma Split_no_sep s c : Forall (λ x, ContainsByte x c = false) (Split s c).
Proof.
  induction s as [|x s IH]; simpl; [by repeat constructor|].
  case_decide as Hx; [by constructor|].
  destruct (Split s c) as [|y l] eqn:E; [by destruct (Split_nonempty s c)|].
  apply Forall_cons in IH as [Hy Hl]. constructor; [|done]. cbn.
  by rewrite Hy, bool_decide_false.
Qed.

(** An ordinary absolute name of at least one component. *)
Definition abs_name (q : path) : Prop := q ≠ [] ∧ Forall plain q.

Lemma Split_clean_abs q : abs_name q → Split (clean_abs q) slash = "" :: q.
Proof.
  intros [Hne Hq]. unfold clean_abs. change ("/" +:+ Join q "/") with ("" +:+ String slash (Join q "/")).
  rewrite Split_app_sep. destruct q as [|c q]; [done|]. by rewrite Split_Join.
Qed.

Lemma Join_clean_abs q : q ≠ [] → Join ("" :: q) "/" = clean_abs q.
Proof. intros. by rewrite Join_cons. Qed.

Lemma clean_abs_nonempty q : clean_abs q ≠ "".
Proof. done. Qed.

Lemma rooted_clean_abs q s : rooted (clean_abs q +:+ s) = true.
Proof. apply (prefix_app "/"). Qed.

Lemma Clean_split p : rooted p = true →
  Clean p = match clean_comps true (Split p slash) with [] => "/" | cs => clean_abs cs end.
Proof. intros Hp. unfold Clean. rewrite Hp. by destruct (clean_comps _ _). Qed.

Lemma clean_step_skip r out c : c = "" ∨ c = "." → clean_step r out c = out.
Proof. intros. unfold clean_step. by rewrite decide_True. Qed.

Lemma clean_comps_skip r c cs : c = "" ∨ c = "." → clean_comps r (c :: cs) = clean_comps r cs.
Proof. intros Hc. unfold clean_comps. cbn [foldl]. by rewrite clean_step_skip. Qed.

(** The components of a relative name that count. *)
Definition comps (name : string) : path := filter (λ c, c ≠ "" ∧ c ≠ ".") (Split name slash).

(** A relative name that stays below the directory it is joined to. *)
Definition inside_name (name : string) : Prop := comps name ≠ [] ∧ ".." ∉ comps name.

#[export] Instance inside_name_dec name : Decision (inside_name name).
Proof. unfold inside_name. apply _. Defined.

Lemma comps_plain name : ".." ∉ comps name → Forall plain (comps name).
Proof.
  intros Hd. apply Forall_forall. intros c Hc. split_and!.
  - by apply list_elem_of_filter in Hc as [[? _] _].
  - by apply list_elem_of_filter in Hc as [[_ ?] _].
  - by intros ->.
  - apply list_elem_of_filter in Hc as [_ Hc].
    exact (proj1 (Forall_forall _ _) (Split_no_sep name slash) c Hc).
Qed.

Lemma foldl_clean_comps r out cs : ".." ∉ filter (λ c, c ≠ "" ∧ c ≠ ".") cs →
  Forall (λ c, ContainsByte c slash = false) cs →
  foldl (clean_step r) out cs = (rev (filter (λ c, c ≠ "" ∧ c ≠ ".") cs) ++ out)%list.
Proof.
  revert out. induction cs as [|c cs IH]; intros out Hd Hs; [done|]. cbn [foldl].
  apply Forall_cons in Hs as [Hc Hs]. destruct (decide (c ≠ "" ∧ c ≠ ".")) as [Hk|Hk].
  - rewrite filter_cons_True in Hd |- * by done. apply not_elem_of_cons in Hd as [Hcd Hd].
    rewrite clean_step_plain by (split_and!; naive_solver). rewrite IH by done.
    cbn [rev]. by rewrite <-app_assoc.
  - rewrite filter_cons_False in Hd |- * by done.
    rewrite clean_step_skip, IH by (done || (destruct (decide (c = "")), (decide (c = ".")); tauto)).
    done.
Qed.

Lemma Join2_inside D name : abs_name D → inside_name name →
  Join2 (clean_abs D) name = clean_abs (D ++ comps name).
Proof.
  intros HD [Hne Hd]. destruct HD as [HDne HD].
  assert (name ≠ "") as Hn by (intros ->; done).
  unfold Join2. rewrite filter_cons_True by apply clean_abs_nonempty.
  rewrite filter_cons_True by done. rewrite filter_nil. cbn [Join].
  change (clean_abs D +:+ "/" +:+ name) with (clean_abs D +:+ String slash name).
  rewrite Clean_split by apply rooted_clean_abs. rewrite Split_app_sep, Split_clean_abs by done.
  rewrite <-app_comm_cons, clean_comps_skip by (by left).
  unfold clean_comps. rewrite foldl_app, (foldl_clean_comps true _ (Split name slash))
    by (try done; apply Split_no_sep).
  assert (foldl (clean_step true) [] D = rev D) as ->.
  { rewrite <-(clean_comps_plain true D HD) at 2. unfold clean_comps. by rewrite rev_involutive. }
  rewrite <-rev_app_distr, rev_involutive. fold (comps name).
  destruct (D ++ comps name)%list eqn:E; [|done]. by apply app_nil in E as [-> _].
Qed.

Lemma Dir_clean_abs q : abs_name q → removelast q ≠ [] → Dir (clean_abs q) = clean_abs (removelast q).
Proof.
  intros [Hne Hq] Hr. unfold Dir. rewrite Split_clean_abs by done.
  destruct q as [|c q] using rev_ind; [done|]. clear IHq.
  rewrite removelast_last in *. rewrite app_comm_cons, removelast_last, Join_snoc.
  rewrite Join_clean_abs by done. apply Forall_app in Hq as [Hq _].
  change (clean_abs q +:+ "/" +:+ "") with (clean_abs q +:+ String slash "").
  rewrite Clean_split by apply rooted_clean_abs. rewrite Split_app_sep, Split_clean_abs by done. cbn [Split].
  rewrite <-app_comm_cons, clean_comps_skip by (by left).
  unfold clean_comps. rewrite foldl_app. cbn [foldl]. rewrite clean_step_skip by (by left).
  fold (clean_comps true q). rewrite clean_comps_plain by done. by destruct q.
Qed.

(** ** Resolution *)

Lemma walk_nil t f l here : walk t f l here [] = Ok here.
Proof. by destruct l. Qed.

Lemma walk_skip t f l here c rest : c = "" ∨ c = "." → walk t f l here (c :: rest) = walk t f l here rest.
Proof. intros Hc. destruct l; cbn; by rewrite decide_True. Qed.

Lemma walk_step t f l here c rest : plain c →
  walk t f l here (c :: rest) =
  match node_at t (here ++ [c]) with
  | None => if bool_decide (rest = []) then Ok (here ++ [c])%list else Err ENOENT
  | Some (NDir _) => walk t f l (here ++ [c])%list rest
  | Some (NFile _) => if bool_decide (rest = []) then Ok (here ++ [c])%list else Err ENOTDIR
  | Some (NLink target) =>
      if bool_decide (rest = []) && negb f then Ok (here ++ [c])%list
      else match l with
           | O => Err ELOOP
           | S l => walk t f l (if rooted target then [] else here) (Split target slash ++ rest)
           end
  end.
Proof.
  intros (H1 & H2 & H3 & _). destruct l; cbn;
    (rewrite decide_False by naive_solver); by rewrite decide_False.
Qed.

(** No symbolic link on the way: a walk leads to where its components say, if anywhere. *)
Lemma walk_straight t f l here todo :
  Forall plain todo →
  (∀ q tgt, q ≠ [] → q `prefix_of` todo → node_at t (here ++ q) ≠ Some (NLink tgt)) →
  walk t f l here todo = Ok (here ++ todo)%list ∨ ∃ e, walk t f l here todo = Err e.
Proof.
  intros Hp. revert here. induction Hp as [|c todo Hc Hp IH]; intros here Hl.
  { left. by rewrite walk_nil, app_nil_r. }
  rewrite walk_step by done.
  specialize (Hl [c]) as Hlc. destruct (node_at t (here ++ [c])) as [[m|i|tgt]|] eqn:E.
  - replace (here ++ c :: todo)%list with ((here ++ [c]) ++ todo)%list by (by rewrite <-app_assoc).
    apply IH. intros q tgt Hq Hpre. rewrite <-app_assoc. apply Hl; [done|]. by apply prefix_cons.
  - case_bool_decide as Hr; [subst; by left|right; by eexists].
  - exfalso. apply (Hlc tgt); [done| |done]. apply (prefix_cons c [] todo), prefix_nil.
  - case_bool_decide as Hr; [subst; by left|right; by eexists].
Qed.

(** Directories all the way: the walk gets there. *)
Lemma walk_dirs t f l here q c :
  Forall plain q → plain c →
  (∀ x, x ≠ [] → x `prefix_of` q → ∃ m, node_at t (here ++ x) = Some (NDir m)) →
  (f = true → ∀ tgt, node_at t (here ++ q ++ [c]) ≠ Some (NLink tgt)) →
  walk t f l here (q ++ [c]) = Ok (here ++ q ++ [c])%list.
Proof.
  intros Hq Hc. revert here. induction Hq as [|d q Hd Hq IH]; intros here Hdirs Hlast; cbn [app].
  - rewrite walk_step by done. rewrite bool_decide_true by done. cbn in Hlast.
    destruct (node_at t (here ++ [c])) as [[m|i|tgt]|]; [by rewrite walk_nil|done| |done].
    destruct f; [|done]. by destruct (Hlast eq_refl tgt).
  - rewrite walk_step by done.
    destruct (Hdirs [d]) as [m Hm]; [done|apply (prefix_cons d [] q), prefix_nil|]. rewrite Hm.
    replace (here ++ d :: q ++ [c])%list with ((here ++ [d]) ++ q ++ [c])%list by (by rewrite <-!app_assoc).
    apply IH.
    + intros x Hx Hpre. rewrite <-app_assoc. apply Hdirs; [done|]. by apply prefix_cons.
    + intros Hf tgt. rewrite <-app_assoc. by apply Hlast.
Qed.

Lemma resolve_clean_abs s f q : abs_name q →
  resolve s f (clean_abs q) = walk (tree s) f MAXSYMLINKS [] q.
Proof.
  intros Hq. unfold resolve. rewrite decide_False by apply clean_abs_nonempty.
  rewrite <-(str_app_nil_r (clean_abs q)) at 1. rewrite rooted_clean_abs.
  rewrite Split_clean_abs by done. by rewrite walk_skip by (by left).
Qed.

(** ** [MkdirAll] on a clean name *)

Lemma mkdir_all_snoc q c perm : Forall plain (q ++ [c]) →
  mkdir_all (rev ("" :: q ++ [c])) perm =
  mkdir_step (clean_abs (q ++ [c])) perm (mkdir_all (rev ("" :: q)) perm).
Proof.
  intros Hq. rewrite app_comm_cons, rev_app_distr. cbn [rev app].
  assert (c ≠ "") as Hc by (apply Forall_app in Hq as [_ Hq]; by apply Forall_cons in Hq as [[? _] _]).
  cbn [mkdir_all]. replace (rev (c :: rev q ++ [""]))%list with ("" :: q ++ [c]).
  - rewrite Join_clean_abs by (by destruct q). by destruct c.
  - cbn [rev]. by rewrite rev_app_distr, rev_involutive.
Qed.

(** ** Containment

    [D] is a directory reached without symbolic links and none below it; the files below it
    and the files outside share no inode.  [contained] says so of a tree [s], and
    that it has outside of [D] what [s0] had. *)

Section contained.
Context (D : path).

Definition below (p : path) : Prop := D `prefix_of` p.
#[local] Instance below_dec p : Decision (below p).
Proof. unfold below. apply _. Defined.

Record tidy (s : fs) : Prop := {
  td_dir q : q `prefix_of` D → ∃ m, node_at (tree s) q = Some (NDir m);
  td_nolink p tgt : below p → tree s !! p ≠ Some (NLink tgt);
  td_apart p q i : below p → ¬ below q → tree s !! p = Some (NFile i) → tree s !! q ≠ Some (NFile i);
  td_inode p i : tree s !! p = Some (NFile i) → i ∈ dom (inodes s);
}.

Record outside_same (s0 s : fs) : Prop := {
  os_tree p : ¬ below p → tree s !! p = tree s0 !! p;
  os_file p i : ¬ below p → tree s0 !! p = Some (NFile i) → inodes s !! i = inodes s0 !! i;
}.

Definition contained (s0 s : fs) : Prop := tidy s ∧ outside_same s0 s.

(** A name on the way to [D], or below it. *)
Definition on_way (q : path) : Prop := q `prefix_of` D ∨ below q.

Lemma on_way_prefix q q' : on_way q → q' `prefix_of` q → on_way q'.
Proof.
  intros [Hq|Hq] Hp; [left; by etrans|].
  destruct (prefix_weak_total q' D q Hp Hq); [by left|by right].
Qed.

Lemma tidy_resolve s f q p : tidy s → abs_name q → on_way q →
  resolve s f (clean_abs q) = Ok p → p = q.
Proof.
  intros Ht Hq Hw Hr. rewrite resolve_clean_abs in Hr by done.
  destruct (walk_straight (tree s) f MAXSYMLINKS [] q) as [H|[e H]]; [apply Hq| |simpl in *; congruence..].
  intros x tgt Hne Hx. simpl. intros Hl.
  assert (tree s !! x = Some (NLink tgt)) as Hl' by (by destruct x).
  destruct (on_way_prefix q x Hw Hx) as [Hd|Hd].
  - destruct (td_dir s Ht x Hd) as [m Hm]. congruence.
  - by apply (td_nolink s Ht x tgt).
Qed.

Lemma contained_same s0 s s' :
  tree s' = tree s → inodes s' = inodes s → contained s0 s → contained s0 s'.
Proof.
  intros Ht Hi [[H1 H2 H3 H4] [H5 H6]].
  split; split; rewrite ?Ht, ?Hi; eauto.
Qed.

(** A node of the kind that may appear below [D]. *)
Definition harmless (s : fs) (n : node) : Prop :=
  match n with
  | NDir _ => True
  | NFile i => i ∈ dom (inodes s) ∧ ∀ q, ¬ below q → tree s !! q ≠ Some (NFile i)
  | NLink _ => False
  end.

Lemma node_at_lookup t q n : t !! q = Some n → q ≠ [] → node_at t q = Some n.
Proof. by destruct q. Qed.

Lemma contained_insert s0 s p n : contained s0 s → below p → tree s !! p = None → harmless s n →
  contained s0 (with_tree (<[p := n]> (tree s)) s).
Proof.
  intros [[H1 H2 H3 H4] [H5 H6]] Hp Hnone Hn. split; split; cbn.
  - intros q Hq. destruct (H1 q Hq) as [m Hm]. exists m. destruct q as [|c q]; [done|]. cbn in *.
    rewrite lookup_insert_ne; [done|]. intros ->. congruence.
  - intros q tgt Hq. destruct (decide (p = q)) as [->|Hne].
    + rewrite lookup_insert_eq. intros [= ->]. done.
    + rewrite lookup_insert_ne by done. by apply H2.
  - intros q q' i Hq Hq'. rewrite (lookup_insert_ne _ p q') by (by intros ->).
    destruct (decide (p = q)) as [->|Hne].
    + rewrite lookup_insert_eq. intros [= ->]. by apply Hn.
    + rewrite lookup_insert_ne by done. by apply H3.
  - intros q i. destruct (decide (p = q)) as [->|Hne].
    + rewrite lookup_insert_eq. intros [= ->]. apply Hn.
    + rewrite lookup_insert_ne by done. apply H4.
  - intros q Hq. rewrite lookup_insert_ne by (by intros ->). by apply H5.
  - done.
Qed.

(** ** Computations that stay inside *)

Definition confined {A} (s0 : fs) (m : M fs A) : Prop :=
  ∀ s, contained s0 s → wp m (λ _, contained s0) s.

Section confined.
Context (s0 : fs).
Abbreviation confined := (confined s0).

Lemma confined_ret {A} (a : A) : confined (mret a).
Proof. by intros s Hs. Qed.
Lemma confined_throw {A} e : confined (throw e : M fs A).
Proof. by intros s Hs. Qed.
Lemma confined_bind {A B} (m : M fs A) (f : A → M fs B) : confined m → (∀ a, confined (f a)) → confined (m ≫= f).
Proof.
  intros Hm Hf s Hs. rewrite wp_bind. eapply wp_mono; [|by apply Hm].
  intros [a|e|p] s' Hs'; [by apply Hf|done..].
Qed.
Lemma confined_attempt {A} (m : M fs A) : confined m → confined (attempt m).
Proof. intros Hm s Hs. rewrite wp_attempt. eapply wp_mono; [|by apply Hm]. by intros [?|?|?]. Qed.
Lemma confined_wrapf {A} msg (m : M fs A) : confined m → confined (wrapf msg m).
Proof. intros Hm s Hs. rewrite wp_wrapf. eapply wp_mono; [|by apply Hm]. by intros [?|?|?]. Qed.
Lemma confined_syscall {A} (f : fs → res A * fs) :
  (∀ s, contained s0 s → contained s0 (f s).2) → confined (syscall f).
Proof.
  intros Hf s Hs. unfold wp, syscall.
  assert (contained s0 (Fs (tree s) (inodes s) (cwd s) (umask s) (faults s) (S (calls s)))) as Hs1
    by (by eapply contained_same; [..|exact Hs]).
  destruct (faults s (calls s)) as [[e n]|]; [done|]. by apply Hf.
Qed.

Context (q : path) (Hq : abs_name q) (Hw : on_way q).

Lemma confined_lookup f : confined (lookup_node f (clean_abs q)).
Proof.
  apply confined_syscall. intros s Hs. destruct (resolve _ _ _); [|done..]. by destruct (node_at _ _).
Qed.

(** What a lookup finds is where the name says. *)
Lemma lookup_finds f s : contained s0 s →
  wp (lookup_node f (clean_abs q))
     (λ r s', contained s0 s' ∧ match r with Ok n => node_at (tree s') q = Some n | _ => True end) s.
Proof.
  intros Hs. unfold lookup_node, syscall, wp.
  set (s1 := Fs _ _ _ _ _ _). assert (contained s0 s1) as Hs1 by (by eapply contained_same; [..|exact Hs]).
  destruct (faults s (calls s)) as [[e n]|]; [done|].
  destruct (resolve s1 f (clean_abs q)) as [p|?|?] eqn:E; [|done..].
  apply (tidy_resolve s1) in E as ->; [|apply Hs1|done..].
  by destruct (node_at (tree s1) q) eqn:E.
Qed.

Lemma make_node_keeps n s : contained s0 s →
  (∀ s1, tree s1 = tree s → inodes s1 = inodes s → harmless s1 (n s1)) →
  wp (make_node (clean_abs q) n) (λ _, contained s0) s.
Proof.
  intros Hs Hn. unfold make_node, syscall, wp.
  set (s1 := Fs _ _ _ _ _ _). assert (contained s0 s1) as Hs1 by (by eapply contained_same; [..|exact Hs]).
  destruct (faults s (calls s)) as [[e ?]|]; [done|].
  destruct (resolve s1 false (clean_abs q)) as [p|?|?] eqn:E; [|done..].
  apply (tidy_resolve s1) in E as ->; [|apply Hs1|done..].
  destruct (node_at (tree s1) q) eqn:E; [done|].
  assert (below q) as Hb.
  { destruct Hw as [Hd|Hb]; [|done]. destruct (td_dir s1 (proj1 Hs1) q Hd) as [m Hm]. congruence. }
  apply contained_insert; [done..| |by apply Hn]. by destruct q as [|? ?] eqn:Eq; [destruct Hq|].
Qed.

Lemma confined_Mkdir mode : confined (Mkdir (clean_abs q) mode).
Proof. intros s Hs. by apply make_node_keeps. Qed.

Lemma confined_Write i data : (∀ p, ¬ below p → tree s0 !! p ≠ Some (NFile i)) → confined (Write i data).
Proof.
  intros Hi s [[H1 H2 H3 H4] [H5 H6]]. unfold Write, wp.
  assert (∀ f s1, tree s1 = tree s → inodes s1 = inodes s →
    contained s0 (with_inodes (alter f i (inodes s1)) s1)) as H.
  { intros f s1 Ht1 Hi1. split; split; cbn; rewrite ?Ht1, ?Hi1; try done.
    - intros p j Hj. rewrite dom_alter_L. by eapply H4.
    - intros p j Hp Hj. rewrite lookup_alter_ne by (intros ->; by apply (Hi p)). by eapply H6. }
  destruct (faults s (calls s)) as [[e n]|]; by apply H.
Qed.

Lemma confined_Fchmod i mode : (∀ p, ¬ below p → tree s0 !! p ≠ Some (NFile i)) → confined (Fchmod i mode).
Proof.
  intros Hi. apply confined_syscall. intros s [[H1 H2 H3 H4] [H5 H6]]. split; split; cbn; try done.
  - intros p j Hj. rewrite dom_alter_L. by eapply H4.
  - intros p j Hp Hj. rewrite lookup_alter_ne by (intros ->; by apply (Hi p)). by eapply H6.
Qed.

Definition mine (i : nat) : Prop := ∀ p, ¬ below p → tree s0 !! p ≠ Some (NFile i).

Lemma Create_spec s : below q → contained s0 s →
  wp (Create (clean_abs q)) (λ r s', contained s0 s' ∧ match r with Ok i => mine i | _ => True end) s.
Proof.
  intros Hb Hs. unfold Create, syscall, wp.
  set (s1 := Fs _ _ _ _ _ _). assert (contained s0 s1) as Hs1 by (by eapply contained_same; [..|exact Hs]).
  destruct (faults s (calls s)) as [[e ?]|]; [done|].
  destruct (resolve s1 true (clean_abs q)) as [p|?|?] eqn:E; [|done..].
  apply (tidy_resolve s1) in E as ->; [|apply Hs1|done..].
  destruct Hq as [Hne _]. destruct Hs1 as [[H1 H2 H3 H4] [H5 H6]].
  assert (∀ i, tree s1 !! q = Some (NFile i) → mine i) as Hmine.
  { intros i Hi p Hp Hpi. rewrite <-H5 in Hpi by done. by apply (H3 q p i). }
  destruct (node_at (tree s1) q) as [[m|i|tgt]|] eqn:E; [by split|..].
  - assert (tree s1 !! q = Some (NFile i)) as E' by (by destruct q). split; [|by apply Hmine].
    split; split; cbn; try done.
    + intros p j Hj. rewrite dom_alter_L. by eapply H4.
    + intros p j Hp Hj. rewrite lookup_alter_ne by (intros ->; by apply (Hmine _ E' p)). by eapply H6.
  - by split.
  - assert (tree s1 !! q = None) as E' by (by destruct q). cbn [fst snd].
    set (i := fresh (dom (inodes s1))).
    assert (i ∉ dom (inodes s1)) as Hfresh by apply is_fresh.
    set (f0 := {| f_mode := Z.ldiff 438 (umask s1); f_data := "" |}).
    assert (contained s0 (with_inodes (<[i := f0]> (inodes s1)) s1)) as Hc.
    { split; split; cbn; try done.
      - intros p j Hj. rewrite dom_insert_L. apply elem_of_union_r. by eapply H4.
      - intros p j Hp Hj. rewrite lookup_insert_ne; [by eapply H6|].
        intros ->. rewrite <-H5 in Hj by done. by apply H4 in Hj. }
    split; [|intros p Hp Hpi; rewrite <-H5 in Hpi by done; by apply H4 in Hpi].
    apply (contained_insert _ _ q (NFile i) Hc Hb E'). cbn. rewrite dom_insert_L.
    split; [by apply elem_of_union_l, elem_of_singleton|]. by intros p _ Hp%H4.
Qed.

(** Unlinking below [D]. *)
Lemma confined_Remove : below q → q ≠ D → confined (Remove (clean_abs q)).
Proof.
  intros Hb HneD. apply confined_syscall. intros s Hs.
  destruct (resolve s false (clean_abs q)) as [p|?|?] eqn:E; [|done..].
  apply (tidy_resolve s) in E as ->; [|apply Hs|done..].
  destruct (node_at (tree s) q); [|done]. destruct (_ || _); [done|].
  destruct Hs as [[H1 H2 H3 H4] [H5 H6]]. split; split; cbn.
  - intros x Hx. destruct (H1 x Hx) as [m Hm]. exists m. destruct x as [|c x]; [done|]. cbn in *.
    rewrite lookup_delete_ne; [done|]. intros ->. apply HneD.
    apply prefix_length_eq; [done|]. by apply prefix_length.
  - intros p tgt Hp [_ ?]%lookup_delete_Some. by apply (H2 p tgt).
  - intros p p' i Hp Hp' [_ ?]%lookup_delete_Some [_ ?]%lookup_delete_Some. by apply (H3 p p' i).
  - intros p i [_ ?]%lookup_delete_Some. by eapply H4.
  - intros p Hp. rewrite lookup_delete_ne by (by intros ->). by apply H5.
  - done.
Qed.

End confined.

Lemma confined_Link s0 q q' : abs_name q → below q → abs_name q' → below q' →
  confined s0 (Link (clean_abs q') (clean_abs q)).
Proof.
  intros Hq Hb Hq' Hb' s Hs. unfold Link. rewrite wp_bind.
  eapply wp_mono; [|apply (lookup_finds s0 q' Hq' (or_intror Hb') false s Hs)].
  intros [n|?|?] s' [Hs' Hn]; [|done..]. destruct (is_dir n) eqn:Hd; [done|].
  apply make_node_keeps; [done|by right|done|]. intros s1 Ht Hi.
  assert (tree s' !! q' = Some n) as Hl by (destruct q'; [by destruct Hq'|done]).
  destruct Hs' as [[H1 H2 H3 H4] _]. destruct n as [m|i|tgt]; [done|..].
  - cbn. rewrite Ht, Hi. split; [by eapply H4|]. intros p Hp. by apply (H3 q').
  - by apply (H2 q' tgt).
Qed.

Lemma confined_mkdir_step s0 q perm parent : abs_name q → on_way q → confined s0 parent →
  confined s0 (mkdir_step (clean_abs q) perm parent).
Proof.
  intros Hq Hw Hp. unfold mkdir_step. apply confined_bind; [by apply confined_attempt, confined_lookup|].
  assert (confined s0 (parent ;;
    m ← attempt (Mkdir (clean_abs q) perm);
    match m with
    | Err e => l ← attempt (Lstat (clean_abs q)); match l with Ok (NDir _) => mret () | _ => throw e end
    | _ => mret ()
    end)) as Hmk.
  { apply confined_bind; [done|]. intros _. apply confined_bind; [by apply confined_attempt, confined_Mkdir|].
    intros [?|e|?]; [apply confined_ret| |apply confined_ret].
    apply confined_bind; [by apply confined_attempt, confined_lookup|].
    intros [[?|?|?]|?|?]; apply confined_ret || apply confined_throw. }
  intros [n|?|?]; [|done..]. destruct (is_dir n); [apply confined_ret|apply confined_throw].
Qed.

Lemma confined_mkdir_all s0 q perm : Forall plain q → on_way q → confined s0 (mkdir_all (rev ("" :: q)) perm).
Proof.
  induction q as [|c q IH] using rev_ind; intros Hq Hw; [apply confined_ret|].
  rewrite mkdir_all_snoc by done. apply confined_mkdir_step; [split; [by destruct q|done]|done|].
  apply IH; [by apply Forall_app in Hq as [? _]|]. eapply on_way_prefix; [done|]. by eexists.
Qed.

Lemma confined_MkdirAll s0 q perm : abs_name q → on_way q → confined s0 (MkdirAll (clean_abs q) perm).
Proof.
  intros Hq Hw. unfold MkdirAll. rewrite Split_clean_abs by done. apply confined_mkdir_all; [apply Hq|done].
Qed.
End contained.

#[export] Hint Resolve confined_ret confined_throw confined_bind confined_attempt confined_wrapf : furan.

(** ** Without faults

    What the calls do on a tree where nothing fails, every parent is a directory, and no
    file or link is in the way. *)

Definition calm (s : fs) : Prop := ∀ k, faults s k = None.

Definition closed (t : gmap path node) : Prop :=
  ∀ p c n, t !! (p ++ [c])%list = Some n → ∃ m, node_at t p = Some (NDir m).

Definition dir_or_none (t : gmap path node) (p : path) : Prop :=
  node_at t p = None ∨ ∃ m, node_at t p = Some (NDir m).

(** Every strict prefix of [q] is a directory or missing. *)
Definition clear (t : gmap path node) (q : path) : Prop :=
  ∀ x, x `prefix_of` q → x ≠ q → dir_or_none t x.

Lemma node_at_ne t q : q ≠ [] → node_at t q = t !! q.
Proof. by destruct q. Qed.

Lemma closed_prefix t x q n : closed t → node_at t q = Some n → x `prefix_of` q → x ≠ q →
  ∃ m, node_at t x = Some (NDir m).
Proof.
  intros Hc Hq [y ->] Hne. revert n Hq Hne. induction y as [|c y IH] using rev_ind; intros n Hq Hne.
  - by rewrite app_nil_r in Hne.
  - rewrite app_assoc in Hq. destruct (Hc (x ++ y)%list c n) as [m Hm]; [by destruct (x ++ y)%list|].
    destruct y as [|d y]; [rewrite app_nil_r in Hm; by exists m|].
    apply (IH _ Hm). intros E%(f_equal length). rewrite length_app in E. cbn in E. lia.
Qed.

Lemma walk_clear t f l here todo : Forall plain todo →
  (∀ x, x ≠ [] → x `prefix_of` todo → x ≠ todo → dir_or_none t (here ++ x)) →
  (f = true → ∀ tgt, node_at t (here ++ todo) ≠ Some (NLink tgt)) →
  walk t f l here todo = Ok (here ++ todo)%list ∨
  (walk t f l here todo = Err ENOENT ∧
   ∃ x, x ≠ [] ∧ x `prefix_of` todo ∧ x ≠ todo ∧ node_at t (here ++ x) = None).
Proof.
  intros Hp. revert here. induction Hp as [|c todo Hc Hp IH]; intros here Hd Hl.
  { left. by rewrite walk_nil, app_nil_r. }
  rewrite walk_step by done. destruct todo as [|c' todo].
  - left. rewrite bool_decide_true by done.
    destruct (node_at t (here ++ [c])) as [[m|i|tgt]|] eqn:E; [by rewrite walk_nil|done| |done].
    destruct f; [|done]. by destruct (Hl eq_refl tgt).
  - rewrite bool_decide_false by done.
    assert ([c] `prefix_of` c :: c' :: todo) as Hpre by apply (prefix_cons c [] (c' :: todo)), prefix_nil.
    destruct (Hd [c]) as [E|[m E]]; [done|done|done| |]; rewrite E.
    + right. split; [done|]. by exists [c].
    + replace (here ++ c :: c' :: todo)%list with ((here ++ [c]) ++ c' :: todo)%list by (by rewrite <-app_assoc).
      destruct (IH (here ++ [c])%list) as [H|(H & x & Hx & Hxp & Hxn & Hxt)].
      * intros x Hx Hxp Hxn. rewrite <-app_assoc. apply Hd; [done|by apply prefix_cons|naive_solver].
      * intros Hf tgt. rewrite <-app_assoc. by apply Hl.
      * by left.
      * right. split; [done|]. exists (c :: x). rewrite <-app_assoc in Hxt.
        split_and!; [done|by apply prefix_cons|naive_solver|done].
Qed.

(** One more call was made. *)
Definition tick (s : fs) : fs := Fs (tree s) (inodes s) (cwd s) (umask s) (faults s) (S (calls s)).

Lemma syscall_calm {A} (f : fs → res A * fs) s : calm s → syscall f s = f (tick s).
Proof. intros Hc. unfold syscall. by rewrite Hc. Qed.

(** Looking up a name that is clear: what the tree has there. *)
Lemma lookup_clear f s q : calm s → closed (tree s) → abs_name q → clear (tree s) q →
  (f = true → ∀ tgt, tree s !! q ≠ Some (NLink tgt)) →
  lookup_node f (clean_abs q) s =
  (match tree s !! q with Some n => Ok n | None => Err ENOENT end, tick s).
Proof.
  intros Hc Hcl Hq Hclear Hl. unfold lookup_node. rewrite syscall_calm by done.
  rewrite resolve_clean_abs by done. cbn [tree tick].
  assert (node_at (tree s) q = tree s !! q) as Hat by apply node_at_ne, Hq.
  destruct (walk_clear (tree s) f MAXSYMLINKS [] q) as [H|(H & x & Hx & Hxp & Hxn & Hxt)].
  - apply Hq.
  - intros x _ Hxp Hxn. by apply Hclear.
  - intros Hf tgt. cbn [app]. rewrite Hat. by apply Hl.
  - rewrite H. cbn [app]. rewrite Hat. by destruct (tree s !! q).
  - rewrite H. destruct (tree s !! q) as [n|] eqn:E; [|done].
    destruct (closed_prefix (tree s) x q n) as [m Hm]; [done..|].
    cbn in Hxt. congruence.
Qed.

(** Making a node where the directory is there and nothing else. *)
Lemma make_node_calm s q n : calm s → abs_name q →
  (∀ x, x `prefix_of` q → x ≠ q → ∃ m, node_at (tree s) x = Some (NDir m)) → tree s !! q = None →
  make_node (clean_abs q) n s = (Ok (), with_tree (<[q := n (tick s)]> (tree s)) (tick s)).
Proof.
  intros Hc Hq Hdirs Hn. unfold make_node. rewrite syscall_calm by done.
  rewrite resolve_clean_abs by done. cbn [tree tick].
  destruct (walk_clear (tree s) false MAXSYMLINKS [] q) as [H|(H & x & Hx & Hxp & Hxn & Hxt)].
  - apply Hq.
  - intros x _ Hxp Hxn. right. by apply Hdirs.
  - done.
  - rewrite H. cbn [app]. rewrite node_at_ne by apply Hq. by rewrite Hn.
  - destruct (Hdirs x Hxp Hxn) as [m Hm]. cbn in Hxt. congruence.
Qed.

(** Directories were made on the way to [q], and they are all there now. *)
Record grown (q : path) (s s' : fs) : Prop := {
  gr_calm : calm s';
  gr_closed : closed (tree s');
  gr_inodes : inodes s' = inodes s;
  gr_dirs x : x `prefix_of` q → ∃ m, node_at (tree s') x = Some (NDir m);
  gr_tree x : tree s' !! x = tree s !! x ∨
    (tree s !! x = None ∧ x ≠ [] ∧ x `prefix_of` q ∧ ∃ m, tree s' !! x = Some (NDir m));
}.

Lemma closed_insert t q n : closed t → (∃ m, node_at t (removelast q) = Some (NDir m)) → q ≠ [] →
  t !! q = None → closed (<[q := n]> t).
Proof.
  intros Hc Hpar Hne Hq p c n' Hl.
  assert (∃ m, node_at t p = Some (NDir m)) as [m Hm].
  { destruct (decide (q = p ++ [c])%list) as [->|Hx]; [by rewrite removelast_last in Hpar|].
    rewrite lookup_insert_ne in Hl by done. by eapply Hc. }
  exists m. destruct p as [|d p]; [done|]. cbn in *. rewrite lookup_insert_ne; [done|congruence].
Qed.

Lemma prefix_snoc_inv (x q : path) c : x `prefix_of` (q ++ [c])%list → x = (q ++ [c])%list ∨ x `prefix_of` q.
Proof.
  intros [y Hy]. destruct y as [|d y] using rev_ind; [left; by rewrite app_nil_r in Hy|right].
  rewrite app_assoc in Hy. apply app_inj_tail in Hy as [-> _]. by eexists.
Qed.

Lemma dir_or_none_not_link t q tgt : dir_or_none t q → q ≠ [] → t !! q ≠ Some (NLink tgt).
Proof. intros [H|[m H]] Hne; rewrite node_at_ne in H by done; congruence. Qed.

Lemma grown_tick q s : calm s → closed (tree s) → (∃ m, node_at (tree s) q = Some (NDir m)) →
  grown q s (tick s).
Proof.
  intros Hc Hcl [m Hm]. split; try done; [|by left].
  intros x Hx. destruct (decide (x = q)) as [->|Hne]; [by exists m|]. by eapply closed_prefix.
Qed.

Lemma mkdir_step_calm q c perm parent s : calm s → closed (tree s) → Forall plain (q ++ [c])%list →
  clear (tree s) (q ++ [c]) → dir_or_none (tree s) (q ++ [c]) →
  wp parent (λ r s', r = Ok () ∧ grown q (tick s) s') (tick s) →
  wp (mkdir_step (clean_abs (q ++ [c])) perm parent)
     (λ r s', r = Ok () ∧ grown (q ++ [c]) s s') s.
Proof.
  intros Hc Hcl Hp Hclear Hlast Hpar. set (p := (q ++ [c])%list) in *.
  assert (p ≠ []) as Hne by by destruct q. assert (abs_name p) as Ha by done.
  unfold mkdir_step. rewrite wp_bind, wp_attempt. unfold wp at 1. unfold Stat.
  rewrite lookup_clear by (done || by intros _ tgt; apply dir_or_none_not_link).
  destruct Hlast as [Hlast|[m Hlast]]; rewrite node_at_ne in Hlast by done; rewrite Hlast; cbn [fst snd is_dir].
  2:{ rewrite wp_ret. split; [done|]. apply grown_tick; [done..|]. exists m. by rewrite node_at_ne. }
  rewrite wp_bind. eapply wp_mono; [|exact Hpar]. intros [[]|?|?] s1 [[=] [G1 G2 G3 G4 G5]].
  assert (tree s1 !! p = None) as Hp1.
  { destruct (G5 p) as [E|(_ & _ & Hx & _)]; [by rewrite E|].
    apply prefix_length in Hx. unfold p in Hx. rewrite length_app in Hx. cbn in Hx. lia. }
  assert (∀ x, x `prefix_of` p → x ≠ p → ∃ m, node_at (tree s1) x = Some (NDir m)) as Hdirs.
  { intros x [->|Hx]%prefix_snoc_inv Hxn; [done|]. by apply G4. }
  rewrite wp_bind, wp_attempt. unfold wp at 1. unfold Mkdir. rewrite make_node_calm by done.
  cbn [fst snd]. rewrite wp_ret. split; [done|].
  set (n := NDir _). split; cbn.
  - done.
  - apply closed_insert; [done| |done..]. unfold p. rewrite removelast_last. by apply G4.
  - done.
  - intros x Hx. destruct (decide (x = p)) as [->|Hxn].
    + rewrite node_at_ne, lookup_insert_eq by done. by eexists.
    + destruct (Hdirs x Hx Hxn) as [m Hm]. exists m. destruct x; [done|]. cbn in *.
      by rewrite lookup_insert_ne.
  - intros x. destruct (decide (x = p)) as [->|Hxn].
    + right. split_and!; [done|done|done|]. rewrite lookup_insert_eq. by eexists.
    + rewrite lookup_insert_ne by done. destruct (G5 x) as [E|(E & Hxne & Hx & Hd)]; [by left|right].
      split_and!; [done..| |done]. etrans; [done|by eexists].
Qed.

Lemma mkdir_all_calm q perm s : calm s → closed (tree s) → Forall plain q →
  clear (tree s) q → dir_or_none (tree s) q →
  wp (mkdir_all (rev ("" :: q)) perm) (λ r s', r = Ok () ∧ grown q s s') s.
Proof.
  revert s. induction q as [|c q IH] using rev_ind; intros s Hc Hcl Hp Hclear Hlast.
  - split; [done|]. cbn. split; try done; [|by left].
    intros x ->%prefix_nil_inv. by eexists.
  - rewrite mkdir_all_snoc by done. apply mkdir_step_calm; try done.
    apply IH; [done..|by apply Forall_app in Hp as [? _]| |].
    + intros x Hx Hxn. apply Hclear; [etrans; [done|by eexists]|]. intros ->.
      apply prefix_length in Hx. rewrite length_app in Hx. cbn in Hx. lia.
    + apply Hclear; [by eexists|]. intros E%(f_equal length). rewrite length_app in E. cbn in E. lia.
Qed.

Lemma MkdirAll_calm q perm s : calm s → closed (tree s) → abs_name q →
  clear (tree s) q → dir_or_none (tree s) q →
  wp (MkdirAll (clean_abs q) perm) (λ r s', r = Ok () ∧ grown q s s') s.
Proof.
  intros Hc Hcl [Hne Hp] ? ?. unfold MkdirAll. rewrite Split_clean_abs by done. by apply mkdir_all_calm.
Qed.

(** Creating a file where there is nothing: a new inode. *)
Lemma Create_calm s q : calm s → abs_name q →
  (∀ x, x `prefix_of` q → x ≠ q → ∃ m, node_at (tree s) x = Some (NDir m)) → tree s !! q = None →
  let i := fresh (dom (inodes s)) in
  Create (clean_abs q) s =
  (Ok i, with_tree (<[q := NFile i]> (tree s))
           (with_inodes (<[i := {| f_mode := Z.ldiff 438 (umask s); f_data := "" |}]> (inodes s)) (tick s))).
Proof.
  intros Hc Hq Hdirs Hn i. unfold Create. rewrite syscall_calm by done.
  rewrite resolve_clean_abs by done. cbn [tree tick].
  destruct (walk_clear (tree s) true MAXSYMLINKS [] q) as [H|(H & x & Hx & Hxp & Hxn & Hxt)].
  - apply Hq.
  - intros x _ Hxp Hxn. right. by apply Hdirs.
  - intros _ tgt. cbn [app]. rewrite node_at_ne, Hn by apply Hq. done.
  - rewrite H. cbn [app]. rewrite node_at_ne by apply Hq. by rewrite Hn.
  - destruct (Hdirs x Hxp Hxn) as [m Hm]. cbn in Hxt. congruence.
Qed.

Lemma alter_at {A} (f : A → A) (m : gmap nat A) i x :
  m !! i = Some x → alter f i m = <[i := f x]> m.
Proof.
  intros Hx. rewrite <-(insert_id m i x Hx) at 1. by rewrite alter_insert_eq.
Qed.

(** The inode [i] changes, and nothing else. *)
Lemma Fchmod_calm s i mode f : calm s → inodes s !! i = Some f →
  Fchmod i mode s = (Ok (), with_inodes (<[i := {| f_mode := mode; f_data := f_data f |}]> (inodes s)) (tick s)).
Proof.
  intros Hc Hf. unfold Fchmod. rewrite syscall_calm by done. cbn [inodes tick].
  by rewrite (alter_at _ _ _ _ Hf).
Qed.

Lemma Write_calm s i data f : calm s → inodes s !! i = Some f →
  Write i data s =
  (Ok (), with_inodes (<[i := {| f_mode := f_mode f; f_data := f_data f +:+ data |}]> (inodes s)) (tick s)).
Proof.
  intros Hc Hf. unfold Write. rewrite Hc. fold (tick s). cbn [inodes tick]. by rewrite (alter_at _ _ _ _ Hf).
Qed.
