(* ===== verification/Uuid.v ===== *)
(** * Build and API key identifiers: github.com/gofrs/uuid

    The identifiers of the program are the 16-byte arrays of the vendored
    package gofrs/uuid.  Their text form is what the API exchanges and what the
    names of the notification channels are made of, so it is modelled byte for
    byte; the text of the parser's error is the library's own. *)

From S2P Require Import Prelude GoStrings.

#[local] Open Scope string_scope.

(** [type UUID [16]byte]. *)
Record uuid := Uuid {
  uuid_bytes : list ascii;
  uuid_len : bool_decide (length uuid_bytes = 16%nat);
}.

#[export] Instance uuid_eq_dec : EqDecision uuid.
Proof.
  refine (λ u v, cast_if (decide (uuid_bytes u = uuid_bytes v))).
  - destruct u as [b p], v as [b' p']. simpl in *. subst. f_equal. apply proof_irrel.
  - by intros ->.
Defined.

(** The UUID made of a byte slice, if it has 16 bytes ([FromBytes]). *)
Definition uuid_of_bytes (b : list ascii) : option uuid :=
  match decide (length b = 16%nat) with
  | left H => Some (Uuid b (bool_decide_pack _ H))
  | right _ => None
  end.

#[export] Instance uuid_countable : Countable uuid.
Proof.
  apply (inj_countable uuid_bytes uuid_of_bytes).
  intros [b p]. unfold uuid_of_bytes. simpl.
  pose proof (bool_decide_unpack _ p). case_match; [|done].
  do 2 f_equal. apply proof_irrel.
Defined.

(** [uuid.Nil]. *)
Definition uuid_Nil : uuid := Uuid (replicate 16 Ascii.zero) I.

(** ** package encoding/hex *)

Definition hex_digit (n : N) : ascii :=
  match n with
  | 0 => "0" | 1 => "1" | 2 => "2" | 3 => "3" | 4 => "4" | 5 => "5" | 6 => "6" | 7 => "7"
  | 8 => "8" | 9 => "9" | 10 => "a" | 11 => "b" | 12 => "c" | 13 => "d" | 14 => "e" | _ => "f"
  end%N%char.

Definition from_hex_digit (a : ascii) : option N :=
  let b := N_of_ascii a in
  if bool_decide (48 ≤ b ≤ 57)%N then Some (b - 48)%N
  else if bool_decide (97 ≤ b ≤ 102)%N then Some (b - 97 + 10)%N
  else if bool_decide (65 ≤ b ≤ 70)%N then Some (b - 65 + 10)%N
  else None.

(** [hex.Encode]. *)
Fixpoint hex_encode (l : list ascii) : string :=
  match l with
  | [] => ""
  | a :: l' =>
      let b := N_of_ascii a in
      String (hex_digit (b / 16)) (String (hex_digit (b `mod` 16)) (hex_encode l'))
  end.

(** [hex.Decode]: [None] at an odd length or at a byte that is no hex digit. *)
Fixpoint hex_decode (s : string) : option (list ascii) :=
  match s with
  | "" => Some []
  | String h (String l s') =>
      a ← from_hex_digit h;
      b ← from_hex_digit l;
      r ← hex_decode s';
      Some (ascii_of_N (a * 16 + b) :: r)
  | _ => None
  end.

(** ** The text form *)

(** [UUID.String]. *)
Definition uuid_String (u : uuid) : string :=
  let b := uuid_bytes u in
  hex_encode (take 4 b) +:+ "-" +:+ hex_encode (take 2 (drop 4 b)) +:+ "-"
  +:+ hex_encode (take 2 (drop 6 b)) +:+ "-" +:+ hex_encode (take 2 (drop 8 b))
  +:+ "-" +:+ hex_encode (drop 10 b).

Definition sub (s : string) (i n : nat) : string := String.substring i n s.

Definition decodeCanonical (t : string) : option uuid :=
  if bool_decide (sub t 8 1 = "-" ∧ sub t 13 1 = "-" ∧ sub t 18 1 = "-" ∧ sub t 23 1 = "-")
  then
    b1 ← hex_decode (sub t 0 8);
    b2 ← hex_decode (sub t 9 4);
    b3 ← hex_decode (sub t 14 4);
    b4 ← hex_decode (sub t 19 4);
    b5 ← hex_decode (sub t 24 12);
    uuid_of_bytes (b1 ++ b2 ++ b3 ++ b4 ++ b5)
  else None.

Definition decodeHashLike (t : string) : option uuid := hex_decode t ≫= uuid_of_bytes.

Definition decodePlain (t : string) : option uuid :=
  match String.length t with
  | 32 => decodeHashLike t
  | 36 => decodeCanonical t
  | _ => None
  end.

Definition decodeBraced (t : string) : option uuid :=
  let l := String.length t in
  if bool_decide (sub t 0 1 = "{" ∧ sub t (l - 1) 1 = "}") then decodePlain (sub t 1 (l - 2))
  else None.

Definition decodeURN (t : string) : option uuid :=
  if bool_decide (sub t 0 9 = "urn:uuid:") then decodePlain (sub t 9 (String.length t - 9))
  else None.

(** [UnmarshalText]. *)
Definition UnmarshalText (t : string) : option uuid :=
  match String.length t with
  | 32 => decodeHashLike t
  | 34 | 38 => decodeBraced t
  | 36 => decodeCanonical t
  | 41 | 45 => decodeURN t
  | _ => None
  end.

(** [uuid.FromString]. *)
Definition FromString (t : string) : res uuid :=
  match UnmarshalText t with
  | Some u => Ok u
  | None => Err (ErrLib "uuid: incorrect UUID format")
  end.

(** ** Lemmas *)

#[local] Arguments String.append !_ _ / : simpl nomatch.
#[local] Open Scope nat_scope.

Lemma hex_byte_roundtrip (a : ascii) :
  from_hex_digit (hex_digit (N_of_ascii a / 16)) = Some (N_of_ascii a / 16)%N ∧
  from_hex_digit (hex_digit (N_of_ascii a `mod` 16)) = Some (N_of_ascii a `mod` 16)%N ∧
  ascii_of_N (N_of_ascii a / 16 * 16 + N_of_ascii a `mod` 16) = a.
Proof. by destruct a as [[] [] [] [] [] [] [] []]. Qed.

Lemma hex_encode_length l : String.length (hex_encode l) = 2 * length l.
Proof. induction l as [|a l IH]; simpl; [done|]. lia. Qed.

Lemma hex_decode_encode l : hex_decode (hex_encode l) = Some l.
Proof.
  induction l as [|a l IH]; [done|].
  destruct (hex_byte_roundtrip a) as (H1 & H2 & H3).
  cbn [hex_encode hex_decode]. rewrite H1. simpl. rewrite H2. simpl. rewrite IH. simpl.
  by rewrite H3.
Qed.

Lemma hex_encode_no_byte l c :
  ContainsByte "0123456789abcdef" c = false → ContainsByte (hex_encode l) c = false.
Proof.
  intros Hc. induction l as [|a l IH]; [done|].
  assert (∀ n, bool_decide (hex_digit n = c) = false) as Hd.
  { intros n. apply bool_decide_eq_false. intros <-.
    revert Hc. unfold hex_digit. by repeat case_match. }
  cbn [hex_encode ContainsByte]. by rewrite !Hd, IH.
Qed.

Lemma uuid_of_bytes_id (u : uuid) : uuid_of_bytes (uuid_bytes u) = Some u.
Proof.
  destruct u as [b p]. unfold uuid_of_bytes. simpl.
  pose proof (bool_decide_unpack _ p). case_match; [|done].
  do 2 f_equal. apply proof_irrel.
Qed.

(** A UUID written out byte by byte. *)
Lemma uuid_cases (u : uuid) :
  ∃ a0 a1 a2 a3 a4 a5 a6 a7 a8 a9 a10 a11 a12 a13 a14 a15,
    uuid_bytes u = [a0; a1; a2; a3; a4; a5; a6; a7; a8; a9; a10; a11; a12; a13; a14; a15].
Proof.
  destruct u as [b p]. pose proof (bool_decide_unpack _ p) as H. simpl. clear p.
  do 16 (destruct b as [|? b]; [done|]). destruct b; [|done]. by repeat eexists.
Qed.

Lemma uuid_String_length u : String.length (uuid_String u) = 36.
Proof.
  unfold uuid_String. autorewrite with str. rewrite !hex_encode_length.
  destruct (uuid_cases u) as (a0&a1&a2&a3&a4&a5&a6&a7&a8&a9&a10&a11&a12&a13&a14&a15&->). done.
Qed.

Lemma uuid_String_no_byte u c :
  ContainsByte "0123456789abcdef-" c = false → ContainsByte (uuid_String u) c = false.
Proof.
  intros Hc.
  assert (ContainsByte "0123456789abcdef" c = false ∧ ContainsByte "-" c = false) as [Hh Hd].
  { change "0123456789abcdef-" with ("0123456789abcdef" +:+ "-") in Hc.
    rewrite ContainsByte_app in Hc. by apply orb_false_iff in Hc. }
  unfold uuid_String. rewrite !ContainsByte_app, !hex_encode_no_byte, !Hd by done. done.
Qed.

Lemma decodeCanonical_String u : decodeCanonical (uuid_String u) = Some u.
Proof.
  unfold uuid_String. rewrite <-(uuid_of_bytes_id u).
  destruct (uuid_cases u) as (a0&a1&a2&a3&a4&a5&a6&a7&a8&a9&a10&a11&a12&a13&a14&a15&->).
  set (t := (_ +:+ _)%string). unfold decodeCanonical.
  assert (sub t 8 1 = "-" ∧ sub t 13 1 = "-" ∧ sub t 18 1 = "-" ∧ sub t 23 1 = "-")%string
    as Hdash by done.
  rewrite bool_decide_true by done.
  change (sub t 0 8) with (hex_encode [a0; a1; a2; a3]).
  change (sub t 9 4) with (hex_encode [a4; a5]).
  change (sub t 14 4) with (hex_encode [a6; a7]).
  change (sub t 19 4) with (hex_encode [a8; a9]).
  change (sub t 24 12) with (hex_encode [a10; a11; a12; a13; a14; a15]).
  by rewrite !hex_decode_encode.
Qed.

Lemma FromString_String u : FromString (uuid_String u) = Ok u.
Proof.
  unfold FromString, UnmarshalText. rewrite uuid_String_length. simpl.
  by rewrite decodeCanonical_String.
Qed.

Lemma uuid_String_inj u v : uuid_String u = uuid_String v → u = v.
Proof. intros H. apply (f_equal FromString) in H. rewrite !FromString_String in H. congruence. Qed.

#[export] Hint Resolve FromString_String : furan.
