(* ===== verification/GoTime.v ===== *)
(** * Go's package time, as the program uses it

    A [time.Time] is a number of seconds since January 1, year 1 (the field
    [ext], an int64) and a number of nanoseconds within the second.  Locations
    and monotonic readings are left out: every time the program stores or
    compares has been through [UTC()], which makes the struct comparison [==]
    of ListBuilds the comparison of these two fields. *)

From S2P Require Import Prelude.

#[local] Open Scope Z_scope.

Record time := Time { t_sec : Z; t_nsec : Z }.

#[export] Instance time_eq_dec : EqDecision time.
Proof. solve_decision. Defined.

(** The zero value, January 1, year 1, 00:00:00 UTC. *)
Definition time_zero : time := Time 0 0.
Definition IsZero (t : time) : bool := bool_decide (t = time_zero).

(** A time the package can hold. *)
Definition time_wf (t : time) : Prop := in_int64 (t_sec t) ∧ 0 ≤ t_nsec t < 10 ^ 9.

(** Seconds from year 1 to the Unix epoch. *)
Definition unixToInternal : Z := 62135596800.

(** [time.Unix(sec, nsec)], including the normalisation of [nsec] (Go's [/]
    truncates, hence [Z.quot]). *)
Definition time_Unix (sec nsec : Z) : time :=
  if (nsec <? 0) || (10 ^ 9 <=? nsec) then
    let n := Z.quot nsec (10 ^ 9) in
    let sec := int64 (sec + n) in
    let nsec := nsec - n * 10 ^ 9 in
    if nsec <? 0 then Time (int64 (int64 (sec - 1) + unixToInternal)) (nsec + 10 ^ 9)
    else Time (int64 (sec + unixToInternal)) nsec
  else Time (int64 (sec + unixToInternal)) nsec.

(** [t.Unix()] and [t.Nanosecond()]. *)
Definition Unix (t : time) : Z := int64 (t_sec t - unixToInternal).
Definition Nanosecond_of (t : time) : Z := t_nsec t.

Definition After (t u : time) : bool :=
  (t_sec u <? t_sec t) || ((t_sec t =? t_sec u) && (t_nsec u <? t_nsec t)).
Definition Before (t u : time) : bool :=
  (t_sec t <? t_sec u) || ((t_sec t =? t_sec u) && (t_nsec t <? t_nsec u)).
Definition Equal (t u : time) : bool := (t_sec t =? t_sec u) && (t_nsec t =? t_nsec u).

(** [t.Add(d)]; [addSec] saturates on overflow. *)
Definition addSec (ext d : Z) : Z :=
  let sum := int64 (ext + d) in
  if Bool.eqb (ext <? sum) (0 <? d) then sum
  else if 0 <? d then 2 ^ 63 - 1 else - (2 ^ 63 - 1).
Definition time_Add (t : time) (d : Z) : time :=
  let dsec := Z.quot d (10 ^ 9) in
  let nsec := t_nsec t + Z.rem d (10 ^ 9) in
  if 10 ^ 9 <=? nsec then Time (addSec (t_sec t) (dsec + 1)) (nsec - 10 ^ 9)
  else if nsec <? 0 then Time (addSec (t_sec t) (dsec - 1)) (nsec + 10 ^ 9)
  else Time (addSec (t_sec t) dsec) nsec.

(** [t.Sub(u)], a duration in nanoseconds; saturates. *)
Definition time_Sub (t u : time) : Z :=
  let d := int64 (int64 (int64 (t_sec t - t_sec u) * 10 ^ 9) + (t_nsec t - t_nsec u)) in
  if Equal (time_Add u d) t then d
  else if Before t u then - 2 ^ 63 else 2 ^ 63 - 1.

(** ** Lemmas *)

Lemma IsZero_spec t : IsZero t = true ↔ t = time_zero.
Proof. unfold IsZero. by rewrite bool_decide_eq_true. Qed.

Lemma negb_IsZero t : negb (IsZero t) = true ↔ t ≠ time_zero.
Proof. rewrite negb_true_iff, <-not_true_iff_false. by rewrite IsZero_spec. Qed.

Lemma Equal_spec t u : Equal t u = true ↔ t = u.
Proof.
  unfold Equal. destruct t, u. simpl. rewrite andb_true_iff, !Z.eqb_eq.
  split; [intros [-> ->]|intros [= -> ->]]; done.
Qed.

Lemma Before_After t u : Before t u = After u t.
Proof. unfold Before, After. by rewrite (Z.eqb_sym (t_sec t)). Qed.

(** The comparisons are a total order: exactly one of the three holds. *)
Lemma time_trichotomy t u :
  (Before t u = true ∧ Equal t u = false ∧ After t u = false) ∨
  (Before t u = false ∧ Equal t u = true ∧ After t u = false) ∨
  (Before t u = false ∧ Equal t u = false ∧ After t u = true).
Proof.
  unfold Before, Equal, After.
  destruct (Z.ltb_spec (t_sec t) (t_sec u)), (Z.ltb_spec (t_sec u) (t_sec t)),
    (Z.eqb_spec (t_sec t) (t_sec u)), (Z.ltb_spec (t_nsec t) (t_nsec u)),
    (Z.ltb_spec (t_nsec u) (t_nsec t)), (Z.eqb_spec (t_nsec t) (t_nsec u));
    simpl; try lia; tauto.
Qed.

(** Not before is after or equal: the ["after or equal"] filters and the ["before"]
    filters of ListBuilds are complementary. *)
Lemma Before_negb t u : Before t u = negb (After t u || Equal t u).
Proof. destruct (time_trichotomy t u) as [(->&->&->)|[(->&->&->)|(->&->&->)]]; done. Qed.

Lemma time_Unix_wf sec nsec : time_wf (time_Unix sec nsec).
Proof.
  unfold time_Unix, time_wf.
  pose proof (Z.quot_rem' nsec (10 ^ 9)).
  assert (Z.rem nsec (10 ^ 9) = nsec - Z.quot nsec (10 ^ 9) * 10 ^ 9) as Hr by lia.
  destruct (Z.ltb_spec nsec 0), (Z.leb_spec (10 ^ 9) nsec); simpl;
    try destruct (Z.ltb_spec (nsec - Z.quot nsec (10 ^ 9) * 10 ^ 9) 0); simpl;
    split; try apply int64_range; rewrite <-?Hr in *; try lia.
  all: pose proof (Z.rem_bound_abs nsec (10 ^ 9) ltac:(lia)); lia.
Qed.

(** A time survives the split into Unix seconds and nanoseconds. *)
Lemma time_Unix_split t : time_wf t → time_Unix (Unix t) (Nanosecond_of t) = t.
Proof.
  intros [Hs Hn]. unfold time_Unix, Unix, Nanosecond_of. destruct t as [s n]; simpl in *.
  destruct (Z.ltb_spec n 0); [lia|]. destruct (Z.leb_spec (10 ^ 9) n); [lia|]. simpl.
  f_equal. unfold int64. replace (s - unixToInternal) with (s + - unixToInternal) by lia.
  replace (wrap_signed 64 (s + - unixToInternal) + unixToInternal)
    with (wrap_signed 64 (s + - unixToInternal) - - unixToInternal) by lia.
  rewrite wrap_signed_add_sub by lia. by apply int64_id.
Qed.

(** Unix seconds and nanoseconds in range survive the trip through [time.Time]. *)
Lemma Unix_time_Unix sec nsec :
  in_int64 sec → 0 ≤ nsec < 10 ^ 9 →
  Unix (time_Unix sec nsec) = sec ∧ Nanosecond_of (time_Unix sec nsec) = nsec.
Proof.
  intros Hs Hn. unfold time_Unix.
  destruct (Z.ltb_spec nsec 0); [lia|]. destruct (Z.leb_spec (10 ^ 9) nsec); [lia|]. simpl.
  split; [|done]. unfold Unix, int64. simpl. rewrite wrap_signed_add_sub by lia.
  by apply int64_id.
Qed.

(** ** Nanoseconds *)

(** Nanoseconds since year 1. *)
Definition abs_ns (t : time) : Z := t_sec t * 10 ^ 9 + t_nsec t.

Lemma Equal_After_abs t u : 0 ≤ t_nsec t < 10 ^ 9 → 0 ≤ t_nsec u < 10 ^ 9 →
  Equal t u || After t u = true ↔ abs_ns u ≤ abs_ns t.
Proof.
  intros Ht Hu. unfold Equal, After, abs_ns.
  rewrite !orb_true_iff, !andb_true_iff, !Z.eqb_eq, !Z.ltb_lt. lia.
Qed.

(** A time within range of the clock. *)
Definition sane (t : time) : Prop := 0 ≤ t_sec t < 2 ^ 62 ∧ 0 ≤ t_nsec t < 10 ^ 9.

Lemma time_Add_abs t d : sane t → 0 ≤ d < 2 ^ 60 →
  abs_ns (time_Add t d) = abs_ns t + d ∧ 0 ≤ t_nsec (time_Add t d) < 10 ^ 9.
Proof.
  intros [Hs Hn] Hd. unfold time_Add, abs_ns.
  rewrite Z.quot_div_nonneg, Z.rem_mod_nonneg by lia.
  pose proof (Z.div_mod d (10 ^ 9) ltac:(lia)). pose proof (Z.mod_pos_bound d (10 ^ 9) ltac:(lia)).
  assert (0 ≤ d / 10 ^ 9) by (apply Z.div_pos; lia).
  assert (∀ k, 0 ≤ k < 2 ^ 61 → addSec (t_sec t) k = t_sec t + k) as Hadd.
  { intros k Hk. unfold addSec. rewrite int64_id by (unfold in_int64; lia).
    destruct (Z.ltb_spec (t_sec t) (t_sec t + k)), (Z.ltb_spec 0 k); simpl; lia. }
  assert (d / 10 ^ 9 ≤ d) by (apply Z.div_le_upper_bound; lia).
  destruct (Z.leb_spec (10 ^ 9) (t_nsec t + d `mod` 10 ^ 9)); simpl; [rewrite Hadd by lia; lia|].
  destruct (Z.ltb_spec (t_nsec t + d `mod` 10 ^ 9) 0); [lia|]. simpl. rewrite Hadd by lia. lia.
Qed.
