(* ===== verification/Poll.v ===== *)
(** * Waiting for a server: dial until it answers or a deadline passes

    The program waits for buildkitd's socket (pkg/buildkit) and for its own server
    (cmd/integration.go) with the same loop: look at the clock, give up at the deadline,
    dial, and pause after a dial that failed. *)

From S2P Require Import Prelude GoTime.

#[local] Open Scope Z_scope.

Section poll.
Context {W : Type} (now : W → time * W) (dial : M W ()) (pause : W → W) (timeout : error).

(** [n] bounds the rounds. *)
Fixpoint poll (n : nat) (deadline : time) : M W () :=
  match n with
  | O => panic out_of_fuel
  | S n' =>
      t ← run now;
      if Equal t deadline || After t deadline then throw timeout
      else
        r ← attempt dial;
        match r with
        | Err _ => run (λ w, ((), pause w)) ;; poll n' deadline
        | _ => mret ()
        end
  end.

(** The clock, in nanoseconds since year 1, moves forward, and by at least [delay] in a pause. *)
Record clock_laws (clk : W → Z) (delay : Z) : Prop := {
  clk_now w : 0 ≤ t_nsec (now w).1 < 10 ^ 9 ∧ clk w ≤ abs_ns (now w).1 ≤ clk (now w).2;
  clk_pause w : clk w + delay ≤ clk (pause w);
  clk_dial w : clk w ≤ clk (dial w).2 ∧ ∀ e, (dial w).1 ≠ Panic e;
}.

(** How waiting ends: with a dial that succeeded, or at the deadline. *)
Definition waited (clk : W → Z) (deadline : Z) (r : res ()) (w' : W) : Prop :=
  match r with
  | Ok _ => ∃ v, (dial v).1 = Ok ()
  | Err e => e = timeout ∧ deadline ≤ clk w'
  | Panic _ => False
  end.

Lemma poll_ends clk delay n deadline w : clock_laws clk delay → 0 ≤ t_nsec deadline < 10 ^ 9 →
  abs_ns deadline ≤ clk w + Z.of_nat n * delay → wp (poll (S n) deadline) (waited clk (abs_ns deadline)) w.
Proof.
  intros Hclk Hd. revert w. induction n as [|n IH]; intros w Hw; cbn [poll]; rewrite wp_bind, wp_run;
    destruct (clk_now _ _ Hclk w) as [Hn [Hle Hle']]; cbn [fst snd];
    destruct (Equal _ _ || After _ _) eqn:Hea.
  1,3: rewrite wp_throw; apply Equal_After_abs in Hea; [split; [done|lia]|done..].
  all: assert (¬ abs_ns deadline ≤ abs_ns (now w).1) as Hlt
    by (rewrite <-Equal_After_abs by done; by rewrite Hea).
  { lia. }
  rewrite wp_bind, wp_attempt. unfold wp at 1.
  destruct (clk_dial _ _ Hclk (now w).2) as [Hcd Hnp].
  destruct (dial (now w).2) as [[[]|e|e] w2] eqn:Ed; simpl in Hcd |- *.
  - rewrite wp_ret. exists (now w).2. by rewrite Ed.
  - change (wp (run (λ w, ((), pause w)) ≫= λ _, poll (S n) deadline) (waited clk (abs_ns deadline)) w2).
    rewrite wp_bind, wp_run. apply IH. cbn [fst snd].
    pose proof (clk_pause _ _ Hclk w2). lia.
  - by apply (Hnp e).
Qed.

(** Waiting [d] from now: [n] pauses fill the time, one round more sees the deadline. *)
Lemma poll_for_ends clk delay n d w : clock_laws clk delay →
  0 ≤ t_sec (now w).1 < 2 ^ 62 → 0 ≤ d < 2 ^ 60 → d ≤ Z.of_nat n * delay →
  wp (t ← run now; poll (S n) (time_Add t d)) (waited clk (clk w + d)) w.
Proof.
  intros Hclk Hs Hd Hn. rewrite wp_bind, wp_run. destruct (clk_now _ _ Hclk w) as [Hns [Hle Hle']].
  destruct (time_Add_abs (now w).1 d (conj Hs Hns) Hd) as [Ha Hn'].
  eapply wp_mono; [|apply (poll_ends clk delay); [done|exact Hn'|lia]].
  intros [[]|e|e] w' H; [done| |done]. destruct H as [-> H]. split; [done|lia].
Qed.

(** What none of the three touches, waiting does not touch. *)
Lemma same_poll {X} (view : W → X) n deadline :
  (∀ w, view (now w).2 = view w) → same view dial → (∀ w, view (pause w) = view w) →
  same view (poll n deadline).
Proof.
  intros Hn Hd Hp. induction n as [|n IH]; [done|]. cbn [poll].
  apply same_bind; [by apply same_run|]. intros t. destruct (_ || _); [done|].
  apply same_bind; [by apply same_attempt|]. intros [?|?|?]; try done.
  apply same_bind; [|done]. by apply same_run.
Qed.
End poll.
