(* ===== verification/Models.v ===== *)
(** * pkg/models: the data of a build, and the interfaces of the program

    The build status and its two encodings, the [Build] and [BuildOpts]
    structs, the timestamps of the API, the credential stored with a build,
    and one record of operations per Go interface of pkg/models. *)

From S2P Require Import Prelude GoStrings GoTime Uuid.

#[local] Open Scope Z_scope.

(** ** Build status *)

(** [type BuildStatus int]. *)
Abbreviation BuildStatus := Z (only parsing).

Definition BuildStatusUnknown : BuildStatus := 0.
Definition BuildStatusNotStarted : BuildStatus := 1.
Definition BuildStatusSkipped : BuildStatus := 2.
Definition BuildStatusRunning : BuildStatus := 3.
Definition BuildStatusFailure : BuildStatus := 4.
Definition BuildStatusSuccess : BuildStatus := 5.
Definition BuildStatusCancelRequested : BuildStatus := 6.
Definition BuildStatusCancelled : BuildStatus := 7.

(** The enumeration [BuildState] of the API (an int32 on the wire). *)
Abbreviation BuildState := Z (only parsing).

Definition BuildState_UNKNOWN : BuildState := 0.
Definition BuildState_NOTSTARTED : BuildState := 1.
Definition BuildState_SKIPPED : BuildState := 2.
Definition BuildState_RUNNING : BuildState := 3.
Definition BuildState_FAILURE : BuildState := 4.
Definition BuildState_SUCCESS : BuildState := 5.
Definition BuildState_CANCEL_REQUESTED : BuildState := 6.
Definition BuildState_CANCELLED : BuildState := 7.

Definition State (bs : BuildStatus) : BuildState :=
  if decide (bs = BuildStatusUnknown) then BuildState_UNKNOWN
  else if decide (bs = BuildStatusNotStarted) then BuildState_NOTSTARTED
  else if decide (bs = BuildStatusSkipped) then BuildState_SKIPPED
  else if decide (bs = BuildStatusRunning) then BuildState_RUNNING
  else if decide (bs = BuildStatusFailure) then BuildState_FAILURE
  else if decide (bs = BuildStatusSuccess) then BuildState_SUCCESS
  else if decide (bs = BuildStatusCancelRequested) then BuildState_CANCEL_REQUESTED
  else if decide (bs = BuildStatusCancelled) then BuildState_CANCELLED
  else BuildState_UNKNOWN.

Definition BuildStatusFromState (s : BuildState) : BuildStatus :=
  if decide (s = BuildState_UNKNOWN) then BuildStatusUnknown
  else if decide (s = BuildState_NOTSTARTED) then BuildStatusNotStarted
  else if decide (s = BuildState_SKIPPED) then BuildStatusSkipped
  else if decide (s = BuildState_RUNNING) then BuildStatusRunning
  else if decide (s = BuildState_FAILURE) then BuildStatusFailure
  else if decide (s = BuildState_SUCCESS) then BuildStatusSuccess
  else if decide (s = BuildState_CANCEL_REQUESTED) then BuildStatusCancelRequested
  else if decide (s = BuildState_CANCELLED) then BuildStatusCancelled
  else BuildStatusUnknown.

Definition TerminalState (bs : BuildStatus) : bool :=
  bool_decide (bs = BuildStatusSuccess) || bool_decide (bs = BuildStatusFailure)
  || bool_decide (bs = BuildStatusSkipped) || bool_decide (bs = BuildStatusCancelled).

(** The stringer of buildstatus_string.go: a slice of one string per status. *)
Definition _BuildStatus_name : string :=
  "BuildStatusUnknownBuildStatusNotStartedBuildStatusSkippedBuildStatusRunningBuildStatusFailureBuildStatusSuccessBuildStatusCancelRequestedBuildStatusCancelled".

Definition _BuildStatus_index : list Z := [0; 18; 39; 57; 75; 93; 111; 137; 157].

Definition BuildStatus_String (i : BuildStatus) : string :=
  if (i <? 0) || (Z.of_nat (length _BuildStatus_index) - 1 <=? i)
  then "BuildStatus(" +:+ fmt_int i +:+ ")"
  else
    let lo := nth (Z.to_nat i) _BuildStatus_index 0 in
    let hi := nth (Z.to_nat (i + 1)) _BuildStatus_index 0 in
    String.substring (Z.to_nat lo) (Z.to_nat (hi - lo)) _BuildStatus_name.

(** ** The messages of the API (protos/api.proto) *)

Definition BuildCacheOpts_UNKNOWN : Z := 0.
Definition BuildCacheOpts_DISABLED : Z := 1.
Definition BuildCacheOpts_S3 : Z := 2.
Definition BuildCacheOpts_INLINE : Z := 3.

Record BuildCacheOpts := { Type_ : Z; MaxMode : bool }.

Record BuildResources := {
  CpuRequest : string;
  CpuLimit : string;
  MemoryRequest : string;
  MemoryLimit : string;
}.

(** The zero value of the struct. *)
Definition BuildResources_zero : BuildResources :=
  {| CpuRequest := ""; CpuLimit := ""; MemoryRequest := ""; MemoryLimit := "" |}.

Record BuildDefinition := {
  bd_GithubRepo : string;
  bd_GithubCredential : string;
  bd_DockerfilePath : string;
  bd_Ref : string;
  bd_Tags : list string;
  bd_TagWithCommitSha : bool;
  bd_Args : gmap string string;
  bd_CacheOptions : option BuildCacheOpts;
  bd_Resources : option BuildResources;
}.

(** A message field is a pointer: [None] is nil.  A [PushRegistryDefinition] is
    its [Repo]. *)
Record BuildRequest := {
  rq_Build : option BuildDefinition;
  rq_Push : option (list (option string));
  rq_SkipIfExists : bool;
}.

Record Timestamp := { Seconds : Z; Nanos : Z }.

(** ** Builds *)

Record BuildOpts := {
  bo_BuildID : uuid;
  bo_ContextPath : string;
  bo_CommitSHA : string;
  bo_RelativeDockerfilePath : string;
  bo_BuildArgs : gmap string string;
  bo_Cache : BuildCacheOpts;
  bo_Resources : BuildResources;
}.

Record Build := {
  b_ID : uuid;
  b_Created : time;
  b_Updated : time;
  b_Completed : time;
  b_GitHubRepo : string;
  b_GitHubRef : string;
  b_EncryptedGitHubCredential : list ascii;
  b_ImageRepos : list string;
  b_Tags : list string;
  b_CommitSHATag : bool;
  b_BuildOptions : BuildOpts;
  b_Request : BuildRequest;
  b_Status : BuildStatus;
  b_Events : list string;
}.

(** The zero values ([models.Build{}]). *)
Definition BuildCacheOpts_zero : BuildCacheOpts := {| Type_ := BuildCacheOpts_UNKNOWN; MaxMode := false |}.
Definition BuildOpts_zero : BuildOpts :=
  {| bo_BuildID := uuid_Nil; bo_ContextPath := ""; bo_CommitSHA := "";
     bo_RelativeDockerfilePath := ""; bo_BuildArgs := ∅; bo_Cache := BuildCacheOpts_zero;
     bo_Resources := BuildResources_zero |}.
Definition BuildRequest_zero : BuildRequest :=
  {| rq_Build := None; rq_Push := None; rq_SkipIfExists := false |}.
Definition Build_zero : Build :=
  {| b_ID := uuid_Nil; b_Created := time_zero; b_Updated := time_zero; b_Completed := time_zero;
     b_GitHubRepo := ""; b_GitHubRef := ""; b_EncryptedGitHubCredential := [];
     b_ImageRepos := []; b_Tags := []; b_CommitSHATag := false;
     b_BuildOptions := BuildOpts_zero; b_Request := BuildRequest_zero;
     b_Status := BuildStatusUnknown; b_Events := [] |}.

#[export] Instance BuildCacheOpts_eq_dec : EqDecision BuildCacheOpts.
Proof. solve_decision. Defined.
#[export] Instance BuildResources_eq_dec : EqDecision BuildResources.
Proof. solve_decision. Defined.
#[export] Instance BuildDefinition_eq_dec : EqDecision BuildDefinition.
Proof. solve_decision. Defined.
#[export] Instance BuildRequest_eq_dec : EqDecision BuildRequest.
Proof. solve_decision. Defined.
#[export] Instance Timestamp_eq_dec : EqDecision Timestamp.
Proof. solve_decision. Defined.
#[export] Instance BuildOpts_eq_dec : EqDecision BuildOpts.
Proof. solve_decision. Defined.
#[export] Instance Build_eq_dec : EqDecision Build.
Proof. solve_decision. Defined.

Definition EventListenable (b : Build) : bool := negb (TerminalState (b_Status b)).
Definition CanAddEvent (b : Build) : bool := EventListenable b.
Definition Running (b : Build) : bool := bool_decide (b_Status b = BuildStatusRunning).

(** Field updates ([b.Field = v]). *)
Definition with_Status (s : BuildStatus) (b : Build) : Build :=
  {| b_ID := b_ID b; b_Created := b_Created b; b_Updated := b_Updated b;
     b_Completed := b_Completed b; b_GitHubRepo := b_GitHubRepo b; b_GitHubRef := b_GitHubRef b;
     b_EncryptedGitHubCredential := b_EncryptedGitHubCredential b;
     b_ImageRepos := b_ImageRepos b; b_Tags := b_Tags b; b_CommitSHATag := b_CommitSHATag b;
     b_BuildOptions := b_BuildOptions b; b_Request := b_Request b; b_Status := s;
     b_Events := b_Events b |}.
Definition with_Times (created updated completed : time) (b : Build) : Build :=
  {| b_ID := b_ID b; b_Created := created; b_Updated := updated;
     b_Completed := completed; b_GitHubRepo := b_GitHubRepo b; b_GitHubRef := b_GitHubRef b;
     b_EncryptedGitHubCredential := b_EncryptedGitHubCredential b;
     b_ImageRepos := b_ImageRepos b; b_Tags := b_Tags b; b_CommitSHATag := b_CommitSHATag b;
     b_BuildOptions := b_BuildOptions b; b_Request := b_Request b; b_Status := b_Status b;
     b_Events := b_Events b |}.
Definition with_Completed (t : time) (b : Build) : Build :=
  with_Times (b_Created b) (b_Updated b) t b.
Definition with_Events (evs : list string) (b : Build) : Build :=
  {| b_ID := b_ID b; b_Created := b_Created b; b_Updated := b_Updated b;
     b_Completed := b_Completed b; b_GitHubRepo := b_GitHubRepo b; b_GitHubRef := b_GitHubRef b;
     b_EncryptedGitHubCredential := b_EncryptedGitHubCredential b;
     b_ImageRepos := b_ImageRepos b; b_Tags := b_Tags b; b_CommitSHATag := b_CommitSHATag b;
     b_BuildOptions := b_BuildOptions b; b_Request := b_Request b; b_Status := b_Status b;
     b_Events := evs |}.
Definition with_ID (id : uuid) (b : Build) : Build :=
  {| b_ID := id; b_Created := b_Created b; b_Updated := b_Updated b;
     b_Completed := b_Completed b; b_GitHubRepo := b_GitHubRepo b; b_GitHubRef := b_GitHubRef b;
     b_EncryptedGitHubCredential := b_EncryptedGitHubCredential b;
     b_ImageRepos := b_ImageRepos b; b_Tags := b_Tags b; b_CommitSHATag := b_CommitSHATag b;
     b_BuildOptions := b_BuildOptions b; b_Request := b_Request b; b_Status := b_Status b;
     b_Events := b_Events b |}.
Definition with_Request (r : BuildRequest) (b : Build) : Build :=
  {| b_ID := b_ID b; b_Created := b_Created b; b_Updated := b_Updated b;
     b_Completed := b_Completed b; b_GitHubRepo := b_GitHubRepo b; b_GitHubRef := b_GitHubRef b;
     b_EncryptedGitHubCredential := b_EncryptedGitHubCredential b;
     b_ImageRepos := b_ImageRepos b; b_Tags := b_Tags b; b_CommitSHATag := b_CommitSHATag b;
     b_BuildOptions := b_BuildOptions b; b_Request := r; b_Status := b_Status b;
     b_Events := b_Events b |}.
Definition with_Credential (c : list ascii) (b : Build) : Build :=
  {| b_ID := b_ID b; b_Created := b_Created b; b_Updated := b_Updated b;
     b_Completed := b_Completed b; b_GitHubRepo := b_GitHubRepo b; b_GitHubRef := b_GitHubRef b;
     b_EncryptedGitHubCredential := c;
     b_ImageRepos := b_ImageRepos b; b_Tags := b_Tags b; b_CommitSHATag := b_CommitSHATag b;
     b_BuildOptions := b_BuildOptions b; b_Request := b_Request b; b_Status := b_Status b;
     b_Events := b_Events b |}.
Definition with_BuildOptions (o : BuildOpts) (b : Build) : Build :=
  {| b_ID := b_ID b; b_Created := b_Created b; b_Updated := b_Updated b;
     b_Completed := b_Completed b; b_GitHubRepo := b_GitHubRepo b; b_GitHubRef := b_GitHubRef b;
     b_EncryptedGitHubCredential := b_EncryptedGitHubCredential b;
     b_ImageRepos := b_ImageRepos b; b_Tags := b_Tags b; b_CommitSHATag := b_CommitSHATag b;
     b_BuildOptions := o; b_Request := b_Request b; b_Status := b_Status b;
     b_Events := b_Events b |}.

(** ** Timestamps *)

Definition TimeFromRPCTimestamp (ts : Timestamp) : time := time_Unix (Seconds ts) (Nanos ts).

Definition RPCTimestampFromTime (t : time) : Timestamp :=
  {| Seconds := Unix t; Nanos := int32 (Nanosecond_of t) |}.

(** ** The GitHub credential of a build *)

(** golang.org/x/crypto/nacl/secretbox: [Seal] gives the box of a message
    (without the nonce the caller puts in front), [Open] the message of a box
    if it authenticates. *)
Class SecretBox := {
  sb_Seal : list ascii → list ascii → list ascii → list ascii;   (* message, nonce, key *)
  sb_Open : list ascii → list ascii → list ascii → option (list ascii);   (* box, nonce, key *)
}.

(** What the package documents: a box opens under its nonce and key. *)
Class SecretBoxLaws `{SecretBox} : Prop := {
  sb_Open_Seal m nonce key : sb_Open (sb_Seal m nonce key) nonce key = Some m;
}.

Section credential.
Context `{SecretBox}.

(** [rand.Read(nonce[:])] wrote the bytes [rd] and returned [err].
    [errors.Wrapf] of a nil error is nil: a short read without an error
    leaves the build as it was, and is no error. *)
Definition EncryptAndSetGitHubCredential (rd : list ascii) (err : option error)
    (cred key : list ascii) (b : Build) : res Build :=
  if bool_decide (err ≠ None) || bool_decide (length rd ≠ 24%nat)
  then match err with
       | Some e => Err (ErrWrap ("error reading random bytes for nonce (read: " +:+
                                 fmt_nat (length rd) +:+ ")") e)
       | None => Ok b
       end
  else Ok (with_Credential (rd ++ sb_Seal cred rd key) b).

(** The slice expressions [[:24]] and [[24:]] panic on a shorter credential;
    opening a box of the empty message gives a nil slice. *)
Definition GetGitHubCredential (b : Build) (key : list ascii) : res string :=
  let enc := b_EncryptedGitHubCredential b in
  if bool_decide (length enc < 24)%nat then Panic "slice bounds out of range"
  else match sb_Open (drop 24 enc) (take 24 enc) key with
       | None => Err (ErrText "decryption error (incorrect key?)")
       | Some [] => Err (ErrText "decrypted token was nil")
       | Some tkn => Ok (String.string_of_list_ascii tkn)
       end.
End credential.

(** ** API keys *)

Record APIKey := {
  ak_ID : uuid;
  ak_Created : time;
  ak_GitHubUser : string;
  ak_Name : string;
  ak_Description : string;
  ak_ReadOnly : bool;
}.

(** ** The interfaces *)

(** A [context.Context], by where it comes from: the background context, the
    caller's, or one derived from another with a cancel function or a timeout. *)
Inductive context :=
  | CtxBackground
  | CtxCaller
  | CtxWithCancel (parent : context)
  | CtxWithTimeout (parent : context) (d : Z).

Record CodeFetcher (W : Type) := {
  GetCommitSHA : context → string → string → M W string;
  Fetch : context → string → string → string → M W ();
}.

Record CacheFetcher (W : Type) := {
  cache_Fetch : context → Build → M W string;
  cache_Save : context → Build → string → M W ();
}.

Record Builder (W : Type) := { builder_Build : context → BuildOpts → M W () }.

Record BuildManager (W : Type) := {
  bm_Start : context → BuildOpts → M W ();
  bm_Run : context → uuid → M W ();
}.

Record TagChecker (W : Type) := {
  AllTagsExist : list string → string → M W (bool * list string);
}.

Arguments GetCommitSHA {_} _ _ _ _ _.
Arguments Fetch {_} _ _ _ _ _ _.
Arguments cache_Fetch {_} _ _ _ _.
Arguments cache_Save {_} _ _ _ _ _.
Arguments builder_Build {_} _ _ _ _.
Arguments bm_Start {_} _ _ _ _.
Arguments bm_Run {_} _ _ _ _.
Arguments AllTagsExist {_} _ _ _ _.

(** A call through an interface value that may be nil. *)
Definition deref {W A} (i : option A) : M W A :=
  match i with
  | Some a => mret a
  | None => panic "invalid memory address or nil pointer dereference"
  end.

(** ** Lemmas *)

Lemma TerminalState_spec s :
  TerminalState s = true ↔
  s = BuildStatusSuccess ∨ s = BuildStatusFailure ∨ s = BuildStatusSkipped ∨
  s = BuildStatusCancelled.
Proof. unfold TerminalState. rewrite !orb_true_iff, !bool_decide_eq_true. tauto. Qed.

Lemma Running_spec b : Running b = true ↔ b_Status b = BuildStatusRunning.
Proof. unfold Running. by rewrite bool_decide_eq_true. Qed.

Lemma Running_not_terminal b : Running b = true → TerminalState (b_Status b) = false.
Proof. rewrite Running_spec. by intros ->. Qed.

(** The valid statuses, for case analysis. *)
Lemma valid_status_cases s : 0 ≤ s ≤ 7 →
  s = 0 ∨ s = 1 ∨ s = 2 ∨ s = 3 ∨ s = 4 ∨ s = 5 ∨ s = 6 ∨ s = 7.
Proof. lia. Qed.

Lemma BuildStatus_String_invalid i : ¬ (0 ≤ i ≤ 7) →
  BuildStatus_String i = "BuildStatus(" +:+ fmt_int i +:+ ")".
Proof.
  intros Hi. unfold BuildStatus_String.
  change (Z.of_nat (length _BuildStatus_index) - 1) with 8.
  destruct (Z.ltb_spec i 0); [done|]. destruct (Z.leb_spec 8 i); [done|lia].
Qed.

#[export] Hint Resolve Running_not_terminal : furan.

(** ** Properties *)

(** The status of the database and the state of the API encode each other:
    both conversions are the identity on the eight named values and send every
    other integer to the unknown value. *)
Theorem status_state_roundtrip s :
  BuildStatusFromState (State s) = (if bool_decide (0 ≤ s ≤ 7) then s else BuildStatusUnknown) ∧
  State (BuildStatusFromState s) = (if bool_decide (0 ≤ s ≤ 7) then s else BuildState_UNKNOWN).
Proof.
  destruct (decide (0 ≤ s ≤ 7)) as [Hs|Hs].
  - rewrite bool_decide_true by done.
    destruct (valid_status_cases s Hs) as [->|[->|[->|[->|[->|[->|[->| ->]]]]]]]; done.
  - rewrite bool_decide_false by done.
    assert (State s = 0 ∧ BuildStatusFromState s = 0) as [-> ->]; [|done].
    unfold State, BuildStatusFromState, BuildStatusUnknown, BuildStatusNotStarted,
      BuildStatusSkipped, BuildStatusRunning, BuildStatusFailure, BuildStatusSuccess,
      BuildStatusCancelRequested, BuildStatusCancelled, BuildState_UNKNOWN,
      BuildState_NOTSTARTED, BuildState_SKIPPED, BuildState_RUNNING, BuildState_FAILURE,
      BuildState_SUCCESS, BuildState_CANCEL_REQUESTED, BuildState_CANCELLED.
    split; repeat (case_decide; [lia|]); done.
Qed.

(** The printed form of a status determines it, in and out of the range of the
    named statuses (the slices of the name table never overlap or collide with
    the ["BuildStatus(n)"] form). *)
Theorem BuildStatus_String_inj i j : BuildStatus_String i = BuildStatus_String j → i = j.
Proof.
  assert (∀ k, 0 ≤ k ≤ 7 → ∀ z, BuildStatus_String k ≠ "BuildStatus(" +:+ fmt_int z +:+ ")")
    as Hne.
  { intros k Hk z E%(f_equal (String.prefix "BuildStatus(")). rewrite prefix_app in E.
    by destruct (valid_status_cases k Hk) as [->|[->|[->|[->|[->|[->|[->| ->]]]]]]]. }
  destruct (decide (0 ≤ i ≤ 7)) as [Hi|Hi], (decide (0 ≤ j ≤ 7)) as [Hj|Hj].
  - destruct (valid_status_cases i Hi) as [->|[->|[->|[->|[->|[->|[->| ->]]]]]]];
      destruct (valid_status_cases j Hj) as [->|[->|[->|[->|[->|[->|[->| ->]]]]]]]; done.
  - rewrite (BuildStatus_String_invalid j Hj). intros H. by destruct (Hne i Hi j).
  - rewrite (BuildStatus_String_invalid i Hi). intros H. by destruct (Hne j Hj i).
  - rewrite !BuildStatus_String_invalid by done.
    intros H%str_app_inj_l. unfold fmt_int in H.
    assert (String.length (pretty i) = String.length (pretty j)) as Hl.
    { apply (f_equal String.length) in H. rewrite !str_app_length in H. lia. }
    apply (str_app_inj_len _ _ _ _ Hl) in H as [H _]. by apply (inj pretty).
Qed.

(** Times survive the API: a stored time is recovered exactly from its
    timestamp, and a timestamp with nanoseconds in range is recovered from its
    time; whatever timestamp a client sends, the result is a well-formed time. *)
Theorem timestamp_roundtrip (t : time) (ts : Timestamp) :
  (time_wf t → TimeFromRPCTimestamp (RPCTimestampFromTime t) = t) ∧
  (in_int64 (Seconds ts) → 0 ≤ Nanos ts < 10 ^ 9 →
     RPCTimestampFromTime (TimeFromRPCTimestamp ts) = ts) ∧
  time_wf (TimeFromRPCTimestamp ts).
Proof.
  split_and!.
  - intros Hwf. unfold TimeFromRPCTimestamp, RPCTimestampFromTime. simpl.
    rewrite int32_id; [by apply time_Unix_split|].
    destruct Hwf as [_ Hn]. unfold in_int32, Nanosecond_of. lia.
  - intros Hs Hn. destruct ts as [s n]. simpl in *.
    unfold TimeFromRPCTimestamp, RPCTimestampFromTime. simpl.
    destruct (Unix_time_Unix s n Hs Hn) as [-> ->].
    rewrite int32_id; [done|]. unfold in_int32. lia.
  - apply time_Unix_wf.
Qed.

(** A credential encrypted into a build is what decryption gives back, unless it
    is empty: an empty credential encrypts but is refused on the way back. *)
Theorem credential_roundtrip `{SecretBoxLaws} nonce cred key b :
  length nonce = 24%nat →
  ∃ b', EncryptAndSetGitHubCredential nonce None (String.list_ascii_of_string cred) key b = Ok b' ∧
        GetGitHubCredential b' key =
          if decide (cred = ""%string) then Err (ErrText "decrypted token was nil") else Ok cred.
Proof.
  intros Hn. unfold EncryptAndSetGitHubCredential.
  rewrite (bool_decide_false (length nonce ≠ _)) by (intros []; done).
  eexists. split; [done|].
  unfold GetGitHubCredential, with_Credential. simpl.
  rewrite bool_decide_false by (rewrite length_app; lia).
  rewrite <-Hn, drop_app_length, take_app_length, sb_Open_Seal.
  destruct cred as [|c s]; [done|]. simpl. by rewrite String.string_of_list_ascii_of_string.
Qed.

(** A box that is the message after a 16-byte tag copied from the key: enough to
    run the model. *)
#[export] Instance toy_SecretBox : SecretBox := {
  sb_Seal m nonce key := take 16 (key ++ replicate 16 Ascii.zero) ++ m;
  sb_Open box nonce key :=
    if decide (take 16 box = take 16 (key ++ replicate 16 Ascii.zero)) then Some (drop 16 box)
    else None;
}.

#[export] Instance toy_SecretBoxLaws : SecretBoxLaws.
Proof.
  constructor. intros m nonce key. simpl.
  assert (length (take 16 (key ++ replicate 16 Ascii.zero)) = 16%nat) as Hl.
  { rewrite length_take, length_app, length_replicate. lia. }
  rewrite take_app_length', decide_True, drop_app_length' by done. done.
Qed.

(** ** Witnesses *)

Lemma BuildStatus_String_inj_witness :
  BuildStatus_String 6 = "BuildStatusCancelRequested"%string ∧ (6 = 2 * 3)%Z.
Proof.
  split; [vm_compute; reflexivity|].
  apply BuildStatus_String_inj. vm_compute. reflexivity.
Defined.

(** The first second of 2020 and half a second. *)
Lemma timestamp_roundtrip_witness :
  let ts := {| Seconds := 1577836800; Nanos := 500000000 |} in
  RPCTimestampFromTime (TimeFromRPCTimestamp ts) = ts ∧ time_wf (TimeFromRPCTimestamp ts).
Proof.
  intros ts. destruct (timestamp_roundtrip time_zero ts) as [_ [H1 H2]].
  split; [|exact H2]. apply H1; simpl; unfold in_int64; lia.
Defined.

Lemma credential_roundtrip_witness :
  ∃ b : Build, GetGitHubCredential b [] = Ok "asdf"%string.
Proof.
  destruct (credential_roundtrip (replicate 24 Ascii.zero) "asdf" []
    (Build_zero) eq_refl) as (b & _ & H).
  exists b. exact H.
Defined.
