(* ===== verification/Datalayer.v ===== *)
(** * pkg/datalayer: the interface, its environment and its contract

    The Go interface [DataLayer] is a record of operations over a world.  The
    implementations (FakeDL, Postgres) run over [env], which adds to their own
    store what Go gives them from outside: random UUIDs, the clock, the order
    of map iteration, and what the rest of the system does while a call is
    blocked.  [DataLayerSpec] is the contract clients rely on; [logged] records
    the calls a client makes, with their outcomes, on any data layer. *)

From S2P Require Import Prelude GoStrings GoTime Uuid Models.

(** ** The interface *)

Record ListBuildsOptions := {
  WithGitHubRepo : string;
  WithGitHubRef : string;
  WithImageRepo : string;
  WithStatus : Z;
  CompletedAfter : time;
  StartedAfter : time;
  CompletedBefore : time;
  StartedBefore : time;
  Limit : N;
}.

#[export] Instance ListBuildsOptions_eq_dec : EqDecision ListBuildsOptions.
Proof. solve_decision. Defined.

Definition ListBuildsOptions_zero : ListBuildsOptions :=
  {| WithGitHubRepo := ""; WithGitHubRef := ""; WithImageRepo := "";
     WithStatus := BuildStatusUnknown; CompletedAfter := time_zero; StartedAfter := time_zero;
     CompletedBefore := time_zero; StartedBefore := time_zero; Limit := 0 |}.

(** The guards of ListBuilds, in order (the same in both implementations). *)
Definition list_guards (opts : ListBuildsOptions) : res () :=
  if decide (opts = ListBuildsOptions_zero)
  then Err (ErrText "at least one list option must be supplied")
  else if negb (IsZero (CompletedBefore opts)) && negb (IsZero (CompletedAfter opts))
          && Equal (CompletedBefore opts) (CompletedAfter opts)
  then Err (ErrText "CompletedBefore and CompletedAfter cannot be equal")
  else if negb (IsZero (StartedBefore opts)) && negb (IsZero (StartedAfter opts))
          && Equal (StartedBefore opts) (StartedAfter opts)
  then Err (ErrText "StartedBefore and StartedAfter cannot be equal")
  else Ok ().

(** [type DataLayer interface].  A channel argument is the action of sending on
    it ([None] is the nil channel). *)
Record DataLayer (W : Type) := {
  CreateBuild : context → Build → M W uuid;
  GetBuildByID : context → uuid → M W Build;
  ListBuilds : context → ListBuildsOptions → M W (list Build);
  SetBuildCompletedTimestamp : context → uuid → time → M W ();
  SetBuildStatus : context → uuid → Z → M W ();
  DeleteBuild : context → uuid → M W ();
  CancelBuild : context → uuid → M W ();
  ListenForCancellation : context → uuid → M W ();
  ListenForBuildEvents : context → uuid → option (string → M W ()) → M W ();
  AddEvent : context → uuid → string → M W ();
  SetBuildAsRunning : context → uuid → M W ();
  ListenForBuildRunning : context → uuid → M W ();
  SetBuildAsCompleted : context → uuid → Z → M W ();
  ListenForBuildCompleted : context → uuid → M W Z;
  CreateAPIKey : context → APIKey → M W uuid;
  GetAPIKey : context → uuid → M W APIKey;
  DeleteAPIKey : context → uuid → M W ();
}.

Arguments CreateBuild {_} _ _ _ _.
Arguments GetBuildByID {_} _ _ _ _.
Arguments ListBuilds {_} _ _ _ _.
Arguments SetBuildCompletedTimestamp {_} _ _ _ _ _.
Arguments SetBuildStatus {_} _ _ _ _ _.
Arguments DeleteBuild {_} _ _ _ _.
Arguments CancelBuild {_} _ _ _ _.
Arguments ListenForCancellation {_} _ _ _ _.
Arguments ListenForBuildEvents {_} _ _ _ _ _.
Arguments AddEvent {_} _ _ _ _ _.
Arguments SetBuildAsRunning {_} _ _ _ _.
Arguments ListenForBuildRunning {_} _ _ _ _.
Arguments SetBuildAsCompleted {_} _ _ _ _ _.
Arguments ListenForBuildCompleted {_} _ _ _ _.
Arguments CreateAPIKey {_} _ _ _ _.
Arguments GetAPIKey {_} _ _ _ _.
Arguments DeleteAPIKey {_} _ _ _ _.

(** ** The environment of an implementation *)

(** How a blocked call is woken up: the messages it gets, then the end of the
    wait (a context that is done, or a broken connection). *)
Inductive wake :=
  | Notified (payload : string)
  | ContextDone.

Record env (S : Type) := Env {
  store : S;
  rand_uuid : nat → res uuid;          (* uuid.NewV4 *)
  clock : nat → time;                  (* time.Now().UTC() *)
  map_order : nat → uuid → N;          (* the order a map or a query is iterated in *)
  blocked : nat → (S → S) * list wake; (* what happens while a call is blocked *)
  tick : nat;                          (* how many of these have been used *)
}.

Arguments Env {_} _ _ _ _ _ _.
Arguments store {_} _.
Arguments rand_uuid {_} _ _.
Arguments clock {_} _ _.
Arguments map_order {_} _ _ _.
Arguments blocked {_} _ _.
Arguments tick {_} _.

(** Visit order of map entries, by a key the environment chooses. *)
Definition visits_before {A} (key : uuid → N) (p q : uuid * A) : Prop := (key p.1 ≤ key q.1)%N.

#[export] Instance visits_before_dec {A} key : RelDecision (visits_before (A := A) key).
Proof. unfold visits_before. intros p q. apply _. Defined.

Section env.
Context {S : Type}.
Implicit Types e : env S.

Definition set_store (s : S) e : env S :=
  Env s (rand_uuid e) (clock e) (map_order e) (blocked e) (tick e).
Definition next e : env S :=
  Env (store e) (rand_uuid e) (clock e) (map_order e) (blocked e) (Datatypes.S (tick e)).

(** [uuid.NewV4()]. *)
Definition NewV4 : M (env S) uuid := λ e, (rand_uuid e (tick e), next e).
(** [time.Now().UTC()]. *)
Definition Now : M (env S) time := λ e, (Ok (clock e (tick e)), next e).

Definition get_store : M (env S) S := λ e, (Ok (store e), e).
Definition put_store (s : S) : M (env S) () := λ e, (Ok (), set_store s e).
Definition modify_store (f : S → S) : M (env S) () := λ e, (Ok (), set_store (f (store e)) e).

(** The entries of a map in the order this iteration visits them. *)
Definition iterate {A} (m : gmap uuid A) : M (env S) (list A) := λ e,
  (Ok ((merge_sort (visits_before (map_order e (tick e))) (map_to_list m)).*2), next e).

(** Block: the rest of the system runs, then the wake-ups arrive. *)
Definition block : M (env S) (list wake) := λ e,
  let '(f, ws) := blocked e (tick e) in (Ok ws, set_store (f (store e)) (next e)).
End env.

(** ** The contract *)

(** What every implementation preserves of a build: all of it but the two
    bookkeeping times, which only one of them maintains. *)
Definition view (b : Build) : Build := with_Times (b_Created b) time_zero time_zero b.

(** The request as it may be stored: without the clear-text credential. *)
Definition scrub (r : BuildRequest) : BuildRequest :=
  {| rq_Build := (λ d, {| bd_GithubRepo := bd_GithubRepo d; bd_GithubCredential := "";
                          bd_DockerfilePath := bd_DockerfilePath d; bd_Ref := bd_Ref d;
                          bd_Tags := bd_Tags d; bd_TagWithCommitSha := bd_TagWithCommitSha d;
                          bd_Args := bd_Args d; bd_CacheOptions := bd_CacheOptions d;
                          bd_Resources := bd_Resources d |}) <$> rq_Build r;
     rq_Push := rq_Push r; rq_SkipIfExists := rq_SkipIfExists r |}.

(** [b'] is the build stored under [id] for the requested build [b]. *)
Record created_from (b b' : Build) (id : uuid) : Prop := {
  cf_id : b_ID b' = id;
  cf_status : b_Status b' = BuildStatusNotStarted;
  cf_repo : b_GitHubRepo b' = b_GitHubRepo b;
  cf_ref : b_GitHubRef b' = b_GitHubRef b;
  cf_cred : b_EncryptedGitHubCredential b' = b_EncryptedGitHubCredential b;
  cf_repos : b_ImageRepos b' = b_ImageRepos b;
  cf_tags : b_Tags b' = b_Tags b;
  cf_sha : b_CommitSHATag b' = b_CommitSHATag b;
  cf_resources : bo_Resources (b_BuildOptions b') = bo_Resources (b_BuildOptions b);
  cf_cache : bo_Cache (b_BuildOptions b') = bo_Cache (b_BuildOptions b);
  cf_args : bo_BuildArgs (b_BuildOptions b') = bo_BuildArgs (b_BuildOptions b);
  cf_dockerfile : bo_RelativeDockerfilePath (b_BuildOptions b')
                  = bo_RelativeDockerfilePath (b_BuildOptions b);
  cf_request : scrub (b_Request b') = scrub (b_Request b);
}.

(** The call changed the builds by [f], or failed.  A call that fails has either
    changed nothing or taken effect without its caller learning of it (the
    connection broke after the statement or the commit was applied). *)
Definition changes {W A} (obs : W → gmap uuid Build)
    (f : gmap uuid Build → gmap uuid Build) (w : W) (r : res A) (w' : W) : Prop :=
  match r with
  | Ok _ => obs w' = f (obs w)
  | _ => obs w' = obs w ∨ obs w' = f (obs w)
  end.

(** The contract of a data layer whose stored builds are [obs] (up to [view]). *)
Class DataLayerSpec {W} (dl : DataLayer W) (obs : W → gmap uuid Build) : Prop := {
  spec_Create ctx b w :
    wp (CreateBuild dl ctx b) (λ r w',
      match r with
      | Ok id => ∃ b', obs w' = <[id := b']> (obs w) ∧ created_from b b' id
      | _ => obs w' = obs w ∨
             ∃ id b', obs w' = <[id := b']> (obs w) ∧ created_from b b' id
      end) w;
  spec_Get ctx id w :
    wp (GetBuildByID dl ctx id) (λ r w',
      obs w' = obs w ∧
      match r with
      | Ok b => obs w !! id = Some (view b)
      | Err ErrNotFound => obs w !! id = None
      | Err _ => True
      | Panic _ => False
      end) w;
  spec_AddEvent ctx id ev w :
    wp (AddEvent dl ctx id ev)
       (changes obs (alter (λ b, with_Events (b_Events b ++ [ev]) b) id) w) w;
  spec_SetRunning ctx id w :
    wp (SetBuildAsRunning dl ctx id) (changes obs (alter (with_Status BuildStatusRunning) id) w) w;
  spec_SetCompleted ctx id s w :
    TerminalState s = true →
    wp (SetBuildAsCompleted dl ctx id s) (changes obs (alter (with_Status s) id) w) w;
  spec_Cancel ctx id b w :
    obs w !! id = Some b → Running b = true →
    wp (CancelBuild dl ctx id)
       (changes obs (alter (with_Status BuildStatusCancelRequested) id) w) w;
  spec_SetStatus ctx id s w :
    wp (SetBuildStatus dl ctx id s) (changes obs (alter (with_Status s) id) w) w;
  spec_SetCompletedTimestamp ctx id t w :
    wp (SetBuildCompletedTimestamp dl ctx id t) (changes obs (λ m, m) w) w;
  spec_Delete ctx id w :
    wp (DeleteBuild dl ctx id) (changes obs (delete id) w) w;
}.

(** What a build must satisfy to be listed: every option that is set narrows the
    list (an implicit AND). *)
Definition list_match (o : ListBuildsOptions) (b : Build) : Prop :=
  (WithGitHubRepo o ≠ ""%string → b_GitHubRepo b = WithGitHubRepo o) ∧
  (WithGitHubRef o ≠ ""%string → b_GitHubRef b = WithGitHubRef o) ∧
  (WithImageRepo o ≠ ""%string → WithImageRepo o ∈ b_ImageRepos b) ∧
  (WithStatus o ≠ BuildStatusUnknown → b_Status b = WithStatus o) ∧
  (CompletedAfter o ≠ time_zero → Before (b_Completed b) (CompletedAfter o) = false) ∧
  (StartedAfter o ≠ time_zero → Before (b_Created b) (StartedAfter o) = false) ∧
  (CompletedBefore o ≠ time_zero →
     b_Completed b ≠ time_zero ∧ Before (b_Completed b) (CompletedBefore o) = true) ∧
  (StartedBefore o ≠ time_zero →
     b_Created b ≠ time_zero ∧ Before (b_Created b) (StartedBefore o) = true).

#[export] Instance list_match_dec o b : Decision (list_match o b).
Proof. unfold list_match. apply _. Defined.

(** [out] lists the builds of [m] that satisfy [o]: all of them without a limit,
    that many of them (or all, if there are fewer) with one. *)
Definition lists (o : ListBuildsOptions) (m : list Build) (out : list Build) : Prop :=
  ∃ all, all ≡ₚ base.filter (list_match o) m ∧
         out = if decide (Limit o = 0%N) then all else take (N.to_nat (Limit o)) all.

(** ** Recording the calls of a client *)

(** The calls that write to a build, with whether they succeeded. *)
Inductive dlcall :=
  | LCreate (b : Build) (r : res uuid)
  | LAddEvent (ctx : context) (id : uuid) (ev : string) (ok : bool)
  | LSetStatus (id : uuid) (s : Z) (ok : bool)
  | LSetRunning (ctx : context) (id : uuid) (ok : bool)
  | LSetCompleted (ctx : context) (id : uuid) (s : Z) (ok : bool)
  | LCancel (id : uuid) (ok : bool)
  | LDelete (id : uuid) (ok : bool).

Definition isOk {A} (r : res A) : bool := match r with Ok _ => true | _ => false end.

(** Run [m] on the first component of the world. *)
Definition on_fst {W L A} (m : M W A) : M (W * L) A := λ '(w, l),
  let '(r, w') := m w in (r, (w', l)).

(** Run [m] and append what [f] says of its outcome to the log. *)
Definition logging {W A} (f : res A → dlcall) (m : M W A) : M (W * list dlcall) A := λ '(w, l),
  let '(r, w') := m w in (r, (w', l ++ [f r])).

Definition run_callback {W L A} (k : A → M (W * L) ()) (l : L) : A → M W () := λ a w,
  let '(r, (w', _)) := k a (w, l) in (r, w').

Definition logged {W} (dl : DataLayer W) : DataLayer (W * list dlcall) := {|
  CreateBuild ctx b := logging (LCreate b) (CreateBuild dl ctx b);
  GetBuildByID ctx id := on_fst (GetBuildByID dl ctx id);
  ListBuilds ctx o := on_fst (ListBuilds dl ctx o);
  SetBuildCompletedTimestamp ctx id t := on_fst (SetBuildCompletedTimestamp dl ctx id t);
  SetBuildStatus ctx id s := logging (λ r, LSetStatus id s (isOk r)) (SetBuildStatus dl ctx id s);
  DeleteBuild ctx id := logging (λ r, LDelete id (isOk r)) (DeleteBuild dl ctx id);
  CancelBuild ctx id := logging (λ r, LCancel id (isOk r)) (CancelBuild dl ctx id);
  ListenForCancellation ctx id := on_fst (ListenForCancellation dl ctx id);
  ListenForBuildEvents ctx id c := λ '(w, l),
    let '(r, w') := ListenForBuildEvents dl ctx id ((λ k, run_callback k l) <$> c) w in (r, (w', l));
  AddEvent ctx id ev := logging (λ r, LAddEvent ctx id ev (isOk r)) (AddEvent dl ctx id ev);
  SetBuildAsRunning ctx id :=
    logging (λ r, LSetRunning ctx id (isOk r)) (SetBuildAsRunning dl ctx id);
  ListenForBuildRunning ctx id := on_fst (ListenForBuildRunning dl ctx id);
  SetBuildAsCompleted ctx id s :=
    logging (λ r, LSetCompleted ctx id s (isOk r)) (SetBuildAsCompleted dl ctx id s);
  ListenForBuildCompleted ctx id := on_fst (ListenForBuildCompleted dl ctx id);
  CreateAPIKey ctx k := on_fst (CreateAPIKey dl ctx k);
  GetAPIKey ctx id := on_fst (GetAPIKey dl ctx id);
  DeleteAPIKey ctx id := on_fst (DeleteAPIKey dl ctx id);
|}.

(** ** Lemmas *)

Section lemmas.
Context {W : Type}.

Lemma wp_on_fst {L A} (m : M W A) (l : L) Q w :
  wp (on_fst m) Q (w, l) ↔ wp m (λ r w', Q r (w', l)) w.
Proof. unfold wp, on_fst. by destruct (m w). Qed.

Lemma wp_logging {A} f (m : M W A) l Q w :
  wp (logging f m) Q (w, l) ↔ wp m (λ r w', Q r (w', l ++ [f r])) w.
Proof. unfold wp, logging. by destruct (m w). Qed.
End lemmas.

#[export] Hint Rewrite @wp_on_fst @wp_logging : wp.

(** A computation that adds nothing to the log. *)
Definition keeps_log {W L A} (m : M (W * L) A) : Prop := ∀ w l, (m (w, l)).2.2 = l.

Section keeps_log.
Context {W L : Type}.

Lemma wp_keeps_log {A} (m : M (W * L) A) (Q : res A → W * L → Prop) w l :
  keeps_log m → (∀ r w', Q r (w', l)) → wp m Q (w, l).
Proof.
  intros Hm HQ. unfold wp. specialize (Hm w l). destruct (m (w, l)) as [r [w' l']].
  simpl in *. subst. apply HQ.
Qed.

Lemma wp_keeps_log_eq {A} (m : M (W * L) A) (Q : res A → W * L → Prop) w l :
  keeps_log m → (∀ r w', m (w, l) = (r, (w', l)) → Q r (w', l)) → wp m Q (w, l).
Proof.
  intros Hm HQ. unfold wp. specialize (Hm w l). destruct (m (w, l)) as [r [w' l']].
  simpl in *. subst. by apply HQ.
Qed.

Lemma keeps_ret {A} (a : A) : keeps_log (mret a : M (W * L) A).
Proof. done. Qed.
Lemma keeps_throw {A} e : keeps_log (throw e : M (W * L) A).
Proof. done. Qed.
Lemma keeps_panic {A} p : keeps_log (panic p : M (W * L) A).
Proof. done. Qed.
Lemma keeps_lift_res {A} (r : res A) : keeps_log (lift_res r : M (W * L) A).
Proof. done. Qed.
Lemma keeps_deref {A} (o : option A) : keeps_log (deref o : M (W * L) A).
Proof. by destruct o. Qed.
Lemma keeps_bind {A B} (m : M (W * L) A) (f : A → M (W * L) B) :
  keeps_log m → (∀ a, keeps_log (f a)) → keeps_log (m ≫= f).
Proof.
  intros Hm Hf w l. unfold mbind, M_bind. specialize (Hm w l).
  destruct (m (w, l)) as [[a|e|p] [w' l']]; simpl in *; subst; [apply Hf|done..].
Qed.
Lemma keeps_deref_some {A B} (a : A) (f : A → M (W * L) B) :
  keeps_log (f a) → keeps_log (deref (Some a) ≫= f).
Proof. done. Qed.
Lemma keeps_ret_bind {A B} (a : A) (f : A → M (W * L) B) :
  keeps_log (f a) → keeps_log (mret a ≫= f).
Proof. done. Qed.
Lemma keeps_attempt {A} (m : M (W * L) A) : keeps_log m → keeps_log (attempt m).
Proof.
  intros Hm w l. unfold attempt. specialize (Hm w l). by destruct (m (w, l)) as [[a|e|p] [w' l']].
Qed.
Lemma keeps_on_err {A} g (m : M (W * L) A) : keeps_log m → keeps_log (on_err g m).
Proof.
  intros Hm w l. unfold on_err. specialize (Hm w l). by destruct (m (w, l)) as [[a|e|p] [w' l']].
Qed.
Lemma keeps_ignore_err {A} (m : M (W * L) A) : keeps_log m → keeps_log (ignore_err m).
Proof. intros Hm. apply keeps_bind; [by apply keeps_attempt|]. intros ?. apply keeps_ret. Qed.
Lemma keeps_deferring {A} d (m : M (W * L) A) :
  (∀ r, keeps_log (d r)) → keeps_log m → keeps_log (deferring d m).
Proof.
  intros Hd Hm w l. unfold deferring. specialize (Hm w l). destruct (m (w, l)) as [r [w' l']].
  simpl in *. subst. specialize (Hd r w' l).
  by destruct (d r (w', l)) as [[?|?|?] [? ?]].
Qed.
Lemma keeps_mforeach {A} (f : A → M (W * L) ()) l :
  (∀ a, keeps_log (f a)) → keeps_log (mforeach f l).
Proof. intros Hf. induction l; simpl; [apply keeps_ret|]. by apply keeps_bind. Qed.
Lemma keeps_on_fst {A} (m : M W A) : keeps_log (on_fst (L := L) m).
Proof. intros w l. unfold on_fst. by destruct (m w). Qed.
End keeps_log.

(** The calls that only add events. *)
Definition is_event (c : dlcall) : Prop := match c with LAddEvent _ _ _ _ => True | _ => False end.

(** A computation whose only writes to builds are events. *)
Definition adds_events {W A} (m : M (W * list dlcall) A) : Prop :=
  ∀ w l, ∃ evs, (m (w, l)).2.2 = l ++ evs ∧ Forall is_event evs.

Section adds_events.
Context {W : Type}.

Lemma adds_keeps {A} (m : M (W * list dlcall) A) : keeps_log m → adds_events m.
Proof. intros Hm w l. exists []. by rewrite Hm, app_nil_r. Qed.

Lemma wp_adds_events {A} (m : M (W * list dlcall) A) (Q : res A → W * list dlcall → Prop) w l :
  adds_events m →
  (∀ r w' evs, (m (w, l)).1 = r → Forall is_event evs → Q r (w', l ++ evs)) → wp m Q (w, l).
Proof.
  intros Hm HQ. unfold wp. destruct (Hm w l) as (evs & Hl & Hevs).
  destruct (m (w, l)) as [r [w' l']]. simpl in *. subst. by apply HQ.
Qed.

Lemma wp_adds_events_eq {A} (m : M (W * list dlcall) A) (Q : res A → W * list dlcall → Prop) w l :
  adds_events m →
  (∀ r w' evs, m (w, l) = (r, (w', l ++ evs)) → Forall is_event evs → Q r (w', l ++ evs)) →
  wp m Q (w, l).
Proof.
  intros Hm HQ. unfold wp. destruct (Hm w l) as (evs & Hl & Hevs).
  destruct (m (w, l)) as [r [w' l']]. simpl in *. subst. by apply HQ.
Qed.

(** [a] is a result of [m] in some world. *)
Definition returns {W A} (m : M W A) (a : A) : Prop := ∃ w w', m w = (Ok a, w').

Lemma adds_bind_returned {A B} (m : M (W * list dlcall) A) (f : A → M (W * list dlcall) B) :
  adds_events m → (∀ a, returns m a → adds_events (f a)) → adds_events (m ≫= f).
Proof.
  intros Hm Hf w l. unfold mbind, M_bind. destruct (Hm w l) as (evs & Hl & Hevs).
  destruct (m (w, l)) as [[a|e|p] [w' l']] eqn:E; simpl in *; subst; [|by eexists..].
  destruct (Hf a ltac:(by do 2 eexists) w' (l ++ evs)) as (evs' & -> & Hevs').
  exists (evs ++ evs'). rewrite app_assoc. split; [done|]. by apply Forall_app.
Qed.
Lemma adds_bind {A B} (m : M (W * list dlcall) A) (f : A → M (W * list dlcall) B) :
  adds_events m → (∀ a, adds_events (f a)) → adds_events (m ≫= f).
Proof. intros Hm Hf. by apply adds_bind_returned. Qed.
Lemma returns_on_err {A} g (m : M W A) a : returns (on_err g m) a → returns m a.
Proof.
  intros (w & w' & H). unfold on_err in H. destruct (m w) as [[?|?|?] w1] eqn:E; simplify_eq.
  by exists w, w'.
Qed.
Lemma adds_attempt {A} (m : M (W * list dlcall) A) : adds_events m → adds_events (attempt m).
Proof.
  intros Hm w l. unfold attempt. destruct (Hm w l) as (evs & Hl & Hevs).
  destruct (m (w, l)) as [[a|e|p] [w' l']]; simpl in *; subst; by eexists.
Qed.
Lemma adds_on_err {A} g (m : M (W * list dlcall) A) : adds_events m → adds_events (on_err g m).
Proof.
  intros Hm w l. unfold on_err. destruct (Hm w l) as (evs & Hl & Hevs).
  destruct (m (w, l)) as [[a|e|p] [w' l']]; simpl in *; subst; by eexists.
Qed.
Lemma adds_AddEvent (dl : DataLayer W) ctx id ev : adds_events (AddEvent (logged dl) ctx id ev).
Proof.
  intros w l. simpl. unfold logging. destruct (AddEvent dl ctx id ev w) as [r w'].
  eexists. split; [done|]. by repeat constructor.
Qed.
End adds_events.

#[export] Hint Resolve adds_AddEvent adds_keeps : furan.
#[export] Hint Resolve keeps_ret keeps_throw keeps_panic keeps_lift_res keeps_deref keeps_bind
  keeps_attempt keeps_on_err keeps_ignore_err keeps_deferring keeps_mforeach keeps_on_fst : furan.

(** Walk through a program that only calls operations known not to log. *)
Ltac keeps_log_solve :=
  repeat (intros; simpl;
    match goal with
    | |- keeps_log (match ?x with _ => _ end) => destruct x
    | |- keeps_log (wrapf _ _) => unfold wrapf
    | |- keeps_log (deref (Some _) ≫= _) => apply keeps_deref_some
    | |- keeps_log (mret _ ≫= _) => apply keeps_ret_bind
    | |- _ => solve [eauto 2 with furan]
    | |- keeps_log _ => first [apply keeps_bind | apply keeps_on_err | apply keeps_attempt
                              | apply keeps_ignore_err | apply keeps_mforeach | apply keeps_deferring]
    end).

Section env_lemmas.
Context {S : Type}.
Implicit Types e : env S.

Lemma wp_NewV4 Q e : wp NewV4 Q e ↔ Q (rand_uuid e (tick e)) (next e).
Proof. done. Qed.
Lemma wp_Now Q e : wp Now Q e ↔ Q (Ok (clock e (tick e))) (next e).
Proof. done. Qed.
Lemma wp_get_store Q e : wp get_store Q e ↔ Q (Ok (store e)) e.
Proof. done. Qed.
Lemma wp_put_store s Q e : wp (put_store s) Q e ↔ Q (Ok ()) (set_store s e).
Proof. done. Qed.
Lemma wp_modify_store f Q e :
  wp (modify_store f) Q e ↔ Q (Ok ()) (set_store (f (store e)) e).
Proof. done. Qed.

(** A map iteration visits every entry exactly once, in some order. *)
Lemma wp_iterate {A} (m : gmap uuid A) (Q : res (list A) → env S → Prop) e :
  (∀ l, l ≡ₚ (map_to_list m).*2 → Q (Ok l) (next e)) → wp (iterate m) Q e.
Proof. intros H. apply H. simpl. by rewrite merge_sort_Permutation. Qed.
End env_lemmas.

#[export] Hint Rewrite @wp_NewV4 @wp_Now @wp_get_store @wp_put_store @wp_modify_store : wp.

Lemma view_idemp b : view (view b) = view b.
Proof. done. Qed.
Lemma scrub_idemp r : scrub (scrub r) = scrub r.
Proof. destruct r as [[?|] ? ?]; done. Qed.

(** The abstraction of a map of builds commutes with every field update that
    does not touch the bookkeeping times. *)
Lemma view_alter f id (m : gmap uuid Build) :
  (∀ b, view (f b) = f (view b)) → view <$> alter f id m = alter f id (view <$> m).
Proof.
  intros Hf. apply map_eq. intros j. rewrite lookup_fmap.
  destruct (decide (id = j)) as [->|Hne].
  - rewrite !lookup_alter_eq, lookup_fmap. destruct (m !! j); simpl; [by rewrite Hf|done].
  - by rewrite !lookup_alter_ne, lookup_fmap.
Qed.

Lemma view_alter_times f id (m : gmap uuid Build) :
  (∀ b, view (f b) = view b) → view <$> alter f id m = view <$> m.
Proof.
  intros Hf. apply map_eq. intros j. rewrite !lookup_fmap.
  destruct (decide (id = j)) as [->|Hne].
  - rewrite lookup_alter_eq. destruct (m !! j); simpl; [by rewrite Hf|done].
  - by rewrite lookup_alter_ne.
Qed.

(** Updating a build that does not exist changes nothing. *)
Lemma alter_missing {A} (f : A → A) (id : uuid) (m : gmap uuid A) :
  m !! id = None → alter f id m = m.
Proof.
  intros Hm. apply map_eq. intros j. destruct (decide (id = j)) as [->|Hne].
  - by rewrite lookup_alter_eq, Hm.
  - by rewrite lookup_alter_ne.
Qed.

Lemma lookup_view id (m : gmap uuid Build) : (view <$> m) !! id = view <$> (m !! id).
Proof. apply lookup_fmap. Qed.

#[export] Hint Resolve view_alter view_alter_times : furan.

(** ** Properties *)

Lemma created_from_view b b' id : created_from b (view b') id → created_from b b' id.
Proof. by intros [? ? ? ? ? ? ? ? ? ? ? ? ?]; constructor. Qed.

(** On every implementation of the interface a build that was created is found
    under its ID, not started, with the fields it was created with. *)
Theorem created_build_is_found {W} (dl : DataLayer W) (obs : W → gmap uuid Build)
    (Hdl : DataLayerSpec dl obs) ctx b w :
  wp (CreateBuild dl ctx b) (λ r w',
    match r with
    | Ok id => wp (GetBuildByID dl ctx id) (λ r' _,
        match r' with
        | Ok b' => created_from b b' id
        | Err e => e ≠ ErrNotFound
        | Panic _ => False
        end) w'
    | _ => True
    end) w.
Proof.
  eapply wp_mono; [|apply (spec_Create ctx b w)]. intros [id|e|p] w'; [|done..].
  intros (b' & Hobs & Hb'). eapply wp_mono; [|apply (spec_Get ctx id w')].
  rewrite Hobs, lookup_insert_eq. intros [b2|e2|p] w2 [_ H]; [|by intros ->|done].
  simplify_eq. by apply created_from_view.
Qed.

(** ** Samples *)

(** The database is down. *)
Definition down_dl {W} : DataLayer W :=
  let down {A} : M W A := throw (ErrNetOp false false) in {|
  CreateBuild _ _ := down; GetBuildByID _ _ := down; ListBuilds _ _ := down;
  SetBuildCompletedTimestamp _ _ _ := down; SetBuildStatus _ _ _ := down;
  DeleteBuild _ _ := down; CancelBuild _ _ := down; ListenForCancellation _ _ := down;
  ListenForBuildEvents _ _ _ := down; AddEvent _ _ _ := down; SetBuildAsRunning _ _ := down;
  ListenForBuildRunning _ _ := down; SetBuildAsCompleted _ _ _ := down;
  ListenForBuildCompleted _ _ := down; CreateAPIKey _ _ := down; GetAPIKey _ _ := down;
  DeleteAPIKey _ _ := down |}.
