(* ===== verification/FakeDL.v ===== *)
(** * pkg/datalayer/fake.go: the in-memory data layer

    [FakeDataLayer] keeps builds, API keys and the channels of the goroutines
    that listen for notifications in maps.  A map field is nil until [init]
    has run.  A channel is named by the tick it was made at; sending on it is
    recorded in [sent], and panics once the channel is closed.  The mutex serialises the operations, so each is one
    step of the world, except that a listener blocks in the middle. *)

From S2P Require Import Prelude GoStrings GoTime Uuid Models Datalayer.

(** What is sent on a listener's channel. *)
Inductive chan_val :=
  | VEvent (ev : string)
  | VSignal
  | VStatus (s : Z).

Record FakeDataLayer := MkFake {
  fd_d : option (gmap uuid Build);
  fd_apikeys : option (gmap uuid APIKey);
  fd_listeners : option (gmap uuid (list nat));
  fd_cxllisteners : option (gmap uuid (list nat));
  fd_runlisteners : option (gmap uuid (list nat));
  fd_donelisteners : option (gmap uuid (list nat));
}.

Record fake_store := FakeStore {
  fdl : FakeDataLayer;
  sent : list (nat * chan_val);
  closed : list nat;
}.

Abbreviation fake_world := (env fake_store) (only parsing).

Module Fake.

Definition init_store (s : fake_store) : fake_store :=
  FakeStore
    {| fd_d := Some (default ∅ (fd_d (fdl s)));
       fd_apikeys := Some (default ∅ (fd_apikeys (fdl s)));
       fd_listeners := Some (default ∅ (fd_listeners (fdl s)));
       fd_cxllisteners := Some (default ∅ (fd_cxllisteners (fdl s)));
       fd_runlisteners := Some (default ∅ (fd_runlisteners (fdl s)));
       fd_donelisteners := Some (default ∅ (fd_donelisteners (fdl s))) |}
    (sent s) (closed s).

(** [fdl.init()]. *)
Definition init : M fake_world () := modify_store init_store.

(** Reading a map that may be nil. *)
Definition d (s : fake_store) : gmap uuid Build := default ∅ (fd_d (fdl s)).
Definition apikeys (s : fake_store) : gmap uuid APIKey := default ∅ (fd_apikeys (fdl s)).

(** The four maps of listeners. *)
Inductive listener_kind := Events | Cancellation | RunningL | Done.

Definition listeners (k : listener_kind) (s : fake_store) : gmap uuid (list nat) :=
  default ∅ (match k with
             | Events => fd_listeners (fdl s)
             | Cancellation => fd_cxllisteners (fdl s)
             | RunningL => fd_runlisteners (fdl s)
             | Done => fd_donelisteners (fdl s)
             end).

Definition with_d (m : gmap uuid Build) (s : fake_store) : fake_store :=
  let f := fdl s in
  FakeStore (MkFake (Some m) (fd_apikeys f) (fd_listeners f) (fd_cxllisteners f)
    (fd_runlisteners f) (fd_donelisteners f)) (sent s) (closed s).
Definition with_apikeys (m : gmap uuid APIKey) (s : fake_store) : fake_store :=
  let f := fdl s in
  FakeStore (MkFake (fd_d f) (Some m) (fd_listeners f) (fd_cxllisteners f)
    (fd_runlisteners f) (fd_donelisteners f)) (sent s) (closed s).
Definition with_listeners (k : listener_kind) (m : gmap uuid (list nat)) (s : fake_store) :
    fake_store :=
  let f := fdl s in
  FakeStore (MkFake (fd_d f) (fd_apikeys f)
    (match k with Events => Some m | _ => fd_listeners f end)
    (match k with Cancellation => Some m | _ => fd_cxllisteners f end)
    (match k with RunningL => Some m | _ => fd_runlisteners f end)
    (match k with Done => Some m | _ => fd_donelisteners f end)) (sent s) (closed s).

(** [c <- v]. *)
Definition chan_send (v : chan_val) (c : nat) : M fake_world () :=
  s ← get_store;
  if bool_decide (c ∈ closed s) then panic "send on closed channel"
  else put_store (FakeStore (fdl s) (sent s ++ [(c, v)]) (closed s)).

(** [for _, c := range fdl.xlisteners[id] { c <- v }]. *)
Definition notify (k : listener_kind) (id : uuid) (v : chan_val) : M fake_world () :=
  s ← get_store;
  mforeach (chan_send v) (default [] (listeners k s !! id)).

(** Append a new channel to the listeners of [id]. *)
Definition add_listener (k : listener_kind) (id : uuid) : M fake_world nat := λ e,
  let c := tick e in
  let m := listeners k (store e) in
  (Ok c, next (set_store (with_listeners k (<[id := default [] (m !! id) ++ [c]]> m) (store e)) e)).

(** The deferred removal: the index is recomputed as the last one. *)
Definition remove_listener_map (id : uuid) (m : gmap uuid (list nat)) : gmap uuid (list nat) :=
  let l := default [] (m !! id) in
  let i := (Z.of_nat (length l) - 1)%Z in
  if (i <? 0)%Z then m
  else if (i =? 0)%Z then delete id m
  else <[id := take (Z.to_nat i) l ++ drop (Z.to_nat (i + 1)) l]> m.

Definition closing_kind (k : listener_kind) : bool :=
  match k with Events => false | _ => true end.

(** The event listener never closes its channel [c]; the others do, but not on
    the early returns. *)
Definition remove_listener (k : listener_kind) (id : uuid) (c : nat) : M fake_world () :=
  modify_store (λ s,
    let m := listeners k s in
    let s' := with_listeners k (remove_listener_map id m) s in
    if closing_kind k && (1 <? Z.of_nat (length (default [] (m !! id))))%Z
    then FakeStore (fdl s') (sent s') (c :: closed s') else s').

(** ** The operations *)

Definition CreateBuild (b : Build) : M fake_world uuid :=
  init ;;
  id ← (λ e, match NewV4 e with (Err _, e') => (Panic "uuid.Must", e') | p => p end);
  now ← Now;
  modify_store (λ s,
    with_d (<[id := with_Times now (b_Updated b) (b_Completed b)
                      (with_Status BuildStatusNotStarted (with_ID id b))]> (d s)) s) ;;
  mret id.

Definition GetBuildByID (id : uuid) : M fake_world Build :=
  init ;;
  s ← get_store;
  match d s !! id with
  | None => throw ErrNotFound
  | Some b => mret b
  end.

(** The local [filter] closure. *)
Definition filter (cf : Build → bool) (builds : list Build) : list Build :=
  base.filter (λ b, cf b = true) builds.

(** [if set { out = filter(out, cf) }]. *)
Definition filter_if (set : bool) (cf : Build → bool) (out : list Build) : list Build :=
  if set then filter cf out else out.

Definition str_set (s : string) : bool := bool_decide (s ≠ ""%string).

Definition list_filters (opts : ListBuildsOptions) (out : list Build) : list Build :=
  let out := filter_if (str_set (WithGitHubRepo opts))
               (λ e, bool_decide (b_GitHubRepo e = WithGitHubRepo opts)) out in
  let out := filter_if (str_set (WithGitHubRef opts))
               (λ e, bool_decide (b_GitHubRef e = WithGitHubRef opts)) out in
  let out := filter_if (str_set (WithImageRepo opts))
               (λ e, existsb (λ ir, bool_decide (ir = WithImageRepo opts)) (b_ImageRepos e)) out in
  let out := filter_if (bool_decide (WithStatus opts ≠ BuildStatusUnknown))
               (λ e, bool_decide (b_Status e = WithStatus opts)) out in
  let out := filter_if (negb (IsZero (CompletedAfter opts)))
               (λ e, After (b_Completed e) (CompletedAfter opts)
                     || Equal (b_Completed e) (CompletedAfter opts)) out in
  let out := filter_if (negb (IsZero (StartedAfter opts)))
               (λ e, After (b_Created e) (StartedAfter opts)
                     || Equal (b_Created e) (StartedAfter opts)) out in
  let out := filter_if (negb (IsZero (CompletedBefore opts)))
               (λ e, if IsZero (b_Completed e) then false
                     else Before (b_Completed e) (CompletedBefore opts)) out in
  filter_if (negb (IsZero (StartedBefore opts)))
    (λ e, if IsZero (b_Created e) then false
          else Before (b_Created e) (StartedBefore opts)) out.

(** [out[:n]]: the slice is long enough or the program panics (no capacity is
    larger than an [int]). *)
Definition slice_to (out : list Build) (n : N) : M fake_world (list Build) :=
  if bool_decide (N.to_nat n ≤ length out) then mret (take (N.to_nat n) out)
  else panic "slice bounds out of range".

Definition ListBuilds (opts : ListBuildsOptions) : M fake_world (list Build) :=
  init ;;
  lift_res (list_guards opts) ;;
  s ← get_store;
  out ← iterate (d s);
  let out := list_filters opts out in
  if bool_decide (0 < Limit opts)%N && (int64 (Z.of_N (Limit opts)) <? Z.of_nat (length out))%Z
  then slice_to out (Limit opts)
  else mret out.

(** [bsr, ok := fdl.d[id]; if ok { *bsr = f( *bsr) }]: [alter] does nothing to a
    missing key. *)
Definition update (f : Build → Build) (id : uuid) : M fake_world () :=
  modify_store (λ s, with_d (alter f id (d s)) s).

Definition SetBuildCompletedTimestamp (id : uuid) (ts : time) : M fake_world () :=
  init ;; update (with_Completed ts) id.

Definition SetBuildStatus (id : uuid) (s : Z) : M fake_world () :=
  init ;; update (with_Status s) id.

Definition DeleteBuild (id : uuid) : M fake_world () :=
  init ;; modify_store (λ s, with_d (delete id (d s)) s).

(** The [for { select }] loop: messages are passed on until the context is done.
    A send on a nil channel never returns. *)
Fixpoint events_loop (c : option (string → M fake_world ())) (ws : list wake) : M fake_world () :=
  match ws with
  | Notified ev :: ws' =>
      match c with
      | Some send => send ev ;; events_loop c ws'
      | None => panic "blocked forever: send on nil channel"
      end
  | _ => throw (ErrText "context cancelled")
  end.

Definition ListenForBuildEvents (id : uuid) (c : option (string → M fake_world ())) :
    M fake_world () :=
  init ;;
  s ← get_store;
  match d s !! id with
  | None => throw (ErrText "build not found")
  | Some b =>
      if negb (CanAddEvent b)
      then throw (ErrText ("cannot add event to build with status " +:+
                           BuildStatus_String (b_Status b)))
      else
        c' ← add_listener Events id;
        deferring (λ _, remove_listener Events id c') (ws ← block; events_loop c ws)
  end.

Definition AddEvent (id : uuid) (event : string) : M fake_world () :=
  init ;;
  s ← get_store;
  match d s !! id with
  | None => mret ()
  | Some _ => update (λ b, with_Events (b_Events b ++ [event]) b) id ;;
              notify Events id (VEvent event)
  end.

Definition CancelBuild (id : uuid) : M fake_world () :=
  init ;; update (with_Status BuildStatusCancelRequested) id ;;
  notify Cancellation id VSignal.

Definition CancellationListeners : M fake_world nat :=
  init ;; s ← get_store; mret (size (listeners Cancellation s)).

(** [select { case v := <-lc: return v; case <-ctx.Done(): return error }]. *)
Definition select_once (ws : list wake) : res string :=
  match ws with
  | Notified p :: _ => Ok p
  | _ => Err (ErrText "context cancelled")
  end.

Definition ListenForCancellation (id : uuid) : M fake_world () :=
  init ;;
  s ← get_store;
  match d s !! id with
  | None => throw (ErrText "build not found")
  | Some b =>
      if Running b then
        c' ← add_listener Cancellation id;
        deferring (λ _, remove_listener Cancellation id c')
          (ws ← block; lift_res (select_once ws) ;; mret ())
      else if bool_decide (b_Status b = BuildStatusCancelRequested)
              || bool_decide (b_Status b = BuildStatusCancelled) then mret ()
      else throw (ErrText ("unexpected status for build (wanted Running or Cancelled): " +:+
                           BuildStatus_String (b_Status b)))
  end.

Definition SetBuildAsRunning (id : uuid) : M fake_world () :=
  init ;; update (with_Status BuildStatusRunning) id ;; notify RunningL id VSignal.

Definition ListenForBuildRunning (id : uuid) : M fake_world () :=
  init ;;
  s ← get_store;
  match d s !! id with
  | None => throw (ErrText "build not found")
  | Some b =>
      if bool_decide (b_Status b = BuildStatusRunning) then mret ()
      else if bool_decide (b_Status b = BuildStatusNotStarted) then
        c' ← add_listener RunningL id;
        deferring (λ _, remove_listener RunningL id c')
          (ws ← block; lift_res (select_once ws) ;; mret ())
      else throw (ErrText ("unexpected build status (wanted Running or NotStarted): " +:+
                           BuildStatus_String (b_Status b)))
  end.

Definition SetBuildAsCompleted (id : uuid) (status : Z) : M fake_world () :=
  init ;; update (with_Status status) id ;; notify Done id (VStatus status).

(** The channel carries a status; here the payload of the wake-up is its decimal form. *)
Definition status_of_payload (p : string) : Z := default 0%Z (Atoi p).

Definition ListenForBuildCompleted (id : uuid) : M fake_world Z :=
  init ;;
  s ← get_store;
  match d s !! id with
  | None => throw (ErrText "build not found")
  | Some b =>
      if TerminalState (b_Status b) then mret (b_Status b)
      else if bool_decide (b_Status b = BuildStatusRunning)
              || bool_decide (b_Status b = BuildStatusNotStarted) then
        c' ← add_listener Done id;
        deferring (λ _, remove_listener Done id c')
          (ws ← block; p ← lift_res (select_once ws); mret (status_of_payload p))
      else throw (ErrText ("unknown or invalid build status: " +:+
                           BuildStatus_String (b_Status b)))
  end.

Definition with_ak_ID (id : uuid) (k : APIKey) : APIKey :=
  {| ak_ID := id; ak_Created := ak_Created k; ak_GitHubUser := ak_GitHubUser k;
     ak_Name := ak_Name k; ak_Description := ak_Description k; ak_ReadOnly := ak_ReadOnly k |}.

Definition CreateAPIKey (ak : APIKey) : M fake_world uuid :=
  init ;;
  id ← (λ e, match NewV4 e with (Err _, e') => (Panic "uuid.Must", e') | p => p end);
  modify_store (λ s, with_apikeys (<[id := with_ak_ID id ak]> (apikeys s)) s) ;;
  mret id.

Definition GetAPIKey (id : uuid) : M fake_world APIKey :=
  init ;;
  s ← get_store;
  match apikeys s !! id with
  | None => throw ErrNotFound
  | Some k => mret k
  end.

Definition DeleteAPIKey (id : uuid) : M fake_world () :=
  init ;; modify_store (λ s, with_apikeys (delete id (apikeys s)) s).

(** [*FakeDataLayer] as a [DataLayer] (no operation but a listener looks at its context). *)
Definition dl : DataLayer fake_world := {|
  Datalayer.CreateBuild _ := CreateBuild;
  Datalayer.GetBuildByID _ := GetBuildByID;
  Datalayer.ListBuilds _ := ListBuilds;
  Datalayer.SetBuildCompletedTimestamp _ := SetBuildCompletedTimestamp;
  Datalayer.SetBuildStatus _ := SetBuildStatus;
  Datalayer.DeleteBuild _ := DeleteBuild;
  Datalayer.CancelBuild _ := CancelBuild;
  Datalayer.ListenForCancellation _ := ListenForCancellation;
  Datalayer.ListenForBuildEvents _ := ListenForBuildEvents;
  Datalayer.AddEvent _ := AddEvent;
  Datalayer.SetBuildAsRunning _ := SetBuildAsRunning;
  Datalayer.ListenForBuildRunning _ := ListenForBuildRunning;
  Datalayer.SetBuildAsCompleted _ := SetBuildAsCompleted;
  Datalayer.ListenForBuildCompleted _ := ListenForBuildCompleted;
  Datalayer.CreateAPIKey _ := CreateAPIKey;
  Datalayer.GetAPIKey _ := GetAPIKey;
  Datalayer.DeleteAPIKey _ := DeleteAPIKey;
|}.

End Fake.

(** ** Lemmas *)

(** The builds of the fake, up to [view]. *)
Definition fake_obs (e : fake_world) : gmap uuid Build := view <$> Fake.d (store e).

Section lemmas.
Implicit Types (e : fake_world) (s : fake_store).

Lemma d_init s : Fake.d (Fake.init_store s) = Fake.d s.
Proof. done. Qed.
Lemma d_with_d m s : Fake.d (Fake.with_d m s) = m.
Proof. done. Qed.
Lemma d_with_listeners k m s : Fake.d (Fake.with_listeners k m s) = Fake.d s.
Proof. done. Qed.

Lemma wp_init Q e :
  wp Fake.init Q e ↔ Q (Ok ()) (set_store (Fake.init_store (store e)) e).
Proof. done. Qed.

(** Notifying changes no build, and cannot fail with an error. *)
Lemma wp_sends v l (Q : res () → fake_world → Prop) e :
  (∀ r e', fake_obs e' = fake_obs e → (∀ err, r ≠ Err err) → Q r e') →
  wp (mforeach (Fake.chan_send v) l) Q e.
Proof.
  revert e. induction l as [|c l IH]; intros e HQ; simpl.
  - by apply HQ.
  - rewrite wp_bind. unfold Fake.chan_send at 1. wp_simpl. case_goal; wp_simpl.
    + by apply HQ.
    + by apply IH.
Qed.

Lemma wp_notify k id v (Q : res () → fake_world → Prop) e :
  (∀ r e', fake_obs e' = fake_obs e → (∀ err, r ≠ Err err) → Q r e') →
  wp (Fake.notify k id v) Q e.
Proof. intros HQ. unfold Fake.notify. rewrite wp_bind, wp_get_store. by apply wp_sends. Qed.

Lemma notify_changes k id v f e0 e :
  fake_obs e = f (fake_obs e0) → wp (Fake.notify k id v) (changes fake_obs f e0) e.
Proof.
  intros He. apply wp_notify. intros r e' He' _. rewrite He in He'. unfold changes.
  destruct r; auto.
Qed.

(** A notification panics as soon as one of the channels is closed. *)
Lemma sends_closed v l c e :
  c ∈ l → c ∈ closed (store e) →
  wp (mforeach (Fake.chan_send v) l) (λ r _, r = Panic "send on closed channel") e.
Proof.
  revert e. induction l as [|c' l IH]; intros e Hl Hc; [by apply not_elem_of_nil in Hl|].
  simpl. rewrite wp_bind. unfold Fake.chan_send at 1. wp_simpl.
  case_goal; wp_simpl; [done|]. apply elem_of_cons in Hl as [->|Hl]; [|by apply IH].
  apply bool_decide_eq_false in Heqb. done.
Qed.
End lemmas.

#[export] Hint Rewrite @wp_init : wp.

(** Unfold an operation of the fake down to its final store. *)
Ltac fake_simpl :=
  unfold Fake.CreateBuild, Fake.GetBuildByID, Fake.AddEvent, Fake.CancelBuild,
    Fake.SetBuildAsRunning, Fake.SetBuildAsCompleted, Fake.SetBuildStatus,
    Fake.SetBuildCompletedTimestamp, Fake.DeleteBuild, Fake.update;
  wp_simpl; unfold fake_obs; simpl; rewrite ?d_with_d.

#[export] Instance Fake_spec : DataLayerSpec Fake.dl fake_obs.
Proof.
  split; simpl.
  - intros _ b e. fake_simpl. unfold wp. simpl. destruct (rand_uuid _ _); simpl; try by left.
    eexists. split; [by rewrite d_with_d, fmap_insert|]. done.
  - intros _ id e. fake_simpl. case_goal; wp_simpl; (split; [done|]); rewrite lookup_fmap.
    + by simplify_option_eq.
    + by simplify_option_eq.
  - intros _ id ev e. fake_simpl. case_goal; wp_simpl; unfold fake_obs; simpl.
    + apply notify_changes. unfold fake_obs. simpl. rewrite d_with_d. by apply view_alter.
    + by rewrite alter_missing by (rewrite lookup_view; by simplify_option_eq).
  - intros _ id e. fake_simpl. apply notify_changes. by apply view_alter.
  - intros _ id st e _. fake_simpl. apply notify_changes. by apply view_alter.
  - intros _ id b e _ _. fake_simpl. apply notify_changes. by apply view_alter.
  - intros _ id st e. fake_simpl. by apply view_alter.
  - intros _ id t e. fake_simpl. by apply view_alter_times.
  - intros _ id e. fake_simpl. by rewrite fmap_delete.
Qed.

(** One filter of the pipeline keeps the builds that satisfy its closure. *)
Lemma filter_if_spec (set : bool) cf (P : Build → Prop) `{∀ b, Decision (P b)} out :
  (∀ b, (set = true → cf b = true) ↔ P b) →
  Fake.filter_if set cf out = base.filter P out.
Proof.
  intros HP. unfold Fake.filter_if, Fake.filter. destruct set.
  - apply list_filter_iff. intros b. rewrite <-HP. tauto.
  - symmetry. apply filter_all. intros b. by apply HP.
Qed.

Lemma str_set_spec s : Fake.str_set s = true ↔ s ≠ ""%string.
Proof. unfold Fake.str_set. apply bool_decide_eq_true. Qed.

Lemma zero_before_spec t u :
  (if IsZero t then false else Before t u) = true ↔ t ≠ time_zero ∧ Before t u = true.
Proof.
  destruct (IsZero t) eqn:E.
  - apply IsZero_spec in E. naive_solver.
  - assert (t ≠ time_zero) by (intros ->; by rewrite (proj2 (IsZero_spec _)) in E). tauto.
Qed.

(** The pipeline of eight filters is one filter. *)
Lemma list_filters_spec o out :
  Fake.list_filters o out = base.filter (list_match o) out.
Proof.
  unfold Fake.list_filters.
  rewrite (filter_if_spec _ _ (λ b, StartedBefore o ≠ time_zero → b_Created b ≠ time_zero ∧ Before (b_Created b) (StartedBefore o) = true)),
    (filter_if_spec _ _ (λ b, CompletedBefore o ≠ time_zero → b_Completed b ≠ time_zero ∧ Before (b_Completed b) (CompletedBefore o) = true)),
    (filter_if_spec _ _ (λ b, StartedAfter o ≠ time_zero → Before (b_Created b) (StartedAfter o) = false)),
    (filter_if_spec _ _ (λ b, CompletedAfter o ≠ time_zero → Before (b_Completed b) (CompletedAfter o) = false)),
    (filter_if_spec _ _ (λ b, WithStatus o ≠ BuildStatusUnknown → b_Status b = WithStatus o)),
    (filter_if_spec _ _ (λ b, WithImageRepo o ≠ ""%string → WithImageRepo o ∈ b_ImageRepos b)),
    (filter_if_spec _ _ (λ b, WithGitHubRef o ≠ ""%string → b_GitHubRef b = WithGitHubRef o)),
    (filter_if_spec _ _ (λ b, WithGitHubRepo o ≠ ""%string → b_GitHubRepo b = WithGitHubRepo o)).
  - rewrite !list_filter_filter. apply list_filter_iff. intros b. unfold list_match. tauto.
  - intros b. by rewrite str_set_spec, bool_decide_eq_true.
  - intros b. by rewrite str_set_spec, bool_decide_eq_true.
  - intros b. by rewrite str_set_spec, existsb_elem_of.
  - intros b. by rewrite !bool_decide_eq_true.
  - intros b. by rewrite negb_IsZero, Before_negb, negb_false_iff.
  - intros b. by rewrite negb_IsZero, Before_negb, negb_false_iff.
  - intros b. by rewrite negb_IsZero, zero_before_spec.
  - intros b. by rewrite negb_IsZero, zero_before_spec.
Qed.

(** The removal drops the last channel of the build. *)
Lemma remove_listener_map_last id m (l : list nat) c :
  m !! id = Some (l ++ [c]) → l ≠ [] → Fake.remove_listener_map id m = <[id := l]> m.
Proof.
  intros Hm Hl. unfold Fake.remove_listener_map. rewrite Hm. simpl. rewrite length_app. simpl.
  replace (Z.of_nat (length l + 1) - 1)%Z with (Z.of_nat (length l)) by lia.
  destruct (Z.ltb_spec (Z.of_nat (length l)) 0); [lia|].
  destruct (Z.eqb_spec (Z.of_nat (length l)) 0) as [H0|H0]; [destruct l; [done|simpl in H0; lia]|].
  f_equal. rewrite Nat2Z.id, take_app_length, drop_ge; [by rewrite app_nil_r|].
  rewrite length_app. simpl. lia.
Qed.

(** ** Properties *)

(** C2: the in-memory data layer meets the contract of the interface. *)
Theorem Fake_refines_spec : DataLayerSpec Fake.dl fake_obs.
Proof. apply Fake_spec. Qed.

(** The in-memory ListBuilds either refuses the options (no option set, or an empty
    time window) or lists exactly the stored builds that satisfy all the options
    that are set, cut to the limit; it changes no build.  (A limit over the
    largest [int] makes it panic.) *)
Theorem Fake_ListBuilds_correct o e :
  (Limit o < 2 ^ 63)%N →
  wp (Fake.ListBuilds o) (λ r e',
    fake_obs e' = fake_obs e ∧
    match r with
    | Ok out => list_guards o = Ok () ∧ lists o (map_to_list (Fake.d (store e))).*2 out
    | Err err => list_guards o = Err err
    | Panic _ => False
    end) e.
Proof.
  intros Hlim. unfold Fake.ListBuilds. wp_simpl.
  destruct (list_guards o) as [[]|err|p] eqn:Hg; [|done|].
  - wp_simpl. apply wp_iterate. intros l Hl. rewrite list_filters_spec, int64_id
      by (unfold in_int64; lia).
    assert (base.filter (list_match o) l ≡ₚ
            base.filter (list_match o) (map_to_list (Fake.d (store e))).*2) as Hp
      by by rewrite Hl.
    assert (∀ out, out = (if decide (Limit o = 0%N) then base.filter (list_match o) l
                          else take (N.to_nat (Limit o)) (base.filter (list_match o) l)) →
                   lists o (map_to_list (Fake.d (store e))).*2 out) as Hlists
      by (intros out ->; by eexists).
    unfold Fake.slice_to. case_goal; [|wp_simpl].
    + apply andb_true_iff in Heqb as [Hb%bool_decide_eq_true Hc%Z.ltb_lt].
      rewrite bool_decide_true by lia. wp_simpl. split_and!; try done. apply Hlists.
      by destruct (decide (Limit o = 0%N)); [lia|].
    + split_and!; try done. apply Hlists. destruct (decide (Limit o = 0%N)); [done|].
      apply andb_false_iff in Heqb as [Hb%bool_decide_eq_false|Hc%Z.ltb_ge]; [lia|].
      symmetry. apply take_ge. lia.
  - exfalso. unfold list_guards in Hg. by repeat case_match.
Qed.

(** Whichever listener of a build leaves, the channel that is forgotten is the one
    registered last: when one that is not the last leaves, its channel is closed
    but still notified, and the next notification of the build panics. *)
Theorem Fake_leaving_listener_breaks_notify k id v (l : list nat) c c' e :
  Fake.closing_kind k = true →
  Fake.listeners k (store e) !! id = Some (l ++ [c]) → c' ∈ l →
  wp (Fake.remove_listener k id c' ;; Fake.notify k id v)
     (λ r _, r = Panic "send on closed channel") e.
Proof.
  intros Hk Hl Hc. unfold Fake.remove_listener, Fake.notify. wp_simpl.
  assert (0 < length l) as Hlen by (destruct l; [by apply not_elem_of_nil in Hc|simpl; lia]).
  rewrite Hk, Hl. simpl. rewrite length_app. simpl.
  destruct (Z.ltb_spec 1 (Z.of_nat (length l + 1))); [|lia]. simpl.
  eapply sends_closed; [|simpl; left].
  unfold Fake.listeners at 1. simpl. rewrite (remove_listener_map_last _ _ l c Hl) by (by destruct l).
  replace (default ∅ _) with (<[id := l]> (Fake.listeners k (store e)) : gmap uuid (list nat)).
  - by rewrite lookup_insert_eq.
  - by destruct k.
Qed.

(** ** Witnesses *)

Definition fake_empty : fake_world :=
  Env (FakeStore (MkFake None None None None None None) [] []) (λ _, Ok uuid_Nil)
    (λ _, time_zero) (λ _ _, 0%N) (λ _, (λ s, s, [])) 0.

Definition opts_limit (n : N) : ListBuildsOptions :=
  {| WithGitHubRepo := ""; WithGitHubRef := ""; WithImageRepo := "";
     WithStatus := BuildStatusUnknown; CompletedAfter := time_zero; StartedAfter := time_zero;
     CompletedBefore := time_zero; StartedBefore := time_zero; Limit := n |}.

Lemma Fake_ListBuilds_correct_witness :
  ∃ out e', Fake.ListBuilds (opts_limit 5) fake_empty = (Ok out, e') ∧ lists (opts_limit 5) [] out.
Proof.
  assert (Limit (opts_limit 5) < 2 ^ 63)%N as H by (simpl; lia).
  pose proof (Fake_ListBuilds_correct (opts_limit 5) fake_empty H) as Hw.
  do 2 eexists. split; [reflexivity|]. exact (proj2 (proj2 Hw)).
Defined.

Lemma Fake_leaving_listener_breaks_notify_witness :
  let s := Fake.with_listeners Fake.Cancellation {[ uuid_Nil := [7; 8] ]} (store fake_empty) in
  wp (Fake.remove_listener Fake.Cancellation uuid_Nil 7 ;;
      Fake.notify Fake.Cancellation uuid_Nil VSignal)
     (λ r _, r = Panic "send on closed channel") (set_store s fake_empty).
Proof.
  intros s. apply (Fake_leaving_listener_breaks_notify _ _ _ [7] 8 7 (set_store s fake_empty));
    [reflexivity|vm_compute; reflexivity|left].
Defined.
