(* ===== verification/Postgres.v ===== *)
(** * pkg/datalayer/datalayer.go: the PostgreSQL data layer

    [PostgresDBLayer] runs SQL statements on a pool of connections, and LISTENs
    on a second pool.  A statement is a constructor of [stmt] with the meaning
    SQL and migrations/ give it ([exec_stmt]); the text of NOTIFY and LISTEN,
    which the code assembles itself, is parsed ([parse_notify],
    [parse_listen]).  Any statement may fail on the network, before or after it
    took effect ([faults]).  The connections of the second pool keep their
    subscriptions when they are released. *)

From S2P Require Import Prelude GoStrings Utf8 GoTime Uuid Models Datalayer.

#[local] Open Scope Z_scope.

(** ** The database *)

(** A row of the table builds (migrations/0001_initial.up.sql).  A column
    that is never written with NULL has a plain type; arrays that are NULL and
    empty read back the same. *)
Record row := {
  r_id : uuid;
  r_created : time;
  r_updated : option time;
  r_completed : option time;
  r_github_repo : string;
  r_github_ref : string;
  r_encrypted_github_credential : list ascii;
  r_image_repos : list string;
  r_tags : list string;
  r_commit_sha_tag : bool;
  r_build_options : BuildOpts;
  r_request : BuildRequest;
  r_status : Z;
  r_events : list string;
}.

Record pg_db := { builds : gmap uuid row; api_keys : gmap uuid APIKey }.

(** A connection of the listen pool: the channels it listens on and the
    notifications it received and nobody read. *)
Record pgconn := { subs : list string; buffered : list (string * string) }.

(** How a statement can fail on its way: an error of the network, or another one
    of the driver. *)
Inductive conn_error :=
  | NetErr (timeout temporary : bool)
  | DriverErr (msg : string).

Definition error_of (c : conn_error) : error :=
  match c with
  | NetErr t u => ErrNetOp t u
  | DriverErr m => ErrLib m
  end.

(** [Broken e applied]: the statement returns [e], after it took effect or not.
    [RowsBreak n s]: the result set ends after [n] rows, on a row that does not
    scan ([s]) or on a broken connection. *)
Inductive fault :=
  | Broken (e : conn_error) (applied : bool)
  | RowsBreak (n : nat) (scan : option conn_error).

Record pg_store := PgStore {
  db : pg_db;
  notified : list (string * string);   (* the notifications of the committed transactions *)
  idle : list pgconn;                  (* the listen pool: the connection released last first *)
  in_use : list pgconn;                (* acquired connections, the last acquired first *)
  faults : nat → option fault;
  pg_now : nat → time;                 (* NOW() *)
}.

Abbreviation pg_world := (env pg_store) (only parsing).

Definition with_db (d : pg_db) (s : pg_store) : pg_store :=
  PgStore d (notified s) (idle s) (in_use s) (faults s) (pg_now s).
Definition with_conns (i u : list pgconn) (s : pg_store) : pg_store :=
  PgStore (db s) (notified s) i u (faults s) (pg_now s).

(** ** SQL *)

(** A timestamptz has microseconds. *)
Definition timestamptz (t : time) : time :=
  {| t_sec := t_sec t; t_nsec := t_nsec t `div` 1000 * 1000 |}.

(** [json:"-"] fields do not reach the column build_options. *)
Definition json_options (o : BuildOpts) : BuildOpts :=
  {| bo_BuildID := uuid_Nil; bo_ContextPath := ""; bo_CommitSHA := "";
     bo_RelativeDockerfilePath := bo_RelativeDockerfilePath o; bo_BuildArgs := bo_BuildArgs o;
     bo_Cache := bo_Cache o; bo_Resources := bo_Resources o |}.

(** The statements of the program, with their arguments. *)
Inductive stmt :=
  | InsertBuild (id : uuid) (b : Build) (req : BuildRequest) (status : Z)
  | UpdateCompleted (completed : time) (id : uuid)
  | UpdateStatus (status : Z) (id : uuid)
  | UpdateStatusCompleted (status : Z) (completed : time) (id : uuid)
  | AppendEvent (event : string) (id : uuid)
  | DeleteFromBuilds (id : uuid)
  | InsertAPIKey (id : uuid) (user name description : string) (read_only : bool)
  | InsertSeedKey (id : uuid) (name description : string)
  | DeleteFromAPIKeys (id : uuid).

(** The trigger set_updated_timestamp_builds, after the assignments of an UPDATE. *)
Definition update_row (now : time) (f : row → row) (r : row) : row :=
  let r' := f r in
  {| r_id := r_id r'; r_created := r_created r'; r_updated := Some (timestamptz now);
     r_completed := r_completed r'; r_github_repo := r_github_repo r';
     r_github_ref := r_github_ref r';
     r_encrypted_github_credential := r_encrypted_github_credential r';
     r_image_repos := r_image_repos r'; r_tags := r_tags r';
     r_commit_sha_tag := r_commit_sha_tag r'; r_build_options := r_build_options r';
     r_request := r_request r'; r_status := r_status r'; r_events := r_events r' |}.

Definition set_row (status : option Z) (completed : option time) (event : option string)
    (r : row) : row :=
  {| r_id := r_id r; r_created := r_created r; r_updated := r_updated r;
     r_completed := match completed with Some t => Some (timestamptz t) | None => r_completed r end;
     r_github_repo := r_github_repo r; r_github_ref := r_github_ref r;
     r_encrypted_github_credential := r_encrypted_github_credential r;
     r_image_repos := r_image_repos r; r_tags := r_tags r;
     r_commit_sha_tag := r_commit_sha_tag r; r_build_options := r_build_options r;
     r_request := r_request r; r_status := default (r_status r) status;
     r_events := match event with Some ev => r_events r ++ [ev] | None => r_events r end |}.

Definition with_builds (m : gmap uuid row) (d : pg_db) : pg_db :=
  {| builds := m; api_keys := api_keys d |}.
Definition with_api_keys (m : gmap uuid APIKey) (d : pg_db) : pg_db :=
  {| builds := builds d; api_keys := m |}.

(** The column status is a 32-bit integer. *)
Definition check_int4 (z : Z) (r : pg_db) : res pg_db :=
  if bool_decide (- 2 ^ 31 ≤ z < 2 ^ 31) then Ok r else Err (ErrLib "out of range for int4").

(** What the column types text and text[] take: UTF-8 without NUL. *)
Definition text_ok (s : string) : bool :=
  forallb (λ '(r, bs), negb (r =? 0) && negb ((r =? RuneError) && (length bs =? 1)%nat))
    (decode_runes (String.list_ascii_of_string s)).

Definition bad_text : error := ErrLib "invalid byte sequence for encoding".

(** The arguments that are written into such columns. *)
Definition stmt_texts (st : stmt) : list string :=
  match st with
  | InsertBuild _ b _ _ => b_GitHubRepo b :: b_GitHubRef b :: b_ImageRepos b ++ b_Tags b
  | AppendEvent ev _ => [ev]
  | InsertAPIKey _ user name description _ => [user; name; description]
  | InsertSeedKey _ name description => [name; description]
  | _ => []
  end.

(** The effect of a statement whose texts are texts. *)
Definition stmt_effect (now : time) (st : stmt) (d : pg_db) : res pg_db :=
  match st with
  | InsertBuild id b req status =>
      match builds d !! id with
      | Some _ => Err (ErrLib "duplicate key value violates unique constraint")
      | None => check_int4 status (with_builds (<[id :=
          {| r_id := id; r_created := timestamptz now; r_updated := None; r_completed := None;
             r_github_repo := b_GitHubRepo b; r_github_ref := b_GitHubRef b;
             r_encrypted_github_credential := b_EncryptedGitHubCredential b;
             r_image_repos := b_ImageRepos b; r_tags := b_Tags b;
             r_commit_sha_tag := b_CommitSHATag b;
             r_build_options := json_options (b_BuildOptions b); r_request := req;
             r_status := status; r_events := [] |}]> (builds d)) d)
      end
  | UpdateCompleted t id =>
      Ok (with_builds (alter (update_row now (set_row None (Some t) None)) id (builds d)) d)
  | UpdateStatus s id =>
      check_int4 s (with_builds (alter (update_row now (set_row (Some s) None None)) id (builds d)) d)
  | UpdateStatusCompleted s t id =>
      check_int4 s
        (with_builds (alter (update_row now (set_row (Some s) (Some t) None)) id (builds d)) d)
  | AppendEvent ev id =>
      Ok (with_builds (alter (update_row now (set_row None None (Some ev))) id (builds d)) d)
  | DeleteFromBuilds id => Ok (with_builds (delete id (builds d)) d)
  | InsertAPIKey id user name description ro =>
      match api_keys d !! id with
      | Some _ => Err (ErrLib "duplicate key value violates unique constraint")
      | None => Ok (with_api_keys (<[id :=
          {| ak_ID := id; ak_Created := timestamptz now; ak_GitHubUser := user; ak_Name := name;
             ak_Description := description; ak_ReadOnly := ro |}]> (api_keys d)) d)
      end
  | InsertSeedKey id name description =>
      match api_keys d !! id with
      | Some _ => Ok d (* ON CONFLICT (id) DO NOTHING *)
      | None => Ok (with_api_keys (<[id :=
          {| ak_ID := id; ak_Created := timestamptz now; ak_GitHubUser := ""; ak_Name := name;
             ak_Description := description; ak_ReadOnly := false |}]> (api_keys d)) d)
      end
  | DeleteFromAPIKeys id => Ok (with_api_keys (delete id (api_keys d)) d)
  end.

Definition exec_stmt (now : time) (st : stmt) (d : pg_db) : res pg_db :=
  if forallb text_ok (stmt_texts st) then stmt_effect now st d else Err bad_text.

(** An identifier that needs no quotes and is not truncated. *)
Definition ident_start (c : ascii) : bool :=
  let b := byte_val c in ((97 <=? b) && (b <=? 122)) || (b =? 95).
Definition ident_char (c : ascii) : bool :=
  ident_start c || let b := byte_val c in (48 <=? b) && (b <=? 57).
Definition legal_ident (s : string) : bool :=
  match String.list_ascii_of_string s with
  | [] => false
  | c :: l => ident_start c && forallb ident_char l && (Z.of_nat (length l) <? 63)
  end.

(** A string literal after its opening quote: the text, and what follows the
    closing quote ([standard_conforming_strings] is on). *)
Fixpoint sql_literal (s : string) : option (string * string) :=
  match s with
  | ""%string => None
  | String c s' =>
      if decide (c = squote) then
        match s' with
        | String d s'' =>
            if decide (d = squote)
            then '(t, rest) ← sql_literal s''; Some (String squote t, rest)
            else Some (""%string, s')
        | ""%string => Some (""%string, s')
        end
      else '(t, rest) ← sql_literal s'; Some (String c t, rest)
  end.

(** ["NOTIFY ident, 'text';"].  Any other text, and a literal that holds a NUL or is
    not UTF-8, is refused. *)
Definition parse_notify (q : string) : option (string * string) :=
  if HasPrefix q "NOTIFY " then
    let '(ch, rest) := Cut (TrimPrefix q "NOTIFY ") "," in
    if legal_ident ch then
      match rest with
      | Some (String " " (String "'" body)) =>
          match sql_literal body with
          | Some (p, ";"%string) => if text_ok p then Some (ch, p) else None
          | _ => None
          end
      | _ => None
      end
    else None
  else None.

(** ["LISTEN ident;"]. *)
Definition parse_listen (q : string) : option string :=
  if HasPrefix q "LISTEN " then
    match Cut (TrimPrefix q "LISTEN ") ";" with
    | (ch, Some ""%string) => if legal_ident ch then Some ch else None
    | _ => None
    end
  else None.

Definition syntax_error : error := ErrLib "syntax error".

(** A notification reaches every connection that listens on its channel. *)
Definition deliver (n : string * string) (c : pgconn) : pgconn :=
  if bool_decide (n.1 ∈ subs c)
  then {| subs := subs c; buffered := buffered c ++ [n] |} else c.

Definition publish (ns : list (string * string)) (s : pg_store) : pg_store :=
  PgStore (db s) (notified s ++ ns)
    (foldl (λ cs n, deliver n <$> cs) (idle s) ns)
    (foldl (λ cs n, deliver n <$> cs) (in_use s) ns) (faults s) (pg_now s).

(** ** Running statements *)

(** The fault of this statement, if it has one. *)
Definition next_fault (e : pg_world) : option fault := faults (store e) (tick e).

Definition current_fault : M pg_world (option fault) := λ e, (Ok (next_fault e), e).

(** A statement on its own, committed when it is done. *)
Definition Exec (st : stmt) : M pg_world () := λ e,
  let r := exec_stmt (pg_now (store e) (tick e)) st (db (store e)) in
  let applied := match r with Ok d => set_store (with_db d (store e)) e | _ => e end in
  match next_fault e with
  | Some (Broken er b) => (Err (error_of er), next (if b then applied else e))
  | _ => (match r with Ok _ => Ok () | Err er => Err er | Panic p => Panic p end, next applied)
  end.

(** [QueryRow(...).Scan(...)]: the row, or [pgx.ErrNoRows]. *)
Definition QueryRow {A} (q : pg_db → option A) : M pg_world A := λ e,
  match next_fault e with
  | Some (Broken er _) => (Err (error_of er), next e)
  | _ => (match q (db (store e)) with Some a => Ok a | None => Err ErrNoRows end, next e)
  end.

(** An open transaction: what it sees, when it started, and its notifications.
    Nothing of it is visible before the commit, so the deferred Rollback of a
    transaction that did not commit is to forget it. *)
Record pgtxn := { tx_db : pg_db; tx_now : time; tx_notes : list (string * string) }.

Definition Begin : M pg_world pgtxn := λ e,
  match next_fault e with
  | Some (Broken er _) => (Err (error_of er), next e)
  | _ => (Ok {| tx_db := db (store e); tx_now := pg_now (store e) (tick e); tx_notes := [] |},
          next e)
  end.

(** A statement of the transaction; a failure reaches nothing outside it. *)
Definition tx_step (f : pgtxn → res pgtxn) (tx : pgtxn) : M pg_world pgtxn := λ e,
  match next_fault e with
  | Some (Broken er _) => (Err (error_of er), next e)
  | _ => (f tx, next e)
  end.

Definition tx_Exec (st : stmt) : pgtxn → M pg_world pgtxn := tx_step (λ tx,
  match exec_stmt (tx_now tx) st (tx_db tx) with
  | Ok d => Ok {| tx_db := d; tx_now := tx_now tx; tx_notes := tx_notes tx |}
  | Err er => Err er
  | Panic p => Panic p
  end).

(** NOTIFY: the payload is shorter than 8000 bytes. *)
Definition tx_Notify (q : string) : pgtxn → M pg_world pgtxn := tx_step (λ tx,
  match parse_notify q with
  | None => Err syntax_error
  | Some (ch, p) =>
      if Z.of_nat (String.length p) <? 8000
      then Ok {| tx_db := tx_db tx; tx_now := tx_now tx; tx_notes := tx_notes tx ++ [(ch, p)] |}
      else Err (ErrLib "payload string too long")
  end).

Definition Commit (tx : pgtxn) : M pg_world () := λ e,
  let done := set_store (publish (tx_notes tx) (with_db (tx_db tx) (store e))) e in
  match next_fault e with
  | Some (Broken er b) => (Err (error_of er), next (if b then done else e))
  | _ => (Ok (), next done)
  end.

(** [dl.lp.Acquire]: the connection released last, or a new one. *)
Definition Acquire : M pg_world () := λ e,
  let s := store e in
  match next_fault e with
  | Some (Broken er _) => (Err (error_of er), next e)
  | _ =>
      (Ok (), next (set_store
        match idle s with
        | c :: i => with_conns i (c :: in_use s) s
        | [] => with_conns [] ({| subs := []; buffered := [] |} :: in_use s) s
        end e))
  end.

(** [conn.Release]: back to the pool as it is. *)
Definition Release : M pg_world () := modify_store (λ s,
  match in_use s with
  | c :: u => with_conns (c :: idle s) u s
  | [] => s
  end).

Definition on_conn (f : pgconn → pgconn) (s : pg_store) : pg_store :=
  match in_use s with
  | c :: u => with_conns (idle s) (f c :: u) s
  | [] => s
  end.

Definition subscribe (ch : string) (c : pgconn) : pgconn :=
  {| subs := ch :: subs c; buffered := buffered c |}.

Definition Listen (q : string) : M pg_world () := λ e,
  match next_fault e with
  | Some (Broken er _) => (Err (error_of er), next e)
  | _ => match parse_listen q with
         | None => (Err syntax_error, next e)
         | Some ch => (Ok (), next (set_store (on_conn (subscribe ch) (store e)) e))
         end
  end.

Definition pop (c : pgconn) : pgconn := {| subs := subs c; buffered := drop 1 (buffered c) |}.

Definition buffered_now (s : pg_store) : list (string * string) :=
  match in_use s with c :: _ => buffered c | [] => [] end.

(** What a wait returns when its context is done or its connection breaks. *)
Definition wait_error : error := ErrLib "timeout: context already done".

(** Take the first buffered notification, of whatever channel. *)
Definition take_notification : M pg_world string :=
  s ← get_store;
  match buffered_now s with
  | n :: _ => put_store (on_conn pop s) ;; mret n.2
  | [] => throw wait_error
  end.

(** [conn.Conn().WaitForNotification(ctx)]: what is buffered already comes first;
    otherwise the call blocks. *)
Definition WaitForNotification : M pg_world string :=
  s ← get_store;
  match buffered_now s with
  | _ :: _ => take_notification
  | [] => block ;; take_notification
  end.

(** ** The operations *)

Module PG.

Definition retries : nat := 5.

(** The loop of [retry], after [err] ([time.Sleep] between the rounds). *)
Fixpoint retry_loop {A} (n : nat) (f : M pg_world A) (err : error) : M pg_world A :=
  match n with
  | O => throw (ErrWrap "retries exceeded" err)
  | S n' =>
      r ← attempt f;
      match r with
      | Ok a => mret a
      | Err (ErrNetOp timeout temporary) =>
          if negb timeout && negb temporary then throw (ErrNetOp timeout temporary)
          else retry_loop n' f (ErrNetOp timeout temporary)
      | Err e => throw e
      | Panic p => panic p
      end
  end.

Definition retry {A} (f : option (M pg_world A)) : M pg_world A :=
  match f with
  | None => throw (ErrText "retry: f is nil")
  | Some f => retry_loop retries f (ErrText "")
  end.

(** What the columns of a row scan into. *)
Definition build_of_row (r : row) : Build :=
  {| b_ID := r_id r; b_Created := r_created r; b_Updated := default time_zero (r_updated r);
     b_Completed := default time_zero (r_completed r); b_GitHubRepo := r_github_repo r;
     b_GitHubRef := r_github_ref r;
     b_EncryptedGitHubCredential := r_encrypted_github_credential r;
     b_ImageRepos := r_image_repos r; b_Tags := r_tags r; b_CommitSHATag := r_commit_sha_tag r;
     b_BuildOptions := r_build_options r; b_Request := r_request r; b_Status := r_status r;
     b_Events := r_events r |}.

(** The credential of the request is cleared: the row gets [scrub] of it. *)
Definition CreateBuild (b : Build) : M pg_world uuid :=
  id ← wrapf "error generating build id" NewV4;
  wrapf "error inserting build" (Exec (InsertBuild id b (scrub (b_Request b)) BuildStatusNotStarted)) ;;
  mret id.

(** [if err == pgx.ErrNoRows { return ErrNotFound }; return wrapped]. *)
Definition not_found_or (msg : string) (e : error) : error :=
  if decide (e = ErrNoRows) then ErrNotFound else ErrWrap msg e.

Definition GetBuildByID (id : uuid) : M pg_world Build :=
  on_err (not_found_or "error getting build by id")
    (retry (Some (QueryRow (λ d, build_of_row <$> builds d !! id)))).

Definition SetBuildCompletedTimestamp (id : uuid) (completed : time) : M pg_world () :=
  Exec (UpdateCompleted completed id).

Definition SetBuildStatus (id : uuid) (s : Z) : M pg_world () := Exec (UpdateStatus s id).

Definition DeleteBuild (id : uuid) : M pg_world () := Exec (DeleteFromBuilds id).

(** The names of the channels of a build. *)
Definition pgChanFromID (id : uuid) : string :=
  "build_" +:+ ReplaceAll (uuid_String id) dash "_".
Definition pgCxlChanFromID (id : uuid) : string :=
  "cxl_build_" +:+ ReplaceAll (uuid_String id) dash "_".
Definition pgRunChanFromID (id : uuid) : string :=
  "running_build_" +:+ ReplaceAll (uuid_String id) dash "_".
Definition pgCompletedChanFromID (id : uuid) : string :=
  "completed_build_" +:+ ReplaceAll (uuid_String id) dash "_".

Definition quoteString (str : string) : string := "'" +:+ ReplaceAll str squote "''" +:+ "'".

(** Acquire, LISTEN, run the wait, Release. *)
Definition listening {A} (ch listen_err : string) (wait : M pg_world A) : M pg_world A :=
  wrapf "error getting db connection" Acquire ;;
  deferring (λ _, Release)
    (wrapf listen_err (Listen ("LISTEN " +:+ ch +:+ ";")) ;; wait).

Definition wait_msg (id : uuid) : string := "error waiting for notification: " +:+ uuid_String id.

(** The loop of ListenForBuildEvents: [fuel] bounds the notifications of one call. *)
Fixpoint events_loop (fuel : nat) (id : uuid) (c : string → M pg_world ()) : M pg_world () :=
  match fuel with
  | O => throw (ErrWrap (wait_msg id) wait_error)
  | S fuel' => p ← wrapf (wait_msg id) WaitForNotification; c p ;; events_loop fuel' id c
  end.

Definition ListenForBuildEvents (fuel : nat) (id : uuid) (c : option (string → M pg_world ())) :
    M pg_world () :=
  match c with
  | None => throw (ErrText "channel cannot be nil")
  | Some c =>
      b ← wrapf "error getting build by id" (GetBuildByID id);
      if negb (EventListenable b)
      then throw (ErrText ("build status " +:+ BuildStatus_String (b_Status b) +:+
                           "; no events are possible"))
      else listening (pgChanFromID id) "error listening on postgres channel" (events_loop fuel id c)
  end.

Definition AddEvent (id : uuid) (event : string) : M pg_world () :=
  b ← wrapf "error getting build by id" (GetBuildByID id);
  if negb (CanAddEvent b)
  then throw (ErrText ("build status " +:+ BuildStatus_String (b_Status b) +:+
                       "; cannot add new event"))
  else
    tx ← wrapf "error opening txn" Begin;
    tx ← wrapf "error appending event" (tx_Exec (AppendEvent event id) tx);
    tx ← wrapf "error notifying channel"
           (tx_Notify ("NOTIFY " +:+ pgChanFromID id +:+ ", " +:+ quoteString event +:+ ";") tx);
    wrapf "error committing txn" (Commit tx).

Definition CancelBuild (id : uuid) : M pg_world () :=
  b ← wrapf "error getting build" (GetBuildByID id);
  if negb (Running b)
  then throw (ErrText ("build not cancellable: " +:+ BuildStatus_String (b_Status b)))
  else
    tx ← wrapf "error opening txn" Begin;
    tx ← wrapf "error cancelling build" (tx_Exec (UpdateStatus BuildStatusCancelRequested id) tx);
    tx ← wrapf "error notifying cancel channel"
           (tx_Notify ("NOTIFY " +:+ pgCxlChanFromID id +:+ ", '" +:+ "cancel" +:+ "';") tx);
    wrapf "error committing txn" (Commit tx).

Definition ListenForCancellation (id : uuid) : M pg_world () :=
  b ← wrapf "error getting build by id" (GetBuildByID id);
  if Running b then
    listening (pgCxlChanFromID id) "error listening on postgres cxl channel"
      (wrapf (wait_msg id) WaitForNotification ;; mret ())
  else if bool_decide (b_Status b = BuildStatusCancelRequested)
          || bool_decide (b_Status b = BuildStatusCancelled) then mret ()
  else throw (ErrText ("unexpected status for build (wanted Running or Cancelled): " +:+
                       BuildStatus_String (b_Status b))).

Definition SetBuildAsRunning (id : uuid) : M pg_world () :=
  tx ← wrapf "error opening txn" Begin;
  tx ← wrapf "error appending event" (tx_Exec (UpdateStatus BuildStatusRunning id) tx);
  tx ← wrapf "error notifying channel"
         (tx_Notify ("NOTIFY " +:+ pgRunChanFromID id +:+ ", 'running';") tx);
  wrapf "error committing txn" (Commit tx).

Definition ListenForBuildRunning (id : uuid) : M pg_world () :=
  b ← wrapf "error getting build by id" (GetBuildByID id);
  if bool_decide (b_Status b = BuildStatusRunning) then mret ()
  else if bool_decide (b_Status b = BuildStatusNotStarted) then
    listening (pgRunChanFromID id) "error listening on postgres running channel"
      (wrapf (wait_msg id) WaitForNotification ;; mret ())
  else throw (ErrText ("unexpected build status (wanted Running or NotStarted): " +:+
                       BuildStatus_String (b_Status b))).

Definition SetBuildAsCompleted (id : uuid) (status : Z) : M pg_world () :=
  if negb (TerminalState status)
  then throw (ErrText ("invalid status for completed build: " +:+ BuildStatus_String status))
  else
    tx ← wrapf "error opening txn" Begin;
    now ← Now;
    tx ← wrapf "error setting status" (tx_Exec (UpdateStatusCompleted status now id) tx);
    tx ← wrapf "error notifying channel"
           (tx_Notify ("NOTIFY " +:+ pgCompletedChanFromID id +:+ ", '" +:+ fmt_int status +:+ "';") tx);
    wrapf "error committing txn" (Commit tx).

(** The end of ListenForBuildCompleted: the status the payload stands for. *)
Definition completed_status (payload : string) : res Z :=
  match Atoi payload with
  | None => Err (ErrWrap "error parsing status received via notification"
                  (ErrLib "strconv.Atoi: invalid syntax"))
  | Some bs =>
      if TerminalState bs then Ok bs
      else Err (ErrText ("invalid status for completed build: " +:+ BuildStatus_String bs))
  end.

Definition ListenForBuildCompleted (id : uuid) : M pg_world Z :=
  b ← wrapf "error getting build by id" (GetBuildByID id);
  if TerminalState (b_Status b) then mret (b_Status b)
  else if bool_decide (b_Status b = BuildStatusRunning)
          || bool_decide (b_Status b = BuildStatusNotStarted) then
    listening (pgCompletedChanFromID id) "error listening on postgres running channel"
      (p ← wrapf (wait_msg id) WaitForNotification; lift_res (completed_status p))
  else throw (ErrText ("unknown or invalid build status: " +:+ BuildStatus_String (b_Status b))).

(** *** API keys *)

Definition CreateSeedAPIKey (id : uuid) : M pg_world () :=
  Exec (InsertSeedKey id "seed key" "for testing use only").

Definition CreateAPIKey (apikey : APIKey) : M pg_world uuid :=
  id ← wrapf "error generating api key id" NewV4;
  wrapf "error inserting api key"
    (Exec (InsertAPIKey id (ak_GitHubUser apikey) (ak_Name apikey) (ak_Description apikey)
             (ak_ReadOnly apikey))) ;;
  mret id.

Definition GetAPIKey (id : uuid) : M pg_world APIKey :=
  on_err (not_found_or "error getting api key by id")
    (retry (Some (QueryRow (λ d, api_keys d !! id)))).

Definition DeleteAPIKey (id : uuid) : M pg_world () := Exec (DeleteFromAPIKeys id).

(** *** ListBuilds *)

(** The conditions of the WHERE clause. *)
Inductive column_cond :=
  | RepoEq | RefEq | ImageRepoAny | StatusEq | CompletedGe | CreatedGe | CompletedLt | CreatedLt.

Inductive arg :=
  | ArgText (s : string)
  | ArgStatus (s : Z)
  | ArgTime (t : time).

(** Placeholder [n] is written [$n]. *)
Definition cond_text (c : column_cond) (n : nat) : string :=
  let ph := "$" +:+ fmt_nat n in
  match c with
  | RepoEq => "(github_repo = " +:+ ph +:+ ")"
  | RefEq => "(github_ref = " +:+ ph +:+ ")"
  | ImageRepoAny => "(" +:+ ph +:+ " = ANY (image_repos))"
  | StatusEq => "(status = " +:+ ph +:+ ")"
  | CompletedGe => "(completed >= " +:+ ph +:+ ")"
  | CreatedGe => "(created >= " +:+ ph +:+ ")"
  | CompletedLt => "(completed < " +:+ ph +:+ ")"
  | CreatedLt => "(created < " +:+ ph +:+ ")"
  end.

(** [conditionals] and [args] as they grow. *)
Record query := { conditionals : list (column_cond * nat); args : list arg }.

Definition placeholder (q : query) : nat := length (args q) + 1.

(** [if set { conditionals = append(...); args = append(...) }]. *)
Definition add_cond (set : bool) (c : column_cond) (a : arg) (q : query) : query :=
  if set then {| conditionals := conditionals q ++ [(c, placeholder q)]; args := args q ++ [a] |}
  else q.

Definition list_query (opts : ListBuildsOptions) : query :=
  let q := {| conditionals := []; args := [] |} in
  let q := add_cond (bool_decide (WithGitHubRepo opts ≠ ""%string)) RepoEq
             (ArgText (WithGitHubRepo opts)) q in
  let q := add_cond (bool_decide (WithGitHubRef opts ≠ ""%string)) RefEq
             (ArgText (WithGitHubRef opts)) q in
  let q := add_cond (bool_decide (WithImageRepo opts ≠ ""%string)) ImageRepoAny
             (ArgText (WithImageRepo opts)) q in
  let q := add_cond (bool_decide (WithStatus opts ≠ BuildStatusUnknown)) StatusEq
             (ArgStatus (WithStatus opts)) q in
  let q := add_cond (negb (IsZero (CompletedAfter opts))) CompletedGe
             (ArgTime (CompletedAfter opts)) q in
  let q := add_cond (negb (IsZero (StartedAfter opts))) CreatedGe
             (ArgTime (StartedAfter opts)) q in
  let q := add_cond (negb (IsZero (CompletedBefore opts))) CompletedLt
             (ArgTime (CompletedBefore opts)) q in
  add_cond (negb (IsZero (StartedBefore opts))) CreatedLt (ArgTime (StartedBefore opts)) q.

(** The text after WHERE. *)
Definition where_clause (q : query) : string :=
  Join ((λ '(c, n), cond_text c n) <$> conditionals q) " AND ".
Definition limit_clause (opts : ListBuildsOptions) : string :=
  if bool_decide (0 < Limit opts)%N then " LIMIT " +:+ fmt_int (Z.of_N (Limit opts)) else "".

(** The meaning of a condition; a comparison with NULL is not true. *)
Definition eval_cond (c : column_cond) (a : arg) (r : row) : bool :=
  match c, a with
  | RepoEq, ArgText s => bool_decide (r_github_repo r = s)
  | RefEq, ArgText s => bool_decide (r_github_ref r = s)
  | ImageRepoAny, ArgText s => existsb (λ ir, bool_decide (ir = s)) (r_image_repos r)
  | StatusEq, ArgStatus s => bool_decide (r_status r = s)
  | CompletedGe, ArgTime t =>
      match r_completed r with Some u => negb (Before u (timestamptz t)) | None => false end
  | CreatedGe, ArgTime t => negb (Before (r_created r) (timestamptz t))
  | CompletedLt, ArgTime t =>
      match r_completed r with Some u => Before u (timestamptz t) | None => false end
  | CreatedLt, ArgTime t => Before (r_created r) (timestamptz t)
  | _, _ => false
  end.

Definition eval_query (q : query) (r : row) : bool :=
  forallb (λ '(c, n), match nth_error (args q) (n - 1) with
                      | Some a => eval_cond c a r
                      | None => false
                      end) (conditionals q).

(** What the columns can be compared with. *)
Definition arg_ok (a : arg) : bool :=
  match a with
  | ArgText s => text_ok s
  | ArgStatus s => bool_decide (- 2 ^ 31 ≤ s < 2 ^ 31)
  | ArgTime _ => true
  end.

(** [dl.p.Query]: the rows in an order the database chooses.  A WHERE clause
    without a condition is a syntax error; a LIMIT over the largest bigint, and an
    argument the database cannot hold, are errors too. *)
Definition Query (opts : ListBuildsOptions) (q : query) : M pg_world (list row) :=
  f ← current_fault;
  s ← get_store;
  rows ← iterate (builds (db s));
  match f with
  | Some (Broken er _) => throw (error_of er)
  | _ =>
      if bool_decide (conditionals q = []) then throw syntax_error
      else if negb (forallb arg_ok (args q)) then throw bad_text
      else if bool_decide (2 ^ 63 ≤ Z.of_N (Limit opts)) then throw (ErrLib "bigint out of range")
      else
        let out := base.filter (λ r, eval_query q r = true) rows in
        mret (if bool_decide (0 < Limit opts)%N then take (N.to_nat (Limit opts)) out else out)
  end.

(** The loop [for rows.Next() { Scan; append }].  When the connection breaks
    [Next] is false, and the code does not look at [rows.Err()]. *)
Definition read_rows (f : option fault) (rows : list row) : res (list Build) :=
  match f with
  | Some (RowsBreak n scan) =>
      match scan with
      | Some er => if bool_decide (n < length rows)%nat
                   then Err (ErrWrap "error scanning build" (error_of er))
                   else Ok (build_of_row <$> rows)
      | None => Ok (build_of_row <$> take n rows)
      end
  | _ => Ok (build_of_row <$> rows)
  end.

Definition ListBuilds (opts : ListBuildsOptions) : M pg_world (list Build) :=
  lift_res (list_guards opts) ;;
  f ← current_fault;
  rows ← wrapf "error querying db" (Query opts (list_query opts));
  lift_res (read_rows f rows).

(** [*PostgresDBLayer] as a [DataLayer]; contexts only matter to the waits.
    [fuel] bounds the notifications one ListenForBuildEvents passes on. *)
Definition dl (fuel : nat) : DataLayer pg_world := {|
  Datalayer.CreateBuild _ := CreateBuild;
  Datalayer.GetBuildByID _ := GetBuildByID;
  Datalayer.ListBuilds _ := ListBuilds;
  Datalayer.SetBuildCompletedTimestamp _ := SetBuildCompletedTimestamp;
  Datalayer.SetBuildStatus _ := SetBuildStatus;
  Datalayer.DeleteBuild _ := DeleteBuild;
  Datalayer.CancelBuild _ := CancelBuild;
  Datalayer.ListenForCancellation _ := ListenForCancellation;
  Datalayer.ListenForBuildEvents _ := ListenForBuildEvents fuel;
  Datalayer.AddEvent _ := AddEvent;
  Datalayer.SetBuildAsRunning _ := SetBuildAsRunning;
  Datalayer.ListenForBuildRunning _ := ListenForBuildRunning;
  Datalayer.SetBuildAsCompleted _ := SetBuildAsCompleted;
  Datalayer.ListenForBuildCompleted _ := ListenForBuildCompleted;
  Datalayer.CreateAPIKey _ := CreateAPIKey;
  Datalayer.GetAPIKey _ := GetAPIKey;
  Datalayer.DeleteAPIKey _ := DeleteAPIKey;
|}.

(** *** Opening the pools *)

Record poolcfg := {
  MinConns : Z;
  MaxConns : Z;
  HealthCheckPeriod : Z;
  MaxConnIdleTime : Z;
  registers_uuid : bool;
}.

Definition MaxPoolConns : Z := 10.
Definition MaxListenPoolConns : Z := 100.

Section pools.
Context {W uricfg pool : Type}.
(** [pgxpool.ParseConfig] and [pgxpool.ConnectConfig]: what the URI configures,
    and the fields the program overwrites. *)
Variable ParseConfig : string → res uricfg.
Variable ConnectConfig : uricfg → poolcfg → M W pool.

Definition NewRawPGClient (pguri : string) (maxconns : Z) : M W pool :=
  dbcfg ← wrapf "error parsing pg db uri" (lift_res (ParseConfig pguri));
  wrapf "error creating pg connection pool" (ConnectConfig dbcfg
    {| MinConns := 2; MaxConns := int32 maxconns; HealthCheckPeriod := 5 * Second;
       MaxConnIdleTime := 10 * Second; registers_uuid := true |}).

Definition NewPostgresDBLayer (pguri : string) : M W (pool * pool) :=
  p ← wrapf "error getting conn pool" (NewRawPGClient pguri MaxPoolConns);
  lp ← wrapf "error getting listen conn pool" (NewRawPGClient pguri MaxListenPoolConns);
  mret (p, lp).
End pools.

End PG.
