(* ===== verification/PostgresFacts.v ===== *)
(** * The PostgreSQL data layer: its theorems

    The channel names and the quoting of the NOTIFY text, the retry loop, the
    transactions, the refinement of the contract of the interface, ListBuilds
    against its specification and the one in memory, and the subscriptions the listen
    pool leaks. *)

From S2P Require Import Prelude GoStrings Utf8 GoTime Uuid Models Datalayer FakeDL Postgres.

#[local] Arguments String.append !_ _ / : simpl nomatch.

(** The builds of the database, up to [view]. *)
Definition db_obs (d : pg_db) : gmap uuid Build := (λ r, view (PG.build_of_row r)) <$> builds d.
Definition pg_obs (e : pg_world) : gmap uuid Build := db_obs (db (store e)).

(** ** Channel names and quoting *)

Lemma hex_digit_ident n : ident_char (hex_digit n) = true.
Proof. unfold hex_digit. by repeat case_match. Qed.

Lemma hex_encode_ident l :
  forallb ident_char (String.list_ascii_of_string (ReplaceAll (hex_encode l) dash "_")) = true.
Proof.
  induction l as [|a l IH]; [done|].
  assert (∀ n, hex_digit n ≠ dash) as Hd by (intros n; unfold hex_digit; by repeat case_match).
  cbn [hex_encode ReplaceAll]. rewrite !decide_False by done.
  rewrite !list_ascii_app, !forallb_app, IH. simpl. by rewrite !hex_digit_ident.
Qed.

Lemma uuid_ident id :
  forallb ident_char (String.list_ascii_of_string (ReplaceAll (uuid_String id) dash "_")) = true.
Proof.
  unfold uuid_String. rewrite !ReplaceAll_app, !list_ascii_app, !forallb_app, !hex_encode_ident.
  done.
Qed.

Lemma length_list_ascii s : length (String.list_ascii_of_string s) = String.length s.
Proof. induction s; simpl; congruence. Qed.

(** A short prefix of identifier characters in front of a build ID is legal. *)
Lemma prefixed_ident c p id :
  ident_start c = true → forallb ident_char (String.list_ascii_of_string p) = true →
  String.length p < 27 →
  legal_ident (String c p +:+ ReplaceAll (uuid_String id) dash "_") = true.
Proof.
  intros Hc Hp Hl. unfold legal_ident. simpl.
  rewrite Hc, list_ascii_app, forallb_app, Hp, uuid_ident. simpl.
  apply Z.ltb_lt. rewrite length_app, !length_list_ascii, ReplaceAll_length_1, uuid_String_length.
  lia.
Qed.

(** The four channels of a build. *)
Inductive channel_kind := ChEvents | ChCancel | ChRunning | ChCompleted.

Definition channel (k : channel_kind) (id : uuid) : string :=
  match k with
  | ChEvents => PG.pgChanFromID id
  | ChCancel => PG.pgCxlChanFromID id
  | ChRunning => PG.pgRunChanFromID id
  | ChCompleted => PG.pgCompletedChanFromID id
  end.

Lemma channel_legal k id : legal_ident (channel k id) = true.
Proof. destruct k; apply prefixed_ident; done || (simpl; lia). Qed.

Lemma channel_id_inj p id id' :
  p +:+ ReplaceAll (uuid_String id) dash "_" = p +:+ ReplaceAll (uuid_String id') dash "_" →
  id = id'.
Proof.
  intros H%str_app_inj_l. apply uuid_String_inj.
  refine (ReplaceAll_inj _ _ dash underscore _ _ H); by apply uuid_String_no_byte.
Qed.

Lemma channel_inj k k' id id' : channel k id = channel k' id' → k = k' ∧ id = id'.
Proof.
  intros H. assert (k = k') as <-.
  { destruct k, k'; try done; discriminate H. }
  split; [done|]. destruct k; by apply channel_id_inj in H.
Qed.

(** The literal the server reads is the string that was quoted. *)
Lemma sql_literal_quote s rest :
  (∀ t, rest ≠ String squote t) →
  sql_literal (ReplaceAll s squote "''" +:+ String squote rest) = Some (s, rest).
Proof.
  intros Hrest. induction s as [|c s IH]; simpl.
  - destruct rest as [|d rest]; simpl; [done|]. rewrite decide_False; [done|].
    intros ->. by destruct (Hrest rest).
  - destruct (decide (c = squote)) as [->|Hc]; simpl.
    + by rewrite IH.
    + rewrite decide_False by done. by rewrite IH.
Qed.

Lemma legal_ident_no_byte ch c :
  legal_ident ch = true → ident_char c = false → ContainsByte ch c = false.
Proof.
  intros H Hc. unfold legal_ident in H.
  destruct ch as [|d ch]; [done|]. simpl in H.
  apply andb_true_iff in H as [[Hd H]%andb_true_iff _].
  assert (∀ b, ident_char b = true → bool_decide (b = c) = false) as Hne.
  { intros b Hb. apply bool_decide_eq_false. intros ->. congruence. }
  simpl. rewrite Hne by (unfold ident_char; by rewrite Hd). clear Hd. simpl.
  induction ch as [|b ch IH]; [done|]. simpl in *. apply andb_true_iff in H as [Hb H].
  rewrite Hne by done. by apply IH.
Qed.

Lemma parse_notify_quote ch s :
  legal_ident ch = true →
  parse_notify ("NOTIFY " +:+ ch +:+ ", " +:+ PG.quoteString s +:+ ";") =
  if text_ok s then Some (ch, s) else None.
Proof.
  intros Hch. unfold parse_notify.
  unfold HasPrefix. rewrite prefix_app, TrimPrefix_app.
  change (", " +:+ PG.quoteString s +:+ ";")%string
    with (String "," (String " " (PG.quoteString s +:+ ";"))).
  rewrite Cut_app by (by apply legal_ident_no_byte). rewrite Hch.
  unfold PG.quoteString. rewrite !str_app_assoc. simpl.
  by rewrite sql_literal_quote.
Qed.

Lemma parse_notify_plain ch s :
  legal_ident ch = true → ContainsByte s squote = false → text_ok s = true →
  parse_notify ("NOTIFY " +:+ ch +:+ ", '" +:+ s +:+ "';") = Some (ch, s).
Proof.
  intros Hch Hs Ht. pose proof (parse_notify_quote ch s Hch) as Hq. rewrite Ht in Hq.
  rewrite <-Hq. clear Ht Hq. unfold PG.quoteString.
  replace (ReplaceAll s squote "''") with s; [by rewrite !str_app_assoc|].
  induction s as [|c s IH]; [done|]. simpl in *.
  apply orb_false_iff in Hs as [Hc%bool_decide_eq_false Hs].
  rewrite decide_False by done. simpl. by rewrite <-IH.
Qed.

(** The server takes the statement for a notification of [n], or refuses it. *)
Definition announces (q : string) (n : string * string) : Prop :=
  ∀ n', parse_notify q = Some n' → n' = n.

Lemma announces_quote k id s :
  announces ("NOTIFY " +:+ channel k id +:+ ", " +:+ PG.quoteString s +:+ ";") (channel k id, s).
Proof.
  intros n'. rewrite parse_notify_quote by apply channel_legal. destruct (text_ok s); congruence.
Qed.

Lemma announces_plain k id s :
  ContainsByte s squote = false → text_ok s = true →
  announces ("NOTIFY " +:+ channel k id +:+ ", '" +:+ s +:+ "';") (channel k id, s).
Proof. intros Hs Ht n'. rewrite parse_notify_plain by (done || apply channel_legal). congruence. Qed.

Lemma parse_listen_legal ch :
  legal_ident ch = true → parse_listen ("LISTEN " +:+ ch +:+ ";") = Some ch.
Proof.
  intros Hch. unfold parse_listen, HasPrefix. rewrite prefix_app, TrimPrefix_app.
  rewrite Cut_app by (by apply legal_ident_no_byte). by rewrite Hch.
Qed.

(** ** Statements, retries and transactions *)

Section statements.
Implicit Types (e : pg_world) (d : pg_db).

(** One statement in autocommit mode: the change it makes to the builds. *)
Lemma Exec_changes st f e :
  (∀ now d d', exec_stmt now st d = Ok d' → db_obs d' = f (db_obs d)) →
  wp (Exec st) (changes pg_obs f e) e.
Proof.
  intros Hst. unfold wp, Exec, changes, pg_obs.
  destruct (exec_stmt _ st _) as [d'|er|p] eqn:E; [apply Hst in E|..];
    destruct (next_fault e) as [[er' []|]|]; simpl; auto.
Qed.

(** A query changes nothing but the tick; the row it returns is there. *)
Lemma wp_QueryRow {A} (q : pg_db → option A) e :
  wp (QueryRow q) (λ r e', store e' = store e ∧
    match r with
    | Ok a => q (db (store e)) = Some a
    | Err ErrNoRows => q (db (store e)) = None
    | Err er => ∃ c, er = error_of c
    | Panic _ => False
    end) e.
Proof.
  unfold wp, QueryRow.
  destruct (next_fault e) as [[[t u|m] b|]|];
    [split; [done|]; by exists (NetErr t u)|split; [done|]; by exists (DriverErr m)|..];
    destruct (q _) eqn:E; done.
Qed.

(** [retry] runs the query at most five times and reports what the last run
    reported; only timeouts and temporary network errors are retried. *)
Lemma wp_retry_loop {A} (q : pg_db → option A) n err e :
  wp (PG.retry_loop n (QueryRow q) err) (λ r e', store e' = store e ∧
    match r with
    | Ok a => q (db (store e)) = Some a
    | Err ErrNoRows => q (db (store e)) = None
    | Err ErrNotFound | Panic _ => False
    | Err _ => True
    end) e.
Proof.
  revert err e. induction n as [|n IH]; intros err e; [done|].
  simpl. wp_simpl. eapply wp_mono; [|apply (wp_QueryRow q)].
  intros r e' [Hs Hr]. rewrite <-Hs in *.
  destruct r as [a|er|p]; [by wp_simpl| |done].
  destruct er; wp_simpl; try done; try (by destruct Hr as [[] Hc]).
  case_goal; wp_simpl; [done|]. by apply IH.
Qed.

(** The outcome of fetching one row by its key. *)
Definition fetched {A} (q : pg_db → option A) e (r : res A) (e' : pg_world) : Prop :=
  store e' = store e ∧
  match r with
  | Ok a => q (db (store e)) = Some a
  | Err ErrNotFound => q (db (store e)) = None
  | Err ErrNoRows | Panic _ => False
  | Err _ => True
  end.

Lemma wp_fetch {A} (q : pg_db → option A) msg e :
  wp (on_err (PG.not_found_or msg) (PG.retry (Some (QueryRow q)))) (fetched q e) e.
Proof.
  rewrite wp_on_err. unfold PG.retry.
  eapply wp_mono; [|apply (wp_retry_loop q PG.retries)]. unfold fetched, PG.not_found_or.
  intros r e' [Hs Hr]. destruct r as [a|er|p]; [done| |done]. split; [done|].
  by destruct er.
Qed.

Definition build_by_id (id : uuid) (d : pg_db) : option Build :=
  PG.build_of_row <$> builds d !! id.

Lemma wp_GetBuildByID id e : wp (PG.GetBuildByID id) (fetched (build_by_id id) e) e.
Proof. apply wp_fetch. Qed.

(** A transaction from its last statement on: the update and the notification
    become visible together or not at all. *)
Definition atomically (f : gmap uuid Build → gmap uuid Build) (n : string * string) (e0 : pg_world)
    (r : res ()) (e' : pg_world) : Prop :=
  let done := pg_obs e' = f (pg_obs e0) ∧ notified (store e') = notified (store e0) ++ [n] in
  match r with
  | Ok _ => done
  | Err _ => (pg_obs e' = pg_obs e0 ∧ notified (store e') = notified (store e0)) ∨ done
  | Panic _ => False
  end.

Lemma atomically_changes f n e0 r e' : atomically f n e0 r e' → changes pg_obs f e0 r e'.
Proof. destruct r; simpl; unfold changes; tauto. Qed.

Lemma atomically_fail f n e0 er e' : store e' = store e0 → atomically f n e0 (Err er) e'.
Proof. intros Hs. left. unfold pg_obs. by rewrite Hs. Qed.

Lemma wp_Begin e (Q : res pgtxn → pg_world → Prop) :
  (∀ e' r, store e' = store e →
     match r with
     | Ok tx => tx_db tx = db (store e) ∧ tx_notes tx = []
     | Err _ => True
     | Panic _ => False
     end → Q r e') → wp Begin Q e.
Proof. intros HQ. unfold wp, Begin. by destruct (next_fault e) as [[]|]; apply HQ. Qed.

Lemma wp_tx_Exec st tx e (Q : res pgtxn → pg_world → Prop) :
  (∀ e' r, store e' = store e →
     match r with
     | Ok tx' => exec_stmt (tx_now tx) st (tx_db tx) = Ok (tx_db tx') ∧ tx_notes tx' = tx_notes tx
     | Err _ => True
     | Panic _ => ∃ p, exec_stmt (tx_now tx) st (tx_db tx) = Panic p
     end → Q r e') → wp (tx_Exec st tx) Q e.
Proof.
  intros HQ. unfold wp, tx_Exec, tx_step.
  destruct (next_fault e) as [[]|]; try (by apply HQ); apply HQ; try done;
    destruct (exec_stmt _ _ _); simpl; eauto.
Qed.

Lemma exec_stmt_no_panic now st d p : exec_stmt now st d ≠ Panic p.
Proof. unfold exec_stmt. destruct st; simpl; unfold check_int4; repeat case_match; done. Qed.

Lemma wp_tx_Notify q n tx e (Q : res pgtxn → pg_world → Prop) :
  announces q n →
  (∀ e' r, store e' = store e →
     match r with
     | Ok tx' => tx_db tx' = tx_db tx ∧ tx_notes tx' = tx_notes tx ++ [n]
     | Err _ => True
     | Panic _ => False
     end → Q r e') → wp (tx_Notify q tx) Q e.
Proof.
  intros Hq HQ. unfold wp, tx_Notify, tx_step.
  destruct (parse_notify q) as [[ch p]|] eqn:E; [apply Hq in E as <-|];
    destruct (next_fault e) as [[]|]; try (by apply HQ);
    destruct (Z.of_nat (String.length p) <? 8000)%Z; by apply HQ.
Qed.

Lemma wp_Commit f n m tx e0 e :
  store e = store e0 → db_obs (tx_db tx) = f (pg_obs e0) → tx_notes tx = [n] →
  wp (wrapf m (Commit tx)) (atomically f n e0) e.
Proof.
  intros Hs Hdb Hn. wp_simpl. unfold wp, Commit. rewrite Hn.
  destruct (next_fault e) as [[er []|]|]; simpl; unfold pg_obs; simpl; rewrite ?Hs; auto.
Qed.

(** NOTIFY and COMMIT, after the update. *)
Lemma wp_notify_commit f q n m1 m2 tx e0 e :
  announces q n → store e = store e0 →
  db_obs (tx_db tx) = f (pg_obs e0) → tx_notes tx = [] →
  wp (tx ← wrapf m1 (tx_Notify q tx); wrapf m2 (Commit tx)) (atomically f n e0) e.
Proof.
  intros Hq Hs Hdb Hn. rewrite wp_bind, wp_wrapf. eapply wp_tx_Notify; [done|].
  intros e' [tx'|er|?] Hs' Hr; [|apply atomically_fail; by rewrite Hs'|done].
  destruct Hr as [Hd Hn']. apply wp_Commit; [by rewrite Hs'|by rewrite Hd|by rewrite Hn', Hn].
Qed.

(** The whole transaction: BEGIN, the update, NOTIFY, COMMIT. *)
Lemma wp_transaction f st q n m0 m1 m2 m3 e0 e :
  announces q n → store e = store e0 →
  (∀ now d d', exec_stmt now st d = Ok d' → db_obs d' = f (db_obs d)) →
  wp (tx ← wrapf m0 Begin; tx ← wrapf m1 (tx_Exec st tx);
      tx ← wrapf m2 (tx_Notify q tx); wrapf m3 (Commit tx)) (atomically f n e0) e.
Proof.
  intros Hq Hs Hst. rewrite wp_bind, wp_wrapf. apply wp_Begin.
  intros e1 [tx|er|?] Hs1 Hr; [|by apply atomically_fail; rewrite Hs1|done].
  rewrite wp_bind, wp_wrapf. apply wp_tx_Exec.
  intros e2 [tx2|er|?] Hs2 Hr2;
    [|by apply atomically_fail; rewrite Hs2, Hs1
     |destruct Hr2 as [? Hp]; by apply exec_stmt_no_panic in Hp].
  destruct Hr as [Hd Hn], Hr2 as [Hx Hn2].
  eapply wp_notify_commit; [done|by rewrite Hs2, Hs1| |by rewrite Hn2].
  rewrite (Hst _ _ _ Hx), Hd. unfold pg_obs. by rewrite Hs.
Qed.
End statements.

(** ** What the statements do to the builds *)

Lemma db_obs_update now f g id d :
  (∀ r, view (PG.build_of_row (update_row now f r)) = g (view (PG.build_of_row r))) →
  db_obs (with_builds (alter (update_row now f) id (builds d)) d) = alter g id (db_obs d).
Proof.
  intros Hf. unfold db_obs. simpl. apply map_eq. intros j. rewrite lookup_fmap.
  destruct (decide (id = j)) as [->|Hne].
  - rewrite !lookup_alter_eq, lookup_fmap. destruct (builds d !! j); simpl; [by rewrite Hf|done].
  - by rewrite !lookup_alter_ne, lookup_fmap.
Qed.

Lemma exec_stmt_Ok now st d d' : exec_stmt now st d = Ok d' → stmt_effect now st d = Ok d'.
Proof. unfold exec_stmt. by destruct (forallb _ _). Qed.

Lemma check_int4_Ok z d d' : check_int4 z d = Ok d' → d' = d.
Proof. unfold check_int4. case_bool_decide; by intros; simplify_eq. Qed.

Lemma exec_UpdateStatus s id now d d' :
  exec_stmt now (UpdateStatus s id) d = Ok d' → db_obs d' = alter (with_Status s) id (db_obs d).
Proof. intros ->%exec_stmt_Ok%check_int4_Ok. by apply db_obs_update. Qed.

Lemma exec_UpdateStatusCompleted s t id now d d' :
  exec_stmt now (UpdateStatusCompleted s t id) d = Ok d' →
  db_obs d' = alter (with_Status s) id (db_obs d).
Proof. intros ->%exec_stmt_Ok%check_int4_Ok. by apply db_obs_update. Qed.

Lemma exec_AppendEvent ev id now d d' :
  exec_stmt now (AppendEvent ev id) d = Ok d' →
  db_obs d' = alter (λ b, with_Events (b_Events b ++ [ev]) b) id (db_obs d).
Proof. intros [= <-]%exec_stmt_Ok. by apply db_obs_update. Qed.

Lemma exec_UpdateCompleted t id now d d' :
  exec_stmt now (UpdateCompleted t id) d = Ok d' → db_obs d' = db_obs d.
Proof.
  intros [= <-]%exec_stmt_Ok. rewrite (db_obs_update _ _ (λ b, b)); [|done].
  apply map_eq. intros j. destruct (decide (id = j)) as [->|Hne].
  - rewrite lookup_alter_eq. by destruct (_ !! _).
  - by rewrite lookup_alter_ne.
Qed.

Lemma exec_DeleteFromBuilds id now d d' :
  exec_stmt now (DeleteFromBuilds id) d = Ok d' → db_obs d' = delete id (db_obs d).
Proof. intros [= <-]%exec_stmt_Ok. unfold db_obs. simpl. by rewrite fmap_delete. Qed.

(** The build an INSERT stores. *)
Definition inserted (id : uuid) (b : Build) : Build :=
  {| b_ID := id; b_Created := time_zero; b_Updated := time_zero; b_Completed := time_zero;
     b_GitHubRepo := b_GitHubRepo b; b_GitHubRef := b_GitHubRef b;
     b_EncryptedGitHubCredential := b_EncryptedGitHubCredential b;
     b_ImageRepos := b_ImageRepos b; b_Tags := b_Tags b; b_CommitSHATag := b_CommitSHATag b;
     b_BuildOptions := json_options (b_BuildOptions b); b_Request := scrub (b_Request b);
     b_Status := BuildStatusNotStarted; b_Events := [] |}.

Lemma exec_InsertBuild id b now d d' :
  exec_stmt now (InsertBuild id b (scrub (b_Request b)) BuildStatusNotStarted) d = Ok d' →
  db_obs d' = <[id := with_Times (timestamptz now) time_zero time_zero (inserted id b)]> (db_obs d).
Proof.
  intros H%exec_stmt_Ok. simpl in H. destruct (builds d !! id); [done|].
  apply check_int4_Ok in H as ->.
  unfold db_obs. simpl. by rewrite fmap_insert.
Qed.

Lemma created_inserted id b t : created_from b (with_Times t time_zero time_zero (inserted id b)) id.
Proof. constructor; try done. simpl. apply scrub_idemp. Qed.

Lemma lookup_pg_obs id e : pg_obs e !! id = view <$> build_by_id id (db (store e)).
Proof. unfold pg_obs, db_obs, build_by_id. rewrite lookup_fmap. by destruct (_ !! _). Qed.

Lemma pg_obs_store e e' : store e' = store e → pg_obs e' = pg_obs e.
Proof. unfold pg_obs. by intros ->. Qed.

(** ** The four transactions *)

(** After a fetch that changed nothing: continue, or fail without an effect. *)
Lemma wp_fetched_build {A} id msg (k : Build → M pg_world A) (Q : res A → pg_world → Prop) e :
  (∀ b e', store e' = store e → pg_obs e !! id = Some (view b) → wp (k b) Q e') →
  (∀ er e', store e' = store e → Q (Err er) e') →
  wp (b ← wrapf msg (PG.GetBuildByID id); k b) Q e.
Proof.
  intros Hk He. rewrite wp_bind, wp_wrapf. eapply wp_mono; [|apply wp_GetBuildByID].
  intros r e' [Hs Hr]. destruct r as [b|er|p]; [|by apply He|done].
  apply Hk; [done|]. by rewrite lookup_pg_obs, Hr.
Qed.

Lemma wp_AddEvent id ev e :
  wp (PG.AddEvent id ev)
     (atomically (alter (λ b, with_Events (b_Events b ++ [ev]) b) id) (PG.pgChanFromID id, ev) e) e.
Proof.
  apply wp_fetched_build; [|intros; by apply atomically_fail].
  intros b e' Hs _. destruct (CanAddEvent b); cbn [negb]; [|by apply atomically_fail].
  apply wp_transaction; [|done|intros; by eapply exec_AppendEvent].
  apply (announces_quote ChEvents).
Qed.

Lemma wp_CancelBuild id e :
  wp (PG.CancelBuild id)
     (atomically (alter (with_Status BuildStatusCancelRequested) id)
        (PG.pgCxlChanFromID id, "cancel"%string) e) e.
Proof.
  apply wp_fetched_build; [|intros; by apply atomically_fail].
  intros b e' Hs _. destruct (Running b); [|by apply atomically_fail].
  apply wp_transaction; [|done|intros; by eapply exec_UpdateStatus].
  by apply (announces_plain ChCancel id "cancel").
Qed.

Lemma wp_SetBuildAsRunning id e :
  wp (PG.SetBuildAsRunning id)
     (atomically (alter (with_Status BuildStatusRunning) id)
        (PG.pgRunChanFromID id, "running"%string) e) e.
Proof.
  apply wp_transaction; [|done|intros; by eapply exec_UpdateStatus].
  by apply (announces_plain ChRunning id "running").
Qed.

Lemma fmt_terminal_plain s :
  TerminalState s = true →
  ContainsByte (fmt_int s) squote = false ∧ text_ok (fmt_int s) = true ∧
  Atoi (fmt_int s) = Some s.
Proof. rewrite TerminalState_spec. by intros [->|[->|[->| ->]]]. Qed.

Lemma wp_SetBuildAsCompleted id s e :
  wp (PG.SetBuildAsCompleted id s)
     (atomically (alter (with_Status s) id) (PG.pgCompletedChanFromID id, fmt_int s) e) e.
Proof.
  unfold PG.SetBuildAsCompleted. destruct (TerminalState s) eqn:Ht; cbn [negb];
    [|by apply atomically_fail].
  rewrite wp_bind, wp_wrapf. apply wp_Begin.
  intros e1 [tx|er|?] Hs1 Hr; [|by apply atomically_fail|done].
  rewrite wp_bind, wp_Now. rewrite wp_bind, wp_wrapf. apply wp_tx_Exec.
  intros e2 [tx2|er|?] Hs2 Hr2;
    [|apply atomically_fail; by rewrite Hs2
     |destruct Hr2 as [? Hp]; by apply exec_stmt_no_panic in Hp].
  destruct Hr as [Hd Hn], Hr2 as [Hx Hn2].
  eapply wp_notify_commit; [|by rewrite Hs2| |by rewrite Hn2].
  - by apply (announces_plain ChCompleted); apply fmt_terminal_plain.
  - by rewrite (exec_UpdateStatusCompleted _ _ _ _ _ _ Hx), Hd.
Qed.

(** ** The contract *)

(** The insertion of [b] under [id], at some time. *)
Definition inserts (b : Build) (id : uuid) (e e' : pg_world) : Prop :=
  ∃ t, pg_obs e' = <[id := with_Times t time_zero time_zero (inserted id b)]> (pg_obs e).

Lemma wp_CreateBuild b e :
  wp (PG.CreateBuild b) (λ r e',
    match r with
    | Ok id => inserts b id e e'
    | Err _ => pg_obs e' = pg_obs e ∨ ∃ id, inserts b id e e'
    | Panic _ => pg_obs e' = pg_obs e
    end) e.
Proof.
  unfold PG.CreateBuild. wp_simpl.
  destruct (rand_uuid e (tick e)) as [id|er|p]; simpl; [|by auto..]. wp_simpl.
  unfold wp, Exec, inserts. cbn -[exec_stmt].
  destruct (exec_stmt _ _ _) as [d'|er|p] eqn:E.
  - apply exec_InsertBuild in E. unfold pg_obs.
    destruct (next_fault _) as [[er []|]|]; simpl; try rewrite E; eauto.
  - destruct (next_fault _) as [[er' []|]|]; by left.
  - by apply exec_stmt_no_panic in E.
Qed.

#[export] Instance PG_spec fuel : DataLayerSpec (PG.dl fuel) pg_obs.
Proof.
  split; cbn -[wp].
  - intros _ b e. eapply wp_mono; [|apply wp_CreateBuild].
    unfold inserts. pose proof created_inserted.
    intros [id|er|p] e'; [intros [t Ht]|intros [H1|(id & t & Ht)]|]; eauto.
  - intros _ id e. eapply wp_mono; [|apply wp_GetBuildByID]. intros r e' [Hs Hr].
    split; [by apply pg_obs_store|]. rewrite lookup_pg_obs.
    destruct r as [b|er|p]; [by rewrite Hr|destruct er; try done; by rewrite Hr|done].
  - intros _ id ev e. eapply wp_mono; [|apply wp_AddEvent]. apply atomically_changes.
  - intros _ id e. eapply wp_mono; [|apply wp_SetBuildAsRunning]. apply atomically_changes.
  - intros _ id s e _. eapply wp_mono; [|apply wp_SetBuildAsCompleted]. apply atomically_changes.
  - intros _ id b e _ _. eapply wp_mono; [|apply wp_CancelBuild]. apply atomically_changes.
  - intros _ id s e. apply Exec_changes, exec_UpdateStatus.
  - intros _ id t e. apply Exec_changes, exec_UpdateCompleted.
  - intros _ id e. apply Exec_changes, exec_DeleteFromBuilds.
Qed.

(** ** The query of ListBuilds *)

Section query.
Import PG.
Implicit Types (q : query) (r : row).







End query.












(** ** Properties *)

(** C1: The PostgreSQL data layer meets the contract of the interface: every statement
    and transaction has the effect its operation promises, or none, whatever the
    network does. *)
Theorem PG_refines_spec fuel : DataLayerSpec (PG.dl fuel) pg_obs.
Proof. apply PG_spec. Qed.

(** C9: A change of status and the notification that announces it (on the channel of
    that build, with that payload) become visible together or not at all; a nil
    error means they did. *)
Theorem PG_transactions_atomic id ev s e :
  wp (PG.AddEvent id ev)
     (atomically (alter (λ b, with_Events (b_Events b ++ [ev]) b) id) (PG.pgChanFromID id, ev) e) e ∧
  wp (PG.CancelBuild id)
     (atomically (alter (with_Status BuildStatusCancelRequested) id)
        (PG.pgCxlChanFromID id, "cancel"%string) e) e ∧
  wp (PG.SetBuildAsRunning id)
     (atomically (alter (with_Status BuildStatusRunning) id)
        (PG.pgRunChanFromID id, "running"%string) e) e ∧
  wp (PG.SetBuildAsCompleted id s)
     (atomically (alter (with_Status s) id) (PG.pgCompletedChanFromID id, fmt_int s) e) e.
Proof.
  split_and!; [apply wp_AddEvent|apply wp_CancelBuild|apply wp_SetBuildAsRunning
              |apply wp_SetBuildAsCompleted].
Qed.

(** [m] failed and changed nothing. *)
Definition refused {A} (e : pg_world) (r : res A) (e' : pg_world) : Prop :=
  (∃ er, r = Err er) ∧ store e' = store e.

Lemma refused_err {A} er e e' : store e' = store e → refused (A := A) e (Err er) e'.
Proof. split; [by eexists|done]. Qed.

(** C10: Events are only added to builds that are not finished, only running builds can
    be cancelled, and only a terminal status completes a build: every other call
    fails and leaves the database and the notifications as they were. *)
Theorem PG_guards id ev s e :
  (∀ b, pg_obs e !! id = Some b → TerminalState (b_Status b) = true →
     wp (PG.AddEvent id ev) (refused e) e) ∧
  (∀ b, pg_obs e !! id = Some b → b_Status b ≠ BuildStatusRunning →
     wp (PG.CancelBuild id) (refused e) e) ∧
  (pg_obs e !! id = None →
     wp (PG.AddEvent id ev) (refused e) e ∧ wp (PG.CancelBuild id) (refused e) e) ∧
  (TerminalState s = false → wp (PG.SetBuildAsCompleted id s) (refused e) e).
Proof.
  split_and!.
  - intros b Hb Ht. apply wp_fetched_build; [|intros; by apply refused_err].
    intros b' e' Hs Hb'. rewrite Hb in Hb'. simplify_eq. unfold CanAddEvent, EventListenable.
    simpl in Ht. rewrite Ht. split; [by eexists|done].
  - intros b Hb Hr. apply wp_fetched_build; [|intros; by apply refused_err].
    intros b' e' Hs Hb'. rewrite Hb in Hb'. simplify_eq. unfold Running.
    rewrite bool_decide_false by done. split; [by eexists|done].
  - intros Hn. split; (apply wp_fetched_build; [|intros; by apply refused_err]);
      intros b' e' _ Hb'; rewrite Hn in Hb'; done.
  - intros Ht. unfold PG.SetBuildAsCompleted. rewrite Ht. split; [by eexists|done].
Qed.

(** C25: The four channel names of a build are identifiers PostgreSQL takes as they are,
    and no two builds and no two kinds of notification share one. *)
Theorem channels_legal_and_distinct k k' id id' :
  legal_ident (channel k id) = true ∧
  (channel k id = channel k' id' → k = k' ∧ id = id').
Proof. split; [apply channel_legal|apply channel_inj]. Qed.

(** What [retry] sees of a statement. *)
Definition retryable (f : option fault) : bool :=
  match f with
  | Some (Broken (NetErr timeout temporary) _) => timeout || temporary
  | _ => false
  end.

(** The rounds of [retry]: all but the last were retryable, and the last was not
    unless the five rounds are used up. *)
Definition retried (n : nat) (e e' : pg_world) : Prop :=
  faults (store e') = faults (store e) ∧
  ∃ k, tick e' = tick e + S k ∧ k < n ∧
    (∀ i, i < k → retryable (faults (store e) (tick e + i)) = true) ∧
    (retryable (faults (store e) (tick e + k)) = true → S k = n).

Lemma retry_loop_bounded {A} (q : pg_db → option A) n err e :
  0 < n → wp (PG.retry_loop n (QueryRow q) err) (λ _ e', retried n e e') e.
Proof.
  revert err e. induction n as [|n IH]; intros err e Hn; [lia|].
  assert (∀ e1, e1 = next e → retryable (next_fault e) = false → retried (S n) e e1) as Hlast.
  { intros e1 -> Hf. split; [done|]. exists 0. simpl. rewrite Nat.add_0_r.
    unfold next_fault in Hf. rewrite Hf. split_and!; [lia|lia|lia|done]. }
  cbn [PG.retry_loop]. wp_simpl. unfold wp at 1, QueryRow.
  destruct (next_fault e) as [[[t u|m] b|]|] eqn:Hf; simpl;
    try (destruct (q _)); wp_simpl; try (by apply Hlast).
  destruct (negb t && negb u) eqn:Htu; wp_simpl.
  { apply Hlast; [done|]. simpl. by destruct t, u. }
  assert (retryable (next_fault e) = true) as Hr by (rewrite Hf; simpl; by destruct t, u).
  destruct n as [|n].
  { split; [done|]. exists 0. simpl. split_and!; [lia|lia|lia|done]. }
  eapply wp_mono; [|apply IH; lia]. intros _ e' [Hfs (k & Ht & Hk & Hall & Hlst)].
  split; [done|]. exists (S k). simpl in *. split_and!; [lia|lia| |].
  - intros [|i] Hi; [by rewrite Nat.add_0_r; exact Hr|].
    rewrite <-Nat.add_succ_comm. apply Hall. lia.
  - rewrite <-Nat.add_succ_comm. intros H%Hlst. lia.
Qed.

(** Fetching a build runs its query at least once and at most five times, goes on
    only after a timeout or a temporary network error, and stops at the first
    outcome that is neither. *)
Theorem GetBuildByID_retries id e :
  wp (PG.GetBuildByID id) (λ _ e', retried 5 e e') e.
Proof.
  unfold PG.GetBuildByID. rewrite wp_on_err.
  eapply wp_mono; [|apply (retry_loop_bounded (build_by_id id) 5); lia].
  by intros [?|?|?].
Qed.




(** C24: A result set cut short is not reported: when the connection breaks after [n] rows,
    ListBuilds returns the first [n] of the builds it should list, and a nil error. *)
Theorem PG_ListBuilds_truncates o e e0 n :
  store e0 = PgStore (db (store e)) (notified (store e)) (idle (store e)) (in_use (store e))
               (λ _, None) (pg_now (store e)) →
  (rand_uuid e0, clock e0, map_order e0, blocked e0, tick e0) =
  (rand_uuid e, clock e, map_order e, blocked e, tick e) →
  next_fault e = Some (RowsBreak n None) →
  (PG.ListBuilds o e).1 = match (PG.ListBuilds o e0).1 with
                          | Ok out => Ok (take n out)
                          | r => r
                          end.
Proof.
  intros Hs Heq Hf. simplify_eq.
  destruct e as [s ra cl mo bl tk], e0 as [s0 ra0 cl0 mo0 bl0 tk0]. simpl in *. simplify_eq.
  unfold next_fault in Hf. simpl in Hf.
  unfold PG.ListBuilds, PG.Query, current_fault, next_fault, wrapf, on_err, mbind, M_bind,
    lift_res, get_store, iterate. simpl.
  destruct (list_guards o) as [[]|er|p]; simpl; [|done..]. rewrite Hf. simpl.
  case_bool_decide; [done|]. destruct (forallb _ _); [|done]. simpl.
  case_bool_decide; [done|]. simpl. by rewrite fmap_take.
Qed.

(** No row holds a clear-text credential. *)
Definition clean (e : pg_world) : Prop :=
  map_Forall (λ _ r, scrub (r_request r) = r_request r) (builds (db (store e))).
Definition clean_obs (m : gmap uuid Build) : Prop :=
  map_Forall (λ _ b, scrub (b_Request b) = b_Request b) m.

Lemma clean_pg_obs e : clean e ↔ clean_obs (pg_obs e).
Proof. unfold clean, clean_obs, pg_obs, db_obs. by rewrite map_Forall_fmap. Qed.

Lemma clean_alter f id m :
  (∀ b, b_Request (f b) = b_Request b) → clean_obs m → clean_obs (alter f id m).
Proof.
  intros Hf Hm k x. rewrite lookup_alter_Some. intros [(-> & y & Hy & ->)|[_ Hx]].
  - rewrite Hf. by apply (Hm k).
  - by apply (Hm k).
Qed.

Lemma clean_changes {A} (m : M pg_world A) f e :
  clean e → wp m (changes pg_obs f e) e → (clean_obs (pg_obs e) → clean_obs (f (pg_obs e))) →
  wp m (λ _, clean) e.
Proof.
  rewrite clean_pg_obs. intros Hc Hm Hf. eapply wp_mono; [|exact Hm]. intros r e' H.
  rewrite clean_pg_obs. destruct r; simpl in H; [rewrite H; auto|destruct H as [-> | ->]; auto..].
Qed.

Lemma clean_inserts b id e e' : clean e → inserts b id e e' → clean e'.
Proof.
  rewrite !clean_pg_obs. intros Hc [t ->]. apply map_Forall_insert_2; [|done].
  simpl. apply scrub_idemp.
Qed.

(** C17: No build is ever stored with the clear-text GitHub credential of its request:
    every operation that writes keeps the database free of them. *)
Theorem PG_no_clear_credentials b id ev s t e :
  clean e →
  wp (PG.CreateBuild b) (λ _, clean) e ∧ wp (PG.AddEvent id ev) (λ _, clean) e ∧
  wp (PG.CancelBuild id) (λ _, clean) e ∧ wp (PG.SetBuildAsRunning id) (λ _, clean) e ∧
  wp (PG.SetBuildAsCompleted id s) (λ _, clean) e ∧ wp (PG.SetBuildStatus id s) (λ _, clean) e ∧
  wp (PG.SetBuildCompletedTimestamp id t) (λ _, clean) e ∧ wp (PG.DeleteBuild id) (λ _, clean) e.
Proof.
  intros Hc. split_and!.
  - eapply wp_mono; [|apply wp_CreateBuild].
    assert (∀ e', pg_obs e' = pg_obs e → clean e') as Hsame.
    { intros e' H. rewrite clean_pg_obs, H. by apply clean_pg_obs. }
    intros [id'|er|p] e'; [|intros [H|[? H]]|]; eauto using clean_inserts.
  - eapply clean_changes; [done|eapply wp_mono; [apply atomically_changes|apply wp_AddEvent]|].
    intros; by apply clean_alter.
  - eapply clean_changes; [done|eapply wp_mono; [apply atomically_changes|apply wp_CancelBuild]|].
    intros; by apply clean_alter.
  - eapply clean_changes; [done|eapply wp_mono; [apply atomically_changes|apply wp_SetBuildAsRunning]|].
    intros; by apply clean_alter.
  - eapply clean_changes; [done|eapply wp_mono; [apply atomically_changes|apply wp_SetBuildAsCompleted]|].
    intros; by apply clean_alter.
  - eapply clean_changes; [done|apply Exec_changes, exec_UpdateStatus|].
    intros; by apply clean_alter.
  - eapply (clean_changes _ (λ m, m)); [done|apply Exec_changes, exec_UpdateCompleted|done].
  - eapply clean_changes; [done|apply Exec_changes, exec_DeleteFromBuilds|].
    intros H. by apply map_Forall_delete.
Qed.

(** A database that always answers, on which nothing else happens. *)
Definition quiet (e : pg_world) : Prop :=
  faults (store e) = (λ _, None) ∧ blocked e = (λ _, (λ s, s, [])).

Lemma quiet_step e s :
  quiet e → faults s = faults (store e) → quiet (next (set_store s e)).
Proof. intros [Hf Hb] Hs. split; simpl; congruence. Qed.

Lemma quiet_fault e : quiet e → next_fault e = None.
Proof. intros [Hf _]. unfold next_fault. by rewrite Hf. Qed.

(** Fetching a build of a quiet database. *)
Lemma quiet_Get id e r :
  quiet e → builds (db (store e)) !! id = Some r →
  PG.GetBuildByID id e = (Ok (PG.build_of_row r), next e).
Proof.
  intros Hq Hr. unfold PG.GetBuildByID, PG.retry, on_err. cbn [PG.retry_loop PG.retries].
  unfold mbind, M_bind, attempt, QueryRow. by rewrite quiet_fault, Hr by done.
Qed.

(** The connection [Acquire] takes. *)
Definition acquired (e : pg_world) : pgconn :=
  match idle (store e) with c :: _ => c | [] => {| subs := []; buffered := [] |} end.

Lemma quiet_Acquire e :
  quiet e →
  Acquire e = (Ok (), next (set_store (with_conns (tail (idle (store e)))
                              (acquired e :: in_use (store e)) (store e)) e)).
Proof.
  intros Hq. unfold Acquire, acquired. rewrite quiet_fault by done. by destruct (idle (store e)).
Qed.

Lemma quiet_Listen ch e :
  quiet e → legal_ident ch = true →
  Listen ("LISTEN " +:+ ch +:+ ";") e =
  (Ok (), next (set_store (on_conn (subscribe ch) (store e)) e)).
Proof. intros Hq Hch. unfold Listen. by rewrite quiet_fault, parse_listen_legal. Qed.

(** Waiting for the completion of a running build on a quiet database: the first
    notification buffered in the connection, of whatever channel, decides; if
    there is none the wait fails.  The connection goes back with its
    subscriptions. *)
Lemma quiet_ListenForBuildCompleted id e r :
  quiet e → builds (db (store e)) !! id = Some r → r_status r = BuildStatusRunning →
  wp (PG.ListenForBuildCompleted id) (λ res e',
    quiet e' ∧ db (store e') = db (store e) ∧
    let c := subscribe (PG.pgCompletedChanFromID id) (acquired e) in
    match buffered (acquired e) with
    | [] => (∃ er, res = Err er) ∧ idle (store e') = c :: tail (idle (store e))
    | n :: _ => res = PG.completed_status n.2 ∧ idle (store e') = pop c :: tail (idle (store e))
    end) e.
Proof.
  intros Hq Hr Hs. unfold PG.ListenForBuildCompleted.
  rewrite wp_bind, wp_wrapf. unfold wp at 1. rewrite (quiet_Get _ _ _ Hq Hr). cbn [fst snd].
  cbn [PG.build_of_row b_Status]. rewrite Hs, (bool_decide_true (BuildStatusRunning = _)) by done.
  change (TerminalState BuildStatusRunning) with false. cbn [orb].
  assert (quiet (next e)) as Hq1 by (by destruct Hq; split).
  unfold PG.listening. rewrite wp_bind, wp_wrapf. unfold wp at 1.
  rewrite (quiet_Acquire _ Hq1). cbn [fst snd].
  rewrite wp_deferring, wp_bind, wp_wrapf. unfold wp at 1.
  rewrite (quiet_Listen (channel ChCompleted id)) by (apply channel_legal || by apply quiet_step).
  cbn [fst snd]. unfold WaitForNotification, take_notification, pop.
  unfold wp, block, mbind, M_bind, wrapf, on_err, get_store, put_store, lift_res, throw, Release,
    modify_store. destruct Hq as [Hf Hb]. cbn. change (acquired (next e)) with (acquired e).
  destruct (buffered (acquired e)) as [|n l] eqn:Hbuf; cbn.
  - rewrite Hb. cbn. rewrite Hbuf. cbn. split_and!; try done. by eexists.
  - rewrite Hbuf. cbn. destruct (PG.completed_status n.2); cbn; by split_and!.
Qed.

(** Completing a build on a quiet database. *)
Lemma quiet_SetBuildAsCompleted id s e :
  quiet e → TerminalState s = true →
  wp (PG.SetBuildAsCompleted id s) (λ res e',
    res = Ok () ∧ quiet e' ∧
    idle (store e') = deliver (PG.pgCompletedChanFromID id, fmt_int s) <$> idle (store e) ∧
    ∀ j, j ≠ id → builds (db (store e')) !! j = builds (db (store e)) !! j) e.
Proof.
  intros Hq Hs. unfold PG.SetBuildAsCompleted. rewrite Hs. cbn [negb].
  pose proof (parse_notify_plain (channel ChCompleted id) (fmt_int s) (channel_legal _ _)
                (proj1 (fmt_terminal_plain s Hs)) (proj1 (proj2 (fmt_terminal_plain s Hs))))
    as Hparse. cbn [channel] in Hparse.
  remember ("NOTIFY " +:+ PG.pgCompletedChanFromID id +:+ ", '" +:+ fmt_int s +:+ "';")%string as q.
  assert (∀ d, check_int4 s d = Ok d) as Hint.
  { intros d. unfold check_int4. rewrite bool_decide_true; [done|].
    apply TerminalState_spec in Hs as [->|[->|[->| ->]]]; done. }
  assert (String.length (fmt_int s) < 8) as Hlen
    by (apply TerminalState_spec in Hs as [->|[->|[->| ->]]]; vm_compute; lia).
  destruct Hq as [Hf Hb].
  unfold wp, mbind, M_bind, wrapf, on_err, Begin, Now, tx_Exec, tx_Notify, tx_step, Commit, next_fault.
  cbn. rewrite Hf. cbn. rewrite Hf. cbn. rewrite Hint. cbn. rewrite Hf.
  rewrite Hparse. destruct (Z.ltb_spec (Z.of_nat (String.length (fmt_int s))) 8000); [|lia].
  cbn. rewrite Hf. cbn. split_and!; try done.
  intros j Hj. by rewrite lookup_alter_ne.
Qed.

(** C27: Connections go back to the listen pool with their subscriptions.  A listener of
    [id'] gives up; later [id'] completes with [s]; then waiting for a different
    build [id], which is running, returns at once with [s], the status of [id']. *)
Theorem listen_pool_leaks id id' s e r r' :
  quiet e → idle (store e) = [] → id ≠ id' → TerminalState s = true →
  builds (db (store e)) !! id = Some r → r_status r = BuildStatusRunning →
  builds (db (store e)) !! id' = Some r' → r_status r' = BuildStatusRunning →
  wp (ignore_err (PG.ListenForBuildCompleted id') ;; PG.SetBuildAsCompleted id' s ;;
      PG.ListenForBuildCompleted id)
     (λ res e', res = Ok s ∧ builds (db (store e')) !! id = Some r) e.
Proof.
  intros Hq Hi Hne Hs Hr Hrs Hr' Hrs'.
  rewrite wp_bind, wp_ignore_err.
  eapply wp_mono; [|by eapply quiet_ListenForBuildCompleted].
  unfold acquired. rewrite Hi. cbn [buffered tail].
  intros res e1 (Hq1 & Hdb1 & [er ->] & Hi1). rewrite wp_bind.
  eapply wp_mono; [|by apply quiet_SetBuildAsCompleted].
  intros res2 e2 (-> & Hq2 & Hi2 & Hb2). rewrite Hi1 in Hi2.
  assert (builds (db (store e2)) !! id = Some r) as Hr2 by (by rewrite Hb2, Hdb1).
  eapply wp_mono; [|by apply (quiet_ListenForBuildCompleted _ _ r)].
  unfold acquired. rewrite Hi2. unfold deliver. cbn [list_fmap fmap subscribe subs fst].
  rewrite bool_decide_true by left. cbn [buffered app].
  intros res3 e3 (_ & -> & Hres & _). split; [|done].
  rewrite Hres. unfold PG.completed_status. cbn [snd].
  by rewrite (proj2 (proj2 (fmt_terminal_plain s Hs))), Hs.
Qed.

(** ** Witnesses *)

Definition sample_id (c : ascii) : uuid := Uuid (c :: replicate 15 Ascii.zero) I.

Definition sample_row (id : uuid) (s : Z) : row :=
  {| r_id := id; r_created := Time 63713433600 0; r_updated := None; r_completed := None;
     r_github_repo := "acme/widget"; r_github_ref := "master";
     r_encrypted_github_credential := []; r_image_repos := ["quay.io/acme/widget"]; r_tags := [];
     r_commit_sha_tag := true; r_build_options := BuildOpts_zero;
     r_request := BuildRequest_zero; r_status := s; r_events := [] |}.

(** Two running builds on a database that always answers. *)
Definition sample_db : pg_db :=
  {| builds := <[sample_id "a" := sample_row (sample_id "a") BuildStatusRunning]>
                 {[ sample_id "b" := sample_row (sample_id "b") BuildStatusRunning ]};
     api_keys := ∅ |}.

Definition sample_world (f : nat → option fault) : pg_world :=
  Env (PgStore sample_db [] [] [] f (λ _, Time 63713433700 0)) (λ _, Ok (sample_id "c"))
    (λ _, Time 63713433700 0) (λ _ _, 0%N) (λ _, (λ s, s, [])) 0.

Definition sample_opts : ListBuildsOptions :=
  {| WithGitHubRepo := "acme/widget"; WithGitHubRef := ""; WithImageRepo := "";
     WithStatus := BuildStatusRunning; CompletedAfter := time_zero;
     StartedAfter := Time 63713433600 0; CompletedBefore := time_zero;
     StartedBefore := time_zero; Limit := 0 |}.






Lemma PG_ListBuilds_truncates_witness :
  (PG.ListBuilds sample_opts (sample_world (λ _, Some (RowsBreak 1 None)))).1 =
  match (PG.ListBuilds sample_opts (sample_world (λ _, None))).1 with
  | Ok out => Ok (take 1 out)
  | r => r
  end.
Proof. apply PG_ListBuilds_truncates; reflexivity. Defined.

Lemma PG_no_clear_credentials_witness :
  wp (PG.CreateBuild Build_zero) (λ _, clean) (sample_world (λ _, None)).
Proof.
  refine (proj1 (PG_no_clear_credentials Build_zero uuid_Nil "" 0 time_zero _ _)).
  intros id r. unfold clean, sample_world. simpl.
  rewrite lookup_insert_Some, lookup_singleton_Some. intros [[_ <-]|[_ [_ <-]]]; reflexivity.
Defined.

Lemma listen_pool_leaks_witness :
  wp (ignore_err (PG.ListenForBuildCompleted (sample_id "b")) ;;
      PG.SetBuildAsCompleted (sample_id "b") BuildStatusFailure ;;
      PG.ListenForBuildCompleted (sample_id "a"))
     (λ res e', res = Ok BuildStatusFailure ∧
        builds (db (store e')) !! sample_id "a" =
          Some (sample_row (sample_id "a") BuildStatusRunning)) (sample_world (λ _, None)).
Proof.
  eapply listen_pool_leaks; try reflexivity; [split; reflexivity|discriminate].
Defined.

Lemma PG_guards_witness :
  wp (PG.SetBuildAsCompleted (sample_id "a") BuildStatusRunning)
     (refused (sample_world (λ _, None))) (sample_world (λ _, None)).
Proof.
  refine (proj2 (proj2 (proj2 (PG_guards (sample_id "a") "" BuildStatusRunning _))) _).
  reflexivity.
Defined.

Lemma channels_legal_and_distinct_witness :
  channel ChEvents (sample_id "a") ≠ channel ChEvents (sample_id "b").
Proof.
  intros H.
  pose proof (proj2 (channels_legal_and_distinct ChEvents ChEvents (sample_id "a") (sample_id "b")) H)
    as [_ [=]].
Defined.

Lemma created_build_is_found_witness :
  let w := sample_world (λ _, None) in
  let b := with_Status BuildStatusRunning Build_zero in
  (∃ b', (PG.GetBuildByID (sample_id "c") (PG.CreateBuild b w).2).1 = Ok b' ∧
         created_from b b' (sample_id "c")).
Proof.
  intros w b. pose proof (created_build_is_found (PG.dl 0) pg_obs (PG_spec 0) CtxCaller b w) as H.
  exact (ex_intro _ _ (conj eq_refl H)).
Defined.
