(* ===== verification/K8s.v ===== *)
(** * Kubernetes objects, as far as the program reads or writes them

    Quantities are opaque, with the documented behaviour of their parser; the
    objects are records of the fields the program uses.  The arguments of a
    container are a type parameter: a list of strings in an object the API server
    gave, a Go slice in an object the program builds. *)

From S2P Require Import Prelude GoStrings GoTime.

#[local] Open Scope Z_scope.

(** k8s.io/apimachinery/pkg/api/resource: parsed quantities.  [Value] is in whole
    units, [exact] in the smallest unit a quantity can have (10^-9). *)
Class K8sQuantity := {
  Quantity : Type;
  ParseQuantity : string → res Quantity;
  Value : Quantity → Z;
  Quantity_String : Quantity → string;
  exact : Quantity → Z;
}.

(** "Value returns the unscaled value of q rounded up to the nearest integer away
    from 0": *)
Definition round_away (n d : Z) : Z := if n <? 0 then - ((- n + d - 1) / d) else (n + d - 1) / d.

Class K8sQuantityLaws `{K8sQuantity} : Prop := {
  Value_rounds q : Value q = round_away (exact q) (10 ^ 9);
  Parse_no_panic s p : ParseQuantity s ≠ Panic p;
}.

(** [corev1.ResourceList]: a map, which may be nil. *)
Definition ResourceList `{K8sQuantity} : Type := option (gmap string Quantity).

Definition ResourceCPU : string := "cpu".
Definition ResourceMemory : string := "memory".

(** An environment variable; [env_SecretRef] is set when its value comes from a key
    of a secret, [env_ValueFrom] when it comes from anything else. *)
Record EnvVar := {
  env_Name : string;
  env_Value : string;
  env_ValueFrom : bool;
  env_SecretKeyRef : option (string * string);
}.

Section objects.
Context `{K8sQuantity}.

Record Container (Args : Type) := {
  c_Name : string;
  c_Image : string;
  c_ImagePullPolicy : string;
  c_Command : list string;
  c_Args : Args;
  c_EnvFrom : list string;                 (* optional secrets *)
  c_Env : list EnvVar;
  c_VolumeMounts : list (string * string); (* volume, mount path *)
  c_Privileged : option bool;
  c_Requests : ResourceList;
  c_Limits : ResourceList;
}.

Record PodSpec (Args : Type) := {
  ShareProcessNamespace : bool;
  RestartPolicy : string;
  NodeSelector : gmap string string;
  Tolerations : list (string * string * string * string); (* key, operator, value, effect *)
  Containers : list (Container Args);
  Volumes : list (string * string);        (* name, source *)
  ServiceAccountName : string;
  ImagePullSecrets : list string;
}.

Record Pod := {
  pod_Name : string;
  pod_Namespace : string;
  pod_Spec : PodSpec (list string);
  pod_ContainerStatuses : list string;     (* the names of the containers *)
}.

Record K8sJob (Args : Type) := {
  job_Name : string;
  job_Namespace : string;
  job_Labels : gmap string string;
  job_Annotations : gmap string string;
  Parallelism : Z;
  Completions : Z;
  ActiveDeadlineSeconds : Z;
  BackoffLimit : option Z;
  TTLSecondsAfterFinished : Z;
  job_Selector : option (gmap string string);  (* the labels it matches; nil until it is created *)
  template_Annotations : gmap string string;
  template_Spec : PodSpec Args;
  job_CreationTimestamp : time;
  job_Succeeded : Z;
  job_Conditions : list (string * string);  (* type and reason *)
}.
End objects.

Arguments c_Name {_ _} _.
Arguments c_Image {_ _} _.
Arguments c_ImagePullPolicy {_ _} _.
Arguments c_Command {_ _} _.
Arguments c_Args {_ _} _.
Arguments c_EnvFrom {_ _} _.
Arguments c_Env {_ _} _.
Arguments c_VolumeMounts {_ _} _.
Arguments c_Privileged {_ _} _.
Arguments c_Requests {_ _} _.
Arguments c_Limits {_ _} _.
Arguments ShareProcessNamespace {_ _} _.
Arguments RestartPolicy {_ _} _.
Arguments NodeSelector {_ _} _.
Arguments Tolerations {_ _} _.
Arguments Containers {_ _} _.
Arguments Volumes {_ _} _.
Arguments ServiceAccountName {_ _} _.
Arguments ImagePullSecrets {_ _} _.
Arguments job_Name {_ _} _.
Arguments job_Namespace {_ _} _.
Arguments job_Labels {_ _} _.
Arguments job_Annotations {_ _} _.
Arguments Parallelism {_ _} _.
Arguments Completions {_ _} _.
Arguments ActiveDeadlineSeconds {_ _} _.
Arguments BackoffLimit {_ _} _.
Arguments TTLSecondsAfterFinished {_ _} _.
Arguments job_Selector {_ _} _.
Arguments template_Annotations {_ _} _.
Arguments template_Spec {_ _} _.
Arguments job_CreationTimestamp {_ _} _.
Arguments job_Succeeded {_ _} _.
Arguments job_Conditions {_ _} _.

(** ** A sample of quantities *)

(** Quantities of whole units ("2"), thousandths ("1900m") and billions ("24G"), to
    instantiate the properties with. *)
Definition milli_parse (s : string) : res Z :=
  match Atoi s with
  | Some z => Ok (z * 10 ^ 9)
  | None =>
      let m := String.substring 0 (String.length s - 1) s in
      match decide (s = m +:+ "m"), decide (s = m +:+ "G"), Atoi m with
      | left _, _, Some z => Ok (z * 10 ^ 6)
      | _, left _, Some z => Ok (z * 10 ^ 18)
      | _, _, _ => Err (ErrLib "quantities must match the regular expression")
      end
  end.

Definition milli_quantity : K8sQuantity := {|
  Quantity := Z;
  ParseQuantity := milli_parse;
  Value q := round_away q (10 ^ 9);
  Quantity_String q := fmt_int (q / 10 ^ 6) +:+ "m";
  exact q := q;
|}.

Lemma milli_quantity_laws : @K8sQuantityLaws milli_quantity.
Proof.
  constructor; [done|]. intros s p. unfold ParseQuantity, milli_quantity, milli_parse.
  repeat case_match; done.
Qed.

(** [n] thousandths. *)
Definition milli (n : Z) : @Quantity milli_quantity := (n * 10 ^ 6)%Z.
