(* ===== verification/GoSlice.v ===== *)
(** * Go slices of strings: shared backing arrays

    A slice is an array, a length and a capacity; [append] writes in place when
    the capacity allows it, so two slices of one array see each other's elements.
    How much room a new array gets is up to the run time ([grow]). *)

From S2P Require Import Prelude.

Record slice := Slice { s_arr : nat; s_len : nat; s_cap : nat }.

(** The arrays; a slice starts at the beginning of its array. *)
Notation goheap := (gmap nat (list string)).

(** What a slice holds. *)
Definition sread (h : goheap) (s : slice) : list string := take (s_len s) (h !!! s_arr s).

Definition slice_wf (h : goheap) (s : slice) : Prop :=
  (s_len s ≤ s_cap s)%nat ∧ ∃ l, h !! s_arr s = Some l ∧ length l = s_cap s.

(** An address that is not in use. *)
Definition next_addr (h : goheap) : nat := foldr Nat.max 0%nat (S <$> (map_to_list h).*1).

(** A composite literal. *)
Definition salloc (l : list string) (h : goheap) : slice * goheap :=
  let a := next_addr h in (Slice a (length l) (length l), <[a := l]> h).

Section append.
Context (grow : nat → nat → nat).   (* old capacity, needed length *)

(** [append(s, l...)]. *)
Definition sappend (s : slice) (l : list string) (h : goheap) : slice * goheap :=
  let n := (s_len s + length l)%nat in
  if decide (n ≤ s_cap s)%nat then
    (Slice (s_arr s) n (s_cap s),
     <[s_arr s := take (s_len s) (h !!! s_arr s) ++ l ++ drop n (h !!! s_arr s)]> h)
  else
    let c := Nat.max n (grow (s_cap s) n) in
    let a := next_addr h in
    (Slice a n c, <[a := sread h s ++ l ++ replicate (c - n) ""%string]> h).
End append.

(** ** Lemmas *)

Lemma sread_length h s : slice_wf h s → length (sread h s) = s_len s.
Proof.
  intros (Hle & l & Hl & Hlen). unfold sread. rewrite lookup_total_alt, Hl. simpl.
  rewrite length_take. lia.
Qed.

Lemma salloc_wf l h : slice_wf (salloc l h).2 (salloc l h).1.
Proof. split; simpl; [done|]. exists l. by rewrite lookup_insert_eq. Qed.

Lemma sread_salloc l h : sread (salloc l h).2 (salloc l h).1 = l.
Proof. unfold sread. simpl. by rewrite lookup_total_insert_eq, firstn_all. Qed.

Lemma sread_insert_ne h a l s : s_arr s ≠ a → sread (<[a := l]> h) s = sread h s.
Proof. intros. unfold sread. by rewrite lookup_total_insert_ne. Qed.

Lemma slice_wf_insert_ne h a l s : s_arr s ≠ a → slice_wf h s → slice_wf (<[a := l]> h) s.
Proof. intros ? (? & l' & ? & ?). split; [done|]. exists l'. by rewrite lookup_insert_ne. Qed.

Lemma next_addr_gt h a l : h !! a = Some l → (a < next_addr h)%nat.
Proof.
  intros Ha%elem_of_map_to_list. unfold next_addr.
  assert (a ∈ (map_to_list h).*1) as Hin by (apply list_elem_of_fmap; by exists (a, l)).
  clear Ha. induction Hin as [a' l'|a' b l' _ IH]; cbn [fmap list_fmap foldr]; lia.
Qed.

Lemma fresh_ne h s : slice_wf h s → s_arr s ≠ next_addr h.
Proof. intros (_ & l & Hl & _). apply next_addr_gt in Hl. lia. Qed.

Lemma sread_salloc_old l h s : slice_wf h s → sread (salloc l h).2 s = sread h s.
Proof. intros Hs. apply sread_insert_ne, fresh_ne, Hs. Qed.

Lemma salloc_wf_old l h s : slice_wf h s → slice_wf (salloc l h).2 s.
Proof. intros Hs. apply slice_wf_insert_ne; [by apply fresh_ne|done]. Qed.

Section append_facts.
Context (grow : nat → nat → nat).

Lemma sread_sappend s l h : slice_wf h s →
  sread (sappend grow s l h).2 (sappend grow s l h).1 = sread h s ++ l.
Proof.
  intros (Hle & a & Ha & Hlen). unfold sappend, sread. case_decide; simpl;
    rewrite lookup_total_insert_eq, lookup_total_alt, Ha; simpl; rewrite app_assoc;
    apply take_app_length'; rewrite length_app, length_take; lia.
Qed.

Lemma sappend_wf s l h : slice_wf h s → slice_wf (sappend grow s l h).2 (sappend grow s l h).1.
Proof.
  intros (Hle & a & Ha & Hlen). unfold sappend, sread. case_decide; (split; simpl; [lia|]);
    eexists; (split; [by rewrite lookup_insert_eq|]); rewrite lookup_total_alt, Ha; simpl;
    rewrite !length_app, length_take, ?length_drop, ?length_replicate; lia.
Qed.

(** Every other slice keeps its elements, except where an append in place wrote over
    the room behind [s]. *)
Lemma sread_sappend_old s l h s' : slice_wf h s → slice_wf h s' →
  s_arr s' ≠ s_arr s ∨ (s_cap s < s_len s + length l)%nat ∨ (s_len s' ≤ s_len s)%nat →
  sread (sappend grow s l h).2 s' = sread h s'.
Proof.
  intros Hs Hs' Hor. unfold sappend. case_decide as Hd; simpl.
  - destruct (decide (s_arr s' = s_arr s)) as [Heq|Hne]; [|by apply sread_insert_ne].
    destruct Hor as [?|[?|Hle]]; [done|lia|]. unfold sread. rewrite Heq.
    rewrite lookup_total_insert_eq. destruct Hs as (Hsl & a & Ha & Hlen).
    rewrite lookup_total_alt, Ha. simpl. rewrite take_app_le by (rewrite length_take; lia).
    rewrite take_take. f_equal. lia.
  - apply sread_insert_ne, fresh_ne, Hs'.
Qed.

Lemma sappend_wf_old s l h s' : slice_wf h s → slice_wf h s' → slice_wf (sappend grow s l h).2 s'.
Proof.
  intros (Hle & a & Ha & Hlen) Hs'. unfold sappend. case_decide; simpl.
  - destruct (decide (s_arr s' = s_arr s)) as [Heq|Hne]; [|by apply slice_wf_insert_ne].
    destruct Hs' as (? & a' & Ha' & Hlen'). split; [done|]. rewrite Heq in Ha' |- *.
    rewrite lookup_total_alt, Ha. simplify_eq. eexists. split; [by rewrite lookup_insert_eq|].
    simpl. rewrite !length_app, length_take, length_drop. lia.
  - apply slice_wf_insert_ne; [by apply fresh_ne|done].
Qed.
End append_facts.
