(* ===== verification/Grpc.v ===== *)
(** * pkg/grpc/grpc.go: the API server

    [Server] is the record of what the server is given: the data layer, the
    build manager, the factory of code fetchers and the options.  The handlers
    run over any world; what the Go run time, gRPC and Kubernetes provide comes
    as records of operations.  StartBuild returns the goroutine it starts, as a
    computation of its own. *)

From S2P Require Import Prelude GoStrings GoTime Uuid Models Datalayer K8s.

#[local] Open Scope Z_scope.

(** ** What the server is given *)

(** What Go's run time gives a goroutine: [rand.Read], the clock, [<-ctx.Done()]. *)
Record Runtime (W : Type) := {
  rand_Read : nat → W → (list ascii * option error) * W;
  rt_Now : W → time * W;
  ctx_Done : context → W → bool * W;
}.
Arguments rand_Read {_} _ _ _.
Arguments rt_Now {_} _ _.
Arguments ctx_Done {_} _ _ _.

(** The metadata of an incoming request, if it has any. *)
Definition metadata : Type := option (gmap string (list string)).

(** The requests and responses; a field that is a message is a pointer. *)
Record BuildStatusResponse := {
  rs_BuildId : string;
  rs_BuildRequest : option BuildRequest;
  rs_State : Z;
  rs_Started : option Timestamp;
  rs_Completed : option Timestamp;
}.

Record BuildEventsResponse := {
  ev_BuildId : string;
  ev_CurrentState : Z;
  ev_Messages : list string;
}.

Record BuildEvent := { be_BuildId : string; be_Message : string; be_CurrentState : Z }.

Record ListBuildsRequest := {
  WithGithubRepo : string;
  WithGithubRef : string;
  lq_WithImageRepo : string;
  WithBuildState : Z;
  lq_CompletedAfter : option Timestamp;
  lq_StartedAfter : option Timestamp;
  lq_CompletedBefore : option Timestamp;
  lq_StartedBefore : option Timestamp;
  lq_Limit : N;
}.

(** A gRPC server stream: its context and its [Send]. *)
Record stream (W : Type) := { stream_Send : BuildEvent → M W () }.
Arguments stream_Send {_} _ _ _.

(** The descriptor of a service: each method with the value of its extension
    [read_only]. *)
Inductive extension :=
  | ExtMissing
  | ExtBool (b : option bool)
  | ExtOther.

Record service := { svc_methods : list (string * extension) }.

(** protos/api.proto: the methods of FuranExecutor. *)
Definition FuranExecutor : service := {| svc_methods :=
  [("StartBuild"%string, ExtBool (Some false)); ("GetBuildStatus"%string, ExtBool (Some true));
   ("GetBuildEvents"%string, ExtBool (Some true)); ("MonitorBuild"%string, ExtBool (Some true));
   ("CancelBuild"%string, ExtBool (Some false)); ("ListBuilds"%string, ExtBool (Some true))] |}.

Section Grpc.
Context `{K8sQuantity}.

Record MaxResourceLimits := {
  MaxCPUReq : Quantity;
  MaxMemReq : Quantity;
  MaxCPULim : Quantity;
  MaxMemLim : Quantity;
}.

Record Options (W : Type) := {
  APM : bool;
  CredentialDecryptionKey : list ascii;
  Cache : BuildCacheOpts;
  LogFunc : option (string → W → W);
  JobHandoffTimeout : Z;
  MaxResources : MaxResourceLimits;
}.

Definition DefaultCacheOpts : BuildCacheOpts :=
  {| Type_ := BuildCacheOpts_DISABLED; MaxMode := false |}.

Record Server (W : Type) := {
  DL : option (DataLayer W);
  BM : option (BuildManager W);
  CFFactory : option (string → CodeFetcher W);
  Opts : Options W;
  methods : option (gmap string bool);
}.

Context {W : Type} (rt : Runtime W) `{SecretBox}.
Implicit Types (gr : Server W).

Definition with_methods (m : gmap string bool) gr : Server W :=
  Build_Server W (DL W gr) (BM W gr) (CFFactory W gr) (Opts W gr) (Some m).

Definition logf gr (msg : string) : M W () := λ w,
  (Ok (), match LogFunc W (Opts W gr) with Some f => f msg w | None => w end).

(** ** Authentication *)

Definition serviceName : string := "furanrpc.FuranExecutor".

(** The read-only flag of every method of a service. *)
Fixpoint method_flags (sn : string) (mthds : list (string * extension)) (acc : gmap string bool) :
    res (gmap string bool) :=
  match mthds with
  | [] => Ok acc
  | (name, ExtBool (Some ro)) :: l =>
      method_flags sn l (<["/" +:+ sn +:+ "/" +:+ name := ro]> acc)
  | (_, ExtMissing) :: _ =>
      Err (ErrWrap "error getting read only method option" (ErrLib "missing extension"))
  | (name, ExtOther) :: _ =>
      Err (ErrText ("unexpected type for read_only method option: " +:+ name))
  | (name, ExtBool None) :: _ => Err (ErrText ("read_only option is nil: " +:+ name))
  end.

(** [sds] is what [grpcreflect.LoadServiceDescriptors] gave. *)
Definition methodsFromFuranService (sds : res (gmap string service)) : res (gmap string bool) :=
  match sds with
  | Err e => Err (ErrWrap "error loading grpc service descriptors" e)
  | Panic p => Panic p
  | Ok sds =>
      if bool_decide (size sds ≠ 1%nat)
      then Err (ErrText ("unexpected number of grpc services: " +:+ fmt_nat (size sds) +:+
                         " (wanted 1)"))
      else match sds !! serviceName with
           | None => Err (ErrText ("missing service " +:+ serviceName))
           | Some svc => method_flags serviceName (svc_methods svc) ∅
           end
  end.

Definition APIKeyLabel : string := "api_key".

(** [md.Get(APIKeyLabel)]. *)
Definition md_Get (md : gmap string (list string)) : list string := default [] (md !! APIKeyLabel).

(** It never returns an error: every failure is [false]. *)
Definition apiKeyAuth gr (ctx : context) (md : metadata) (rpcname : string) : M W bool :=
  match methods W gr with
  | None => logf gr "BUG: methods map is nil" ;; mret false
  | Some methods =>
  match methods !! rpcname with
  | None => logf gr ("method name not found in methods metadata: " +:+ rpcname) ;; mret false
  | Some ro =>
  match md with
  | None => logf gr "api key missing" ;; mret false
  | Some md =>
  match md_Get md with
  | [key] =>
      match FromString key with
      | Ok ak =>
          dl ← deref (DL W gr);
          r ← attempt (GetAPIKey dl ctx ak);
          match r with
          | Ok akey =>
              if ak_ReadOnly akey && negb ro
              then logf gr "read-only API key but method requires greater permissions" ;; mret false
              else mret true
          | Err ErrNotFound => logf gr ("unknown api key: " +:+ uuid_String ak) ;; mret false
          | Err err =>
              logf gr ("error getting api key from db: " +:+ uuid_String ak +:+ ": " +:+
                       error_String err) ;; mret false
          | Panic p => panic p
          end
      | Err err => logf gr ("invalid api key: " +:+ error_String err) ;; mret false
      | Panic p => panic p
      end
  | _ => logf gr "multiple api keys present" ;; mret false
  end
  end
  end
  end.

(** An interceptor takes the context, the metadata, the name of the method and the
    handler; [uauthi] and [sauthi] are the same function of them. *)
Definition handler (A : Type) : Type := context → metadata → M W A.
Definition interceptor (A : Type) : Type := string → handler A → handler A.

Definition auth_interceptor {A} gr : interceptor A := λ rpcname h ctx md,
  ok ← apiKeyAuth gr ctx md rpcname;
  if (ok : bool) then h ctx md
  else throw (ErrStatus Unauthenticated "failed API key authentication").

(** [grpc.Chain...Interceptor]: the first one is the outermost. *)
Definition chain {A} (ics : list (interceptor A)) (rpcname : string) (h : handler A) : handler A :=
  foldr (λ i h, i rpcname h) h ics.

(** The interceptors Listen installs, given the one of the tracing library. *)
Definition interceptors {A} gr (trace : interceptor A) : list (interceptor A) :=
  if APM W (Opts W gr) then [auth_interceptor gr; trace] else [auth_interceptor gr].

(** [net.Listen], the descriptors of the registered services, and [s.Serve]. *)
Definition Listen gr (addr : string) (net_Listen : string → M W ())
    (sds : res (gmap string service)) (Serve : Server W → M W ()) : M W () :=
  match DL W gr, CFFactory W gr with
  | None, _ => throw (ErrText "DataLayer is required")
  | _, None => throw (ErrText "CFFactory is required")
  | Some _, Some _ =>
      r ← attempt (net_Listen addr);
      match r with
      | Err err => logf gr ("error starting gRPC listener: " +:+ error_String err) ;; throw err
      | _ =>
          methods ← wrapf "error generating methods from service"
                      (lift_res (methodsFromFuranService sds));
          let gr := with_methods methods gr in
          logf gr ("gRPC listening on: " +:+ addr) ;;
          Serve gr
      end
  end.

(** ** Starting a build *)

Definition buildevent gr (id : uuid) (msg : string) : M W () :=
  dl ← deref (DL W gr);
  r ← attempt (AddEvent dl CtxBackground id msg);
  match r with
  | Err err => logf gr ("error adding event to build: " +:+ uuid_String id +:+ ": " +:+
                        error_String err)
  | _ => mret ()
  end.

Definition DefaultJobHandoffTimeout : Z := 5 * Minute.

(** The goroutine: start the job, wait for the handoff. *)
Definition start_job gr (id : uuid) (opts : BuildOpts) : M W () :=
  let jht := if JobHandoffTimeout W (Opts W gr) =? 0 then DefaultJobHandoffTimeout
             else JobHandoffTimeout W (Opts W gr) in
  let ctx2 := CtxWithTimeout CtxBackground jht in
  created ← run (rt_Now rt);
  buildevent gr id "creating build job" ;;
  bm ← deref (BM W gr);
  r ← attempt (bm_Start bm ctx2 opts);
  match r with
  | Err err =>
      logf gr ("error starting build job: " +:+ error_String err) ;;
      done ← run (ctx_Done rt ctx2);
      let msg := if (done : bool)
        then "timeout waiting for build handoff (" +:+ Duration_String jht +:+ "): check to see if the job is schedulable and has cpu/mem requests that the k8s cluster can provide"
        else "error starting build job: " +:+ error_String err in
      buildevent gr id msg ;;
      dl ← deref (DL W gr);
      r2 ← attempt (SetBuildAsCompleted dl CtxBackground id BuildStatusFailure);
      match r2 with
      | Err err2 => logf gr ("error setting build as failed: " +:+ uuid_String id +:+ ": " +:+
                             error_String err2)
      | _ => mret ()
      end
  | _ =>
      now ← run (rt_Now rt);
      buildevent gr id ("build is running (handoff took " +:+
                        Duration_String (time_Sub now created) +:+ ")")
  end.

Definition invalid (msg : string) : error := ErrStatus InvalidArgument msg.

(** One of the four checks of the requested resources. *)
Definition check_quantity (s : string) (max : Quantity) (bad exceeds : string) : res () :=
  if bool_decide (s = ""%string) then Ok ()
  else match ParseQuantity s with
       | Err err => Err (invalid (bad +:+ ": " +:+ error_String err))
       | Panic p => Panic p
       | Ok q =>
           if Value max <? Value q
           then Err (invalid (exceeds +:+ " (" +:+ Quantity_String max +:+ "): " +:+
                              Quantity_String q))
           else Ok ()
       end.

Definition check_resources (m : MaxResourceLimits) (r : BuildResources) : M W () :=
  lift_res (check_quantity (CpuRequest r) (MaxCPUReq m)
              "invalid cpu request" "cpu request exceeds limit") ;;
  lift_res (check_quantity (CpuLimit r) (MaxCPULim m)
              "invalid cpu limit" "cpu limit exceeds max limit") ;;
  lift_res (check_quantity (MemoryRequest r) (MaxMemReq m)
              "invalid memory request" "memory request exceeds limit") ;;
  lift_res (check_quantity (MemoryLimit r) (MaxMemLim m)
              "invalid memory limit" "memory limit exceeds max limit").

(** The cache options of a build: the request's, the server's, or the default. *)
Definition cache_options gr (bd : BuildDefinition) : BuildCacheOpts :=
  let copts := Cache W (Opts W gr) in
  let copts := if decide (Type_ copts = BuildCacheOpts_UNKNOWN) then DefaultCacheOpts else copts in
  match bd_CacheOptions bd with
  | Some c => if decide (Type_ c = BuildCacheOpts_UNKNOWN) then copts else c
  | None => copts
  end.

(** [req.Build.GithubCredential = ""], in the caller's request. *)
Definition clear_credential (bd : BuildDefinition) : BuildDefinition :=
  {| bd_GithubRepo := bd_GithubRepo bd; bd_GithubCredential := "";
     bd_DockerfilePath := bd_DockerfilePath bd; bd_Ref := bd_Ref bd; bd_Tags := bd_Tags bd;
     bd_TagWithCommitSha := bd_TagWithCommitSha bd; bd_Args := bd_Args bd;
     bd_CacheOptions := bd_CacheOptions bd; bd_Resources := bd_Resources bd |}.

(** The id of the build, and the goroutine that was started. *)
Definition StartBuild gr (ctx : context) (req : BuildRequest) : M W (string * M W ()) :=
  bd ← deref (rq_Build req);
  if bool_decide (bd_GithubRepo bd = ""%string) then throw (invalid "github repo is required")
  else if bool_decide (bd_Ref bd = ""%string) then throw (invalid "github ref is required")
  else
  cff ← deref (CFFactory W gr);
  on_err (λ err, invalid ("error validating repo and ref: " +:+ error_String err))
    (GetCommitSHA (cff (bd_GithubCredential bd)) ctx (bd_GithubRepo bd) (bd_Ref bd)) ;;
  let registries := default [] (rq_Push req) in
  if bool_decide (registries = []) then throw (invalid "at least one image repo is required")
  else
  irepos ← mapM deref registries;
  let cred := bd_GithubCredential bd in
  let bd := clear_credential bd in
  let req := {| rq_Build := Some bd; rq_Push := rq_Push req;
                rq_SkipIfExists := rq_SkipIfExists req |} in
  let b := {| b_ID := uuid_Nil; b_Created := time_zero; b_Updated := time_zero;
              b_Completed := time_zero; b_GitHubRepo := bd_GithubRepo bd;
              b_GitHubRef := bd_Ref bd; b_EncryptedGitHubCredential := [];
              b_ImageRepos := irepos; b_Tags := bd_Tags bd;
              b_CommitSHATag := bd_TagWithCommitSha bd; b_BuildOptions := BuildOpts_zero;
              b_Request := req; b_Status := BuildStatusNotStarted; b_Events := [] |} in
  if bool_decide (cred = ""%string) then throw (invalid "github credential is missing")
  else
  rnd ← run (rand_Read rt 24);
  b ← on_err (λ err, ErrStatus Internal ("error encrypting credential: " +:+ error_String err))
        (lift_res (EncryptAndSetGitHubCredential rnd.1 rnd.2 (String.list_ascii_of_string cred)
                     (CredentialDecryptionKey W (Opts W gr)) b));
  let dockerfile := if decide (bd_DockerfilePath bd = ""%string) then "."%string
                    else bd_DockerfilePath bd in
  resources ← match bd_Resources bd with
              | Some r => check_resources (MaxResources W (Opts W gr)) r ;; mret r
              | None => mret BuildResources_zero
              end;
  let opts := {| bo_BuildID := uuid_Nil; bo_ContextPath := ""; bo_CommitSHA := "";
                 bo_RelativeDockerfilePath := dockerfile; bo_BuildArgs := bd_Args bd;
                 bo_Cache := cache_options gr bd; bo_Resources := resources |} in
  dl ← deref (DL W gr);
  id ← on_err (λ err, ErrStatus Internal ("error creating build in db: " +:+ error_String err))
         (CreateBuild dl ctx (with_BuildOptions opts b));
  let opts := {| bo_BuildID := id; bo_ContextPath := ""; bo_CommitSHA := "";
                 bo_RelativeDockerfilePath := dockerfile; bo_BuildArgs := bd_Args bd;
                 bo_Cache := cache_options gr bd; bo_Resources := resources |} in
  mret (uuid_String id, start_job gr id opts).

(** ** Reading builds *)

(** The pointers are never nil: a build that is not completed has a zero [Timestamp]. *)
Definition buildStatusResponseFromBuild (b : Build) : BuildStatusResponse :=
  {| rs_BuildId := uuid_String (b_ID b); rs_BuildRequest := Some (b_Request b);
     rs_State := State (b_Status b); rs_Started := Some (RPCTimestampFromTime (b_Created b));
     rs_Completed := Some (if IsZero (b_Completed b) then {| Seconds := 0; Nanos := 0 |}
                           else RPCTimestampFromTime (b_Completed b)) |}.

(** The lookup the four handlers of one build share. *)
Definition parse_id (s : string) : M W uuid :=
  on_err (λ err, invalid ("invalid build id: " +:+ error_String err)) (lift_res (FromString s)).

Definition get_build gr (ctx : context) (id : uuid) : M W Build :=
  dl ← deref (DL W gr);
  on_err (λ err, if decide (err = ErrNotFound) then invalid "build not found"
                 else ErrStatus Internal ("error getting build: " +:+ error_String err))
    (GetBuildByID dl ctx id).

Definition GetBuildStatus gr (ctx : context) (BuildId : string) : M W BuildStatusResponse :=
  id ← parse_id BuildId;
  b ← get_build gr ctx id;
  mret (buildStatusResponseFromBuild b).

Definition GetBuildEvents gr (ctx : context) (BuildId : string) : M W BuildEventsResponse :=
  id ← parse_id BuildId;
  b ← get_build gr ctx id;
  mret {| ev_BuildId := BuildId; ev_CurrentState := State (b_Status b);
          ev_Messages := b_Events b |}.

Definition event_of (b : Build) (msg : string) : BuildEvent :=
  {| be_BuildId := uuid_String (b_ID b); be_Message := msg; be_CurrentState := State (b_Status b) |}.

(** MonitorBuild up to the point where it starts its goroutines, then the wait
    for the end of the build (file Monitor: what the goroutines do meanwhile). *)
Definition MonitorBuild gr (ctx : context) (BuildId : string) (stream : stream W) : M W () :=
  id ← parse_id BuildId;
  b ← get_build gr ctx id;
  mforeach (λ ev, on_err (λ err, ErrStatus Internal ("error sending build event on RPC stream: " +:+
                                                      error_String err))
                    (stream_Send stream (event_of b ev))) (b_Events b) ;;
  if TerminalState (b_Status b) then
    ignore_err (stream_Send stream
      (event_of b ("build has ended: " +:+ BuildStatus_String (b_Status b))))
  else
    dl ← deref (DL W gr);
    on_err (λ err, ErrStatus Internal ("error listening for build completion: " +:+
                                       error_String err))
      (ListenForBuildCompleted dl (CtxWithCancel ctx) (b_ID b)) ;;
    mret ().

Definition CancelBuild gr (ctx : context) (BuildId : string) : M W string :=
  id ← parse_id BuildId;
  b ← get_build gr ctx id;
  if TerminalState (b_Status b) || negb (Running b)
  then throw (ErrStatus FailedPrecondition ("build state not compatible with cancellation: " +:+
                                            BuildStatus_String (b_Status b)))
  else
    dl ← deref (DL W gr);
    on_err (λ err, ErrStatus Internal ("error cancelling build: " +:+ error_String err))
      (Datalayer.CancelBuild dl ctx (b_ID b)) ;;
    mret (uuid_String id).

(** ** Listing builds *)

Definition datalayerListBuildsOptions (req : ListBuildsRequest) : ListBuildsOptions :=
  let ts t := match t with Some ts => TimeFromRPCTimestamp ts | None => time_zero end in
  {| WithGitHubRepo := WithGithubRepo req; WithGitHubRef := WithGithubRef req;
     WithImageRepo := lq_WithImageRepo req;
     WithStatus := BuildStatusFromState (WithBuildState req);
     CompletedAfter := ts (lq_CompletedAfter req); StartedAfter := ts (lq_StartedAfter req);
     CompletedBefore := ts (lq_CompletedBefore req); StartedBefore := ts (lq_StartedBefore req);
     Limit := lq_Limit req |}.

Definition ListBuilds gr (ctx : context) (req : ListBuildsRequest) : M W (list BuildStatusResponse) :=
  if bool_decide (WithGithubRepo req = ""%string) && bool_decide (WithGithubRef req = ""%string)
     && bool_decide (lq_WithImageRepo req = ""%string)
     && bool_decide (WithBuildState req = BuildState_UNKNOWN)
     && bool_decide (lq_CompletedAfter req = None) && bool_decide (lq_StartedAfter req = None)
     && bool_decide (lq_CompletedBefore req = None) && bool_decide (lq_StartedBefore req = None)
  then throw (invalid "at least one list option is required")
  else
    dl ← deref (DL W gr);
    builds ← on_err (λ err, ErrStatus Internal ("error getting builds from db: " +:+ error_String err))
               (Datalayer.ListBuilds dl ctx (datalayerListBuildsOptions req));
    mret (buildStatusResponseFromBuild <$> builds).
End Grpc.
