(* ===== verification/Monitor.v ===== *)
(** * pkg/grpc/grpc.go: the goroutines of MonitorBuild

    Once the stored events are sent, MonitorBuild runs three goroutines over the
    unbuffered channel [events]: one sends every notification of the build on the
    channel, one takes them from the channel and sends them on the gRPC stream,
    and the handler itself waits for the end of the build, then cancels the
    context and closes the channel (its two deferred calls, in this order).  Their
    interleavings are the step relation [step]. *)

From S2P Require Import Prelude.
From Stdlib Require Export Relations.

Module Monitor.

(** The goroutine of ListenForBuildEvents: waiting for a notification, blocked on
    [c <- n.Payload], or gone. *)
Inductive listener := LWait | LSend (ev : string) | LGone.

(** The goroutine of [for event := range events]. *)
Inductive reader := RWait | RHandle (ev : string) | RGone.

(** The handler: in ListenForBuildCompleted, after [cf()], after [close(events)]. *)
Inductive main := MWait | MCancelled | MClosed.

Record state := State {
  notifications : list string;   (* the notifications the listener has not read yet *)
  lst : listener;
  rdr : reader;
  mn : main;
  sent_on_stream : list string;  (* the messages sent on the gRPC stream *)
  panicked : bool;               (* a goroutine panicked: the process is gone *)
}.

(** The goroutines at work on the notifications [evs]. *)
Definition init (evs : list string) : state := State evs LWait RWait MWait [] false.

Definition cancelled (m : main) : Prop := m ≠ MWait.

Inductive step : state → state → Prop :=
  (* WaitForNotification returns a notification *)
  | step_notified ev evs r m s :
      step (State (ev :: evs) LWait r m s false) (State evs (LSend ev) r m s false)
  (* WaitForNotification fails: the context is cancelled, or the connection breaks *)
  | step_listen_error evs r m s :
      step (State evs LWait r m s false) (State evs LGone r m s false)
  (* [c <- n.Payload] meets [range events] *)
  | step_rendezvous ev evs m s :
      m ≠ MClosed →
      step (State evs (LSend ev) RWait m s false) (State evs LWait (RHandle ev) m s false)
  (* [c <- n.Payload] on a closed channel *)
  | step_send_closed ev evs r s :
      step (State evs (LSend ev) r MClosed s false) (State evs (LSend ev) r MClosed s true)
  (* the event is sent on the stream *)
  | step_stream ev evs l m s :
      step (State evs l (RHandle ev) m s false) (State evs l RWait m (s ++ [ev]) false)
  (* the build cannot be read, or [stream.Send] fails: the reader returns *)
  | step_reader_error ev evs l m s :
      step (State evs l (RHandle ev) m s false) (State evs l RGone m s false)
  (* the range loop ends *)
  | step_range_end evs l s :
      step (State evs l RWait MClosed s false) (State evs l RGone MClosed s false)
  (* ListenForBuildCompleted returns; the deferred [cf()] *)
  | step_cancel evs l r s :
      step (State evs l r MWait s false) (State evs l r MCancelled s false)
  (* the deferred [close(events)] *)
  | step_close evs l r s :
      step (State evs l r MCancelled s false) (State evs l r MClosed s false).

Definition reachable (evs : list string) (st : state) : Prop :=
  rtc step (init evs) st.

(** The event each goroutine holds. *)
Definition held_l (l : listener) : list string := match l with LSend ev => [ev] | _ => [] end.
Definition held_r (r : reader) : list string := match r with RHandle ev => [ev] | _ => [] end.

(** Nothing is lost, duplicated or reordered as long as the reader is there; once
    it is gone nothing more is sent. *)
Definition ordered (evs : list string) (st : state) : Prop :=
  match rdr st with
  | RGone => ∃ rest, evs = sent_on_stream st ++ rest
  | r => evs = sent_on_stream st ++ held_r r ++ held_l (lst st) ++ notifications st
  end.

Lemma ordered_step evs st st' : ordered evs st → step st st' → ordered evs st'.
Proof.
  intros Ho Hs. destruct Hs; unfold ordered in *; simpl in *;
    try match goal with r : reader |- _ => destruct r end; simpl in *;
    rewrite <-?app_assoc in *; simpl in *; try done; by eexists.
Qed.

Lemma ordered_reachable evs st : reachable evs st → ordered evs st.
Proof.
  intros Hr. unfold reachable in Hr.
  remember (init evs) as st0 eqn:E. assert (ordered evs st0) as H0 by by subst. clear E.
  induction Hr as [|x y z Hs _ IH]; [done|]. apply IH. by eapply ordered_step.
Qed.

(** ** Properties *)

(** C31: Whatever the interleaving, the messages on the stream are the notifications of
    the build in their order, without gaps or repetitions. *)
Theorem monitor_stream_is_prefix evs st :
  reachable evs st → sent_on_stream st `prefix_of` evs.
Proof.
  intros Ho%ordered_reachable. unfold ordered in Ho.
  destruct (rdr st); [| |destruct Ho as [rest Ho]]; by eexists.
Qed.

(** C32: A notification that arrives as the build ends kills the server: when the
    listener has read it and the handler closes the channel before it is sent, the
    send is on a closed channel; and this is the only way to panic. *)
Theorem monitor_can_panic ev evs :
  (∃ st, reachable (ev :: evs) st ∧ panicked st = true) ∧
  (∀ st, reachable (ev :: evs) st → panicked st = true →
     mn st = MClosed ∧ ∃ ev', lst st = LSend ev').
Proof.
  split.
  - exists (State evs (LSend ev) RWait MClosed [] true). split; [|done].
    eapply rtc_l; [constructor|]. eapply rtc_l; [apply step_cancel|].
    eapply rtc_l; [apply step_close|]. eapply rtc_l; [apply step_send_closed|]. done.
  - intros st Hr. apply rtc_inv_r in Hr as [<-|(st' & _ & Hs)]; [done|].
    destruct Hs; simpl; try done. by eauto.
Qed.

Lemma monitor_stream_is_prefix_witness :
  ["a"%string] `prefix_of` ["a"; "b"]%string.
Proof.
  apply (monitor_stream_is_prefix ["a"; "b"]%string
           (State ["b"%string] LWait RWait MWait ["a"%string] false)).
  eapply rtc_l; [constructor|]. eapply rtc_l; [apply step_rendezvous; discriminate|].
  eapply rtc_l; [apply step_stream|]. apply rtc_refl.
Defined.

End Monitor.
