(* ===== verification/GrpcFacts.v ===== *)
(** * The API server: its theorems

    Authentication, what a build must satisfy to be accepted and what is then
    written, the handoff goroutine, cancellation, and which methods write.  The
    handlers run on [logged] data layers: what they write is the log. *)

From S2P Require Import Prelude GoStrings GoTime Uuid Models Datalayer FakeDL Grpc K8s.

#[local] Open Scope Z_scope.

(** ** Authentication *)

Section auth.
Context `{K8sQuantity} {W : Type}.
Implicit Types (gr : Server W).

Lemma wp_logf gr msg Q w :
  wp (logf gr msg) Q w ↔
  Q (Ok ()) (match LogFunc W (Opts W gr) with Some f => f msg w | None => w end).
Proof. done. Qed.

(** What it takes to be let in. *)
Definition authorised gr (dl : DataLayer W) ctx (md : metadata) rpc (w : W) : Prop :=
  ∃ ms ro m key ak k,
    methods W gr = Some ms ∧ ms !! rpc = Some ro ∧ md = Some m ∧ md_Get m = [key] ∧
    FromString key = Ok ak ∧ (GetAPIKey dl ctx ak w).1 = Ok k ∧ (ak_ReadOnly k = true → ro = true).

Definition verdict gr dl ctx md rpc w : res bool → W → Prop := λ r _,
  (r = Ok true ∨ r = Ok false) ∧ (r = Ok true ↔ authorised gr dl ctx md rpc w).

Lemma wp_refuse gr dl ctx md rpc w0 msg w :
  ¬ authorised gr dl ctx md rpc w0 →
  wp (logf gr msg ;; mret false) (verdict gr dl ctx md rpc w0) w.
Proof. intros Hno. split; [by right|]. split; [done|]. intros Ha. by destruct Hno. Qed.

Lemma apiKeyAuth_verdict gr dl ctx md rpc w :
  DL W gr = Some dl → (∀ ak p, (GetAPIKey dl ctx ak w).1 ≠ Panic p) →
  wp (apiKeyAuth gr ctx md rpc) (verdict gr dl ctx md rpc w) w.
Proof.
  intros Hdl Hp. unfold apiKeyAuth.
  destruct (methods W gr) as [ms|] eqn:Hms;
    [|apply wp_refuse; intros (?&?&?&?&?&?&?&?&?&?&?&?&?); congruence].
  destruct (ms !! rpc) as [ro|] eqn:Hro;
    [|apply wp_refuse; intros (?&?&?&?&?&?&?&?&?&?&?&?&?); congruence].
  destruct md as [m|]; [|apply wp_refuse; intros (?&?&?&?&?&?&?&?&?&?&?&?&?); congruence].
  destruct (md_Get m) as [|key [|? ?]] eqn:Hk;
    [apply wp_refuse; intros (?&?&?&?&?&?&?&?&?&?&?&?&?); congruence| |
     apply wp_refuse; intros (?&?&?&?&?&?&?&?&?&?&?&?&?); congruence].
  destruct (FromString key) as [ak|er|p] eqn:Hf;
    [|apply wp_refuse; intros (?&?&?&?&?&?&?&?&?&?&?&?&?); congruence
     |exfalso; unfold FromString in Hf; by case_match].
  rewrite Hdl, wp_bind. cbn [deref]. rewrite wp_ret, wp_bind, wp_attempt. unfold wp at 1.
  specialize (Hp ak). destruct (GetAPIKey dl ctx ak w) as [[k|er|p] w'] eqn:Hg; simpl in Hp |- *;
    [| |by destruct (Hp p)].
  - assert (authorised gr dl ctx (Some m) rpc w ↔ (ak_ReadOnly k = true → ro = true)) as Ha.
    { split.
      - intros (ms'&ro'&m'&key'&ak'&k'&?&?&?&?&?&Hk'&Hro').
        assert (ak' = ak) as -> by congruence. rewrite Hg in Hk'. simplify_eq/=. by apply Hro'.
      - intros Hk'. exists ms, ro, m, key, ak, k. by rewrite Hg. }
    destruct (ak_ReadOnly k && negb ro) eqn:Hr.
    + apply wp_refuse. rewrite Ha. intros H'. destruct (ak_ReadOnly k), ro; auto; try done.
      by discriminate H'.
    + split; [by left|]. split; [intros _|done]. rewrite Ha.
      destruct (ak_ReadOnly k), ro; done.
  - assert (¬ authorised gr dl ctx (Some m) rpc w) as Hno.
    { intros (ms'&ro'&m'&key'&ak'&k'&?&?&?&?&?&Hk'&Hro').
      assert (ak' = ak) as -> by congruence. by rewrite Hg in Hk'. }
    destruct er; by apply wp_refuse.
Qed.

(** What the interceptors let through. *)
Lemma chain_cases {A} gr trace rpc (h : handler (W := W) A) ctx md w :
  chain (interceptors gr trace) rpc h ctx md w =
  match apiKeyAuth gr ctx md rpc w with
  | (Ok true, w') => (if APM W (Opts W gr) then trace rpc h ctx md else h ctx md) w'
  | (Ok false, w') => (Err (ErrStatus Unauthenticated "failed API key authentication"), w')
  | (Err e, w') => (Err e, w')
  | (Panic p, w') => (Panic p, w')
  end.
Proof.
  unfold interceptors. destruct (APM W (Opts W gr)); simpl;
    unfold auth_interceptor, mbind, M_bind; by destruct (apiKeyAuth _ _ _ _ _) as [[[]|?|?] ?].
Qed.

(** The methods of the service that only read. *)
Definition read_only_methods : list string :=
  ["/furanrpc.FuranExecutor/GetBuildStatus"; "/furanrpc.FuranExecutor/GetBuildEvents";
   "/furanrpc.FuranExecutor/MonitorBuild"; "/furanrpc.FuranExecutor/ListBuilds"].

Lemma furan_methods ms rpc :
  methodsFromFuranService (Ok {[ serviceName := FuranExecutor ]}) = Ok ms →
  ms !! rpc = Some true → rpc ∈ read_only_methods.
Proof.
  unfold methodsFromFuranService. rewrite map_size_singleton, lookup_singleton_eq.
  rewrite bool_decide_false by (by intros []). cbn -[insert serviceName String.append].
  intros [= <-]. rewrite !lookup_insert_Some, lookup_empty.
  intros Hr. unfold read_only_methods. rewrite !elem_of_cons.
  repeat (destruct Hr as [[<- ?]|[_ Hr]]; [try discriminate; vm_compute; tauto|]). done.
Qed.
End auth.

(** ** Properties *)

Section auth_properties.
Context `{K8sQuantity} {W : Type}.
Implicit Types (gr : Server W).

(** A call is let in exactly when the method is known, the request carries one API
    key that is a stored UUID, and the key may write or the method only reads.
    Otherwise the answer is no, never an error. *)
Theorem apiKeyAuth_iff gr dl ctx md rpc w :
  DL W gr = Some dl → (∀ ak p, (GetAPIKey dl ctx ak w).1 ≠ Panic p) →
  wp (apiKeyAuth gr ctx md rpc) (λ r _,
    (r = Ok true ∨ r = Ok false) ∧ (r = Ok true ↔ authorised gr dl ctx md rpc w)) w.
Proof. apply apiKeyAuth_verdict. Qed.

(** C8: On the service of protos/api.proto, a call that is not authorised gets
    Unauthenticated and its handler does not run; and a read-only key is only ever
    authorised for the four methods that read. *)
Theorem handlers_need_a_key {A} gr dl trace rpc (h : handler (W := W) A) ctx md ms w :
  methodsFromFuranService (Ok {[ serviceName := FuranExecutor ]}) = Ok ms →
  methods W gr = Some ms → DL W gr = Some dl → (∀ ak p, (GetAPIKey dl ctx ak w).1 ≠ Panic p) →
  (¬ authorised gr dl ctx md rpc w →
     chain (interceptors gr trace) rpc h ctx md w =
     (Err (ErrStatus Unauthenticated "failed API key authentication"),
      (apiKeyAuth gr ctx md rpc w).2)) ∧
  (authorised gr dl ctx md rpc w →
     (∀ ak k, (GetAPIKey dl ctx ak w).1 = Ok k → ak_ReadOnly k = true) →
     rpc ∈ read_only_methods).
Proof.
  intros Hms Hm Hdl Hp. split.
  - intros Hno. rewrite chain_cases.
    destruct (apiKeyAuth_verdict gr dl ctx md rpc w Hdl Hp) as [Hr Hiff].
    destruct (apiKeyAuth gr ctx md rpc w) as [r w']. simpl in *.
    destruct Hr as [-> | ->]; [exfalso; apply Hno, Hiff; reflexivity|reflexivity].
  - intros (ms'&ro&m&key&ak&k&Hm'&Hro&_&_&_&Hk&Himp) Hall.
    assert (ms' = ms) as -> by congruence. eapply furan_methods; [exact Hms|].
    rewrite Hro. f_equal. apply Himp. by eapply Hall.
Qed.
End auth_properties.

(** ** Servers on a logged data layer *)

Section framed.
Context `{K8sQuantity} {W : Type} `{SecretBox}.
Context (rt : Runtime (W * list dlcall)) (dl : DataLayer W).
Implicit Types (gr : Server (W * list dlcall)).

(** The data layer of the server is [dl], logged; the build manager may add events
    to builds while it starts a job, and nothing else the server is given writes to
    them. *)
Record framed gr : Prop := {
  fr_DL : DL _ gr = Some (logged dl);
  fr_log f msg w : LogFunc _ (Opts _ gr) = Some f → (f msg w).2 = w.2;
  fr_cf cff token ctx repo ref :
    CFFactory _ gr = Some cff → keeps_log (GetCommitSHA (cff token) ctx repo ref);
  fr_bm bm ctx opts : BM _ gr = Some bm → adds_events (bm_Start bm ctx opts);
  fr_rand n w : (rand_Read rt n w).2.2 = w.2;
  fr_now w : (rt_Now rt w).2.2 = w.2;
  fr_done ctx w : (ctx_Done rt ctx w).2.2 = w.2;
}.

Context (gr : Server (W * list dlcall)) (Hgr : framed gr).

Lemma keeps_logf msg : keeps_log (logf gr msg).
Proof.
  intros w l. unfold logf. simpl. destruct (LogFunc _ (Opts _ gr)) eqn:E; [|done].
  by rewrite (fr_log gr Hgr _ _ _ E).
Qed.

Lemma keeps_Get ctx id : keeps_log (GetBuildByID (logged dl) ctx id).
Proof. apply keeps_on_fst. Qed.
Lemma keeps_List ctx o : keeps_log (Datalayer.ListBuilds (logged dl) ctx o).
Proof. apply keeps_on_fst. Qed.
Lemma keeps_Completed ctx id : keeps_log (ListenForBuildCompleted (logged dl) ctx id).
Proof. apply keeps_on_fst. Qed.

Lemma keeps_get_build ctx id : keeps_log (get_build gr ctx id).
Proof.
  unfold get_build. rewrite (fr_DL gr Hgr). keeps_log_solve.
Qed.

Lemma keeps_parse_id s : keeps_log (W := W) (L := list dlcall) (parse_id s).
Proof. unfold parse_id. keeps_log_solve. Qed.

(** The outcome of looking a build up. *)
Lemma wp_get_build `{!DataLayerSpec dl obs} ctx id (Q : res Build → W * list dlcall → Prop) w l :
  (∀ b w', obs w' = obs w → obs w !! id = Some (view b) → Q (Ok b) (w', l)) →
  (∀ w', obs w' = obs w → obs w !! id = None → Q (Err (invalid "build not found")) (w', l)) →
  (∀ m w', obs w' = obs w → Q (Err (ErrStatus Internal m)) (w', l)) →
  wp (get_build gr ctx id) Q (w, l).
Proof.
  intros Hok Hnf Herr. unfold get_build. rewrite (fr_DL gr Hgr). cbn [deref].
  rewrite wp_bind, wp_ret, wp_on_err. cbn [GetBuildByID logged]. rewrite wp_on_fst.
  eapply wp_mono; [|apply spec_Get]. intros r w' [Hobs Hr].
  destruct r as [b|e|p]; [by apply Hok| |done].
  destruct (decide (e = ErrNotFound)) as [->|Hne]; [by apply Hnf|by apply Herr].
Qed.

Lemma wp_parse_id s (Q : res uuid → W * list dlcall → Prop) w :
  (∀ id, FromString s = Ok id → Q (Ok id) w) →
  (∀ m, (∀ id, FromString s ≠ Ok id) → Q (Err (invalid m)) w) → wp (parse_id s) Q w.
Proof.
  intros Hok Herr. unfold parse_id. rewrite wp_on_err, wp_lift_res.
  destruct (FromString s) as [id|e|p] eqn:E; [by apply Hok|by apply Herr; intros ?|].
  exfalso. unfold FromString in E. by case_match.
Qed.
End framed.

#[export] Hint Resolve keeps_logf keeps_get_build keeps_parse_id keeps_Get keeps_List
  keeps_Completed : furan.

Section reads.
Context `{K8sQuantity} {W : Type} `{SecretBox}.
Context (rt : Runtime (W * list dlcall)) (dl : DataLayer W).

(** The four methods protos/api.proto declares read-only write to no build. *)
Theorem read_only_methods_write_nothing gr ctx id req (s : stream (W * list dlcall)) :
  framed rt dl gr → (∀ ev, keeps_log (stream_Send s ev)) →
  keeps_log (GetBuildStatus gr ctx id) ∧ keeps_log (GetBuildEvents gr ctx id) ∧
  keeps_log (MonitorBuild gr ctx id s) ∧ keeps_log (ListBuilds gr ctx req).
Proof.
  intros Hgr Hs. pose proof (keeps_get_build rt dl gr Hgr) as Hget.
  unfold GetBuildStatus, GetBuildEvents, MonitorBuild, ListBuilds. rewrite (fr_DL _ _ _ Hgr).
  split_and!; keeps_log_solve; try apply keeps_on_fst; eauto with furan.
Qed.

(** Cancelling asks the data layer to cancel exactly the running build it is given;
    every other request is refused with the code for its case and writes nothing. *)
Theorem CancelBuild_cancels_running gr `{!DataLayerSpec dl obs} ctx s w l :
  framed rt dl gr → map_Forall (λ id b, b_ID b = id) (obs w) →
  wp (CancelBuild gr ctx s) (λ r w',
    match r with
    | Ok _ => ∃ id b, FromString s = Ok id ∧ obs w !! id = Some b ∧
                      b_Status b = BuildStatusRunning ∧ w'.2 = l ++ [LCancel id true] ∧
                      obs w'.1 = alter (with_Status BuildStatusCancelRequested) id (obs w)
    | Err (ErrStatus InvalidArgument _) =>
        w'.2 = l ∧ (∀ id, FromString s = Ok id → obs w !! id = None)
    | Err (ErrStatus FailedPrecondition _) =>
        w'.2 = l ∧ ∃ id b, FromString s = Ok id ∧ obs w !! id = Some b ∧
                           b_Status b ≠ BuildStatusRunning
    | Err (ErrStatus Internal _) => w'.2 = l ∨
        ∃ id b, FromString s = Ok id ∧ obs w !! id = Some b ∧ b_Status b = BuildStatusRunning ∧
                w'.2 = l ++ [LCancel id false]
    | Err _ => False
    | Panic _ => True
    end) (w, l).
Proof.
  intros Hgr Hids. unfold CancelBuild. rewrite wp_bind.
  apply wp_parse_id; [intros id Hid|intros m Hno; split; [done|intros id Hid; by destruct (Hno id)]].
  rewrite wp_bind. apply (wp_get_build rt dl gr Hgr (obs := obs)).
  - intros b w1 Hobs Hb.
    destruct (decide (b_Status b = BuildStatusRunning)) as [Hr|Hr].
    + assert (Running b = true) as Hrun by by apply Running_spec.
      rewrite (Running_not_terminal b Hrun), Hrun. cbn [negb orb].
      rewrite (fr_DL _ _ _ Hgr), wp_bind. cbn [deref]. rewrite wp_ret, wp_bind, wp_on_err.
      cbn [Datalayer.CancelBuild logged]. rewrite wp_logging.
      assert (b_ID b = id) as Hbid by (apply (Hids id (view b)); done).
      rewrite Hbid. eapply wp_mono; [|apply (spec_Cancel ctx id (view b)); [by rewrite Hobs|done]].
      intros [[]|e|p] w2 Hch; simpl in *; [|by right; exists id, (view b); rewrite Hobs in *|done].
      exists id, (view b). simpl. rewrite Hch, Hobs. by split_and!.
    + assert (Running b = false) as Hrun by (by apply bool_decide_eq_false).
      rewrite Hrun, orb_true_r. split; [done|]. by exists id, (view b).
  - intros w1 Hobs Hn. split; [done|]. intros id' Hid'. congruence.
  - intros m w1 Hobs. by left.
Qed.
End reads.

Section start.
Context `{K8sQuantity} {W : Type} `{SecretBox}.
Context (rt : Runtime (W * list dlcall)) (dl : DataLayer W).
Implicit Types (gr : Server (W * list dlcall)).

Lemma wp_log gr msg w l (Q : res () → W * list dlcall → Prop) :
  framed rt dl gr → (∀ w', Q (Ok ()) (w', l)) → wp (logf gr msg) Q (w, l).
Proof.
  intros Hgr HQ. rewrite wp_logf. destruct (LogFunc _ (Opts _ gr)) as [f|] eqn:Hf; [|apply HQ].
  pose proof (fr_log _ _ _ Hgr f msg (w, l) Hf) as Hl.
  destruct (f msg (w, l)) as [w' l']. simpl in Hl. subst. apply HQ.
Qed.

Lemma wp_run_keeps {A} (f : W * list dlcall → A * (W * list dlcall)) w l
    (Q : res A → W * list dlcall → Prop) :
  (∀ s, (f s).2.2 = s.2) → (∀ a w', Q (Ok a) (w', l)) → wp (run f) Q (w, l).
Proof.
  intros Hf HQ. rewrite wp_run. specialize (Hf (w, l)).
  destruct (f (w, l)) as [a [w' l']]. simpl in *. subst. apply HQ.
Qed.

Lemma wp_run_keeps_eq {A} (f : W * list dlcall → A * (W * list dlcall)) w l
    (Q : res A → W * list dlcall → Prop) :
  (∀ s, (f s).2.2 = s.2) → (∀ a w', (f (w, l)).1 = a → Q (Ok a) (w', l)) → wp (run f) Q (w, l).
Proof.
  intros Hf HQ. rewrite wp_run. specialize (Hf (w, l)).
  destruct (f (w, l)) as [a [w' l']]. simpl in *. subst. by apply HQ.
Qed.

(** Adding an event never fails for its caller: the outcome is only logged. *)
Lemma wp_buildevent gr id msg w l (Q : res () → W * list dlcall → Prop) :
  framed rt dl gr →
  (∀ ok w', Q (Ok ()) (w', l ++ [LAddEvent CtxBackground id msg ok])) →
  (∀ p w', Q (Panic p) w') → wp (buildevent gr id msg) Q (w, l).
Proof.
  intros Hgr HQ Hp. unfold buildevent. rewrite (fr_DL _ _ _ Hgr), wp_bind. cbn [deref].
  rewrite wp_ret, wp_bind, wp_attempt. cbn [AddEvent logged]. rewrite wp_logging.
  unfold wp at 1. destruct (AddEvent dl CtxBackground id msg w) as [[?|e|?] w1]; simpl.
  - apply HQ.
  - apply wp_log; [done|]. intros w'. apply HQ.
  - apply Hp.
Qed.

(** The context a job is started in. *)
Definition handoff_timeout gr : Z :=
  if JobHandoffTimeout _ (Opts _ gr) =? 0 then DefaultJobHandoffTimeout else JobHandoffTimeout _ (Opts _ gr).
Definition handoff_ctx gr : context := CtxWithTimeout CtxBackground (handoff_timeout gr).

(** Why a build has failed, for the user: the context of the handoff ran out, or the start
    itself failed, of [err]. *)
Definition failure_text gr (timed_out : bool) (err : error) : string :=
  if timed_out
  then "timeout waiting for build handoff (" +:+ Duration_String (handoff_timeout gr) +:+
       "): check to see if the job is schedulable and has cpu/mem requests that the k8s cluster can provide"
  else "error starting build job: " +:+ error_String err.

(** The calls of the goroutine that starts the job of [id]: an event, the start itself
    (which adds events), an event that says how it ended, and after a failure the
    completion of the build as failed. *)
Definition handed_off gr (bm : BuildManager (W * list dlcall)) (opts : BuildOpts) (id : uuid)
    (l : list dlcall) (w' : W * list dlcall) : Prop :=
  ∃ x y ok1 evs ok2,
    let before := l ++ [LAddEvent CtxBackground id "creating build job" ok1] in
    let told msg := (before ++ evs) ++ [LAddEvent CtxBackground id msg ok2] in
    Forall is_event evs ∧ (bm_Start bm (handoff_ctx gr) opts (x, before)).2.2 = before ++ evs ∧
    match (bm_Start bm (handoff_ctx gr) opts (x, before)).1 with
    | Ok _ => ∃ z, w'.2 = told ("build is running (handoff took " +:+
        Duration_String (time_Sub (rt_Now rt (y, before ++ evs)).1 (rt_Now rt (z, l)).1) +:+ ")")
    | Err err => ∃ ok3,
        w'.2 = told (failure_text gr (ctx_Done rt (handoff_ctx gr) (y, before ++ evs)).1 err) ++
               [LSetCompleted CtxBackground id BuildStatusFailure ok3]
    | Panic _ => False
    end.

Lemma wp_start_job gr bm id opts w l :
  framed rt dl gr → BM _ gr = Some bm →
  wp (start_job rt gr id opts) (λ r w',
    match r with
    | Ok _ => handed_off gr bm opts id l w'
    | Err _ => False
    | Panic _ => True
    end) (w, l).
Proof.
  intros Hgr Hbm. unfold start_job. fold (handoff_timeout gr). cbn zeta. fold (handoff_ctx gr).
  rewrite wp_bind. apply wp_run_keeps_eq; [apply (fr_now _ _ _ Hgr)|]. intros t0 w0 Ht0.
  rewrite wp_bind. apply wp_buildevent; [done| |done]. intros ok1 w1.
  set (before := l ++ [_]).
  rewrite Hbm, wp_bind. cbn [deref]. rewrite wp_ret, wp_bind, wp_attempt.
  apply wp_adds_events_eq; [by apply (fr_bm _ _ _ Hgr)|].
  intros [[]|e|p] w2 evs Hstart Hevs; [| |done].
  - rewrite wp_bind. apply wp_run_keeps_eq; [apply (fr_now _ _ _ Hgr)|]. intros t3 w3 Ht3.
    apply wp_buildevent; [done| |done]. intros ok2 w4.
    exists w1, w2, ok1, evs, ok2. cbn zeta. fold before. rewrite Hstart. split_and!; [done..|].
    exists w. by rewrite Ht0, Ht3.
  - rewrite wp_bind. apply wp_log; [done|]. intros w3.
    rewrite wp_bind. apply wp_run_keeps_eq; [apply (fr_done _ _ _ Hgr)|]. intros d w4 Hd. cbn zeta.
    rewrite wp_bind. apply wp_buildevent; [done| |done]. intros ok2 w5.
    rewrite (fr_DL _ _ _ Hgr), wp_bind. cbn [deref]. rewrite wp_ret, wp_bind, wp_attempt.
    cbn [SetBuildAsCompleted logged]. rewrite wp_logging. unfold wp at 1.
    assert (∀ ok3 w7, handed_off gr bm opts id l (w7, ((before ++ evs) ++
      [LAddEvent CtxBackground id (failure_text gr d e) ok2]) ++
      [LSetCompleted CtxBackground id BuildStatusFailure ok3])) as Hout.
    { intros ok3 w7. exists w1, w3, ok1, evs, ok2. cbn zeta. fold before. rewrite Hstart.
      split_and!; [done..|]. exists ok3. by rewrite Hd. }
    destruct (SetBuildAsCompleted dl CtxBackground id BuildStatusFailure w5) as [[?|e3|?] w6]; simpl.
    + apply (Hout true).
    + apply wp_log; [done|]. intros w7. apply (Hout false).
    + done.
Qed.

(** C7: Whenever the job of a new build cannot be started or handed off, the goroutine adds
    an event with the reason - the timeout of the handoff if its context is over, the text
    of the error that [bm_Start] returned otherwise - and, last, completes the build as
    failed, in a context the handoff timeout does not cancel; after a handoff it says how
    long that took, leaves the build to the job and completes nothing. *)
Theorem start_job_completes_on_failure gr bm id opts w l :
  framed rt dl gr → BM _ gr = Some bm →
  wp (start_job rt gr id opts) (λ r w',
    match r with
    | Ok _ => handed_off gr bm opts id l w'
    | Err _ => False
    | Panic _ => True
    end) (w, l).
Proof. apply wp_start_job. Qed.

Lemma wp_mapM_deref (os : list (option string)) w (Q : res (list string) → W * list dlcall → Prop) :
  (∀ xs, Some <$> xs = os → Q (Ok xs) w) → (∀ p, Q (Panic p) w) → wp (mapM deref os) Q w.
Proof.
  revert Q. induction os as [|o os IH]; intros Q HQ Hp; [by apply (HQ [])|].
  cbn [mapM]. rewrite wp_bind. destruct o as [x|]; [|by apply Hp]. cbn [deref]. rewrite wp_ret, wp_bind.
  apply IH; [|done]. intros xs <-. rewrite wp_ret. by apply (HQ (x :: xs)).
Qed.

(** The four resource checks of a request that has resources. *)
Definition resources_ok (m : MaxResourceLimits) (r : BuildResources) : Prop :=
  ∀ s max, (s, max) ∈ [(CpuRequest r, MaxCPUReq m); (CpuLimit r, MaxCPULim m);
                       (MemoryRequest r, MaxMemReq m); (MemoryLimit r, MaxMemLim m)] →
  s = ""%string ∨ ∃ q, ParseQuantity s = Ok q ∧ Value q ≤ Value max.

Lemma check_quantity_Ok s max bad exceeds :
  check_quantity s max bad exceeds = Ok () →
  s = ""%string ∨ ∃ q, ParseQuantity s = Ok q ∧ Value q ≤ Value max.
Proof.
  unfold check_quantity. case_bool_decide; [by left|].
  destruct (ParseQuantity s) as [q|e|p]; [|done..].
  destruct (Z.ltb_spec (Value max) (Value q)); [done|]. intros _. right. by exists q.
Qed.

Lemma check_quantity_Err s max bad exceeds e :
  check_quantity s max bad exceeds = Err e → ∃ m, e = invalid m.
Proof.
  unfold check_quantity. case_bool_decide; [done|].
  destruct (ParseQuantity s) as [q|e'|p]; [|intros [= <-]; by eexists|done].
  destruct (_ <? _); intros [= <-]. by eexists.
Qed.

Lemma wp_check_resources m r w (Q : res () → W * list dlcall → Prop) :
  (resources_ok m r → Q (Ok ()) w) → (∀ msg, Q (Err (invalid msg)) w) → (∀ p, Q (Panic p) w) →
  wp (check_resources m r) Q w.
Proof.
  intros Hok Herr Hp. unfold check_resources.
  repeat (rewrite wp_bind, wp_lift_res;
    match goal with |- context [check_quantity ?s ?m ?b ?x] =>
      destruct (check_quantity s m b x) as [[]|?|?] eqn:?;
      [|match goal with Hc : _ = Err _ |- _ => apply check_quantity_Err in Hc as [? ->] end;
        by apply Herr|by apply Hp] end).
  rewrite wp_lift_res.
  match goal with |- context [check_quantity ?s ?m ?b ?x] =>
      destruct (check_quantity s m b x) as [[]|?|?] eqn:?;
      [|match goal with Hc : _ = Err _ |- _ => apply check_quantity_Err in Hc as [? ->] end;
        by apply Herr|by apply Hp] end.
  repeat match goal with Hc : check_quantity _ _ _ _ = Ok _ |- _ => apply check_quantity_Ok in Hc end.
  apply Hok. intros s max. rewrite !elem_of_cons, elem_of_nil. naive_solver.
Qed.

(** What the request [req] must be, and the build [b] that is created for it. *)
(** The cache of a build is the one asked for, or else the server's, or else none; its type
    is always known. *)
Definition cache_chosen gr (bd : BuildDefinition) (c : BuildCacheOpts) : Prop :=
  Type_ c ≠ BuildCacheOpts_UNKNOWN ∧
  (∀ asked, bd_CacheOptions bd = Some asked → Type_ asked ≠ BuildCacheOpts_UNKNOWN → c = asked) ∧
  ((∀ asked, bd_CacheOptions bd = Some asked → Type_ asked = BuildCacheOpts_UNKNOWN) →
   (Type_ (Cache _ (Opts _ gr)) ≠ BuildCacheOpts_UNKNOWN → c = Cache _ (Opts _ gr)) ∧
   (Type_ (Cache _ (Opts _ gr)) = BuildCacheOpts_UNKNOWN → Type_ c = BuildCacheOpts_DISABLED)).

Lemma cache_options_chosen gr bd : cache_chosen gr bd (cache_options gr bd).
Proof.
  unfold cache_chosen, cache_options.
  destruct (bd_CacheOptions bd) as [a|]; repeat destruct decide; cbn; naive_solver.
Qed.

Record accepted gr (req : BuildRequest) (bd : BuildDefinition) (b : Build) : Prop := {
  acc_bd : rq_Build req = Some bd;
  acc_repo : bd_GithubRepo bd ≠ ""%string ∧ b_GitHubRepo b = bd_GithubRepo bd;
  acc_ref : bd_Ref bd ≠ ""%string ∧ b_GitHubRef b = bd_Ref bd;
  acc_images : b_ImageRepos b ≠ [] ∧ rq_Push req = Some (Some <$> b_ImageRepos b);
  acc_cred : bd_GithubCredential bd ≠ ""%string ∧
    ∃ v, let nonce := (rand_Read rt 24 v).1.1 in length nonce = 24%nat ∧
      b_EncryptedGitHubCredential b =
        nonce ++ sb_Seal (String.list_ascii_of_string (bd_GithubCredential bd)) nonce
                   (CredentialDecryptionKey _ (Opts _ gr));
  acc_tags : b_Tags b = bd_Tags bd ∧ b_CommitSHATag b = bd_TagWithCommitSha bd;
  acc_request : b_Request b = {| rq_Build := Some (clear_credential bd); rq_Push := rq_Push req;
                                 rq_SkipIfExists := rq_SkipIfExists req |};
  acc_resources : match bd_Resources bd with
                  | Some r => resources_ok (MaxResources _ (Opts _ gr)) r ∧
                              bo_Resources (b_BuildOptions b) = r
                  | None => bo_Resources (b_BuildOptions b) = BuildResources_zero
                  end;
  acc_cache : cache_chosen gr bd (bo_Cache (b_BuildOptions b));
  acc_options : bo_BuildArgs (b_BuildOptions b) = bd_Args bd ∧
    bo_RelativeDockerfilePath (b_BuildOptions b) =
      (if decide (bd_DockerfilePath bd = ""%string) then "."%string else bd_DockerfilePath bd);
  acc_status : b_Status b = BuildStatusNotStarted;
}.

(** The options of the job of a build. *)
Definition job_opts (id : uuid) (b : Build) : BuildOpts :=
  let o := b_BuildOptions b in
  {| bo_BuildID := id; bo_ContextPath := bo_ContextPath o; bo_CommitSHA := bo_CommitSHA o;
     bo_RelativeDockerfilePath := bo_RelativeDockerfilePath o; bo_BuildArgs := bo_BuildArgs o;
     bo_Cache := bo_Cache o; bo_Resources := bo_Resources o |}.

(** How StartBuild ends: with the accepted build created under the ID it returns, and a
    goroutine that starts the job of this ID; or refused, with nothing created; or the
    credential could not be encrypted, with nothing created; or the data layer failed to
    create the accepted build. *)
Definition started gr req l (r : res (string * M (W * list dlcall) ())) (w' : W * list dlcall) : Prop :=
  match r with
  | Ok (sid, go) => ∃ bd b id, accepted gr req bd b ∧ sid = uuid_String id ∧
                               go = start_job rt gr id (job_opts id b) ∧
                               w'.2 = l ++ [LCreate b (Ok id)]
  | Err (ErrStatus InvalidArgument _) => w'.2 = l
  | Err (ErrStatus Internal msg) =>
      (w'.2 = l ∧ ∃ e, msg = "error encrypting credential: " +:+ error_String e) ∨
      (∃ bd b e, accepted gr req bd b ∧ msg = "error creating build in db: " +:+ error_String e ∧
                 w'.2 = l ++ [LCreate b (Err e)])
  | Err _ => False
  | Panic _ => True
  end.

(** crypto/rand: a Read without an error fills its argument. *)
Definition rand_fills : Prop :=
  ∀ n w, (rand_Read rt n w).1.2 = None → length (rand_Read rt n w).1.1 = n.

Lemma wp_resources m ro w (Q : res BuildResources → W * list dlcall → Prop) :
  (∀ r, match ro with
        | Some r' => resources_ok m r' ∧ r = r'
        | None => r = BuildResources_zero
        end → Q (Ok r) w) →
  (∀ msg, Q (Err (invalid msg)) w) → (∀ p, Q (Panic p) w) →
  wp (match ro with Some r => check_resources m r ;; mret r | None => mret BuildResources_zero end)
     Q w.
Proof.
  intros Hok Herr Hp. destruct ro as [r|]; [|by apply Hok].
  rewrite wp_bind. apply wp_check_resources; [|done..]. intros Hr. by apply Hok.
Qed.

Lemma Encrypt_fields rd err cred key b0 b1 :
  EncryptAndSetGitHubCredential rd err cred key b0 = Ok b1 →
  b1 = with_Credential (b_EncryptedGitHubCredential b1) b0.
Proof.
  unfold EncryptAndSetGitHubCredential. case_match; [destruct err; [done|]|]; intros [= <-];
    by destruct b0.
Qed.

Lemma Encrypt_sealed rd err cred key b0 b1 :
  EncryptAndSetGitHubCredential rd err cred key b0 = Ok b1 → (err = None → length rd = 24%nat) →
  length rd = 24%nat ∧ b_EncryptedGitHubCredential b1 = rd ++ sb_Seal cred rd key.
Proof.
  intros Henc Hfull. unfold EncryptAndSetGitHubCredential in Henc. destruct err as [e|]; [done|].
  rewrite (bool_decide_false (length rd ≠ _)) in Henc by (intros []; auto). injection Henc as <-.
  split; [by apply Hfull|]. done.
Qed.

(** C6: StartBuild creates exactly one build for a request it accepts, and the build
    says what the request asked for; what is stored of its credential is the nonce the
    server drew and the box of the credential under the server's key, and the stored
    request has none.  A request that is refused creates none, nor does one whose
    credential cannot be encrypted; only when the data layer itself fails has a creation
    been asked for without success, and it was that of the accepted build. *)
Theorem StartBuild_creates_what_was_asked gr ctx req w l :
  framed rt dl gr → rand_fills → wp (StartBuild rt gr ctx req) (started gr req l) (w, l).
Proof.
  intros Hgr Hfills. unfold StartBuild. rewrite wp_bind.
  destruct (rq_Build req) as [bd|] eqn:Hbd; [|done]. cbn [deref]. rewrite wp_ret.
  case_bool_decide as Hrepo; [done|]. case_bool_decide as Href; [done|].
  rewrite wp_bind. destruct (CFFactory _ gr) as [cff|] eqn:Hcf; [|done]. cbn [deref]. rewrite wp_ret.
  rewrite wp_bind, wp_on_err. apply wp_keeps_log; [by apply (fr_cf _ _ _ Hgr)|].
  intros [sha|e|p] w1; [|done..].
  case_bool_decide as Hregs; [done|].
  rewrite wp_bind. apply wp_mapM_deref; [|done]. intros irepos Hirepos. cbn zeta.
  case_bool_decide as Hcred; [done|].
  rewrite wp_bind. apply wp_run_keeps_eq; [apply (fr_rand _ _ _ Hgr)|]. intros [rd err] w2 Hrd.
  rewrite wp_bind, wp_on_err, wp_lift_res. cbn [fst snd].
  match goal with |- context [EncryptAndSetGitHubCredential rd err ?c ?k ?b] =>
    set (b0 := b); destruct (EncryptAndSetGitHubCredential rd err c k b0) as [b1|e|p] eqn:Henc end;
    [|left; split; [done|by exists e]|done].
  rewrite wp_bind. cbn [bd_Resources clear_credential].
  apply wp_resources; [|done..]. intros r Hr. cbn zeta.
  rewrite (fr_DL _ _ _ Hgr), wp_bind. cbn [deref]. rewrite wp_ret, wp_bind, wp_on_err.
  cbn [CreateBuild logged]. rewrite wp_logging. unfold wp at 1.
  match goal with |- context [CreateBuild dl ctx ?b w2] => set (b2 := b) end.
  pose proof (Encrypt_fields _ _ _ _ _ _ Henc) as Hb1.
  assert (accepted gr req bd b2) as Hacc; last first.
  { destruct (CreateBuild dl ctx b2 w2) as [[id|e|p] w3]; simpl; [by exists bd, b2, id|right|done].
    by exists bd, b2, e. }
  constructor; unfold b2; try done; try (rewrite Hb1; simpl; auto; fail).
  - rewrite Hb1. simpl. split.
    + intros ->. by subst.
    + destruct (rq_Push req) as [regs|]; simpl in *; [by subst|done].
  - split; [done|]. exists (w1, l). cbn zeta. rewrite Hrd. cbn [fst snd b_EncryptedGitHubCredential with_BuildOptions].
    pose proof (Hfills 24%nat (w1, l)) as Hf. rewrite Hrd in Hf. cbn in Hf.
    by apply (Encrypt_sealed _ _ _ _ _ _ Henc).
  - apply (cache_options_chosen gr (clear_credential bd)).
Qed.
End start.

(** ** Resource limits, and nil messages *)

Lemma round_away_bounds n d : 0 < d → 0 ≤ n → n ≤ round_away n d * d < n + d.
Proof.
  intros Hd Hn. unfold round_away. destruct (Z.ltb_spec n 0); [lia|].
  pose proof (Z.div_mod (n + d - 1) d ltac:(lia)).
  pose proof (Z.mod_pos_bound (n + d - 1) d Hd). lia.
Qed.

Lemma round_away_neg n d : 0 < d → n < 0 → round_away n d < 0.
Proof.
  intros Hd Hn. unfold round_away. destruct (Z.ltb_spec n 0); [|lia].
  assert (0 < (- n + d - 1) / d) by (apply Z.div_str_pos; lia). lia.
Qed.

(** The resource limits hold in whole units only: a quantity that is accepted is at
    most the limit rounded up to a whole unit, and every quantity between the limit
    and that bound is accepted although it exceeds the limit. *)
Theorem check_quantity_rounds `{K8sQuantityLaws} s q max bad exceeds :
  s ≠ ""%string → ParseQuantity s = Ok q → 0 ≤ exact max →
  (check_quantity s max bad exceeds = Ok () → exact q ≤ Value max * 10 ^ 9) ∧
  (exact max < exact q ≤ Value max * 10 ^ 9 → check_quantity s max bad exceeds = Ok ()).
Proof.
  intros Hs Hq Hmax. unfold check_quantity. rewrite bool_decide_false, Hq, !Value_rounds by done.
  pose proof (round_away_bounds (exact max) (10 ^ 9) ltac:(lia) Hmax) as Hm.
  destruct (Z.ltb_spec (round_away (exact max) (10 ^ 9)) (round_away (exact q) (10 ^ 9))) as [Hlt|Hge];
    (split; intros Hc; [try done|try done]).
  - pose proof (round_away_bounds (exact q) (10 ^ 9) ltac:(lia) ltac:(lia)). lia.
  - destruct (decide (0 ≤ exact q)) as [Hp|Hp].
    + pose proof (round_away_bounds (exact q) (10 ^ 9) ltac:(lia) Hp). lia.
    + lia.
Qed.

(** StartBuild panics on a request without a build, and on a valid one that lists
    a nil registry, instead of refusing it. *)
Theorem StartBuild_nil_message_panics `{K8sQuantity} {W} `{SecretBox} (rt : Runtime W)
    (gr : Server W) ctx (req : BuildRequest) w :
  (rq_Build req = None →
     ∃ p, (StartBuild rt gr ctx req w).1 = Panic p) ∧
  (∀ bd cff regs,
     rq_Build req = Some bd → bd_GithubRepo bd ≠ ""%string → bd_Ref bd ≠ ""%string →
     CFFactory _ gr = Some cff →
     isOk (GetCommitSHA (cff (bd_GithubCredential bd)) ctx (bd_GithubRepo bd) (bd_Ref bd) w).1 = true →
     rq_Push req = Some regs → None ∈ regs →
     ∃ p, (StartBuild rt gr ctx req w).1 = Panic p).
Proof.
  split.
  - intros Hbd. unfold StartBuild. rewrite Hbd. by eexists.
  - intros bd cff regs Hbd Hrepo Href Hcf Hok Hpush Hin.
    change (wp (StartBuild rt gr ctx req) (λ r _, ∃ p, r = Panic p) w).
    unfold StartBuild. rewrite Hbd, Hcf, Hpush, wp_bind. cbn [deref]. rewrite wp_ret.
    rewrite !bool_decide_false by done. rewrite wp_bind, wp_ret, wp_bind, wp_on_err.
    unfold wp at 1.
    destruct (GetCommitSHA _ _ _ _ w) as [[sha|?|?] w1]; [|done..]. cbn [fst snd].
    change (default [] (Some regs)) with regs.
    rewrite (bool_decide_false (regs = [])) by (intros ->; by apply not_elem_of_nil in Hin).
    rewrite wp_bind.
    enough (∀ Q : res (list string) → W → Prop,
              (∀ p, Q (Panic p) w1) → wp (mapM deref regs) Q w1) as Hm by (apply Hm; by eexists).
    clear -Hin. induction regs as [|o regs IH]; intros Q HQ; [by apply not_elem_of_nil in Hin|].
    cbn [mapM]. rewrite wp_bind. destruct o as [x|]; [|apply HQ]. cbn [deref].
    rewrite wp_ret, wp_bind. apply IH; [by apply elem_of_cons in Hin as [?|?]|done].
Qed.

(** ** Witnesses *)

#[local] Existing Instance milli_quantity.
#[local] Existing Instance milli_quantity_laws.

(** 1.9 CPUs pass a limit of 1.1 CPUs. *)
Lemma check_quantity_rounds_witness :
  check_quantity "1900m" (milli 1100) "invalid" "exceeds" = Ok ().
Proof.
  refine (proj2 (check_quantity_rounds "1900m" (milli 1900) (milli 1100) "invalid" "exceeds" _ _ _) _);
    [discriminate|reflexivity|vm_compute; congruence|vm_compute; split; congruence].
Defined.

Definition idle_runtime {W} : Runtime W := {|
  rand_Read n w := ((replicate n Ascii.zero, None), w);
  rt_Now w := (time_zero, w);
  ctx_Done _ w := (false, w);
|}.

Definition sample_fetcher {W} (token : string) : CodeFetcher W := {|
  GetCommitSHA _ _ _ := mret "0123abc"%string;
  Fetch _ _ _ _ := mret ();
|}.

(** A build manager that cannot start jobs. *)
Definition failing_manager {W} : BuildManager W := {|
  bm_Start _ _ := throw (ErrText "no capacity");
  bm_Run _ _ := mret ();
|}.

Definition sample_server (ro : bool) : Server (fake_world * list dlcall) := {|
  DL := Some (logged Fake.dl);
  BM := Some failing_manager;
  CFFactory := Some sample_fetcher;
  Opts := {| APM := false; CredentialDecryptionKey := []; Cache := BuildCacheOpts_zero;
             LogFunc := None; JobHandoffTimeout := 0;
             MaxResources := {| MaxCPUReq := milli 0; MaxMemReq := milli 0; MaxCPULim := milli 0;
                                MaxMemLim := milli 0 |} |};
  methods := Some {[ "/furanrpc.FuranExecutor/StartBuild"%string := ro ]};
|}.

Lemma sample_framed ro : framed idle_runtime Fake.dl (sample_server ro).
Proof.
  constructor; try done.
  - by intros cff token ctx repo ref [= <-].
  - intros bm ctx opts [= <-]. by apply adds_keeps.
Qed.

Definition sample_request : BuildRequest := {|
  rq_Build := Some {| bd_GithubRepo := "acme/widget"; bd_GithubCredential := "token";
                      bd_DockerfilePath := ""; bd_Ref := "master"; bd_Tags := ["v1"%string];
                      bd_TagWithCommitSha := true; bd_Args := ∅; bd_CacheOptions := None;
                      bd_Resources := None |};
  rq_Push := Some [Some "quay.io/acme/widget"%string];
  rq_SkipIfExists := false;
|}.

Lemma StartBuild_creates_what_was_asked_witness :
  let nonce := replicate 24 Ascii.zero in
  ∃ bd b id, accepted idle_runtime (sample_server false) sample_request bd b ∧
    (StartBuild idle_runtime (sample_server false) CtxCaller sample_request (fake_empty, [])).2.2
      = [LCreate b (Ok id)] ∧
    b_EncryptedGitHubCredential b = nonce ++ sb_Seal (String.list_ascii_of_string "token") nonce [].
Proof.
  assert (rand_fills (W := fake_world) idle_runtime) as Hf.
  { intros n w _. apply length_replicate. }
  pose proof (StartBuild_creates_what_was_asked idle_runtime Fake.dl (sample_server false) CtxCaller
    sample_request fake_empty [] (sample_framed false) Hf) as (bd & b & id & Ha & _ & _ & Hl).
  exists bd, b, id. split; [exact Ha|]. split; [exact Hl|].
  destruct (acc_cred _ _ _ _ _ Ha) as [_ [v [_ Hc]]]. rewrite Hc. pose proof (acc_bd _ _ _ _ _ Ha) as Hbd.
  by injection Hbd as <-.
Defined.

Lemma StartBuild_nil_message_panics_witness :
  ∃ p, (StartBuild idle_runtime (sample_server false) CtxCaller BuildRequest_zero
          (fake_empty, [])).1 = Panic p.
Proof. apply StartBuild_nil_message_panics. reflexivity. Defined.

Lemma start_job_completes_on_failure_witness :
  let go := start_job idle_runtime (sample_server false) uuid_Nil BuildOpts_zero (fake_empty, []) in
  handed_off idle_runtime (sample_server false) failing_manager BuildOpts_zero uuid_Nil [] go.2 ∧
  drop 1 go.2.2 = [LAddEvent CtxBackground uuid_Nil "error starting build job: no capacity" true;
                   LSetCompleted CtxBackground uuid_Nil BuildStatusFailure true].
Proof.
  split; [|vm_compute; reflexivity].
  exact (start_job_completes_on_failure idle_runtime Fake.dl (sample_server false) failing_manager
    uuid_Nil BuildOpts_zero fake_empty [] (sample_framed false) eq_refl).
Defined.

Lemma apiKeyAuth_iff_witness :
  (apiKeyAuth (sample_server false) CtxCaller (Some ∅) "" (fake_empty, [])).1 = Ok false ∧
  wp (apiKeyAuth (sample_server false) CtxCaller (Some ∅) "")
    (λ r _, r = Ok true ∨ r = Ok false) (fake_empty, []).
Proof.
  split; [reflexivity|].
  apply (apiKeyAuth_iff (sample_server false) (logged Fake.dl) CtxCaller (Some ∅) "" (fake_empty, []));
    [reflexivity|]. intros ak p.
  cbn [GetAPIKey logged Fake.dl]. unfold on_fst, Fake.GetAPIKey, mbind, M_bind, get_store.
  cbn -[lookup]. destruct (_ !! ak); discriminate.
Defined.

Lemma read_only_methods_write_nothing_witness :
  keeps_log (GetBuildStatus (sample_server false) CtxCaller "").
Proof.
  apply (read_only_methods_write_nothing idle_runtime Fake.dl (sample_server false) CtxCaller ""
    {| WithGithubRepo := ""; WithGithubRef := ""; lq_WithImageRepo := ""; WithBuildState := 0;
       lq_CompletedAfter := None; lq_StartedAfter := None; lq_CompletedBefore := None;
       lq_StartedBefore := None; lq_Limit := 0 |} {| stream_Send _ := mret () |}).
  - apply sample_framed.
  - intros ev w l. reflexivity.
Defined.

Lemma CancelBuild_cancels_running_witness :
  (CancelBuild (sample_server false) CtxCaller "x" (fake_empty, [])).1 =
    Err (invalid "invalid build id: uuid: incorrect UUID format") ∧
  (CancelBuild (sample_server false) CtxCaller "x" (fake_empty, [])).2.2 = [].
Proof.
  split; [reflexivity|].
  assert (map_Forall (λ id b, b_ID b = id) (fake_obs fake_empty)) as Hids
    by (intros i b Hb; vm_compute in Hb; discriminate).
  pose proof (CancelBuild_cancels_running idle_runtime Fake.dl (sample_server false)
    (obs := fake_obs) CtxCaller "x" fake_empty [] (sample_framed false) Hids) as H.
  exact (proj1 H).
Defined.

Definition served : gmap string bool :=
  match methodsFromFuranService (Ok {[ serviceName := FuranExecutor ]}) with
  | Ok m => m
  | _ => ∅
  end.

Lemma handlers_need_a_key_witness :
  let gr := with_methods served (sample_server false) in
  chain (interceptors gr (λ _ h, h)) "/furanrpc.FuranExecutor/StartBuild"
    (λ _ _, panic "the handler runs") CtxCaller (Some ∅) (fake_empty, []) =
  (Err (ErrStatus Unauthenticated "failed API key authentication") : res (), (fake_empty, [])).
Proof.
  intros gr.
  refine (proj1 (handlers_need_a_key gr (logged Fake.dl) (λ _ h, h)
    "/furanrpc.FuranExecutor/StartBuild" (λ _ _, panic "the handler runs") CtxCaller (Some ∅)
    served (fake_empty, []) _ _ _ _) _); [reflexivity|reflexivity|reflexivity| |].
  - intros ak p. cbn [GetAPIKey logged Fake.dl].
    unfold on_fst, Fake.GetAPIKey, mbind, M_bind, get_store.
    cbn -[lookup]. destruct (_ !! ak); discriminate.
  - intros (?&?&m&key&?&?&_&_&Hm&Hk&_). injection Hm as <-. discriminate Hk.
Defined.
