(* ===== verification/Builder.v ===== *)
(** * pkg/builder: starting and running builds

    [Manager.Start] runs on the server: it starts a job and waits for the build
    to be handed over to it.  [Manager.Run] is the build itself, inside the job.
    What they use of the operating system is [OS]; the two goroutines of Run
    (signals and cancellation) act on the rest of the program only through
    [ctx2] and the flag [cancelled], and are the step relation of module
    [Cancellation]. *)

From S2P Require Import Prelude GoStrings GoPath GoTime Uuid Models Datalayer.

#[local] Open Scope Z_scope.

(** ** Starting a build *)

(** What the [select] of Start wakes up for.  [JobError None] is a receive from
    the closed channel. *)
Inductive job_select :=
  | CtxDone
  | Tick (elapsed : Z)
  | JobError (err : option error)
  | JobRunning.

(** [models.Job]: what its channels and the ticker bring next. *)
Record Job (W : Type) := { job_next : context → W → job_select * W }.
Arguments job_next {_} _ _ _.

(** [models.JobRunner]. *)
Record JobRunner (W : Type) := { jr_Run : Build → M W (Job W) }.
Arguments jr_Run {_} _ _.

(** The operating system of the job's container. *)
Record OS (W : Type) := {
  ps_Processes : M W (list (nat * string));   (* pid and executable *)
  sys_Kill : nat → M W ();                    (* SIGTERM *)
  TempDir : M W string;
  RemoveAll : string → W → W;
  os_Open : string → M W ();
  Readdir : string → M W (list string);
  cancelled_get : W → bool * W;               (* the flag the cancellation goroutine sets *)
}.
Arguments ps_Processes {_} _ _.
Arguments sys_Kill {_} _ _ _.
Arguments TempDir {_} _ _.
Arguments RemoveAll {_} _ _ _.
Arguments os_Open {_} _ _ _.
Arguments Readdir {_} _ _ _.
Arguments cancelled_get {_} _ _.

Record Manager (W : Type) := {
  BRunner : option (Builder W);
  JRunner : option (JobRunner W);
  TCheck : option (TagChecker W);
  FetcherFactory : option (string → CodeFetcher W);
  GitHubTokenKey : list ascii;
  mDL : option (DataLayer W);
}.
Arguments BRunner {_} _.
Arguments JRunner {_} _.
Arguments TCheck {_} _.
Arguments FetcherFactory {_} _.
Arguments GitHubTokenKey {_} _.
Arguments mDL {_} _.

Section builder.
Context {W : Type}.
Implicit Types (m : Manager W).

(** The loop of Start.  [ticks] bounds the ticks before the context is done: the
    context has a deadline and a tick takes 20 seconds. *)
Fixpoint start_loop (ticks : nat) (dl : DataLayer W) (ctx : context) (id : uuid) (j : Job W) :
    M W () :=
  s ← run (job_next j ctx);
  match s with
  | CtxDone => throw (ErrText "context cancelled")
  | Tick elapsed =>
      ignore_err (AddEvent dl ctx id ("waiting for build handoff... (" +:+
                                      Duration_String elapsed +:+ " elapsed)")) ;;
      match ticks with
      | O => throw (ErrText "context cancelled")
      | S ticks' => start_loop ticks' dl ctx id j
      end
  | JobError (Some err) => throw (ErrWrap "job error" err)
  | JobError None => throw (ErrText "job error: %!w(<nil>)")
  | JobRunning => mret ()
  end.

Definition Start (ticks : nat) m (ctx : context) (opts : BuildOpts) : M W () :=
  match JRunner m, mDL m with
  | None, _ => throw (ErrText "JRunner is required")
  | _, None => throw (ErrText "DL is required")
  | Some jr, Some dl =>
      b ← wrapf "error getting build" (GetBuildByID dl ctx (bo_BuildID opts));
      j ← wrapf "error running build job" (jr_Run jr b);
      start_loop ticks dl ctx (b_ID b) j
  end.

(** ** Running a build *)

Context (os : OS W) `{SecretBox}.

Definition getContextSubdir (path : string) : M W string :=
  wrapf "error opening path" (os_Open os path) ;;
  fi ← wrapf "error reading path directory entries" (Readdir os path);
  match fi with
  | [d] => mret d
  | _ => throw (ErrText ("expected exactly one subdirectory, got " +:+ fmt_nat (length fi)))
  end.

(** The first process that is buildkitd. *)
Fixpoint kill_first (psl : list (nat * string)) : M W () :=
  match psl with
  | [] => throw (ErrText "buildkitd process not found")
  | (pid, exe) :: psl' =>
      if decide (exe = "buildkitd"%string)
      then wrapf "error sending SIGTERM to buildkitd" (sys_Kill os pid)
      else kill_first psl'
  end.

Definition killbuildkitd : M W () :=
  psl ← wrapf "error listing processes" (ps_Processes os);
  kill_first psl.

(** [for _, irepo := range b.ImageRepos]: stops at the first image repository
    that lacks a tag. *)
Fixpoint all_exist (tc : TagChecker W) (tags : list string) (irepos : list string) : M W bool :=
  match irepos with
  | [] => mret true
  | irepo :: irepos' =>
      r ← wrapf ("error checking for tags: " +:+ irepo) (AllTagsExist tc tags irepo);
      if (r.1 : bool) then all_exist tc tags irepos' else mret false
  end.

(** The first deferred function to be registered, so the last one to run. *)
Definition kill_deferred (dl : DataLayer W) (id : uuid) {A} (_ : res A) : M W () :=
  r ← attempt killbuildkitd;
  match r with
  | Err err2 => ignore_err (AddEvent dl CtxBackground id (error_String err2))
  | _ => mret ()
  end.

(** The deferred completion: it runs on every error after the handoff, in a context
    that is not cancelled. *)
Definition complete_deferred (dl : DataLayer W) (id : uuid) (r : res ()) : M W () :=
  match r with
  | Err err =>
      cancelled ← run (cancelled_get os);
      let status := if (cancelled : bool) then BuildStatusCancelled else BuildStatusFailure in
      let msg := if (cancelled : bool) then "build was cancelled"%string
                 else "error running build: " +:+ error_String err in
      ignore_err (AddEvent dl CtxBackground id msg) ;;
      ignore_err (SetBuildAsCompleted dl CtxBackground id status)
  | _ => mret ()
  end.

(** The body of Run after the handoff; [ctx2] is cancelled by the goroutines. *)
Definition run_body m (br : Builder W) (tc : TagChecker W) (ff : string → CodeFetcher W)
    (dl : DataLayer W) (ctx2 : context) (b : Build) : M W () :=
  tkn ← wrapf "error decrypting github token" (lift_res (GetGitHubCredential b (GitHubTokenKey m)));
  let fetcher := ff tkn in
  csha ← wrapf "error getting commit sha" (GetCommitSHA fetcher ctx2 (b_GitHubRepo b) (b_GitHubRef b));
  tags ← (if rq_SkipIfExists (b_Request b) then
            bd ← deref (rq_Build (b_Request b));
            let tags := if bd_TagWithCommitSha bd then b_Tags b ++ [csha] else b_Tags b in
            allexist ← all_exist tc tags (b_ImageRepos b);
            mret (if (allexist : bool) then Some tags else None)
          else mret None);
  match tags with
  | Some tags =>
      ignore_err (AddEvent dl ctx2 (b_ID b) ("all tags exist in all image repos: " +:+
                                             fmt_strings tags +:+ "; skipping")) ;;
      wrapf "error setting build as skipped"
        (SetBuildAsCompleted dl ctx2 (b_ID b) BuildStatusSkipped)
  | None =>
      tdir ← wrapf "error creating temp dir for build context" (TempDir os);
      deferring (λ _, run (λ w, ((), RemoveAll os tdir w)))
       (wrapf "error fetching repo" (Fetch fetcher ctx2 (b_GitHubRepo b) (b_GitHubRef b) tdir) ;;
        subdir ← wrapf "error getting context subdirectory" (getContextSubdir tdir);
        let cpath := Join2 tdir subdir in
        let opts := b_BuildOptions b in
        wrapf "error executing build" (builder_Build br ctx2
          {| bo_BuildID := b_ID b; bo_ContextPath := cpath; bo_CommitSHA := csha;
             bo_RelativeDockerfilePath := Join2 cpath (bo_RelativeDockerfilePath opts);
             bo_BuildArgs := bo_BuildArgs opts; bo_Cache := bo_Cache opts;
             bo_Resources := bo_Resources opts |}) ;;
        wrapf "error setting build as completed"
          (SetBuildAsCompleted dl ctx2 (b_ID b) BuildStatusSuccess))
  end.

Definition Run m (ctx : context) (buildID : uuid) : M W () :=
  match BRunner m, TCheck m, FetcherFactory m, mDL m with
  | Some br, Some tc, Some ff, Some dl =>
      deferring (kill_deferred dl buildID)
       (b ← wrapf "error getting build" (GetBuildByID dl ctx buildID);
        if bool_decide (b_Status b ≠ BuildStatusNotStarted)
        then throw (ErrText ("build already attempted or has unexpected status (" +:+
                             BuildStatus_String (b_Status b) +:+ "), wanted NotStarted, aborting"))
        else
          let ctx2 := CtxWithCancel ctx in
          wrapf "error setting build status to running" (SetBuildAsRunning dl ctx2 (b_ID b)) ;;
          deferring (complete_deferred dl (b_ID b)) (run_body m br tc ff dl ctx2 b))
  | _, _, _, _ => throw (ErrText "missing dependencies")
  end.

(** [*Manager] as a [BuildManager]. *)
Definition manager (ticks : nat) m : BuildManager W :=
  {| bm_Start := Start ticks m; bm_Run := Run m |}.
End builder.

(** pkg/builder/fake.go. *)
Record FakeBuildManager (W : Type) := {
  StartFunc : option (context → BuildOpts → M W ());
  RunFunc : option (context → uuid → M W ());
}.

Definition fake_manager {W} (f : FakeBuildManager W) : BuildManager W := {|
  bm_Start ctx opts := match StartFunc W f with Some g => g ctx opts | None => mret () end;
  bm_Run ctx id := match RunFunc W f with Some g => g ctx id | None => mret () end;
|}.

(** ** The cancellation of a running build *)

Module Cancellation.

(** The goroutine of ListenForCancellation: waiting, between [cf()] and
    [cancelled.set(true)], done, or gone without a cancellation. *)
Inductive canceller := Listening | Cancelling | Cancelled | Gone.

(** The body of Run: at work in a call under [ctx2], failed (about to read the
    flag), or ended with the status it wrote. *)
Inductive body := Working | Failed | Ended (status : Z).

Record state := State {
  requested : bool;      (* CancelBuild was called for the build *)
  cxl : canceller;
  ctx2_done : bool;
  flag : bool;           (* the atomicBool [cancelled] *)
  bdy : body;
}.

Definition init : state := State false Listening false false Working.

Inductive step : state → state → Prop :=
  (* a client cancels the build *)
  | step_request c d f : step (State false c d f Working) (State true c d f Working)
  (* ListenForCancellation returns nil; [cf()] *)
  | step_cf d f b : step (State true Listening d f b) (State true Cancelling true f b)
  (* [cancelled.set(true)] *)
  | step_set r d f b : step (State r Cancelling d f b) (State r Cancelled d true b)
  (* ListenForCancellation fails: its context is done, or its connection breaks *)
  | step_gone r d f b : step (State r Listening d f b) (State r Gone d f b)
  (* a signal: [cf()] *)
  | step_signal r c d f b : step (State r c d f b) (State r c true f b)
  (* the call at work returns an error, because of [ctx2] or of its own *)
  | step_fail r c d f : step (State r c d f Working) (State r c d f Failed)
  (* the body succeeds: only while its context is not done *)
  | step_success r c f s :
      s = BuildStatusSuccess ∨ s = BuildStatusSkipped →
      step (State r c false f Working) (State r c false f (Ended s))
  (* the deferred completion reads the flag and writes the status *)
  | step_complete r c d f :
      step (State r c d f Failed)
        (State r c d f (Ended (if f then BuildStatusCancelled else BuildStatusFailure))).

Definition reachable : state → Prop := rtc step init.

End Cancellation.
