(* ===== verification/BuilderFacts.v ===== *)
(** * The build manager: its theorems

    What Run writes to the build it runs, on a logged data layer; what Start may
    write; and the race between the cancellation of a build and its failure. *)

From S2P Require Import Prelude GoStrings GoPath GoTime Uuid Models Datalayer FakeDL GrpcFacts.
From S2P Require Import Builder K8s.

#[local] Open Scope Z_scope.

Section run.
Context {W : Type} `{SecretBox} (os : OS (W * list dlcall)) (dl : DataLayer W).
Implicit Types (m : Manager (W * list dlcall)).

(** What the manager is given besides its data layer writes to no build; the builder may
    add events. *)
Record framed_manager m : Prop := {
  fm_DL : mDL m = Some (logged dl);
  fm_br br ctx o : BRunner m = Some br → adds_events (builder_Build br ctx o);
  fm_tc tc tags repo : TCheck m = Some tc → keeps_log (AllTagsExist tc tags repo);
  fm_sha ff tok ctx repo ref :
    FetcherFactory m = Some ff → keeps_log (GetCommitSHA (ff tok) ctx repo ref);
  fm_fetch ff tok ctx repo ref dst :
    FetcherFactory m = Some ff → keeps_log (Fetch (ff tok) ctx repo ref dst);
  fm_ps : keeps_log (ps_Processes os);
  fm_kill pid : keeps_log (sys_Kill os pid);
  fm_tmp : keeps_log (TempDir os);
  fm_rm d w : (RemoveAll os d w).2 = w.2;
  fm_open p : keeps_log (os_Open os p);
  fm_readdir p : keeps_log (Readdir os p);
  fm_flag w : (cancelled_get os w).2.2 = w.2;
}.

Context m (Hm : framed_manager m).

Lemma keeps_run {A} (f : W * list dlcall → A * (W * list dlcall)) :
  (∀ w, (f w).2.2 = w.2) → keeps_log (run f).
Proof.
  intros Hf w l. unfold run. specialize (Hf (w, l)). by destruct (f (w, l)) as [a [w' l']].
Qed.

Lemma keeps_kill_first psl : keeps_log (kill_first os psl).
Proof.
  induction psl as [|[pid exe] psl IH]; cbn [kill_first]; [done|].
  destruct (decide _); [|done]. apply keeps_on_err, (fm_kill _ Hm).
Qed.

Lemma keeps_killbuildkitd : keeps_log (killbuildkitd os).
Proof.
  unfold killbuildkitd. apply keeps_bind; [apply keeps_on_err, (fm_ps _ Hm)|apply keeps_kill_first].
Qed.

Lemma keeps_all_exist tc tags irepos :
  TCheck m = Some tc → keeps_log (all_exist tc tags irepos).
Proof.
  intros Htc. induction irepos as [|irepo irepos IH]; cbn [all_exist]; [done|].
  apply keeps_bind; [by apply keeps_on_err, (fm_tc _ Hm)|]. intros [[] ?]; [exact IH|done].
Qed.

Lemma keeps_getContextSubdir p : keeps_log (getContextSubdir os p).
Proof.
  unfold getContextSubdir. apply keeps_bind; [apply keeps_on_err, (fm_open _ Hm)|]. intros _.
  apply keeps_bind; [apply keeps_on_err, (fm_readdir _ Hm)|]. by intros [|? [|? ?]].
Qed.

(** The deferred signal to buildkitd adds at most an event. *)
Lemma adds_kill_deferred {A} id (r : res A) : adds_events (kill_deferred os (logged dl) id r).
Proof.
  unfold kill_deferred. apply adds_bind; [apply adds_attempt, adds_keeps, keeps_killbuildkitd|].
  intros [?|err|?]; [by apply adds_keeps| |by apply adds_keeps].
  apply adds_bind; [apply adds_attempt, adds_AddEvent|]. intros _. by apply adds_keeps.
Qed.

Definition succeeded (s : Z) : Prop := s = BuildStatusSuccess ∨ s = BuildStatusSkipped.

(** The check of the tags of [b], after the calls [l], answers [found]. *)
Definition tags_checked m (b : Build) (tags : list string) (l : list dlcall) (found : bool) : Prop :=
  rq_SkipIfExists (b_Request b) = true ∧
  (∃ csha bd, rq_Build (b_Request b) = Some bd ∧
     tags = if bd_TagWithCommitSha bd then b_Tags b ++ [csha] else b_Tags b) ∧
  ∃ tc w w', TCheck m = Some tc ∧ all_exist tc tags (b_ImageRepos b) (w, l) = (Ok found, (w', l)).

(** What stands behind the status of a body that succeeded, when it wrote the calls [evs]
    after [l]: it skipped the build because its check found all the tags, and said so; or
    the builder built it, and there was no check or one that found tags missing. *)
Definition completion m (b : Build) (ctx2 : context) (l evs : list dlcall) (s : Z) : Prop :=
  (s = BuildStatusSkipped ∧ ∃ tags ok, tags_checked m b tags l true ∧
     evs = [LAddEvent ctx2 (b_ID b) ("all tags exist in all image repos: " +:+ fmt_strings tags +:+
                                     "; skipping") ok]) ∨
  (s = BuildStatusSuccess ∧
   (rq_SkipIfExists (b_Request b) = false ∨ ∃ tags, tags_checked m b tags l false) ∧
   ∃ br opts w w', BRunner m = Some br ∧ bo_BuildID opts = b_ID b ∧
     builder_Build br ctx2 opts (w, l) = (Ok (), (w', l ++ evs))).

Lemma completion_succeeded mm b ctx2 l evs s : completion mm b ctx2 l evs s → succeeded s.
Proof. unfold succeeded. intros [[-> _]|[-> _]]; auto. Qed.

(** The log after a body that succeeded, or failed before it completed the build:
    events, and the completion with [ctx2]. *)
Definition body_log m (b : Build) (ctx2 : context) (l : list dlcall) (r : res ())
    (w' : W * list dlcall) : Prop :=
  match r with
  | Ok _ => ∃ evs s, Forall is_event evs ∧ completion m b ctx2 l evs s ∧
                     w'.2 = l ++ evs ++ [LSetCompleted ctx2 (b_ID b) s true]
  | Err _ => ∃ evs, w'.2 = l ++ evs ∧
               Forall (λ c, is_event c ∨ ∃ s, succeeded s ∧ c = LSetCompleted ctx2 (b_ID b) s false) evs
  | Panic _ => True
  end.

Lemma body_log_Err mm b ctx2 l e w : body_log mm b ctx2 l (Err e) (w, l).
Proof. exists []. rewrite app_nil_r. split; [done|constructor]. Qed.

Lemma body_log_events mm b ctx2 l e evs (w : W) :
  Forall is_event evs → body_log mm b ctx2 l (Err e) (w, l ++ evs).
Proof. intros Hevs. exists evs. split; [done|]. eapply Forall_impl; [exact Hevs|]. by left. Qed.

Lemma wp_complete mm b ctx2 s msg l evs (w : W) :
  completion mm b ctx2 l evs s → Forall is_event evs →
  wp (wrapf msg (SetBuildAsCompleted (logged dl) ctx2 (b_ID b) s)) (body_log mm b ctx2 l) (w, l ++ evs).
Proof.
  intros Hs Hevs. rewrite wp_wrapf. cbn [SetBuildAsCompleted logged]. rewrite wp_logging.
  unfold wp. destruct (SetBuildAsCompleted dl ctx2 (b_ID b) s w) as [[[]|e|p] w']; simpl; [| |done].
  - exists evs, s. by rewrite <-app_assoc.
  - eexists. rewrite <-app_assoc. split; [done|]. apply Forall_app. split.
    + eapply Forall_impl; [exact Hevs|]. by left.
    + constructor; [|constructor]. right. by eexists; split; [eapply completion_succeeded|].
Qed.

(** The check of the tags, where the request asks for one. *)
Lemma wp_tags (tc : TagChecker (W * list dlcall)) b csha w l
    (Q : res (option (list string)) → W * list dlcall → Prop) :
  TCheck m = Some tc →
  (∀ tags w', tags_checked m b tags l true → Q (Ok (Some tags)) (w', l)) →
  (∀ w', rq_SkipIfExists (b_Request b) = false ∨ (∃ tags, tags_checked m b tags l false) →
     Q (Ok None) (w', l)) →
  (∀ e w', Q (Err e) (w', l)) → (∀ p w', Q (Panic p) (w', l)) →
  wp (if rq_SkipIfExists (b_Request b) then
        bd ← deref (rq_Build (b_Request b));
        let tags := if bd_TagWithCommitSha bd then b_Tags b ++ [csha] else b_Tags b in
        allexist ← all_exist tc tags (b_ImageRepos b);
        mret (if (allexist : bool) then Some tags else None)
      else mret None) Q (w, l).
Proof.
  intros Htc Hyes Hno Herr Hp. destruct (rq_SkipIfExists _) eqn:Hskip; [|by apply Hno; left].
  rewrite wp_bind. destruct (rq_Build (b_Request b)) as [bd|] eqn:Hbd; [|by apply Hp].
  cbn [deref]. rewrite wp_ret. cbn zeta.
  set (tags := if bd_TagWithCommitSha bd then _ else _). rewrite wp_bind.
  apply wp_keeps_log_eq; [by apply keeps_all_exist|].
  intros [found|e|p] w' Hall; [|by apply Herr|by apply Hp]. rewrite wp_ret.
  assert (tags_checked m b tags l found) as Hc.
  { split; [done|]. split; [by exists csha, bd|]. by exists tc, w, w'. }
  destruct found; [by apply Hyes|]. apply Hno. right. by exists tags.
Qed.

Lemma wp_run_body br tc ff ctx2 b w l :
  BRunner m = Some br → TCheck m = Some tc → FetcherFactory m = Some ff →
  wp (run_body os m br tc ff (logged dl) ctx2 b) (body_log m b ctx2 l) (w, l).
Proof.
  intros Hbr Htc Hff. unfold run_body. pose proof (body_log_Err m b ctx2 l) as HE.
  rewrite wp_bind. apply wp_keeps_log; [by apply keeps_on_err|]. intros [tkn|e|p] w1; [|done..].
  rewrite wp_bind. apply wp_keeps_log; [by apply keeps_on_err, (fm_sha _ Hm)|].
  intros [csha|e|p] w2; [|done..].
  rewrite wp_bind. apply wp_tags; [done| | |by intros; apply HE|done].
  - intros tags w3 Htags. rewrite wp_bind, wp_ignore_err. cbn [AddEvent logged]. rewrite wp_logging.
    unfold wp at 1. destruct (AddEvent dl _ _ _ w3) as [r w4].
    destruct r as [[]|?|?]; [..|done]; (apply wp_complete; [left|by repeat constructor]).
    all: split; [done|]; by do 2 eexists.
  - intros w3 Hnone. rewrite wp_bind. apply wp_keeps_log; [by apply keeps_on_err, (fm_tmp _ Hm)|].
    intros [tdir|e|p] w4; [|done..]. rewrite wp_deferring.
    eapply (wp_mono _ (body_log m b ctx2 l)).
    { intros r [w5 l5] Hr. rewrite wp_run. simpl. unfold body_log in *.
      by rewrite (fm_rm _ Hm). }
    rewrite wp_bind. apply wp_keeps_log; [by apply keeps_on_err, (fm_fetch _ Hm)|].
    intros [[]|e|p] w5; [|done..].
    rewrite wp_bind. apply wp_keeps_log; [by apply keeps_on_err, keeps_getContextSubdir|].
    intros [subdir|e|p] w6; [|done..]. cbn zeta.
    rewrite wp_bind, wp_wrapf. apply wp_adds_events_eq; [by apply (fm_br _ Hm)|].
    intros [[]|e|p] w7 evs Hbuilt Hevs; [|by apply body_log_events|done].
    apply wp_complete; [|done]. right. split_and!; [done..|]. by do 4 eexists; split_and!; [..|exact Hbuilt].
Qed.
End run.

Section run_properties.
Context {W : Type} `{SecretBox} (os : OS (W * list dlcall)) (dl : DataLayer W).
Implicit Types (m : Manager (W * list dlcall)).

(** The calls of one Run of the build [id], by how it ended.  Of a Run that returns nil,
    [outcome] relates the calls before the build was completed to the status it got.  On an
    error after the handoff, the status and the event say whether the flag of the
    cancellation was set at that moment; if it was not, the event has the text of the error
    that Run returns. *)
Definition run_log (outcome : context → list dlcall → list dlcall → Z → Prop)
    (id : uuid) (l : list dlcall) (r : res ()) (w' : W * list dlcall) : Prop :=
  match r with
  | Ok _ =>
      ∃ ctx2 pre s post, succeeded s ∧
        outcome ctx2 (l ++ [LSetRunning ctx2 id true]) pre s ∧
        Forall is_event pre ∧ Forall is_event post ∧
        w'.2 = l ++ LSetRunning ctx2 id true :: pre ++ LSetCompleted ctx2 id s true :: post
  | Err err =>
      (∃ lead evs, (lead = [] ∨ ∃ ctx, lead = [LSetRunning ctx id false]) ∧ Forall is_event evs ∧
              w'.2 = l ++ lead ++ evs) ∨
      (∃ ctx2 pre v (cancelled : bool) ok1 ok2 post,
        cancelled = (cancelled_get os (v, l ++ LSetRunning ctx2 id true :: pre)).1 ∧
        Forall (λ c, is_event c ∨ ∃ s, succeeded s ∧ c = LSetCompleted ctx2 id s false) pre ∧
        Forall is_event post ∧
        w'.2 = l ++ LSetRunning ctx2 id true :: pre ++
                 LAddEvent CtxBackground id
                   (if cancelled then "build was cancelled"%string
                    else "error running build: " +:+ error_String err) ok1 ::
                 LSetCompleted CtxBackground id
                   (if cancelled then BuildStatusCancelled else BuildStatusFailure) ok2 :: post)
  | Panic _ => True
  end.

Lemma wp_complete_deferred m b r ctx2 l0 w l out :
  framed_manager os dl m → body_log m b ctx2 (l0 ++ [LSetRunning ctx2 (b_ID b) true]) r (w, l) →
  wp (complete_deferred os (logged dl) (b_ID b) r)
     (λ r2 w2, match r2 with
               | Panic _ => True
               | _ => match r with Ok _ => w2.2 = l | _ => run_log out (b_ID b) l0 r w2 end
               end) (w, l).
Proof.
  intros Hm Hb. destruct r as [[]|err|p]; [done| |done].
  destruct Hb as (evs & Hl & Hevs). simpl in Hl. subst l. set (id := b_ID b) in *.
  unfold complete_deferred. rewrite wp_bind, wp_run.
  set (lw := (l0 ++ [LSetRunning ctx2 id true]) ++ evs) in *.
  pose proof (fm_flag _ _ _ Hm (w, lw)) as Hf.
  assert (∀ c w1 msg s ok1 ok2 (x : W),
    cancelled_get os (w, lw) = (c, w1) →
    msg = (if c then "build was cancelled"%string else "error running build: " +:+ error_String err) →
    s = (if c then BuildStatusCancelled else BuildStatusFailure) →
    run_log out id l0 (Err err) (x, (lw ++
      [LAddEvent CtxBackground id msg ok1]) ++ [LSetCompleted CtxBackground id s ok2])) as Hlog.
  { intros c w1 msg s ok1 ok2 x Hc -> ->. right. exists ctx2, evs, w, c, ok1, ok2, [].
    unfold lw in Hc |- *. rewrite <-app_assoc in Hc.
    split; [change (c = (cancelled_get os (w, l0 ++ [LSetRunning ctx2 id true] ++ evs)).1); by rewrite Hc|]. split_and!; [done..|].
    simpl. by rewrite <-!app_assoc. }
  destruct (cancelled_get os (w, lw)) as [c [w1 l1]]. simpl in Hf |- *. subst l1.
  rewrite wp_bind, wp_ignore_err. cbn [AddEvent logged]. rewrite wp_logging.
  unfold wp at 1. destruct (AddEvent dl _ _ _ w1) as [r1 w2].
  destruct r1 as [[]|?|?]; cbn [fst snd isOk]; [..|done].
  all: rewrite wp_ignore_err; cbn [SetBuildAsCompleted logged]; rewrite wp_logging.
  all: unfold wp; destruct (SetBuildAsCompleted dl _ _ _ w2) as [[[]|?|?] w3]; [..|done].
  all: by eapply Hlog.
Qed.

(** The signal to buildkitd comes last and adds events only. *)
Lemma run_log_events out id l r w l' evs (w' : W) :
  Forall is_event evs → run_log out id l r (w, l') → run_log out id l r (w', l' ++ evs).
Proof.
  intros Hevs. destruct r as [[]|e|p]; simpl; [| |done].
  - intros (ctx2 & pre & s & post & Hs & Ho & Hpre & Hpost & ->).
    exists ctx2, pre, s, (post ++ evs). split_and!; try done; [by apply Forall_app|].
    rewrite <-app_assoc. cbn [app]. by rewrite <-app_assoc.
  - intros [(lead & evs' & Hlead & H1 & ->)|(ctx2 & pre & v & c & ok1 & ok2 & post & Hc & Hpre & Hpost & ->)].
    + left. exists lead, (evs' ++ evs). rewrite <-!app_assoc. split_and!; [done| |done]. by apply Forall_app.
    + right. exists ctx2, pre, v, c, ok1, ok2, (post ++ evs).
      split_and!; try done; [by apply Forall_app|].
      rewrite <-app_assoc. cbn [app]. by rewrite <-app_assoc.
Qed.

Lemma run_log_mono (out out' : context → list dlcall → list dlcall → Z → Prop) id l r w' :
  (∀ ctx2 l evs s, out ctx2 l evs s → out' ctx2 l evs s) → run_log out id l r w' → run_log out' id l r w'.
Proof. intros Ho. destruct r as [[]|e|p]; simpl; naive_solver. Qed.

(** What is behind the status of a build [m] has completed: [stored] is its row. *)
Definition run_outcome m (stored : option Build) (ctx2 : context) (l evs : list dlcall) (s : Z) : Prop :=
  ∃ b, stored = Some (view b) ∧ completion m b ctx2 l evs s.

(** The calls of a Run. *)
Lemma wp_Run m `{!DataLayerSpec dl obs} ctx id w l :
  framed_manager os dl m → map_Forall (λ id b, b_ID b = id) (obs w) →
  wp (Run os m ctx id) (run_log (run_outcome m (obs w !! id)) id l) (w, l).
Proof.
  intros Hm Hids. unfold Run. set (out := run_outcome m (obs w !! id)).
  assert (∀ e v, run_log out id l (Err e) (v, l)) as HE.
  { intros e v. left. exists [], []. rewrite app_nil_r. auto. }
  destruct (BRunner m) as [br|] eqn:Hbr; [|apply HE]. destruct (TCheck m) as [tc|] eqn:Htc; [|apply HE].
  destruct (FetcherFactory m) as [ff|] eqn:Hff; [|apply HE]. rewrite (fm_DL _ _ _ Hm).
  rewrite wp_deferring.
  eapply (wp_mono _ (run_log out id l)).
  { intros r [w1 l1] Hr. apply wp_adds_events; [by apply (adds_kill_deferred os dl m Hm)|].
    intros r2 w2 evs _ Hevs. destruct r2; by eapply (run_log_events _ _ _ _ w1). }
  rewrite wp_bind, wp_wrapf. cbn [GetBuildByID logged]. rewrite wp_on_fst.
  eapply wp_mono; [|apply (spec_Get ctx id w)]. intros r w1 [Hobs Hr].
  destruct r as [b|e|p]; [|apply HE|done].
  assert (b_ID b = id) as Hid by (apply (Hids id (view b)); done).
  case_bool_decide as Hst; [apply HE|]. cbn zeta. rewrite Hid.
  rewrite wp_bind, wp_wrapf. cbn [SetBuildAsRunning logged]. rewrite wp_logging.
  unfold wp at 1. destruct (SetBuildAsRunning dl _ id w1) as [[[]|e|p] w2]; simpl; [| |done].
  - rewrite wp_deferring.
    eapply wp_mono; [|by eapply (wp_run_body os dl m Hm)]. subst id.
    intros r2 [w3 l3] Hb. eapply wp_mono; [|by apply (wp_complete_deferred m b r2 (CtxWithCancel ctx) l w3 l3 out)].
    intros r3 w4 H4. destruct r3; try done; destruct r2 as [[]|?|?]; simpl in *; try done.
    all: destruct Hb as (evs & s & Hevs & Hs & Hl3); simpl in Hl3; rewrite H4, Hl3.
    all: exists (CtxWithCancel ctx), evs, s, []; split_and!; try done; [by eapply completion_succeeded| |by rewrite <-app_assoc].
    all: by exists b.
  - left. eexists _, []. split_and!; [right; by eexists|done|reflexivity].
Qed.

(** Run takes the build over (sets it to running) at most once, and once it has,
    it ends the build exactly as it ended itself: with success or skipped when it
    returns nil, and otherwise, whatever failed and although its context may be
    cancelled, with a final failed or cancelled status written in the background
    context.  Before the handoff it writes no status at all. *)
Theorem Run_completes_what_it_started m `{!DataLayerSpec dl obs} ctx id w l :
  framed_manager os dl m → map_Forall (λ id b, b_ID b = id) (obs w) →
  wp (Run os m ctx id) (run_log (run_outcome m (obs w !! id)) id l) (w, l).
Proof. intros Hm Hids. by eapply wp_Run. Qed.

(** A build is run at most once: Run of a build that is not in status NotStarted (or
    does not exist) fails and writes nothing to it but events. *)
Theorem Run_only_not_started m `{!DataLayerSpec dl obs} ctx id w l :
  framed_manager os dl m →
  (∀ b, obs w !! id = Some b → b_Status b ≠ BuildStatusNotStarted) →
  wp (Run os m ctx id) (λ r w',
    match r with
    | Ok _ => False
    | Err _ => ∃ evs, w'.2 = l ++ evs ∧ Forall is_event evs
    | Panic _ => True
    end) (w, l).
Proof.
  intros Hm Hst. unfold Run.
  assert (∃ evs, (w, l).2 = l ++ evs ∧ Forall is_event evs) as HE
    by (exists []; by rewrite app_nil_r).
  destruct (BRunner m) as [br|] eqn:Hbr; [|exact HE]. destruct (TCheck m) as [tc|] eqn:Htc; [|exact HE].
  destruct (FetcherFactory m) as [ff|] eqn:Hff; [|exact HE]. rewrite (fm_DL _ _ _ Hm).
  rewrite wp_deferring, wp_bind, wp_wrapf. cbn [GetBuildByID logged]. rewrite wp_on_fst.
  eapply wp_mono; [|apply (spec_Get ctx id w)]. intros r w1 [Hobs Hr].
  assert (∀ e : error, wp (kill_deferred os (logged dl) id (Err e : res ())) (λ r2 w2,
            match r2 with
            | Panic _ => True
            | _ => ∃ evs, w2.2 = l ++ evs ∧ Forall is_event evs
            end) (w1, l)) as Hkill.
  { intros e. apply wp_adds_events; [by apply (adds_kill_deferred os dl m Hm)|].
    intros [?|?|?] w2 evs _ Hevs; by eauto. }
  destruct r as [b|e|p]; [|eapply wp_mono; [|apply Hkill]; by intros [?|?|?] ?|done].
  rewrite bool_decide_true by (apply (Hst (view b)); done). rewrite wp_throw.
  eapply wp_mono; [|apply Hkill]. by intros [?|?|?] ?.
Qed.

(** The only thing Start writes to builds is events (so a build that could not be
    started is still in the hands of the server), whatever the job does. *)
Theorem Start_adds_events m ticks ctx opts :
  mDL m = Some (logged dl) →
  (∀ jr b, JRunner m = Some jr → adds_events (jr_Run jr b)) →
  (∀ jr b j, JRunner m = Some jr → returns (jr_Run jr b) j →
     ∀ c w, (job_next j c w).2.2 = w.2) →
  adds_events (Start ticks m ctx opts).
Proof.
  intros Hdl Hjr Hnext. unfold Start. rewrite Hdl.
  destruct (JRunner m) as [jr|] eqn:Ejr; [|by apply adds_keeps].
  apply adds_bind; [apply adds_on_err, adds_keeps, keeps_on_fst|]. intros b.
  apply adds_bind_returned; [by apply adds_on_err, Hjr|]. intros j Hj%returns_on_err.
  specialize (Hnext jr b j eq_refl Hj).
  induction ticks as [|ticks IH]; cbn [start_loop];
    (apply adds_bind; [by apply adds_keeps, keeps_run|]; intros [|el|[err|]|];
     try (by apply adds_keeps);
     apply adds_bind; [apply adds_bind; [apply adds_attempt, adds_AddEvent|by intros; apply adds_keeps]|];
     intros _); [by apply adds_keeps|exact IH].
Qed.
End run_properties.

(** ** Cancellation *)

Module CancellationFacts.
Import Cancellation.

(** What the flag and the final status say. *)
Definition sound (s : state) : Prop :=
  (cxl s = Cancelling ∨ cxl s = Cancelled → requested s = true ∧ ctx2_done s = true) ∧
  (flag s = true → cxl s = Cancelled) ∧
  (bdy s = Ended BuildStatusCancelled → flag s = true ∧ requested s = true) ∧
  (∀ st, bdy s = Ended st → TerminalState st = true).

Lemma sound_step s s' : sound s → step s s' → sound s'.
Proof.
  intros (H1 & H2 & H3 & H4) Hs. destruct Hs; unfold sound in *; simpl in *;
    try (intuition congruence).
  - destruct H as [-> | ->]; split_and!; try tauto; try done; by intros st [= <-].
  - destruct f; split_and!; try tauto; try done; by intros st [= <-].
Qed.

Lemma sound_reachable s : reachable s → sound s.
Proof.
  intros Hr. unfold reachable in Hr. assert (sound init) as H0 by (split_and!; try done; by intros [?|?]).
  induction Hr as [|x y z Hs _ IH]; [done|]. by apply IH, (sound_step x).
Qed.

(** C23: A build is only recorded as cancelled when its cancellation was requested; but a
    build whose cancellation stopped it may be recorded as failed: the goroutine
    cancels the context before it sets the flag that the other reads. *)
Theorem cancelled_status_sound_but_racy :
  (∀ s, reachable s → bdy s = Ended BuildStatusCancelled → requested s = true) ∧
  (∃ s, reachable s ∧ requested s = true ∧ cxl s = Cancelled ∧ flag s = true ∧
        bdy s = Ended BuildStatusFailure).
Proof.
  split.
  - intros s (_ & _ & H & _)%sound_reachable Hb. by apply H.
  - exists (State true Cancelled true true (Ended BuildStatusFailure)). split; [|done].
    eapply rtc_l; [apply step_request|]. eapply rtc_l; [apply step_cf|].
    eapply rtc_l; [apply step_fail|]. eapply rtc_l; [apply step_complete|].
    eapply rtc_l; [apply step_set|]. apply rtc_refl.
Qed.
End CancellationFacts.

(** ** Samples *)

#[local] Existing Instance milli_quantity.

(** A container whose only process is buildkitd, and whose directories hold the one
    subdirectory of an unpacked archive. *)
Definition sample_os : OS (fake_world * list dlcall) := {|
  ps_Processes := mret [(7%nat, "buildkitd"%string)];
  sys_Kill _ := mret ();
  TempDir := mret "/tmp/context"%string;
  RemoveAll _ w := w;
  os_Open _ := mret ();
  Readdir _ := mret ["acme-widget-0123abc"%string];
  cancelled_get w := (false, w);
|}.

Definition sample_builder (r : M (fake_world * list dlcall) ()) : Builder (fake_world * list dlcall) :=
  {| builder_Build _ _ := r |}.

Definition sample_manager (r : M (fake_world * list dlcall) ()) : Manager (fake_world * list dlcall) := {|
  BRunner := Some (sample_builder r);
  JRunner := None;
  TCheck := Some {| AllTagsExist _ _ := mret (false, []) |};
  FetcherFactory := Some sample_fetcher;
  GitHubTokenKey := [];
  mDL := Some (logged Fake.dl);
|}.

Lemma sample_manager_framed r : keeps_log r → framed_manager sample_os Fake.dl (sample_manager r).
Proof.
  intros Hr. constructor; try done; intros * [= <-]; [by apply adds_keeps|done..].
Qed.

(** One build, not started, with a readable credential. *)
Definition waiting_build (status : Z) : Build :=
  match EncryptAndSetGitHubCredential (replicate 24 Ascii.zero) None
          (String.list_ascii_of_string "token") [] Build_zero with
  | Ok b => with_Status status b
  | _ => Build_zero
  end.

Definition fake_world_with (b : Build) : fake_world :=
  set_store (Fake.with_d {[ b_ID b := b ]} (store fake_empty)) fake_empty.

Lemma fake_world_with_ids b : map_Forall (λ id b, b_ID b = id) (fake_obs (fake_world_with b)).
Proof.
  intros id b' Hb. unfold fake_obs, fake_world_with in Hb. simpl in Hb. rewrite lookup_fmap in Hb.
  destruct (decide (b_ID b = id)) as [<-|Hne].
  - rewrite d_with_d, lookup_singleton_eq in Hb. simpl in Hb. by injection Hb as <-.
  - by rewrite d_with_d, lookup_singleton_ne in Hb.
Qed.

(** A build whose BuildKit fails ends as failed, and is started once. *)
Lemma Run_completes_what_it_started_witness :
  let w := fake_world_with (waiting_build BuildStatusNotStarted) in
  let go := Run sample_os (sample_manager (throw (ErrText "no buildkit"))) CtxCaller uuid_Nil (w, []) in
  run_log sample_os (run_outcome (sample_manager (throw (ErrText "no buildkit"))) (fake_obs w !! uuid_Nil))
    uuid_Nil [] go.1 go.2 ∧
  go.2.2 = [LSetRunning (CtxWithCancel CtxCaller) uuid_Nil true;
            LAddEvent CtxBackground uuid_Nil
              "error running build: error executing build: no buildkit" true;
            LSetCompleted CtxBackground uuid_Nil BuildStatusFailure true].
Proof.
  intros w go. split; [|vm_compute; reflexivity].
  apply (Run_completes_what_it_started sample_os Fake.dl (obs := fake_obs)
           (sample_manager (throw (ErrText "no buildkit"))) CtxCaller uuid_Nil w []).
  - by apply sample_manager_framed.
  - apply fake_world_with_ids.
Defined.

Lemma Run_only_not_started_witness :
  let w := fake_world_with (waiting_build BuildStatusCancelRequested) in
  let go := Run sample_os (sample_manager (mret ())) CtxCaller uuid_Nil (w, []) in
  ∃ evs, go.2.2 = [] ++ evs ∧ Forall is_event evs ∧ ∃ e, go.1 = Err e.
Proof.
  intros w go.
  assert (∀ b, fake_obs w !! uuid_Nil = Some b → b_Status b ≠ BuildStatusNotStarted) as Hst.
  { intros b Hb. vm_compute in Hb. injection Hb as <-. vm_compute. discriminate. }
  pose proof (Run_only_not_started sample_os Fake.dl (obs := fake_obs) (sample_manager (mret ()))
    CtxCaller uuid_Nil w [] ltac:(by apply sample_manager_framed) Hst) as Hw.
  assert (∃ e, go.1 = Err e) as [e He] by (eexists; vm_compute; reflexivity).
  unfold wp in Hw. change (Run sample_os (sample_manager (mret ())) CtxCaller uuid_Nil (w, [])) with go in Hw.
  rewrite He in Hw. destruct Hw as (evs & H1 & H2). exists evs. split; [exact H1|].
  split; [exact H2|]. by exists e.
Defined.

Lemma Start_adds_events_witness :
  adds_events (Start 3 {| BRunner := None; TCheck := None; FetcherFactory := None;
                          GitHubTokenKey := []; mDL := Some (logged Fake.dl);
                          JRunner := Some {| jr_Run _ :=
                            mret {| job_next _ w := (JobError (Some (ErrText "job failed")), w) |} |} |}
                 CtxCaller BuildOpts_zero).
Proof.
  apply (Start_adds_events Fake.dl); [reflexivity| |].
  - intros jr b [= <-]. by apply adds_keeps.
  - by intros jr b j [= <-] (? & ? & [= <- _]).
Defined.
