(* ===== verification/Json.v ===== *)
(** * Package encoding/json, as far as the program encodes with it

    A value with its fields in order, its printed form, and the encoding of the
    messages of the API by the tags of their generated structs ([omitempty] on
    every field). *)

From S2P Require Import Prelude GoStrings Models.

#[local] Open Scope Z_scope.

Inductive jvalue :=
  | JNull
  | JBool (b : bool)
  | JNum (z : Z)
  | JStr (s : string)
  | JArr (l : list jvalue)
  | JObj (l : list (string * jvalue)).

(** ** Printing *)

Definition hex4 (z : Z) : string :=
  let d n := nth (Z.to_nat n) (String.list_ascii_of_string "0123456789abcdef") "0"%char in
  "\u" +:+ String.string_of_list_ascii
    [d ((z / 4096) `mod` 16); d ((z / 256) `mod` 16); d ((z / 16) `mod` 16); d (z `mod` 16)].

(** A rune of a string, given with the bytes it was decoded from: [json.Marshal]
    escapes HTML characters and U+2028/U+2029 as well. *)
Definition json_rune (p : Z * list ascii) : string :=
  let '(r, bs) := p in
  if (r =? 34) || (r =? 92) then "\" +:+ String.string_of_list_ascii bs
  else if r =? 10 then "\n"
  else if r =? 13 then "\r"
  else if r =? 9 then "\t"
  else if (r <? 32) || (r =? 60) || (r =? 62) || (r =? 38) then hex4 r
  else if (r =? RuneError) && bool_decide (length bs = 1%nat) then "\ufffd"
  else if (r =? 8232) || (r =? 8233) then hex4 r
  else String.string_of_list_ascii bs.

(** A byte of its own: the quotation mark. *)
Definition quote : string := String (byte_of 34) "".

Definition json_string (s : string) : string :=
  quote +:+ String.concat "" (json_rune <$> decode_runes (String.list_ascii_of_string s)) +:+ quote.

Fixpoint json_print (v : jvalue) : string :=
  match v with
  | JNull => "null"
  | JBool b => if b then "true" else "false"
  | JNum z => fmt_int z
  | JStr s => json_string s
  | JArr l => "[" +:+ String.concat "," (map json_print l) +:+ "]"
  | JObj l => "{" +:+ String.concat ","
                (map (λ p, json_string p.1 +:+ ":" +:+ json_print p.2) l) +:+ "}"
  end.

(** ** Fields with [omitempty] *)

Definition field {A} (name : string) (empty : bool) (f : A → jvalue) (a : A) :
    list (string * jvalue) := if empty then [] else [(name, f a)].

Definition f_string (name s : string) := field name (bool_decide (s = ""%string)) JStr s.
Definition f_bool (name : string) (b : bool) := field name (negb b) JBool b.
Definition f_enum (name : string) (z : Z) := field name (z =? 0) JNum z.
Definition f_ptr {A} (name : string) (f : A → jvalue) (p : option A) : list (string * jvalue) :=
  match p with None => [] | Some a => [(name, f a)] end.
Definition f_slice {A} (name : string) (f : A → jvalue) (l : list A) :=
  field name (bool_decide (length l = 0%nat)) (λ l, JArr (f <$> l)) l.

(** The keys of a map are sorted. *)
Definition key_le (p q : string * string) : Prop := String.leb p.1 q.1 = true.
#[export] Instance key_le_dec : RelDecision key_le.
Proof. unfold key_le. solve_decision. Defined.

Definition f_map (name : string) (m : gmap string string) :=
  field name (bool_decide (size m = 0%nat))
    (λ m, JObj ((λ p, (p.1, JStr p.2)) <$> merge_sort key_le (map_to_list m))) m.

(** ** The messages *)

Definition json_BuildCacheOpts (c : BuildCacheOpts) : jvalue :=
  JObj (f_enum "type" (Type_ c) ++ f_bool "max_mode" (MaxMode c)).

Definition json_BuildResources (r : BuildResources) : jvalue :=
  JObj (f_string "cpu_request" (CpuRequest r) ++ f_string "cpu_limit" (CpuLimit r) ++
        f_string "memory_request" (MemoryRequest r) ++ f_string "memory_limit" (MemoryLimit r)).

Definition json_BuildDefinition (b : BuildDefinition) : jvalue :=
  JObj (f_string "github_repo" (bd_GithubRepo b) ++
        f_string "github_credential" (bd_GithubCredential b) ++
        f_string "dockerfile_path" (bd_DockerfilePath b) ++
        f_string "ref" (bd_Ref b) ++
        f_slice "tags" JStr (bd_Tags b) ++
        f_bool "tag_with_commit_sha" (bd_TagWithCommitSha b) ++
        f_map "args" (bd_Args b) ++
        f_ptr "cache_options" json_BuildCacheOpts (bd_CacheOptions b) ++
        f_ptr "resources" json_BuildResources (bd_Resources b)).

Definition json_PushDefinition (l : list (option string)) : jvalue :=
  JObj (f_slice "registries"
          (λ r, match r with None => JNull | Some repo => JObj (f_string "repo" repo) end) l).

Definition json_BuildRequest (r : BuildRequest) : jvalue :=
  JObj (f_ptr "build" json_BuildDefinition (rq_Build r) ++
        f_ptr "push" json_PushDefinition (rq_Push r) ++
        f_bool "skip_if_exists" (rq_SkipIfExists r)).

(** [json.Marshal] of a request; it cannot fail. *)
Definition Marshal_BuildRequest (r : BuildRequest) : string := json_print (json_BuildRequest r).
