(* ===== verification/FuranJob.v ===== *)
(** * pkg/jobrunner/furanjob.go: the Kubernetes job of a build

    [furanjob] is the template, [FuranJobFunc] fills it in.  The arguments of the
    Furan container are a Go slice, so that what [append] shares is visible. *)

From S2P Require Import Prelude GoStrings GoTime Uuid Models K8s GoSlice Json.

#[local] Open Scope Z_scope.

Definition jobParallelism : Z := 1.
Definition jobCompletions : Z := 1.
Definition jobBackoffLimit : Z := 3.
Definition ttlSecondsAfterFinished : Z := 30.
Definition jobActiveDeadlineSeconds : Z := 30 * 60.
Definition shareProcessNamespace : bool := true.
Definition scPrivileged : bool := true.

Definition bkSocketMountPath : string := "/run/buildkit".
Definition bkSocketName : string := "buildkitd.sock".

(** The default of a variable that [furan server --builder-image] overrides. *)
Definition BuildKitImage : string :=
  "932427637498.dkr.ecr.us-west-2.amazonaws.com/furan2-builder:v0.7.2-rootless".

Definition JobLabel : string := "created-by:furan2".

(** [string(r[0:n-1])]: [n] is a [uint], so that [n-1] wraps around at 0. *)
Definition truncateName (s : string) (n : Z) : res string :=
  let r := runes_of_string s in
  if int64 n <? Z.of_nat (length r) then
    let m := (n - 1) `mod` 2 ^ 64 in
    if Z.of_nat (length r) <? m then Panic "slice bounds out of range"
    else Ok (string_of_runes (take (Z.to_nat m) r))
  else Ok s.

(** [bkimage] is the value of [BuildKitImage]. *)
Section furanjob.
Context `{K8sQuantity} (grow : nat → nat → nat) (bkimage : string).

(** pkg/jobrunner/jobrunner.go: what a server pod knows of itself. *)
Record ImageInfo := {
  Namespace : string;
  PodName : string;
  Image : string;
  ServiceAccount : string;
  ii_ImagePullSecrets : list string;
  RootArgs : slice;
  Resources : ResourceList * ResourceList;
  EnvVars : list EnvVar;
}.

(** [resource.MustParse] panics at a quantity that does not parse. *)
Definition MustParse (s : string) : res Quantity :=
  match ParseQuantity s with
  | Ok q => Ok q
  | Err e => Panic ("cannot parse '" +:+ s +:+ "': " +:+ error_String e)
  | Panic p => Panic p
  end.

(** The arguments of the two containers in the template. *)
Definition furan_args : list string :=
  ["runbuild"%string; "--buildkit-addr"%string;
   "unix://" +:+ bkSocketMountPath +:+ "/" +:+ bkSocketName].

Definition furan_container (args : slice) : Container slice := {|
  c_Name := "furan"; c_Image := ""; c_ImagePullPolicy := "IfNotPresent";
  c_Command := ["/usr/local/bin/furan"%string]; c_Args := args;
  c_EnvFrom := ["default-build-args"%string]; c_Env := [];
  c_VolumeMounts := [("bksocket"%string, bkSocketMountPath)]; c_Privileged := None;
  c_Requests := Some ∅; c_Limits := Some ∅;
|}.

Definition buildkitd_container (args : slice) (cpu2 cpu3 mem24 : Quantity) : Container slice := {|
  c_Name := "buildkitd"; c_Image := bkimage; c_ImagePullPolicy := "IfNotPresent";
  c_Command := []; c_Args := args; c_EnvFrom := []; c_Env := [];
  c_VolumeMounts := [("bksocket"%string, bkSocketMountPath)]; c_Privileged := Some scPrivileged;
  c_Requests := Some (<[ResourceCPU := cpu2]> {[ResourceMemory := mem24]});
  c_Limits := Some (<[ResourceCPU := cpu3]> {[ResourceMemory := mem24]});
|}.

Definition furanjob (h : goheap) : res (K8sJob slice) * goheap :=
  let '(fargs, h) := salloc furan_args h in
  let '(bargs, h) := salloc ["--addr"%string;
                             "unix://" +:+ bkSocketMountPath +:+ "/" +:+ bkSocketName] h in
  match MustParse "2", MustParse "24G", MustParse "3" with
  | Ok cpu2, Ok mem24, Ok cpu3 =>
      (Ok {|
        job_Name := ""; job_Namespace := ""; job_Labels := ∅; job_Annotations := ∅;
        Parallelism := jobParallelism; Completions := jobCompletions;
        ActiveDeadlineSeconds := jobActiveDeadlineSeconds; BackoffLimit := Some jobBackoffLimit;
        TTLSecondsAfterFinished := ttlSecondsAfterFinished; job_Selector := None;
        template_Annotations := list_to_map
          [("container.apparmor.security.beta.kubernetes.io/buildkitd", "unconfined");
           ("container.seccomp.security.alpha.kubernetes.io/buildkitd", "unconfined");
           ("cluster-autoscaler.kubernetes.io/safe-to-evict", "true")]%string;
        template_Spec := {|
          ShareProcessNamespace := shareProcessNamespace; RestartPolicy := "Never";
          NodeSelector := {[ "role" := "furan-node" ]}%string;
          Tolerations := [("role", "Equal", "furan-node", "NoSchedule")]%string;
          Containers := [furan_container fargs; buildkitd_container bargs cpu2 cpu3 mem24];
          Volumes := [("bksocket", "emptyDir:Memory"); ("default-build-args", "secret")]%string;
          ServiceAccountName := ""; ImagePullSecrets := [] |};
        job_CreationTimestamp := time_zero; job_Succeeded := 0; job_Conditions := [];
      |}, h)
  | Panic p, _, _ | _, Panic p, _ | _, _, Panic p => (Panic p, h)
  | _, _, _ => (Panic "unreachable", h)
  end.

(** The name of the job of a build, before it is truncated. *)
Definition full_job_name (b : Build) : string :=
  "furan-build-" +:+ ReplaceAll (b_GitHubRepo b) "/" "-" +:+ "-" +:+ uuid_String (b_ID b).

Definition job_name (b : Build) : res string := truncateName (full_job_name b) 63.

(** The Furan container, filled in. *)
Definition fill_furan (info : ImageInfo) (args : slice) (c : Container slice) : Container slice := {|
  c_Name := c_Name c; c_Image := Image info; c_ImagePullPolicy := c_ImagePullPolicy c;
  c_Command := c_Command c; c_Args := args; c_EnvFrom := c_EnvFrom c;
  c_Env := c_Env c ++ EnvVars info; c_VolumeMounts := c_VolumeMounts c;
  c_Privileged := c_Privileged c;
  c_Requests := (Resources info).1; c_Limits := (Resources info).2;
|}.

(** The BuildKit container: requests and limits are replaced separately. *)
Definition fill_buildkitd (bk : ResourceList * ResourceList) (c : Container slice) :
    Container slice := {|
  c_Name := c_Name c; c_Image := c_Image c; c_ImagePullPolicy := c_ImagePullPolicy c;
  c_Command := c_Command c; c_Args := c_Args c; c_EnvFrom := c_EnvFrom c; c_Env := c_Env c;
  c_VolumeMounts := c_VolumeMounts c; c_Privileged := c_Privileged c;
  c_Requests := match bk.1 with Some _ => bk.1 | None => c_Requests c end;
  c_Limits := match bk.2 with Some _ => bk.2 | None => c_Limits c end;
|}.

Definition job_annotations (b : Build) : gmap string string :=
  list_to_map [("build-request"%string, Marshal_BuildRequest (b_Request b));
               ("source-repo"%string, b_GitHubRepo b); ("source-ref"%string, b_GitHubRef b);
               ("dest-repo"%string, fmt_strings (b_ImageRepos b));
               ("image-tags"%string, Join (b_Tags b) ",")].

Definition FuranJobFunc (info : ImageInfo) (b : Build) (bk : ResourceList * ResourceList)
    (h : goheap) : res (K8sJob slice) * goheap :=
  match furanjob h with
  | (Ok j, h) =>
      match job_name b, Split JobLabel ":" with
      | Ok name, [lk; lv] =>
          match Containers (template_Spec j) with
          | [c0; c1] =>
              let '(args, h) := sappend grow (c_Args c0) ["--build-id"%string; uuid_String (b_ID b)] h in
              let '(args, h) := sappend grow (RootArgs info) (sread h args) h in
              let spec := template_Spec j in
              (Ok {|
                job_Name := name; job_Namespace := Namespace info;
                (* an entry of a literal overrides an earlier one *)
                job_Labels := <[lk := lv]> {["build-id"%string := uuid_String (b_ID b)]};
                job_Annotations := job_annotations b;
                Parallelism := Parallelism j; Completions := Completions j;
                ActiveDeadlineSeconds := ActiveDeadlineSeconds j; BackoffLimit := BackoffLimit j;
                TTLSecondsAfterFinished := TTLSecondsAfterFinished j; job_Selector := job_Selector j;
                template_Annotations := template_Annotations j;
                template_Spec := {|
                  ShareProcessNamespace := ShareProcessNamespace spec;
                  RestartPolicy := RestartPolicy spec; NodeSelector := NodeSelector spec;
                  Tolerations := Tolerations spec;
                  Containers := [fill_furan info args c0; fill_buildkitd bk c1];
                  Volumes := Volumes spec; ServiceAccountName := ServiceAccount info;
                  ImagePullSecrets := ImagePullSecrets spec ++ ii_ImagePullSecrets info |};
                job_CreationTimestamp := job_CreationTimestamp j; job_Succeeded := job_Succeeded j;
                job_Conditions := job_Conditions j;
              |}, h)
          | _ => (Panic "index out of range", h)
          end
      | Panic p, _ => (Panic p, h)
      | _, _ => (Panic ("invalid job label (<name>:<value> is required): " +:+ JobLabel), h)
      end
  | r => r
  end.

(** The arguments of the Furan container of a job, as they are now in the heap. *)
Definition furan_args_of (h : goheap) (j : K8sJob slice) : option (list string) :=
  match Containers (template_Spec j) with
  | c0 :: _ => Some (sread h (c_Args c0))
  | [] => None
  end.
End furanjob.
