(* ===== verification/FuranJobFacts.v ===== *)
(** * The job of a build: its theorems

    The name of the job and what truncating it loses; the arguments of the Furan
    container, and what two jobs share when the root arguments have room behind
    them. *)

From S2P Require Import Prelude GoStrings Utf8 GoTime Uuid Models K8s GoSlice Json FuranJob.

#[local] Open Scope Z_scope.

(** ** Names *)

Lemma truncateName_cases s n : 1 ≤ n < 2 ^ 63 →
  truncateName s n =
    Ok (if decide (Z.of_nat (length (runes_of_string s)) ≤ n) then s
        else string_of_runes (take (Z.to_nat (n - 1)) (runes_of_string s))).
Proof.
  intros Hn. unfold truncateName. rewrite int64_id by (unfold in_int64; lia).
  rewrite Z.mod_small by lia. case_decide as Hd.
  - rewrite (proj2 (Z.ltb_ge _ _)) by done. done.
  - rewrite (proj2 (Z.ltb_lt _ _)) by lia. by rewrite (proj2 (Z.ltb_ge _ _)) by lia.
Qed.

(** TruncateName never returns more than n runes, leaves a string that fits alone,
    and keeps the first n-1 runes (not n, as its comment says) of one that does not. *)
Theorem truncateName_spec s n : 1 ≤ n < 2 ^ 63 →
  ∃ t, truncateName s n = Ok t ∧ Z.of_nat (length (runes_of_string t)) ≤ n ∧
       (Z.of_nat (length (runes_of_string s)) ≤ n → t = s) ∧
       (n < Z.of_nat (length (runes_of_string s)) →
          runes_of_string t = take (Z.to_nat (n - 1)) (runes_of_string s) ∧
          Z.of_nat (length (runes_of_string t)) = n - 1).
Proof.
  intros Hn. rewrite truncateName_cases by done. eexists. split; [done|]. case_decide as Hd.
  - split; [done|]. split; [done|lia].
  - rewrite runes_string_of_runes
      by (apply Forall_take, runes_of_string_valid). rewrite length_take.
    split; [lia|]. split; [lia|]. intros _. split; [done|lia].
Qed.

Lemma ascii_uuid u : ascii_string (uuid_String u).
Proof.
  unfold uuid_String.
  assert (∀ l, ascii_string (hex_encode l)) as Hh.
  { assert (∀ n, ascii_byte (hex_digit n)) as Hd.
    { intros n. destruct n as [|p]; [reflexivity|].
      do 4 (destruct p as [p|p|]; try reflexivity). }
    induction l as [|a l IH]; cbn -[hex_digit]; [constructor|].
    by constructor; [apply Hd|constructor; [apply Hd|]]. }
  repeat (apply ascii_string_app; split); try apply Hh; repeat constructor.
Qed.

Lemma ReplaceAll_head s c d : ReplaceAll s c (String d "") = "" → s = "".
Proof. destruct s; simpl; [done|]. by case_decide. Qed.

(** The runes of the name: prefix, repository, id. *)
Lemma full_job_name_runes b :
  runes_of_string (full_job_name b) =
  (byte_val <$> String.list_ascii_of_string "furan-build-") ++
  runes_of_string (ReplaceAll (b_GitHubRepo b) "/" "-") ++
  (byte_val <$> String.list_ascii_of_string ("-" +:+ uuid_String (b_ID b))).
Proof.
  unfold full_job_name. assert (ascii_string ("-" +:+ uuid_String (b_ID b))) as Hu
    by (apply ascii_string_app; split; [repeat constructor|apply ascii_uuid]).
  assert (ascii_string "furan-build-") as Hp by (repeat constructor).
  rewrite runes_ascii_app, runes_app by done.
  by rewrite (runes_ascii "furan-build-"), (runes_ascii ("-" +:+ _)) by done.
Qed.

(** How many runes of the name the repository takes. *)
Definition repo_runes (repo : string) : nat :=
  length (runes_of_string (ReplaceAll repo "/" "-")).

Definition id_part (u : uuid) : list Z := byte_val <$> String.list_ascii_of_string ("-" +:+ uuid_String u).

Lemma length_id_part u : length (id_part u) = 37%nat.
Proof.
  unfold id_part. rewrite length_fmap.
  assert (∀ s, length (String.list_ascii_of_string s) = String.length s) as ->
    by (induction s; simpl; congruence).
  rewrite str_app_length, uuid_String_length. done.
Qed.

Lemma job_name_cases b :
  job_name b = Ok (if decide (repo_runes (b_GitHubRepo b) ≤ 14)%nat then full_job_name b
                   else string_of_runes
                     (take 62 ((byte_val <$> String.list_ascii_of_string "furan-build-") ++
                        runes_of_string (ReplaceAll (b_GitHubRepo b) "/" "-") ++ id_part (b_ID b)))).
Proof.
  unfold job_name. rewrite truncateName_cases by lia. rewrite full_job_name_runes.
  fold (id_part (b_ID b)). rewrite !length_app, length_id_part.
  fold (repo_runes (b_GitHubRepo b)).
  change (length (byte_val <$> String.list_ascii_of_string "furan-build-")) with 12%nat.
  change (Z.to_nat (63 - 1)) with 62%nat. do 2 case_decide; try done; lia.
Qed.

(** Names that are cut keep [50 - k] characters of the id and its dash. *)
Lemma job_name_cut b1 b2 : b_GitHubRepo b1 = b_GitHubRepo b2 →
  (14 < repo_runes (b_GitHubRepo b1))%nat →
  take (50 - repo_runes (b_GitHubRepo b1)) (id_part (b_ID b1)) =
  take (50 - repo_runes (b_GitHubRepo b1)) (id_part (b_ID b2)) →
  job_name b1 = job_name b2.
Proof.
  intros Hr Hk Ht. rewrite !job_name_cases, <-Hr. rewrite !decide_False by lia. do 2 f_equal.
  unfold repo_runes in *.
  rewrite !take_app. change (length (byte_val <$> String.list_ascii_of_string "furan-build-")) with 12%nat.
  replace (62 - 12 - length (runes_of_string (ReplaceAll (b_GitHubRepo b1) "/" "-")))%nat
    with (50 - length (runes_of_string (ReplaceAll (b_GitHubRepo b1) "/" "-")))%nat by lia.
  by rewrite Ht.
Qed.

Definition uuid_one : uuid := Uuid (replicate 15 Ascii.zero ++ [Ascii.one]) I.

Lemma take_id_part_35 m : (m ≤ 35)%nat → take m (id_part uuid_Nil) = take m (id_part uuid_one).
Proof.
  intros Hm. replace m with (m `min` 35)%nat by lia. rewrite <-!take_take. f_equal.
Qed.

Lemma id_part_dash u : take 1 (id_part u) = [45].
Proof. done. Qed.

Definition build_of (repo : string) (id : uuid) : Build :=
  {| b_ID := id; b_Created := time_zero; b_Updated := time_zero; b_Completed := time_zero;
     b_GitHubRepo := repo; b_GitHubRef := ""; b_EncryptedGitHubCredential := [];
     b_ImageRepos := []; b_Tags := []; b_CommitSHATag := false;
     b_BuildOptions := BuildOpts_zero; b_Request := BuildRequest_zero;
     b_Status := BuildStatusUnknown; b_Events := [] |}.

(** C29: The name of a job has at most 63 runes, but it only tells the builds of a
    repository apart when the repository's name has at most 14: beyond that the id is
    cut, and from 49 runes on all builds of the repository have one job name. *)
Theorem job_name_unique_iff repo :
  (∀ b, ∃ name, job_name b = Ok name ∧ (length (runes_of_string name) ≤ 63)%nat) ∧
  ((∀ b1 b2, b_GitHubRepo b1 = repo → b_GitHubRepo b2 = repo →
      job_name b1 = job_name b2 → b_ID b1 = b_ID b2) ↔ (repo_runes repo ≤ 14)%nat) ∧
  ((49 ≤ repo_runes repo)%nat → ∀ b1 b2, b_GitHubRepo b1 = repo → b_GitHubRepo b2 = repo →
      job_name b1 = job_name b2).
Proof.
  split_and!.
  - intros b. rewrite job_name_cases. eexists. split; [done|]. case_decide.
    + rewrite full_job_name_runes. fold (id_part (b_ID b)). rewrite !length_app, length_id_part.
      fold (repo_runes (b_GitHubRepo b)). rewrite length_fmap. simpl. lia.
    + rewrite runes_string_of_runes; [rewrite length_take; lia|]. apply Forall_take.
      apply Forall_app_2; [by repeat (constructor; [by left|])|].
      apply Forall_app_2; [apply runes_of_string_valid|].
      unfold id_part. rewrite <-runes_ascii; [apply runes_of_string_valid|].
      apply ascii_string_app. split; [repeat constructor|apply ascii_uuid].
  - split.
    + intros Huniq. apply Nat.nlt_ge. intros Hk.
      assert (uuid_Nil = uuid_one) as Heq; [|by apply (f_equal uuid_bytes) in Heq].
      apply (Huniq (build_of repo uuid_Nil) (build_of repo uuid_one)); [done..|].
      apply job_name_cut; [done..|]. apply take_id_part_35. simpl. lia.
    + intros Hk b1 b2 H1 H2. rewrite !job_name_cases, H1, H2, !decide_True by done.
      intros [= Hn]. unfold full_job_name in Hn. rewrite H1, H2 in Hn.
      by apply str_app_inj_l, str_app_inj_l, str_app_inj_l, uuid_String_inj in Hn.
  - intros Hk b1 b2 <- H2. apply job_name_cut; [done|lia|].
    replace (50 - repo_runes (b_GitHubRepo b1))%nat
      with ((50 - repo_runes (b_GitHubRepo b1)) `min` 1)%nat by lia.
    by rewrite <-!take_take, !id_part_dash.
Qed.

(** ** Arguments *)

Section args.
Context `{K8sQuantity} (grow : nat → nat → nat) (bkimage : string).
Implicit Types (info : ImageInfo) (s : slice).

(** The quantities of the template are quantities. *)
Definition template_parses : Prop :=
  ∃ cpu2 mem24 cpu3,
    ParseQuantity "2" = Ok cpu2 ∧ ParseQuantity "24G" = Ok mem24 ∧ ParseQuantity "3" = Ok cpu3.

(** Slices of [h] hold in [h'] what they held. *)
Definition preserves (h h' : goheap) : Prop :=
  ∀ s, slice_wf h s → slice_wf h' s ∧ sread h' s = sread h s.

Lemma preserves_trans h1 h2 h3 : preserves h1 h2 → preserves h2 h3 → preserves h1 h3.
Proof. intros H1 H2 s Hs. apply H1 in Hs as [Hs <-]. by apply H2. Qed.

Lemma preserves_salloc l h : preserves h (salloc l h).2.
Proof. intros s Hs. split; [by apply salloc_wf_old|by apply sread_salloc_old]. Qed.

Lemma preserves_sappend s l h : slice_wf h s → (s_cap s < s_len s + length l)%nat →
  preserves h (sappend grow s l h).2.
Proof.
  intros Hs Hc s' Hs'. split; [by apply sappend_wf_old|].
  apply sread_sappend_old; [done|done|by right; left].
Qed.

Definition id_args (b : Build) : list string := furan_args ++ ["--build-id"%string; uuid_String (b_ID b)].

(** What FuranJobFunc does to the heap: it allocates, then appends to the root
    arguments. *)
Lemma FuranJobFunc_heap info b bk h : template_parses →
  ∃ j h', preserves h h' ∧
    FuranJobFunc grow bkimage info b bk h = (Ok j, (sappend grow (RootArgs info) (id_args b) h').2) ∧
    furan_args_of (sappend grow (RootArgs info) (id_args b) h').2 j =
      Some (sread (sappend grow (RootArgs info) (id_args b) h').2
              (sappend grow (RootArgs info) (id_args b) h').1) ∧
    (∀ h2, furan_args_of h2 j = Some (sread h2 (sappend grow (RootArgs info) (id_args b) h').1)).
Proof.
  intros (cpu2 & mem24 & cpu3 & H2 & H24 & H3). unfold FuranJobFunc, furanjob, MustParse.
  destruct (salloc furan_args h) as [fargs h1] eqn:E1.
  destruct (salloc _ h1) as [bargs h2] eqn:E2. rewrite H2, H24, H3. cbn [Containers template_Spec].
  destruct (job_name b) as [name|e|p] eqn:En; [|by rewrite job_name_cases in En..].
  change (Split JobLabel ":") with ["created-by"%string; "furan2"%string]. cbv iota zeta beta.
  cbn [c_Args furan_container].
  assert (slice_wf h1 fargs) as Hf1 by (by pose proof (salloc_wf furan_args h) as Hw; rewrite E1 in Hw).
  assert (sread h1 fargs = furan_args) as Hr1
    by (by pose proof (sread_salloc furan_args h) as Hw; rewrite E1 in Hw).
  pose proof (preserves_salloc furan_args h) as Hp1. rewrite E1 in Hp1.
  pose proof (preserves_salloc ["--addr"%string; "unix://" +:+ bkSocketMountPath +:+ "/" +:+ bkSocketName] h1) as Hp2.
  rewrite E2 in Hp2. simpl in Hp1, Hp2. destruct (Hp2 _ Hf1) as [Hf2 Hr2].
  assert (s_len fargs = 3 ∧ s_cap fargs = 3)%nat as [Hl Hc] by (unfold salloc in E1; by simplify_eq).
  pose proof (sread_sappend grow fargs ["--build-id"%string; uuid_String (b_ID b)] h2 Hf2) as Hr3.
  pose proof (preserves_sappend fargs ["--build-id"%string; uuid_String (b_ID b)] h2 Hf2
                ltac:(rewrite Hl, Hc; simpl; lia)) as Hp3.
  destruct (sappend grow fargs _ h2) as [args h3] eqn:E3. simpl in Hr3, Hp3.
  assert (sread h3 args = id_args b) as ->. { by rewrite Hr3, Hr2, Hr1. }
  destruct (sappend grow (RootArgs info) (id_args b) h3) as [fin h4] eqn:E4.
  eexists _, h3. rewrite E4. split; [|split; [reflexivity|by split]].
  exact (preserves_trans _ _ _ Hp1 (preserves_trans _ _ _ Hp2 Hp3)).
Qed.

(** The Furan container gets the root arguments of the server, then runbuild with the
    id of the build; but the arguments of two jobs share the array of the root
    arguments when it has room for five more: the second job then overwrites the
    build id of the first, and otherwise leaves it alone. *)
Theorem FuranJobFunc_args info b1 b2 bk1 bk2 h :
  template_parses → slice_wf h (RootArgs info) →
  ∃ j1 h1 j2 h2,
    FuranJobFunc grow bkimage info b1 bk1 h = (Ok j1, h1) ∧ FuranJobFunc grow bkimage info b2 bk2 h1 = (Ok j2, h2) ∧
    furan_args_of h1 j1 = Some (sread h (RootArgs info) ++ id_args b1) ∧
    furan_args_of h2 j2 = Some (sread h (RootArgs info) ++ id_args b2) ∧
    furan_args_of h2 j1 = Some (sread h (RootArgs info) ++
      id_args (if decide (s_len (RootArgs info) + 5 ≤ s_cap (RootArgs info))%nat then b2 else b1)).
Proof.
  intros Ht Hwf. set (r := RootArgs info) in *.
  destruct (FuranJobFunc_heap info b1 bk1 h Ht) as (j1 & h0 & Hp & Hj1 & Ha1 & Hs1). fold r in Hj1, Ha1, Hs1.
  destruct (Hp _ Hwf) as [Hwf0 Hr0].
  pose proof (sread_sappend grow r (id_args b1) h0 Hwf0) as Hread1.
  pose proof (sappend_wf grow r (id_args b1) h0 Hwf0) as Hwf1.
  pose proof (sappend_wf_old grow r (id_args b1) h0 r Hwf0 Hwf0) as Hwfr1.
  pose proof (sread_sappend_old grow r (id_args b1) h0 r Hwf0 Hwf0 ltac:(by right; right)) as Hrr1.
  set (h1 := (sappend grow r (id_args b1) h0).2) in *.
  destruct (FuranJobFunc_heap info b2 bk2 h1 Ht) as (j2 & h0' & Hp' & Hj2 & Ha2 & _). fold r in Hj2, Ha2.
  destruct (Hp' _ Hwfr1) as [Hwfr2 Hrr2]. destruct (Hp' _ Hwf1) as [Hwf2 Hread2].
  pose proof (sread_sappend grow r (id_args b2) h0' Hwfr2) as Hread3.
  exists j1, h1, j2, (sappend grow r (id_args b2) h0').2.
  split; [done|]. split; [done|]. rewrite Ha1, Ha2, Hs1, Hread1, Hread3, Hrr2, Hrr1, Hr0.
  split; [done|]. split; [done|]. f_equal. case_decide as Hd.
  - assert ((sappend grow r (id_args b1) h0).1 = (sappend grow r (id_args b2) h0').1) as ->.
    { unfold sappend. simpl. by rewrite !decide_True. }
    by rewrite Hread3, Hrr2, Hrr1, Hr0.
  - rewrite sread_sappend_old; [by rewrite Hread2, Hread1, Hr0|done|done|].
    right. left. simpl. lia.
Qed.

(** What a job is filled in with besides: the Furan container gets the resources of the
    server's, the BuildKit container those of the build, and for requests or limits of which
    the build names none those of the template. *)
Lemma FuranJobFunc_resources info b bk h cpu2 mem24 cpu3 :
  ParseQuantity "2" = Ok cpu2 → ParseQuantity "24G" = Ok mem24 → ParseQuantity "3" = Ok cpu3 →
  ∃ j h' c0 c1, FuranJobFunc grow bkimage info b bk h = (Ok j, h') ∧
    Containers (template_Spec j) = [c0; c1] ∧ c_Name c0 = "furan"%string ∧ c_Name c1 = "buildkitd"%string ∧
    (c_Requests c0, c_Limits c0) = Resources info ∧
    c_Requests c1 = Some (default (<[ResourceCPU := cpu2]> {[ResourceMemory := mem24]}) bk.1) ∧
    c_Limits c1 = Some (default (<[ResourceCPU := cpu3]> {[ResourceMemory := mem24]}) bk.2).
Proof.
  intros H2 H24 H3.
  unfold FuranJobFunc, furanjob, MustParse.
  destruct (salloc furan_args h) as [fargs h1]. destruct (salloc _ h1) as [bargs h2].
  rewrite H2, H24, H3. cbn [Containers template_Spec].
  destruct (job_name b) as [name|e|p] eqn:En; [|by rewrite job_name_cases in En..].
  change (Split JobLabel ":") with ["created-by"%string; "furan2"%string]. cbv iota zeta beta.
  cbn [c_Args furan_container].
  destruct (sappend grow fargs _ h2) as [args h3]. destruct (sappend grow (RootArgs info) _ h3) as [args' h4].
  do 4 eexists. split; [reflexivity|]. cbn. split; [done|].
  split_and!; [done|done|symmetry; apply surjective_pairing|by destruct bk as [[?|] ?]|by destruct bk as [? [?|]]].
Qed.
End args.

(** ** Witnesses *)

Lemma truncateName_spec_witness :
  ∃ t, truncateName "abcd" 3 = Ok t ∧ t = "ab"%string ∧ Z.of_nat (length (runes_of_string t)) ≤ 3.
Proof.
  destruct (truncateName_spec "abcd" 3 ltac:(lia)) as (t & Ht & Hle & _).
  exists t. split; [exact Ht|]. split; [|exact Hle]. vm_compute in Ht. by injection Ht.
Defined.

#[local] Existing Instance milli_quantity.

Definition sample_info (cap : nat) : ImageInfo := {|
  Namespace := "default"; PodName := "furan-0"; Image := "furan:v2"; ServiceAccount := "furan";
  ii_ImagePullSecrets := []; RootArgs := Slice 0 1 cap; Resources := (None, None); EnvVars := [];
|}.

(** Room for seven more arguments: the first job runs the second build. *)
Lemma FuranJobFunc_args_witness :
  ∃ j1 h1 j2 h2, FuranJobFunc (λ c _, 2 * c)%nat BuildKitImage (sample_info 8) (build_of "a/b" uuid_Nil) (None, None)
      {[0%nat := "--vault"%string :: replicate 7 ""%string]} = (Ok j1, h1) ∧
    FuranJobFunc (λ c _, 2 * c)%nat BuildKitImage (sample_info 8) (build_of "a/b" uuid_one) (None, None) h1 = (Ok j2, h2) ∧
    furan_args_of h2 j1 = furan_args_of h2 j2.
Proof.
  destruct (FuranJobFunc_args (λ c _, 2 * c)%nat BuildKitImage (sample_info 8) (build_of "a/b" uuid_Nil)
    (build_of "a/b" uuid_one) (None, None) (None, None)
    {[0%nat := "--vault"%string :: replicate 7 ""%string]}) as (j1 & h1 & j2 & h2 & H1 & H2 & _ & H4 & H5).
  - do 3 eexists. split; [reflexivity|]. split; reflexivity.
  - split; [simpl; lia|]. by eexists.
  - exists j1, h1, j2, h2. split; [exact H1|]. split; [exact H2|]. rewrite H4. exact H5.
Defined.
