(* ===== verification/JobRunner.v ===== *)
(** * pkg/jobrunner/jobrunner.go: running builds as Kubernetes jobs

    What the runner learns of its own pod, the job it creates for a build, the
    cleanup of old jobs and the logs of a job.  The goroutine that watches a job is
    the step relation of [JobWatcher]. *)

From S2P Require Import Prelude GoStrings GoTime Uuid Models Datalayer K8s GoSlice FuranJob.

#[local] Open Scope Z_scope.

(** The worlds with a heap of slices. *)
Class GoHeap (W : Type) := { heap_of : W → goheap; with_heap : goheap → W → W }.

Section jobrunner.
Context `{K8sQuantity} (grow : nat → nat → nat).

(** [kubernetes.Interface], as far as it is used. *)
Record K8sClient (W Watch : Type) := {
  pods_Get : string → string → M W Pod;
  pods_List : string → string → M W (option (list Pod));
  (* namespace, pod, container, lines: no request, or opening the stream and reading it *)
  pods_GetLogs : string → string → string → Z → option (M W (M W (list ascii)));
  jobs_Create : string → K8sJob (list string) → M W (K8sJob (list string));
  jobs_List : string → string → M W (list (K8sJob (list string)));
  jobs_Delete : string → string → M W ();
  jobs_Watch : string → string → M W Watch;
}.

(** The environment of the process, its clock and its random numbers. *)
Record Process (W : Type) := {
  LookupEnv : string → W → option string * W;
  ReadFile : string → M W string;
  p_Now : W → time * W;
  rand_Intn : Z → W → Z * W;
  Sleep : Z → W → W;
  range_map : gmap string string → W → list (string * string) * W;  (* the order of a range *)
}.

Definition JobFactoryFunc : Type :=
  ImageInfo → Build → ResourceList * ResourceList → goheap → res (K8sJob slice) * goheap.

Context {W Watch : Type} `{GoHeap W} (p : Process W).
Implicit Types client : K8sClient W Watch.

Record K8sJobRunner := {
  kr_client : option (K8sClient W Watch);
  kr_dl : option (DataLayer W);
  imageInfo : ImageInfo;
  JobFunc : option JobFactoryFunc;
  kr_LogFunc : option (string → W → W);
}.

Definition kr_log (kr : K8sJobRunner) (msg : string) : M W () :=
  run (λ w, ((), match kr_LogFunc kr with Some f => f msg w | None => w end)).

(** ** This pod *)

Definition defaultNS : string := "default".

Definition namespace : M W string :=
  ns ← run (LookupEnv W p "POD_NAMESPACE");
  match ns with
  | Some ns => mret ns
  | None =>
      data ← attempt (ReadFile W p "/var/run/secrets/kubernetes.io/serviceaccount/namespace");
      match data with
      | Ok data =>
          let ns := TrimSpace data in
          if bool_decide (ns = ""%string) then mret defaultNS else mret ns
      | _ => mret defaultNS
      end
  end.

(** [for i, c := range containers { if c.Name == "furan" { image = c.Image; idx = i } }]. *)
Fixpoint find_furan (cs : list (Container (list string))) (i : nat) (acc : string * nat) :
    string * nat :=
  match cs with
  | [] => acc
  | c :: cs' =>
      find_furan cs' (S i) (if bool_decide (c_Name c = "furan"%string) then (c_Image c, i) else acc)
  end.

(** The arguments before "server". *)
Fixpoint root_args (args : list string) (s : slice) (h : goheap) : slice * goheap :=
  match args with
  | [] => (s, h)
  | a :: args' =>
      if bool_decide (a = "server"%string) then (s, h)
      else let '(s, h) := sappend grow s [a] h in root_args args' s h
  end.

Definition secret_envs (env : list EnvVar) : list EnvVar :=
  filter (λ ev, env_ValueFrom ev = true ∧ is_Some (env_SecretKeyRef ev)) env.

Definition image client : M W ImageInfo :=
  ns ← namespace;
  podn ← run (LookupEnv W p "POD_NAME");
  match podn with
  | None => throw (ErrText "POD_NAME not found")
  | Some podn =>
      pod ← wrapf "error getting pod" (pods_Get W Watch client ns podn);
      let spec := pod_Spec pod in
      let '(img, furancidx) := find_furan (Containers spec) 0 (""%string, 0%nat) in
      if bool_decide (img = ""%string)
      then throw (ErrText "furan container not found in pod")
      else
        match Containers spec !! furancidx with
        | None => panic "index out of range"
        | Some c =>
            rargs ← run (λ w, let '(s, h) := salloc [] (heap_of w) in
                              let '(s, h) := root_args (c_Args c) s h in (s, with_heap h w));
            if bool_decide (s_len rargs = length (c_Args c))
            then throw (ErrText ("server command not found in furan args: " +:+ fmt_strings (c_Args c)))
            else mret {|
              Namespace := ns; PodName := podn; Image := img;
              ServiceAccount := ServiceAccountName spec;
              ii_ImagePullSecrets := ImagePullSecrets spec;
              RootArgs := rargs; Resources := (c_Requests c, c_Limits c);
              EnvVars := secret_envs (c_Env c) |}
        end
  end.

(** [rest.InClusterConfig] and [kubernetes.NewForConfig] give the client. *)
Definition NewInClusterRunner (InClusterConfig : M W ()) (NewForConfig : M W (K8sClient W Watch))
    (dl : DataLayer W) : M W K8sJobRunner :=
  wrapf "error getting in-cluster config" InClusterConfig ;;
  client ← wrapf "error getting client" NewForConfig;
  iinfo ← wrapf "error getting image details" (image client);
  mret {| kr_client := Some client; kr_dl := Some dl; imageInfo := iinfo;
          JobFunc := None; kr_LogFunc := None |}.

(** ** Running a build *)

(** [if s != "" { if out == nil { out = ResourceList{} }; out[name] = resource.MustParse(s) }]. *)
Definition add_resource (name s : string) (out : ResourceList) : res ResourceList :=
  if bool_decide (s = ""%string) then Ok out
  else match MustParse s with
       | Ok q => Ok (Some (<[name := q]> (default ∅ out)))
       | Err e => Err e
       | Panic e => Panic e
       end.

Definition resources (b : Build) : res (ResourceList * ResourceList) :=
  let r := bo_Resources (b_BuildOptions b) in
  res_bind (add_resource ResourceCPU (CpuRequest r) None) (λ out0,
  res_bind (add_resource ResourceMemory (MemoryRequest r) out0) (λ out0,
  res_bind (add_resource ResourceCPU (CpuLimit r) None) (λ out1,
  res_bind (add_resource ResourceMemory (MemoryLimit r) out1) (λ out1,
  Ok (out0, out1))))).

(** What the API server is sent: the slices are read as they are now. *)
Definition freeze (h : goheap) (c : Container slice) : Container (list string) := {|
  c_Name := c_Name c; c_Image := c_Image c; c_ImagePullPolicy := c_ImagePullPolicy c;
  c_Command := c_Command c; c_Args := sread h (c_Args c); c_EnvFrom := c_EnvFrom c;
  c_Env := c_Env c; c_VolumeMounts := c_VolumeMounts c; c_Privileged := c_Privileged c;
  c_Requests := c_Requests c; c_Limits := c_Limits c;
|}.

Definition freeze_job (h : goheap) (j : K8sJob slice) : K8sJob (list string) := {|
  job_Name := job_Name j; job_Namespace := job_Namespace j; job_Labels := job_Labels j;
  job_Annotations := job_Annotations j; Parallelism := Parallelism j;
  Completions := Completions j; ActiveDeadlineSeconds := ActiveDeadlineSeconds j;
  BackoffLimit := BackoffLimit j; TTLSecondsAfterFinished := TTLSecondsAfterFinished j;
  job_Selector := job_Selector j; template_Annotations := template_Annotations j;
  template_Spec := let s := template_Spec j in {|
    ShareProcessNamespace := ShareProcessNamespace s; RestartPolicy := RestartPolicy s;
    NodeSelector := NodeSelector s; Tolerations := Tolerations s;
    Containers := freeze h <$> Containers s; Volumes := Volumes s;
    ServiceAccountName := ServiceAccountName s; ImagePullSecrets := ImagePullSecrets s |};
  job_CreationTimestamp := job_CreationTimestamp j; job_Succeeded := job_Succeeded j;
  job_Conditions := job_Conditions j;
|}.

(** The watcher of a job; [jw_w] is None when the watch could not be opened, which
    Run does not look at. *)
Record JobWatcher := {
  jw_buildID : uuid;
  JobName : string;
  JobNamespace : string;
  matchLabels : gmap string string;
  jw_timeout : Z;
  jw_w : option Watch;
}.

Definition Run (kr : K8sJobRunner) (b : Build) : M W JobWatcher :=
  match JobFunc kr, kr_client kr with
  | Some jobf, Some client =>
      let ns := Namespace (imageInfo kr) in
      rs ← lift_res (resources b);
      j ← (λ w, let '(r, h) := jobf (imageInfo kr) b rs (heap_of w) in (r, with_heap h w));
      frozen ← run (λ w, (freeze_job (heap_of w) j, w));
      jo ← wrapf "error creating job" (jobs_Create W Watch client ns frozen);
      dl ← deref (kr_dl kr);
      ignore_err (AddEvent dl CtxBackground (b_ID b) ("job created: " +:+ job_Name jo)) ;;
      w ← attempt (jobs_Watch W Watch client ns
            ("metadata.name=" +:+ job_Name jo +:+ ",metadata.namespace=" +:+ job_Namespace jo));
      labels ← deref (job_Selector jo);
      mret {| jw_buildID := b_ID b; JobName := job_Name jo; JobNamespace := job_Namespace jo;
              matchLabels := labels; jw_timeout := 0;
              jw_w := match w with Ok w => Some w | _ => None end |}
  | _, _ => throw (ErrText "JobFunc is required")
  end.

(** ** Cleaning up old jobs *)

(** [rand.Intn] panics at a bound that is not positive. *)
Definition cleanupJitter (interval : Z) : M W Z :=
  let n := Z.quot interval 10 in
  if n <=? 0 then panic "invalid argument to Intn" else run (rand_Intn W p n).

Definition doCleanup (kr : K8sJobRunner) (lkey lval : string) (cutoff : time) : M W () :=
  ns ← namespace;
  client ← deref (kr_client kr);
  jl ← wrapf "error listing jobs" (jobs_List W Watch client ns (lkey +:+ "=" +:+ lval));
  mforeach (λ j : K8sJob (list string),
    if Before (job_CreationTimestamp j) cutoff then
      kr_log kr ("jobrunner: cleanup: deleting old job: " +:+ job_Name j) ;;
      wrapf ("error deleting job: " +:+ job_Name j) (jobs_Delete W Watch client ns (job_Name j))
    else mret ()) jl.

(** The goroutine.  [ticks] bounds the ticks before the context is done; [wait] is the
    [select]: whether a tick came first. *)
Fixpoint cleanup_loop (ticks : nat) (wait : W → bool * W) (kr : K8sJobRunner) (interval age : Z)
    (lkey lval : string) : M W () :=
  tick ← run wait;
  match (tick : bool), ticks with
  | false, _ | true, O => kr_log kr "jobrunner: cleanup: context cancelled, exiting"
  | true, S ticks' =>
      d ← cleanupJitter interval;
      run (λ w, ((), Sleep W p d w)) ;;
      now ← run (p_Now W p);
      r ← attempt (doCleanup kr lkey lval (time_Add now (int64 (age * -1))));
      match r with
      | Err err =>
          kr_log kr ("jobrunner: cleanup: error performing cleanup (exiting): " +:+ error_String err)
      | _ => cleanup_loop ticks' wait kr interval age lkey lval
      end
  end.

(** It returns the goroutine it starts; [time.NewTicker] panics at an interval that is
    not positive. *)
Definition StartCleanup (ticks : nat) (wait : W → bool * W) (kr : K8sJobRunner)
    (interval age : Z) (label : string) : M W (M W ()) :=
  match Split label ":" with
  | [lkey; lval] =>
      if (interval =? 0) || (age =? 0)
      then throw (ErrText "nonzero interval and age are required")
      else mret (
        kr_log kr ("jobrunner: cleanup: starting with interval " +:+ Duration_String interval) ;;
        if interval <=? 0 then panic "non-positive interval for NewTicker"
        else cleanup_loop ticks wait kr interval age lkey lval)
  | _ => throw (ErrText ("malformed label (wanted key:value): " +:+ label))
  end.

(** ** Logs *)

Definition PodMaxLines : Z := 1000.

Definition matchLabelsForJob (jw : JobWatcher) : M W (list string) :=
  if bool_decide (size (matchLabels jw) = 0%nat)
  then throw (ErrText "empty job match labels")
  else l ← run (range_map W p (matchLabels jw));
       mret ((λ kv : string * string, kv.1 +:+ " = " +:+ kv.2) <$> l).

Fixpoint container_logs client (ns pod : string) (cs : list string)
    (out : gmap string (list ascii)) : M W (gmap string (list ascii)) :=
  match cs with
  | [] => mret out
  | c :: cs' =>
      match pods_GetLogs W Watch client ns pod c PodMaxLines with
      | None => container_logs client ns pod cs' (<[c := []]> out)
      | Some open =>
          logrc ← wrapf "error getting logs" open;
          logs ← wrapf "error reading logs" logrc;
          container_logs client ns pod cs' (<[c := logs]> out)
      end
  end.

Definition podlogs client (pod : Pod) : M W (gmap string (list ascii)) :=
  container_logs client (pod_Namespace pod) (pod_Name pod) (pod_ContainerStatuses pod) ∅.

Fixpoint pods_logs client (pods : list Pod) (out : gmap string (gmap string (list ascii))) :
    M W (gmap string (gmap string (list ascii))) :=
  match pods with
  | [] => mret out
  | pod :: pods' =>
      l ← wrapf ("error getting logs for pod: " +:+ pod_Name pod) (podlogs client pod);
      pods_logs client pods' (<[pod_Name pod := l]> out)
  end.

Definition Logs client (jw : JobWatcher) : M W (gmap string (gmap string (list ascii))) :=
  selector ← wrapf "error getting job match selectors" (matchLabelsForJob jw);
  r ← attempt (pods_List W Watch client (JobNamespace jw) (Join selector ","));
  match r with
  | Ok (Some pods) => pods_logs client pods ∅
  | Ok None => throw (ErrText ("error listing pods for selector: " +:+ fmt_strings selector +:+
                               ": %!w(<nil>)"))
  | Err err => throw (ErrWrap ("error listing pods for selector: " +:+ fmt_strings selector) err)
  | Panic e => panic e
  end.
End jobrunner.

(** pkg/jobrunner/fake.go: the channels are never sent to, the logs are given. *)
Record FakeJob := { LogContent : gmap string (gmap string (list ascii)) }.

Definition FakeJob_Logs {W} (fj : FakeJob) : M W (gmap string (gmap string (list ascii))) :=
  mret (LogContent fj).

Definition FakeJobRunner_Run {W J} (RunFunc : option (Build → M W J)) (NewFakeJob : J) (b : Build) :
    M W J := match RunFunc with Some f => f b | None => mret NewFakeJob end.
