(* ===== verification/JobWatch.v ===== *)
(** * pkg/jobrunner/jobrunner.go: the goroutines of a JobWatcher

    [JobWatcher.start] runs two goroutines: one waits for the build to be handed
    over (ListenForBuildRunning), the other selects over the handoff, the events of
    the Kubernetes job and the timeout, and reports on the unbuffered channels [e]
    and [r].  Their reader is [Manager.Start], which takes one message or gives up
    when its context is done.  [step] interleaves the three. *)

From S2P Require Import Prelude GoStrings.
From Stdlib Require Export Relations.

#[local] Open Scope Z_scope.

(** ** Watch events *)

(** [watch.Event]: its type and what it carries.  The zero event, which a closed
    channel gives, has no object. *)
Inductive event_type := Added | Modified | Deleted | Bookmark | WatchError.

Record job_status := {
  Succeeded : Z;
  Conditions : list (string * string);   (* type and reason *)
  js_BackoffLimit : option Z;
}.

Inductive event_object := NoObject | JobObject (j : job_status) | OtherObject (desc : string).

Record watch_event := { ev_Type : event_type; ev_Object : event_object }.

(** The event a closed [ResultChan] gives. *)
Definition zero_event : watch_event := {| ev_Type := Added; ev_Object := NoObject |}.

(** What is sent to the reader. *)
Inductive message := MError (e : error) | MRunning.

Definition JobFailed : string := "Failed".

Definition object_desc (o : event_object) : string :=
  match o with NoObject => "<nil>" | JobObject _ => "job" | OtherObject d => d end.

(** The message processEvent sends before the watcher stops; [None]: it goes on.
    A finished job also adds an event to the build. *)
Definition processEvent (e : watch_event) : option message :=
  match ev_Object e with
  | NoObject => None
  | o =>
      match ev_Type e with
      | Deleted => Some (MError (ErrText "job was deleted"))
      | WatchError => Some (MError (ErrText ("error: " +:+ object_desc o)))
      | Modified =>
          match o with
          | JobObject j =>
              if 0 <? Succeeded j then Some MRunning
              else match last (Conditions j) with
                   | Some (type, reason) =>
                       if bool_decide (type = JobFailed ∧ reason = "BackoffLimitExceeded"%string)
                       then Some (MError (ErrText ("job backoff limit exceeded (" +:+
                              fmt_int (default 0 (js_BackoffLimit j)) +:+ "), giving up")))
                       else None
                   | None => None
                   end
          | _ => Some (MError (ErrText "watch modified event object is not a job"))
          end
      | _ => None
      end
  end.

(** ** The goroutines *)

(** The handoff goroutine: listening, after [brunerr <- err], done (its deferred
    [close(running)] ran). *)
Inductive handoff := HListening | HFailed | HDone.

(** The watcher: in its select, blocked on a send, done (its cleanup ran). *)
Inductive watcher := WSelect | WSend (m : message) | WDone.

(** The reader: waiting, got a message, gave up. *)
Inductive reader := RWaiting | RGot (m : message) | RGone.

Record state := State {
  handed_over : bool;          (* the build is in status Running *)
  hnd : handoff;
  listen_failed : bool;        (* ListenForBuildRunning returned an error *)
  foreign : bool;              (* it returned nil for a notification that is not the build's *)
  brunerr : option error;      (* the buffered channel of the handoff goroutine *)
  wtc : watcher;
  rdr : reader;
  watch_open : bool;           (* the watch on the job is not stopped *)
  sent : list message;         (* what the reader was sent *)
}.

Definition init : state := State false HListening false false None WSelect RWaiting true [].

Definition handoff_error (err : error) : error := ErrWrap "error listening for build running" err.

Inductive step (timeout : error) : state → state → Prop :=
  (* the job of the build sets it to running *)
  | step_build_runs h lf fn be w r o s :
      step timeout (State false h lf fn be w r o s) (State true h lf fn be w r o s)
  (* ListenForBuildRunning returns nil; [close(running)] after the event *)
  | step_listen_ok w be r o s :
      step timeout (State true HListening false false be w r o s) (State true HDone false false be w r o s)
  (* it returns nil for any notification of its connection, which comes from a pool and may
     still listen on the channels of earlier users (PostgresFacts) *)
  | step_listen_foreign b w be r o s :
      step timeout (State b HListening false false be w r o s) (State b HDone false true be w r o s)
  (* it returns an error, which is put in the buffer *)
  | step_listen_err b err w r o s :
      step timeout (State b HListening false false None w r o s)
        (State b HFailed true false (Some (handoff_error err)) w r o s)
  (* then [close(running)] *)
  | step_close_running b lf fn be w r o s :
      step timeout (State b HFailed lf fn be w r o s) (State b HDone lf fn be w r o s)
  (* the select: [<-ticker.C] *)
  | step_timeout b h lf fn be r o s :
      step timeout (State b h lf fn be WSelect r o s) (State b h lf fn be (WSend (MError timeout)) r o s)
  (* the select: [<-running], which is closed *)
  | step_running b lf fn be r o s :
      step timeout (State b HDone lf fn be WSelect r o s) (State b HDone lf fn be (WSend MRunning) r o s)
  (* the select: [<-brunerr] *)
  | step_brunerr b h lf fn err r o s :
      step timeout (State b h lf fn (Some err) WSelect r o s)
        (State b h lf fn None (WSend (MError err)) r o s)
  (* the select: an event of the job *)
  | step_event_stop b h lf fn be r o s e m :
      processEvent e = Some m →
      step timeout (State b h lf fn be WSelect r o s) (State b h lf fn be (WSend m) r o s)
  | step_event_go b h lf fn be r o s e :
      processEvent e = None →
      step timeout (State b h lf fn be WSelect r o s) (State b h lf fn be WSelect r o s)
  (* the send meets the reader; the watcher returns and cleans up *)
  | step_send b h lf fn be m o s :
      step timeout (State b h lf fn be (WSend m) RWaiting o s)
        (State b h lf fn be WDone (RGot m) false (s ++ [m]))
  (* the reader's context is done *)
  | step_give_up b h lf fn be w o s :
      step timeout (State b h lf fn be w RWaiting o s) (State b h lf fn be w RGone o s).

Definition reachable (timeout : error) : state → Prop := rtc (step timeout) init.

(** [jw.w.ResultChan()] is evaluated as the select is entered, whichever case is ready:
    a watcher without a watch (Run drops the error of Watch) ends the process. *)
Definition first_select {Watch} (w : option Watch) : res () :=
  match w with
  | Some _ => Ok ()
  | None => Panic "invalid memory address or nil pointer dereference"
  end.
