(* ===== verification/JobRunnerFacts.v ===== *)
(** * The job runner: its theorems

    The watcher of a job and its reader; what a pod learns of itself; the resources
    of a job; the cleanup of old jobs. *)

From S2P Require Import Prelude GoStrings GoTime Uuid Models Datalayer K8s GoSlice Grpc GrpcFacts FuranJob.
From S2P Require Import FuranJobFacts JobRunner JobWatch.

#[local] Open Scope Z_scope.

(** ** The watcher of a job *)

Section watch.
Context (timeout : error).

(** The reader got what was sent, at most one message; a message is only sent from the
    select; the watch is open until the watcher is done. *)
Record watch_inv (st : state) : Prop := {
  wi_sent : sent st = match rdr st with RGot m => [m] | _ => [] end;
  wi_open : watch_open st = true ↔ wtc st ≠ WDone;
  wi_done : wtc st = WDone ↔ ∃ m, rdr st = RGot m;
  wi_handoff : hnd st = HDone → handed_over st = true ∨ listen_failed st = true ∨ foreign st = true;
  wi_failed : hnd st = HFailed → listen_failed st = true;
  wi_running : wtc st = WSend MRunning ∨ rdr st = RGot MRunning →
    handed_over st = true ∨ listen_failed st = true ∨ foreign st = true ∨
    ∃ e, processEvent e = Some MRunning;
}.

Lemma watch_inv_init : watch_inv init.
Proof. constructor; simpl; naive_solver. Qed.

Lemma watch_inv_step st st' : watch_inv st → step timeout st st' → watch_inv st'.
Proof.
  intros [Hs Ho Hd Hh Hf Hr] Hstep. destruct Hstep; simpl in *; constructor; simpl in *;
    try done; try tauto; try naive_solver.
Qed.

Lemma watch_inv_reachable st : reachable timeout st → watch_inv st.
Proof.
  unfold reachable. intros Hr. assert (watch_inv init) as H0 by apply watch_inv_init.
  revert H0. induction Hr as [|x y z Hs _ IH]; intros Hx; [done|].
  by apply IH, (watch_inv_step x).
Qed.

Lemma give_up_for_good st st' : rdr st = RGone → rtc (step timeout) st st' → rdr st' = RGone.
Proof.
  intros Hg Hr. induction Hr as [|x y z Hs _ IH]; [done|]. apply IH. by destruct Hs.
Qed.
End watch.

(** C28: The watcher sends its reader at most one message, the one it ends with; and it
    reports the build as running only when it is, when its job finished, or - wrongly,
    and each of this can happen - when listening for the handoff failed: the channel is
    closed on that path too, and the select may choose it over the error; or when listening
    succeeded with the notification of another build, on a connection that its pool gave
    out before. *)
Theorem watcher_reports timeout :
  (∀ st, reachable timeout st →
     (length (sent st) ≤ 1)%nat ∧
     (∀ m, rdr st = RGot m → sent st = [m] ∧ wtc st = WDone) ∧
     (rdr st = RGot MRunning → handed_over st = true ∨ listen_failed st = true ∨ foreign st = true ∨
        ∃ j, processEvent {| ev_Type := Modified; ev_Object := JobObject j |} = Some MRunning)) ∧
  (∃ st, reachable timeout st ∧ rdr st = RGot MRunning ∧ handed_over st = false ∧ foreign st = false) ∧
  (∃ st, reachable timeout st ∧ rdr st = RGot MRunning ∧ handed_over st = false ∧ listen_failed st = false).
Proof.
  split; [|split].
  - intros st Hr. destruct (watch_inv_reachable _ _ Hr) as [Hs _ Hd _ _ Hrun].
    split; [rewrite Hs; by destruct (rdr st); simpl; lia|]. split.
    + intros m Hm. rewrite Hs, Hm. split; [done|]. apply Hd. by eauto.
    + intros Hm. destruct (Hrun (or_intror Hm)) as [?|[?|[?|[[t o] He]]]]; [by auto..|].
      right; right; right. unfold processEvent in He. simpl in He.
      destruct o as [|j|d], t; try discriminate; [|by destruct t in He..]. by exists j.
  - exists (State false HDone true false (Some (handoff_error ErrEOF)) WDone (RGot MRunning) false [MRunning]).
    split; [|done].
    eapply rtc_l; [apply (step_listen_err _ false ErrEOF)|].
    eapply rtc_l; [apply step_close_running|]. eapply rtc_l; [apply step_running|].
    eapply rtc_l; [apply step_send|]. apply rtc_refl.
  - exists (State false HDone false true None WDone (RGot MRunning) false [MRunning]). split; [|done].
    eapply rtc_l; [apply step_listen_foreign|]. eapply rtc_l; [apply step_running|].
    eapply rtc_l; [apply step_send|]. apply rtc_refl.
Qed.

(** A watcher whose reader gave up (the handoff timed out in Manager.Start) never
    ends: it stays blocked on its send, and the watch on the job is never stopped. *)
Theorem abandoned_watcher_leaks timeout st st' :
  reachable timeout st → rdr st = RGone → rtc (step timeout) st st' →
  wtc st' ≠ WDone ∧ watch_open st' = true.
Proof.
  intros Hr Hg Hs. assert (reachable timeout st') as Hr' by (unfold reachable in *; by etrans).
  apply watch_inv_reachable in Hr' as [_ Ho Hd _ _ _].
  assert (wtc st' ≠ WDone) as Hne.
  { intros [m Hm]%Hd. by rewrite (give_up_for_good _ _ _ Hg Hs) in Hm. }
  split; [done|]. by apply Ho.
Qed.

(** Which events of the job end the watch, and how: its deletion, an error event, a
    modified object that is no job, a job that ran out of retries (with its limit) as
    errors, a finished job as success; everything else - also the events of a closed
    watch, which then come without end - is ignored. *)
Theorem processEvent_spec e :
  (processEvent e = Some MRunning ↔
     ∃ j, e = {| ev_Type := Modified; ev_Object := JobObject j |} ∧ 0 < Succeeded j) ∧
  ((∃ err, processEvent e = Some (MError err)) ↔
     ev_Object e ≠ NoObject ∧
     (ev_Type e = Deleted ∨ ev_Type e = WatchError ∨
      (ev_Type e = Modified ∧
         ((∃ d, ev_Object e = OtherObject d) ∨
          ∃ j, ev_Object e = JobObject j ∧ Succeeded j ≤ 0 ∧
               last (Conditions j) = Some (JobFailed, "BackoffLimitExceeded"%string))))) ∧
  processEvent zero_event = None.
Proof.
  destruct e as [t o]. unfold processEvent; simpl. split_and!; [..|done].
  - split.
    + destruct o as [|j|d], t; try discriminate. destruct (Z.ltb_spec 0 (Succeeded j)); [by eauto|].
      destruct (last _) as [[ty re]|]; [|done]. by case_bool_decide.
    + intros (j & [= -> ->] & Hj%Z.ltb_lt). by rewrite Hj.
  - split.
    + intros [err He]. destruct o as [|j|d], t; try discriminate; (split; [done|]); eauto 10.
      right; right. split; [done|]. right. exists j. split; [done|].
      destruct (Z.ltb_spec 0 (Succeeded j)); [done|]. split; [lia|].
      destruct (last _) as [[ty re]|]; [|done]. case_bool_decide as Hb; [|done]. by destruct Hb as [-> ->].
    + intros [Ho Hc]. destruct o as [|j|d]; [done|..];
        destruct Hc as [->|[->|[-> [[d' Hd]|(j' & Hj & Hs & Hl)]]]]; try done; eauto.
      injection Hj as <-. rewrite (proj2 (Z.ltb_ge _ _)) by done. rewrite Hl.
      rewrite bool_decide_true by done. by eauto.
Qed.

Lemma abandoned_watcher_leaks_witness :
  let st := State false HListening false false None (WSend (MError ErrEOF)) RGone true [] in
  wtc st ≠ WDone ∧ watch_open st = true.
Proof.
  intros st. apply (abandoned_watcher_leaks ErrEOF (State false HListening false false None WSelect RGone true []) st).
  - eapply rtc_l; [apply step_give_up|]. apply rtc_refl.
  - reflexivity.
  - eapply rtc_l; [apply step_timeout|]. apply rtc_refl.
Defined.

(** ** Resources *)

Section resources.
Context `{HK : K8sQuantity}.

(** [l] holds the quantity [s] denotes under [name], when there is one. *)
Definition holds (l : ResourceList) (name s : string) : Prop :=
  match l ≫= lookup name with
  | Some q => s ≠ ""%string ∧ ParseQuantity s = Ok q
  | None => s = ""%string
  end.

Lemma add_resource_ok name s out max bad exceeds : out ≫= lookup name = None →
  check_quantity s max bad exceeds = Ok () →
  ∃ out', add_resource name s out = Ok out' ∧ holds out' name s ∧
    (∀ name', name' ≠ name → out' ≫= lookup name' = out ≫= lookup name').
Proof.
  intros Hnone Hc. unfold check_quantity in Hc. unfold add_resource, holds, MustParse.
  case_bool_decide as Hs.
  - exists out. split; [done|]. split; [by rewrite Hnone|done].
  - destruct (ParseQuantity s) as [q|e|p]; [|done..]. eexists. split; [done|]. simpl.
    rewrite lookup_insert_eq. split; [done|]. intros name' Hne. rewrite lookup_insert_ne by done.
    by destruct out.
Qed.

(** The quantities of a build that was accepted parse, so MustParse does not panic. *)
Lemma resources_accepted {W : Type} (limits : MaxResourceLimits) (b : Build) (w w' : W) :
  check_resources limits (bo_Resources (b_BuildOptions b)) w = (Ok (), w') →
  ∃ reqs lims, resources b = Ok (reqs, lims) ∧
    holds reqs ResourceCPU (CpuRequest (bo_Resources (b_BuildOptions b))) ∧
    holds reqs ResourceMemory (MemoryRequest (bo_Resources (b_BuildOptions b))) ∧
    holds lims ResourceCPU (CpuLimit (bo_Resources (b_BuildOptions b))) ∧
    holds lims ResourceMemory (MemoryLimit (bo_Resources (b_BuildOptions b))).
Proof.
  set (r := bo_Resources (b_BuildOptions b)). unfold check_resources, lift_res, mbind, M_bind.
  destruct (check_quantity (CpuRequest r) _ _ _) as [[]|?|?] eqn:H1; [|done..].
  destruct (check_quantity (CpuLimit r) _ _ _) as [[]|?|?] eqn:H2; [|done..].
  destruct (check_quantity (MemoryRequest r) _ _ _) as [[]|?|?] eqn:H3; [|done..].
  intros [= H4 _]. unfold resources. fold r.
  destruct (add_resource_ok ResourceCPU _ None _ _ _ eq_refl H1) as (o1 & -> & Ho1 & Hk1). simpl.
  destruct (add_resource_ok ResourceMemory _ o1 _ _ _ ltac:(by rewrite Hk1) H3) as (o2 & -> & Ho2 & Hk2). simpl.
  destruct (add_resource_ok ResourceCPU _ None _ _ _ eq_refl H2) as (o3 & -> & Ho3 & Hk3). simpl.
  destruct (add_resource_ok ResourceMemory _ o3 _ _ _ ltac:(by rewrite Hk3) H4) as (o4 & -> & Ho4 & Hk4). simpl.
  exists o2, o4. split; [done|]. unfold holds in *.
  rewrite Hk2, Hk4 by done. done.
Qed.

(** The quantities [cpu] and [mem], where one of them is given, and else those of the
    template. *)
Definition gets (l : ResourceList) (cpu mem def_cpu def_mem : string) : Prop :=
  if decide (cpu = ""%string ∧ mem = ""%string)
  then holds l ResourceCPU def_cpu ∧ holds l ResourceMemory def_mem
  else holds l ResourceCPU cpu ∧ holds l ResourceMemory mem.

Lemma gets_default (l : ResourceList) cpu mem def_cpu def_mem qc qm :
  holds l ResourceCPU cpu → holds l ResourceMemory mem →
  def_cpu ≠ ""%string → def_mem ≠ ""%string → ParseQuantity def_cpu = Ok qc → ParseQuantity def_mem = Ok qm →
  (l = None ↔ cpu = ""%string ∧ mem = ""%string) →
  gets (Some (default (<[ResourceCPU := qc]> {[ResourceMemory := qm]}) l)) cpu mem def_cpu def_mem.
Proof.
  intros Hc Hm Hdc Hdm Hqc Hqm Hl. unfold gets. case_decide as He.
  - apply Hl in He as ->. cbn [default from_option]. unfold holds. cbn [mbind option_bind].
    by rewrite lookup_insert_eq, lookup_insert_ne, lookup_singleton_eq by done.
  - destruct l as [m|]; [|by destruct He; apply Hl]. by split.
Qed.

Lemma add_resource_None name s out out' : add_resource name s out = Ok out' →
  (out' = None ↔ out = None ∧ s = ""%string).
Proof.
  unfold add_resource. case_bool_decide as Hs; [intros [= <-]; naive_solver|].
  destruct (MustParse s); [|done..]. intros [= <-]. naive_solver.
Qed.

Lemma resources_None b reqs lims : resources b = Ok (reqs, lims) →
  let r := bo_Resources (b_BuildOptions b) in
  (reqs = None ↔ CpuRequest r = ""%string ∧ MemoryRequest r = ""%string) ∧
  (lims = None ↔ CpuLimit r = ""%string ∧ MemoryLimit r = ""%string).
Proof.
  intros Hr r. unfold resources in Hr. fold r in Hr.
  destruct (add_resource ResourceCPU (CpuRequest r) None) as [o1|?|?] eqn:E1; [|done..]. cbn [res_bind] in Hr.
  destruct (add_resource ResourceMemory (MemoryRequest r) o1) as [o2|?|?] eqn:E2; [|done..]. cbn [res_bind] in Hr.
  destruct (add_resource ResourceCPU (CpuLimit r) None) as [o3|?|?] eqn:E3; [|done..]. cbn [res_bind] in Hr.
  destruct (add_resource ResourceMemory (MemoryLimit r) o3) as [o4|?|?] eqn:E4; [|done..]. cbn [res_bind] in Hr.
  injection Hr as -> ->.
  apply add_resource_None in E1, E2, E3, E4. rewrite E2, E1, E4, E3. tauto.
Qed.

(** The containers of a job: the BuildKit container has the resources [r]. *)
Definition job_gets (own : ResourceList * ResourceList) (r : BuildResources) (j : K8sJob (list string)) : Prop :=
  ∃ c0 c1, Containers (template_Spec j) = [c0; c1] ∧ c_Name c0 = "furan"%string ∧ c_Name c1 = "buildkitd"%string ∧
    (c_Requests c0, c_Limits c0) = own ∧
    gets (c_Requests c1) (CpuRequest r) (MemoryRequest r) "2" "24G" ∧
    gets (c_Limits c1) (CpuLimit r) (MemoryLimit r) "3" "24G".

(** C30: Run can make the job of a build whose resources StartBuild accepted - no quantity
    makes MustParse panic - and the job it submits first of all has them on the BuildKit
    container, requests and limits apart; requests (or limits) of which the build names none
    are those of the template, and where it names one the other has none.  The Furan
    container has the resources of the server's. *)
Theorem accepted_resources {V W Watch : Type} `{GoHeap W} (limits : MaxResourceLimits) (grow : nat → nat → nat)
    (bkimage : string) (kr : K8sJobRunner (W := W) (Watch := Watch)) client (b : Build) (v v' : V) (w : W) :
  template_parses → check_resources limits (bo_Resources (b_BuildOptions b)) v = (Ok (), v') →
  JobFunc kr = Some (FuranJobFunc grow bkimage) → kr_client kr = Some client →
  ∃ j w1 rest, job_gets (Resources (imageInfo kr)) (bo_Resources (b_BuildOptions b)) j ∧
    Run kr b w = (wrapf "error creating job" (jobs_Create W Watch client (Namespace (imageInfo kr)) j) ≫= rest) w1.
Proof.
  intros (cpu2 & mem24 & cpu3 & H2 & H24 & H3) Hcheck Hj Hc.
  destruct (resources_accepted limits b v v' Hcheck) as (reqs & lims & Hrs & Hr1 & Hr2 & Hl1 & Hl2).
  destruct (resources_None b reqs lims Hrs) as [Hreqs Hlims].
  destruct (FuranJobFunc_resources grow bkimage (imageInfo kr) b (reqs, lims) (heap_of w) cpu2 mem24 cpu3 H2 H24 H3)
    as (j & h' & c0 & c1 & Hjob & Hcs & Hn0 & Hn1 & Hown & Hq & Hl).
  set (w1 := with_heap h' w). exists (freeze_job (heap_of w1) j), w1. eexists. split.
  - exists (freeze (heap_of w1) c0), (freeze (heap_of w1) c1). cbn. rewrite Hcs. cbn.
    split_and!; [done..| |]; rewrite ?Hq, ?Hl; by apply gets_default.
  - unfold Run. rewrite Hj, Hc. unfold mbind at 1 2 3, M_bind, lift_res, run. rewrite Hrs, Hjob. reflexivity.
Qed.
End resources.

(** ** This pod *)

Section image.
Context `{HK : K8sQuantity} (grow : nat → nat → nat) {W Watch : Type} `{GoHeap W} (p : Process W).
Implicit Types client : K8sClient W Watch.

(** The arguments before the first "server". *)
Fixpoint before_server (args : list string) : list string :=
  match args with
  | [] => []
  | a :: args' => if bool_decide (a = "server"%string) then [] else a :: before_server args'
  end.

Lemma root_args_spec args s h : slice_wf h s →
  let '(s', h') := root_args grow args s h in
  slice_wf h' s' ∧ sread h' s' = sread h s ++ before_server args.
Proof.
  revert s h. induction args as [|a args IH]; intros s h Hs; cbn [root_args before_server].
  - by rewrite app_nil_r.
  - case_bool_decide; [by rewrite app_nil_r|].
    pose proof (sread_sappend grow s [a] h Hs) as Hr. pose proof (sappend_wf grow s [a] h Hs) as Hw.
    destruct (sappend grow s [a] h) as [s1 h1]. simpl in *. specialize (IH s1 h1 Hw).
    destruct (root_args grow args s1 h1) as [s2 h2]. destruct IH as [Hw2 ->]. split; [done|].
    by rewrite Hr, <-app_assoc.
Qed.

Lemma before_server_spec args : length (before_server args) ≠ length args →
  ∃ rest, args = before_server args ++ "server"%string :: rest.
Proof.
  induction args as [|a args IH]; cbn [before_server length]; [done|].
  case_bool_decide as Ha; [subst; by eexists|]. simpl. intros Hl.
  destruct IH as [rest Hrest]; [lia|]. exists rest. by rewrite <-Hrest.
Qed.

Lemma server_not_before args : "server"%string ∉ before_server args.
Proof.
  induction args as [|a args IH]; cbn [before_server]; [apply not_elem_of_nil|].
  case_bool_decide; [apply not_elem_of_nil|]. by apply not_elem_of_cons.
Qed.

Lemma find_furan_spec cs i acc :
  (find_furan cs i acc = acc ∧ ∀ c, c ∈ cs → c_Name c ≠ "furan"%string) ∨
  ∃ c k, cs !! k = Some c ∧ c_Name c = "furan"%string ∧
    find_furan cs i acc = (c_Image c, (i + k)%nat) ∧
    ∀ k' c', (k < k')%nat → cs !! k' = Some c' → c_Name c' ≠ "furan"%string.
Proof.
  revert i acc. induction cs as [|c cs IH]; intros i acc; cbn [find_furan].
  - left. split; [done|]. intros c Hc. by apply not_elem_of_nil in Hc.
  - destruct (IH (S i) (if bool_decide (c_Name c = "furan"%string) then (c_Image c, i) else acc))
      as [[Heq Hno]|(c' & k & Hk & Hn & Heq & Hlast)].
    + rewrite Heq. case_bool_decide as Hc.
      * right. exists c, 0%nat. split_and!; [done|done|by rewrite Nat.add_0_r|].
        intros [|k'] c' Hlt Hc'; [lia|]. apply Hno. by eapply list_elem_of_lookup_2.
      * left. split; [done|]. intros c' [->|Hc']%elem_of_cons; [done|]. by apply Hno.
    + right. exists c', (S k). split_and!; [done|done|by rewrite Heq; f_equal; lia|].
      intros [|k'] c'' Hlt Hc''; [lia|]. apply (Hlast k' c''); [lia|done].
Qed.

(** What a server passes on to its jobs: when image succeeds, the arguments of the
    furan container of its pod are the root arguments, then "server", then the rest;
    image, resources and the variables taken from secrets are that container's. *)
Theorem image_spec client w info w' :
  (∀ (h : goheap) (v : W), heap_of (with_heap h v) = h) →
  image grow p client w = (Ok info, w') →
  ∃ pod c rest w1 w2,
    pods_Get W Watch client (Namespace info) (PodName info) w1 = (Ok pod, w2) ∧
    c ∈ Containers (pod_Spec pod) ∧ c_Name c = "furan"%string ∧
    Image info = c_Image c ∧ c_Image c ≠ ""%string ∧
    c_Args c = sread (heap_of w') (RootArgs info) ++ "server"%string :: rest ∧
    "server"%string ∉ sread (heap_of w') (RootArgs info) ∧
    slice_wf (heap_of w') (RootArgs info) ∧
    Resources info = (c_Requests c, c_Limits c) ∧
    EnvVars info = secret_envs (c_Env c).
Proof.
  intros Hheap Himg. unfold image, mbind, M_bind, run in Himg.
  destruct (namespace p w) as [[ns|?|?] w0]; [|done..].
  destruct (LookupEnv _ _ _ w0) as [[podn|] w1]; [|done]. simpl in Himg.
  unfold wrapf, on_err in Himg. destruct (pods_Get _ _ _ _ _ w1) as [[pod|?|?] w2] eqn:Hpod; [|done..].
  destruct (find_furan _ 0 _) as [img idx] eqn:Hf. case_bool_decide as Himg0; [done|].
  destruct (find_furan_spec (Containers (pod_Spec pod)) 0 (""%string, 0%nat))
    as [[Heq _]|(c & k & Hk & Hn & Heq & _)]; rewrite Hf in Heq; simplify_eq.
  rewrite Nat.add_0_l, Hk in Himg. simpl in Himg.
  pose proof (root_args_spec (c_Args c) (salloc [] (heap_of w2)).1 (salloc [] (heap_of w2)).2
                (salloc_wf _ _)) as Hra.
  rewrite sread_salloc in Hra. unfold salloc in Hra, Himg. simpl in Hra, Himg.
  destruct (root_args grow (c_Args c) _ _) as [s h]. destruct Hra as [Hw Hread]. simpl in Hread.
  simpl in Himg. case_bool_decide as Hlen; [done|]. injection Himg as <- <-. simpl.
  assert (length (before_server (c_Args c)) ≠ length (c_Args c)) as Hl.
  { intros Hl. apply Hlen. by rewrite <-Hl, <-Hread, (sread_length h s Hw). }
  destruct (before_server_spec _ Hl) as [rest Hrest].
  exists pod, c, rest, w1, w2. rewrite Hheap, Hread.
  split_and!; try done; [by eapply list_elem_of_lookup_2|apply server_not_before].
Qed.
End image.

(** ** Running and cleaning up *)

Section run.
Context `{HK : K8sQuantity} {W Watch : Type} `{GoHeap W} (p : Process W).
Implicit Types (client : K8sClient W Watch) (kr : K8sJobRunner (W := W) (Watch := Watch)).

(** Run fails when the job cannot be created; once it is, Run succeeds whether or
    not the job can be watched - and then the watcher it starts has no watch, and ends
    the server with a nil dereference. *)
Theorem Run_ignores_watch_error kr client jobf b w jw w' :
  kr_client kr = Some client → JobFunc kr = Some jobf →
  Run kr b w = (Ok jw, w') →
  ∃ rs j jo w1 w2 w3 w4,
    resources b = Ok rs ∧
    jobs_Create W Watch client (Namespace (imageInfo kr)) (freeze_job (heap_of w1) j) w1 = (Ok jo, w2) ∧
    JobName jw = job_Name jo ∧ job_Selector jo = Some (matchLabels jw) ∧ jw_buildID jw = b_ID b ∧
    (let watched := jobs_Watch W Watch client (Namespace (imageInfo kr))
            ("metadata.name=" +:+ JobName jw +:+ ",metadata.namespace=" +:+ JobNamespace jw) in
     watched w3 = (match jw_w jw with Some h => Ok h | None => (watched w3).1 end, w4) ∧
     (jw_w jw = None ↔ ∃ e, (watched w3).1 = Err e) ∧
     ((∃ e, (watched w3).1 = Err e) ↔ ∃ msg, first_select (jw_w jw) = Panic msg)).
Proof.
  intros Hc Hj. unfold Run. rewrite Hc, Hj. unfold mbind, M_bind, lift_res, run, wrapf, on_err.
  destruct (resources b) as [rs|?|?] eqn:Hrs; [|done..].
  destruct (jobf (imageInfo kr) b rs (heap_of w)) as [[j|?|?] h]; [|done..].
  set (w1 := with_heap h w).
  destruct (jobs_Create _ _ _ _ _ w1) as [[jo|?|?] w2] eqn:Hcr; [|done..].
  destruct (kr_dl kr) as [dl|]; [|done]. cbn [deref]. unfold mret, M_ret, ignore_err, attempt, mbind, M_bind.
  destruct (AddEvent dl _ _ _ w2) as [[?|?|?] w3]; [| |done].
  all: unfold mret, M_ret.
  all: destruct (jobs_Watch W Watch client _ _ w3) as [[h'|ew|?] w4] eqn:Hw; [| |done].
  all: destruct (job_Selector jo) as [labels|] eqn:Hl; [|done]; intros [= <- <-].
  all: exists rs, j, jo, w1, w2, w3, w4; cbn [jw_w JobName matchLabels jw_buildID JobNamespace].
  all: rewrite Hw; split_and!; try done; split; try done; eauto; try (intros (? & ?); done).
  all: intros _; by eexists.
Qed.

(** The jitter of the cleanup is less than a tenth of the interval; an interval
    under 10ns makes it panic. *)
Theorem cleanupJitter_bounds interval w :
  (∀ n v, 0 < n → 0 ≤ (rand_Intn W p n v).1 < n) → 0 < interval →
  if decide (interval < 10) then (cleanupJitter p interval w).1 = Panic "invalid argument to Intn"
  else ∃ d, (cleanupJitter p interval w).1 = Ok d ∧ 0 ≤ d < interval / 10.
Proof.
  intros Hr Hi. unfold cleanupJitter. rewrite Z.quot_div_nonneg by lia. case_decide as Hd.
  - rewrite Z.div_small by lia. done.
  - assert (1 ≤ interval / 10) by (apply Z.div_le_lower_bound; lia).
    rewrite (proj2 (Z.leb_gt _ _)) by lia. unfold run.
    specialize (Hr (interval / 10) w ltac:(lia)).
    destruct (rand_Intn W p (interval / 10) w) as [d w']. by exists d.
Qed.

(** A client whose deletions [log] records, and nothing else of the world. *)
Record deletes_logged client kr (log : W → list string) : Prop := {
  dl_delete ns name w : log (jobs_Delete W Watch client ns name w).2 = log w ++ [name];
  dl_list ns sel w : log (jobs_List W Watch client ns sel w).2 = log w;
  dl_env v w : log (LookupEnv W p v w).2 = log w;
  dl_file f w : log (ReadFile W p f w).2 = log w;
  dl_log msg w : log (kr_log kr msg w).2 = log w;
}.

Lemma namespace_logs client kr log w :
  deletes_logged client kr log → log (namespace p w).2 = log w.
Proof.
  intros Hl. unfold namespace, mbind, M_bind, run, attempt.
  pose proof (dl_env _ _ _ Hl "POD_NAMESPACE" w) as He.
  destruct (LookupEnv W p _ w) as [[ns|] w1]; simpl in *; [done|].
  pose proof (dl_file _ _ _ Hl "/var/run/secrets/kubernetes.io/serviceaccount/namespace" w1) as Hf.
  destruct (ReadFile W p _ w1) as [[d|e|e] w2]; simpl in *; [|congruence..].
  case_bool_decide; simpl; congruence.
Qed.

(** The names of the jobs created before [cutoff]. *)
Definition old_jobs (cutoff : time) (jl : list (K8sJob (list string))) : list string :=
  job_Name <$> filter (λ j, Before (job_CreationTimestamp j) cutoff = true) jl.

Lemma delete_old_jobs client kr log ns cutoff jl w :
  deletes_logged client kr log →
  wp (mforeach (λ j : K8sJob (list string),
        if Before (job_CreationTimestamp j) cutoff then
          kr_log kr ("jobrunner: cleanup: deleting old job: " +:+ job_Name j) ;;
          wrapf ("error deleting job: " +:+ job_Name j) (jobs_Delete W Watch client ns (job_Name j))
        else mret ()) jl)
     (λ r w', match r with
              | Ok _ => log w' = log w ++ old_jobs cutoff jl
              | _ => ∃ d rest, log w' = log w ++ d ∧ old_jobs cutoff jl = d ++ rest
              end) w.
Proof.
  intros Hl. revert w. induction jl as [|j jl IH]; intros w; cbn [mforeach].
  { rewrite wp_ret. by rewrite app_nil_r. }
  unfold old_jobs. destruct (Before (job_CreationTimestamp j) cutoff) eqn:Hb.
  - rewrite filter_cons_True by done. cbn [fmap list_fmap].
    rewrite !wp_bind. unfold kr_log at 1. rewrite wp_run. rewrite wp_wrapf.
    pose proof (dl_log _ _ _ Hl ("jobrunner: cleanup: deleting old job: " +:+ job_Name j) w) as Hlog.
    unfold kr_log, run in Hlog. simpl in Hlog. cbn [fst snd].
    set (w1 := match kr_LogFunc kr with Some f => _ | None => _ end) in *.
    pose proof (dl_delete _ _ _ Hl ns (job_Name j) w1) as Hdel. rewrite Hlog in Hdel.
    unfold wp at 1. destruct (jobs_Delete _ _ _ _ _ w1) as [[[]|e|e] w2]; simpl in *.
    + eapply wp_mono; [|apply IH]. intros [[]|e|e] w3; simpl; rewrite Hdel.
      * intros ->. by rewrite <-app_assoc.
      * intros (d & rest & -> & Hr). exists (job_Name j :: d), rest.
        fold (old_jobs cutoff jl). rewrite Hr. by rewrite <-app_assoc.
      * intros (d & rest & -> & Hr). exists (job_Name j :: d), rest.
        fold (old_jobs cutoff jl). rewrite Hr. by rewrite <-app_assoc.
    + by exists [job_Name j], (old_jobs cutoff jl).
    + by exists [job_Name j], (old_jobs cutoff jl).
  - rewrite filter_cons_False by (by rewrite Hb). rewrite wp_bind, wp_ret. apply IH.
Qed.

(** A cleanup deletes the jobs with its label that were created before the cutoff, in
    the order they are listed, and no other; when a deletion fails it stops there. *)
Theorem doCleanup_deletes_old client kr log lkey lval cutoff w :
  deletes_logged client kr log → kr_client kr = Some client →
  wp (doCleanup p kr lkey lval cutoff)
     (λ r w', match r with
              | Ok _ => ∃ ns w1 jl w2,
                  jobs_List W Watch client ns (lkey +:+ "=" +:+ lval) w1 = (Ok jl, w2) ∧
                  log w' = log w ++ old_jobs cutoff jl
              | _ => log w' = log w ∨ ∃ ns w1 jl w2 d rest,
                  jobs_List W Watch client ns (lkey +:+ "=" +:+ lval) w1 = (Ok jl, w2) ∧
                  log w' = log w ++ d ∧ old_jobs cutoff jl = d ++ rest
              end) w.
Proof.
  intros Hl Hc. unfold doCleanup. rewrite Hc, wp_bind. unfold wp at 1.
  pose proof (namespace_logs _ _ _ w Hl) as Hn.
  destruct (namespace p w) as [[ns|?|?] w1]; simpl in *; [|by left..].
  rewrite wp_bind. cbn [deref]. rewrite wp_ret, wp_bind, wp_wrapf. unfold wp at 1.
  pose proof (dl_list _ _ _ Hl ns (lkey +:+ "=" +:+ lval) w1) as Hli.
  destruct (jobs_List _ _ _ _ _ w1) as [[jl|?|?] w2] eqn:Hjl; cbn [fst snd] in *; [|left; congruence..].
  eapply wp_mono; [|by apply (delete_old_jobs client kr log)].
  intros [[]|?|?] w3; rewrite Hli, Hn.
  - by eauto 10.
  - intros (d & rest & ? & ?). right. by eauto 15.
  - intros (d & rest & ? & ?). right. by eauto 15.
Qed.
End run.

(** ** Witnesses *)

#[local] Existing Instance milli_quantity.

(** A cluster that can be evaluated: a heap, and the names of the deleted jobs. *)
Definition cluster : Type := goheap * list string.
#[local] Instance cluster_heap : GoHeap cluster := {| heap_of := fst; with_heap h w := (h, w.2) |}.

Definition sample_container (name img : string) (args : list string) : Container (list string) := {|
  c_Name := name; c_Image := img; c_ImagePullPolicy := ""; c_Command := []; c_Args := args;
  c_EnvFrom := []; c_Env := []; c_VolumeMounts := []; c_Privileged := None; c_Requests := None;
  c_Limits := None |}.

Definition sample_pod : Pod := {|
  pod_Name := "furan-0"; pod_Namespace := "default";
  pod_Spec := {| ShareProcessNamespace := false; RestartPolicy := ""; NodeSelector := ∅;
    Tolerations := []; Volumes := []; ServiceAccountName := "furan"; ImagePullSecrets := [];
    Containers := [sample_container "proxy" "envoy" [];
                   sample_container "furan" "furan:v2" ["--vault"; "server"; "--port"]%string] |};
  pod_ContainerStatuses := [] |}.

Definition sample_job (name : string) (created : time) : K8sJob (list string) := {|
  job_Name := name; job_Namespace := "default"; job_Labels := ∅; job_Annotations := ∅;
  Parallelism := 1; Completions := 1; ActiveDeadlineSeconds := 0; BackoffLimit := None;
  TTLSecondsAfterFinished := 0; job_Selector := Some ∅; template_Annotations := ∅;
  template_Spec := pod_Spec sample_pod; job_CreationTimestamp := created; job_Succeeded := 0;
  job_Conditions := [] |}.

(** Creating a job works, watching it does not. *)
Definition sample_client : K8sClient cluster () := {|
  pods_Get _ _ := mret sample_pod;
  pods_List _ _ := mret None;
  pods_GetLogs _ _ _ _ := None;
  jobs_Create _ j := mret (sample_job (job_Name j) time_zero);
  jobs_List _ _ := mret [sample_job "new" (Time 100 0); sample_job "old" (Time 1 0)];
  jobs_Delete _ name := λ w, (Ok (), (w.1, w.2 ++ [name]));
  jobs_Watch _ _ := throw ErrEOF;
|}.

Definition sample_process : Process cluster := {|
  LookupEnv v w := (Some v, w);
  ReadFile _ := throw ErrEOF;
  p_Now w := (time_zero, w);
  rand_Intn n w := (n - 1, w);
  Sleep _ w := w;
  range_map m w := (map_to_list m, w);
|}.

Definition sample_image_info : ImageInfo := {|
  Namespace := "default"; PodName := "furan-0"; Image := "furan:v2"; ServiceAccount := "furan";
  ii_ImagePullSecrets := []; RootArgs := Slice 0 0 0; Resources := (None, None); EnvVars := [] |}.

Definition sample_runner : K8sJobRunner (W := cluster) (Watch := ()) := {|
  kr_client := Some sample_client;
  kr_dl := Some down_dl;
  imageInfo := sample_image_info;
  JobFunc := Some (FuranJobFunc (λ c _, 2 * c)%nat BuildKitImage);
  kr_LogFunc := None;
|}.

Lemma image_spec_witness :
  ∃ info w' c rest, image (λ c _, 2 * c)%nat sample_process sample_client (∅, []) = (Ok info, w') ∧
    c_Args c = sread w'.1 (RootArgs info) ++ "server"%string :: rest.
Proof.
  assert (isOk (image (λ c _, 2 * c)%nat sample_process sample_client (∅, [])).1 = true) as Hok
    by (vm_compute; reflexivity).
  destruct (image (λ c _, 2 * c)%nat sample_process sample_client (∅, [])) as [[info|e|e] w'] eqn:E;
    [|discriminate Hok..].
  assert (∀ (h : goheap) (v : cluster), heap_of (with_heap h v) = h) as Hh by reflexivity.
  destruct (image_spec (λ c _, 2 * c)%nat sample_process sample_client (∅, []) info w' Hh E) as (pod & c & rest & w1 & w2 & _ & _ & _ & _ & _ & Ha & _).
  exists info, w', c, rest. split; [reflexivity|exact Ha].
Defined.

Lemma Run_ignores_watch_error_witness :
  ∃ jw w', Run sample_runner Build_zero (∅, []) = (Ok jw, w') ∧
    ∃ msg, first_select (jw_w jw) = Panic msg.
Proof.
  assert (isOk (Run sample_runner Build_zero (∅, [])).1 = true) as Hok by (vm_compute; reflexivity).
  destruct (Run sample_runner Build_zero (∅, [])) as [[jw|e|e] w'] eqn:E; [|discriminate Hok..].
  destruct (Run_ignores_watch_error sample_runner sample_client _ Build_zero (∅, []) jw w'
    eq_refl eq_refl E) as (rs & j & jo & w1 & w2 & w3 & w4 & _ & _ & _ & _ & _ & _ & _ & H).
  exists jw, w'. split; [reflexivity|]. apply H. by eexists.
Defined.

(** A CPU request and a memory limit: the template's memory request and CPU limit are gone. *)
Lemma accepted_resources_witness :
  let b := with_BuildOptions
    {| bo_BuildID := uuid_Nil; bo_ContextPath := ""; bo_CommitSHA := "";
       bo_RelativeDockerfilePath := ""; bo_BuildArgs := ∅; bo_Cache := BuildCacheOpts_zero;
       bo_Resources := {| CpuRequest := "500m"; CpuLimit := ""; MemoryRequest := "";
                          MemoryLimit := "2G" |} |} Build_zero in
  ∃ j c0 c1, job_gets (None, None) (bo_Resources (b_BuildOptions b)) j ∧
    Containers (template_Spec j) = [c0; c1] ∧ holds (c_Requests c1) ResourceCPU "500m" ∧
    holds (c_Requests c1) ResourceMemory "" ∧ holds (c_Limits c1) ResourceMemory "2G".
Proof.
  intros b.
  destruct (accepted_resources (V := ())
    {| MaxCPUReq := milli 1000; MaxMemReq := milli 1000; MaxCPULim := milli 1000;
       MaxMemLim := milli (10 ^ 13) |} (λ c _, 2 * c)%nat BuildKitImage sample_runner sample_client b () () (∅, []))
    as (j & w1 & rest & Hj & _); [by do 3 eexists; split_and!; reflexivity|reflexivity..|].
  destruct Hj as (c0 & c1 & Hc & Hn0 & Hn1 & Ho & Hr & Hl). exists j, c0, c1.
  split; [by exists c0, c1|]. split; [exact Hc|]. unfold gets in Hr, Hl. cbn [bo_Resources b_BuildOptions] in Hr, Hl.
  rewrite decide_False in Hr by (intros [? ?]; discriminate).
  rewrite decide_False in Hl by (intros [? ?]; discriminate).
  destruct Hr as [Hr1 Hr2], Hl as [_ Hl2]. split; [exact Hr1|]. split; [exact Hr2|exact Hl2].
Defined.

Lemma cleanupJitter_bounds_witness :
  (cleanupJitter sample_process 9 (∅, [])).1 = Panic "invalid argument to Intn" ∧
  ∃ d, (cleanupJitter sample_process Minute (∅, [])).1 = Ok d ∧ 0 ≤ d < Minute / 10.
Proof.
  assert (∀ n (v : cluster), 0 < n → 0 ≤ (rand_Intn cluster sample_process n v).1 < n) as Hr
    by (simpl; lia).
  split.
  - exact (cleanupJitter_bounds sample_process 9 (∅, []) Hr eq_refl).
  - exact (cleanupJitter_bounds sample_process Minute (∅, []) Hr eq_refl).
Defined.

Lemma doCleanup_deletes_old_witness :
  deletes_logged sample_process sample_client sample_runner snd ∧
  ∃ ns w1 jl w2,
    jobs_List cluster () sample_client ns "created-by=furan2" w1 = (Ok jl, w2) ∧
    (doCleanup sample_process sample_runner "created-by" "furan2" (Time 50 0) (∅, [])).2.2 =
    [] ++ old_jobs (Time 50 0) jl.
Proof.
  assert (deletes_logged sample_process sample_client sample_runner snd) as Hl by done.
  split; [exact Hl|].
  exact (doCleanup_deletes_old sample_process sample_client sample_runner snd "created-by" "furan2"
    (Time 50 0) (∅, []) Hl eq_refl).
Defined.
