(* ===== verification/Buildkit.v ===== *)
(** * pkg/buildkit: running a build with BuildKit

    [BuildSolver.Build] is the [models.Builder] of a job: it makes the options of the
    solve, loads the cache, waits for the socket of the buildkitd container, solves
    and saves the cache.  The files of the cache are tracked by the directories
    that exist; the goroutine that prints the progress only adds events, one per
    write of [eventWriter]. *)

From S2P Require Import Prelude GoStrings GoTime Poll Uuid Models Datalayer.

#[local] Open Scope Z_scope.

(** ** [os.ExpandEnv] *)

Definition isShellSpecialVar (c : ascii) : bool :=
  existsb (Ascii.eqb c) (String.list_ascii_of_string "*#$@!?-0123456789").

Definition isAlphaNum (c : ascii) : bool :=
  let b := byte_val c in
  Ascii.eqb c underscore || ((48 <=? b) && (b <=? 57)) || ((97 <=? b) && (b <=? 122))
  || ((65 <=? b) && (b <=? 90)).

Fixpoint alnum_prefix (s : string) : string :=
  match s with
  | String c s' => if isAlphaNum c then String c (alnum_prefix s') else ""
  | "" => ""
  end.

(** The name that follows the dollar sign, and how many bytes it takes. *)
Definition getShellName (s : string) : string * nat :=
  match s with
  | "" => (""%string, 0%nat)
  | String c r =>
      if decide (c = "{"%char) then
        (* a special variable before the brace is found by the scan as well *)
        match Cut r "}" with
        | (""%string, Some _) => (""%string, 2%nat)
        | (name, Some _) => (name, (String.length name + 2)%nat)
        | (_, None) => (""%string, 1%nat)
        end
      else if isShellSpecialVar c then (String c "", 1%nat)
      else let name := alnum_prefix s in (name, String.length name)
  end.

(** [os.Expand(s, mapping)]: [skip] bytes of [s] belong to a name already read. *)
Fixpoint expand (mapping : string → string) (skip : nat) (s : string) : string :=
  match s with
  | "" => ""
  | String c s' =>
      match skip with
      | S k => expand mapping k s'
      | O =>
          if decide (c = "$"%char ∧ s' ≠ ""%string) then
            let '(name, w) := getShellName s' in
            if decide (name = ""%string)
            then match w with
                 | O => String c (expand mapping 0 s')
                 | _ => expand mapping w s'
                 end
            else mapping name +:+ expand mapping w s'
          else String c (expand mapping 0 s')
      end
  end%string.

Definition Expand (s : string) (mapping : string → string) : string := expand mapping 0 s.

(** ** The solver *)

(** [bkclient.CacheOptionsEntry], [bkclient.ExportEntry] and [bkclient.SolveOpt]. *)
Record Entry := { e_Type : string; e_Attrs : gmap string string }.

Record SolveOpt := {
  Exports : list Entry;
  Frontend : string;
  FrontendAttrs : gmap string string;
  LocalDirs : gmap string string;
  CacheImports : list Entry;
  CacheExports : list Entry;
  Session : bool;     (* whether there are session attachables *)
}.

(** What the process gives: files, the socket, the clock, the environment. *)
Record BkProcess (W : Type) := {
  bk_TempDir : M W string;
  bk_RemoveAll : string → W → W;
  bk_Dial : string → M W ();
  bk_Now : W → time * W;
  bk_Sleep : Z → W → W;
  bk_Getenv : string → string;
}.
Arguments bk_TempDir {_} _ _.
Arguments bk_RemoveAll {_} _ _ _.
Arguments bk_Dial {_} _ _ _.
Arguments bk_Now {_} _ _.
Arguments bk_Sleep {_} _ _ _.
Arguments bk_Getenv {_} _ _.

Record BuildSolver (W : Type) := {
  bks_dl : DataLayer W;
  s3cf : option (CacheFetcher W);
  bc_Solve : context → SolveOpt → M W ();
  bks_addr : string;
  AuthProvider : bool;
  LogF : option (string → W → W);
}.
Arguments bks_dl {_} _.
Arguments s3cf {_} _.
Arguments bc_Solve {_} _ _ _ _.
Arguments bks_addr {_} _.
Arguments AuthProvider {_} _.
Arguments LogF {_} _.

(** [out[(i*len(tags))+j] = imageRepos[i] + ":" + tags[j]]. *)
Definition imageNames (imageRepos tags : list string) : list string :=
  let n := length tags in
  foldl (λ out i,
    foldl (λ out j, <[(i * n + j)%nat := nth i imageRepos "" +:+ ":" +:+ nth j tags ""]> out)
      out (seq 0 n))
    (replicate (length imageRepos * n) ""%string) (seq 0 (length imageRepos)).

Section buildkit.
Context {W : Type} (p : BkProcess W).
Implicit Types (bks : BuildSolver W) (opts : BuildOpts).

Definition bks_log bks (msg : string) : M W () :=
  run (λ w, ((), match LogF bks with Some f => f msg w | None => w end)).

(** [bkclient.New] gives the client. *)
Definition NewBuildSolver (addr : string) (cf : option (CacheFetcher W)) (dl : DataLayer W)
    (new_client : string → M W (context → SolveOpt → M W ())) : M W (BuildSolver W) :=
  if negb (HasPrefix addr "unix://") then throw (ErrText "addr must be a unix socket")
  else bc ← wrapf "error getting buildkit client" (new_client addr);
       mret {| bks_dl := dl; s3cf := cf; bc_Solve := bc; bks_addr := addr; AuthProvider := false;
               LogF := None |}.

Definition genSolveOpt bks (b : Build) opts : SolveOpt :=
  let tags := if b_CommitSHATag b then b_Tags b ++ [bo_CommitSHA opts] else b_Tags b in
  {| Exports := [{| e_Type := "image";
       e_Attrs := <["push" := "true"]> {["name" := Join (imageNames (b_ImageRepos b) tags) ","]} |}];
     Frontend := "dockerfile.v0";
     FrontendAttrs := map_fold (λ k v m, <["build-arg:" +:+ k := Expand v (bk_Getenv p)]> m)
                        ∅ (bo_BuildArgs opts);
     LocalDirs := <["context" := bo_ContextPath opts]>
                    {["dockerfile" := bo_RelativeDockerfilePath opts]};
     CacheImports := []; CacheExports := []; Session := AuthProvider bks |}%string.

(** [sopts.CacheImports = ...] and [sopts.CacheExports = ...]. *)
Definition with_cache (imports exports : list Entry) (s : SolveOpt) : SolveOpt := {|
  Exports := Exports s; Frontend := Frontend s; FrontendAttrs := FrontendAttrs s;
  LocalDirs := LocalDirs s; CacheImports := imports; CacheExports := exports;
  Session := Session s |}.

(** The results of loadCache: the directories its cleanup removes, the export path,
    the error, and the options it changed. *)
Record cache_load := {
  cl_cleanup : list string;
  cl_expath : string;
  cl_err : option error;
  cl_sopts : SolveOpt;
}.

Definition loadCache bks (ctx : context) opts (sopts : SolveOpt) : M W cache_load :=
  r ← attempt (GetBuildByID (bks_dl bks) ctx (bo_BuildID opts));
  match r with
  | Err err => mret {| cl_cleanup := []; cl_expath := "";
                       cl_err := Some (ErrWrap "error getting build by id" err); cl_sopts := sopts |}
  | Panic e => panic e
  | Ok b =>
      if decide (Type_ (bo_Cache opts) = BuildCacheOpts_S3) then
        d ← attempt (bk_TempDir p);
        match d with
        | Err err => mret {| cl_cleanup := []; cl_expath := "";
                             cl_err := Some (ErrWrap "error creating cache export path" err);
                             cl_sopts := sopts |}
        | Panic e => panic e
        | Ok exportpath =>
            let mode := if MaxMode (bo_Cache opts) then "max"%string else "min"%string in
            let sopts := with_cache (CacheImports sopts)
              [{| e_Type := "local"; e_Attrs := <["dest" := exportpath]> {["mode" := mode]} |}] sopts in
            cf ← deref (s3cf bks);
            f ← attempt (cache_Fetch cf ctx b);
            match f with
            | Err err => mret {| cl_cleanup := [exportpath]; cl_expath := exportpath;
                                 cl_err := Some (ErrWrap "error fetching cache from s3" err);
                                 cl_sopts := sopts |}
            | Panic e => panic e
            | Ok path => mret {| cl_cleanup := [exportpath; path]; cl_expath := exportpath;
                cl_err := None;
                cl_sopts := with_cache [{| e_Type := "local"; e_Attrs := {["src" := path]} |}]
                              (CacheExports sopts) sopts |}
            end
        end
      else if decide (Type_ (bo_Cache opts) = BuildCacheOpts_INLINE) then
        mret {| cl_cleanup := []; cl_expath := ""; cl_err := None;
          cl_sopts := with_cache
            ((λ repo, {| e_Type := "registry"; e_Attrs := {["ref" := repo]} |}) <$> b_ImageRepos b)
            [{| e_Type := "inline"; e_Attrs := ∅ |}] sopts |}
      else mret {| cl_cleanup := []; cl_expath := ""; cl_err := None; cl_sopts := sopts |}
  end%string.

Definition saveCache bks (ctx : context) opts (expath : string) : M W () :=
  b ← wrapf "error getting build by id" (GetBuildByID (bks_dl bks) ctx (bo_BuildID opts));
  if decide (Type_ (bo_Cache opts) = BuildCacheOpts_S3) then
    if bool_decide (expath = ""%string) then throw (ErrText "cache export path is empty")
    else cf ← deref (s3cf bks);
         wrapf "error saving exported cache to S3" (cache_Save cf ctx b expath)
  else mret ().

Definition SocketConnectTimeout : Z := 2 * Minute.
Definition SocketConnectRetryDelay : Z := 5 * Second.

(** The loop of VerifyAddr; [n] bounds its rounds ([VerifyAddr_terminates]). *)
Definition verify_loop (n : nat) (addr : string) (deadline : time) : M W () :=
  poll (bk_Now p) (bk_Dial p (TrimPrefix addr "unix://")) (bk_Sleep p SocketConnectRetryDelay)
    (ErrText ("timeout waiting for buildkit socket (" +:+ Duration_String SocketConnectTimeout +:+ ")"))
    n deadline.

(** A sleep lasts at least its duration, so 24 retries fill the two minutes. *)
Definition verify_fuel : nat := 26.

Definition VerifyAddr bks : M W () :=
  now ← run (bk_Now p);
  verify_loop verify_fuel (bks_addr bks) (time_Add now SocketConnectTimeout).

(** [eventWriter.Write]: the number of bytes written; [Sink] is nil or a writer. *)
Definition eventWriter_Write (dl : DataLayer W) (ctx : context) (id : uuid)
    (Sink : option (string → M W Z)) (txt : string) : M W Z :=
  let str := TrimSpace txt in
  if bool_decide (str = ""%string) then mret (Z.of_nat (String.length txt))
  else
    ignore_err (AddEvent dl ctx id str) ;;
    match Sink with
    | Some write => write txt
    | None => mret (Z.of_nat (String.length txt))
    end.

(** An event about a failure of the cache, if there was one. *)
Definition warn bks (ctx : context) (id : uuid) (msg : string) (err : option error) : M W () :=
  match err with
  | Some err => ignore_err (AddEvent (bks_dl bks) ctx id (msg +:+ error_String err))
  | None => mret ()
  end.

(** Once the solver is done: save the cache, report the success. *)
Definition after_solve bks (ctx : context) opts (expath : string) : M W () :=
  r ← attempt (saveCache bks ctx opts expath);
  warn bks ctx (bo_BuildID opts) "warning: error saving build cache: "
    (match r with Err err => Some err | _ => None end) ;;
  r ← attempt (AddEvent (bks_dl bks) ctx (bo_BuildID opts) "solve success");
  match r with
  | Err err => bks_log bks ("error adding success event: build: " +:+
                            uuid_String (bo_BuildID opts) +:+ ": " +:+ error_String err)
  | _ => mret ()
  end.

Definition Build_ bks (ctx : context) opts : M W () :=
  b ← wrapf ("error getting build: " +:+ uuid_String (bo_BuildID opts))
        (GetBuildByID (bks_dl bks) ctx (bo_BuildID opts));
  cl ← loadCache bks ctx opts (genSolveOpt bks b opts);
  warn bks ctx (b_ID b) "warning: error loading cache: " (cl_err cl) ;;
  deferring (λ _, run (λ w, ((), foldl (λ w d, bk_RemoveAll p d w) w (cl_cleanup cl))))
   (wrapf "error verifying that buildkit is available" (VerifyAddr bks) ;;
    wrapf "error running solver" (bc_Solve bks ctx (cl_sopts cl)) ;;
    after_solve bks ctx opts (cl_expath cl)).

Definition solver bks : Builder W := {| builder_Build := Build_ bks |}.
End buildkit.

(** pkg/buildkit/fake.go. *)
Definition FakeBuilder {W} (BuildFunc : option (context → BuildOpts → M W ())) : Builder W := {|
  builder_Build ctx opts := match BuildFunc with Some f => f ctx opts | None => mret () end |}.
