(* ===== verification/BuildkitFacts.v ===== *)
(** * BuildKit builds: the theorems

    The image names and the options of a solve, the wait for the socket, what a
    failure of the cache does, and the directories a build leaves behind. *)

From S2P Require Import Prelude GoStrings GoTime Poll Uuid Models Datalayer FakeDL Buildkit.

#[local] Open Scope Z_scope.

(** ** Image names *)

Section names.
#[local] Open Scope nat_scope.
Context {A : Type}.
Implicit Types (l : list A).

(** Writing [f j] at [base + j] for every [j] below [n]. *)
Lemma foldl_insert_seq (f : nat → A) base n l : base + n ≤ length l →
  foldl (λ out j, <[base + j := f j]> out) l (seq 0 n) =
  take base l ++ (f <$> seq 0 n) ++ drop (base + n) l.
Proof.
  induction n as [|n IH]; intros Hn.
  - simpl. rewrite Nat.add_0_r. by rewrite take_drop.
  - rewrite seq_S, foldl_app, IH by lia. cbn [foldl].
    rewrite insert_app_r_alt by (rewrite length_take; lia).
    rewrite length_take, Nat.min_l by lia. replace (base + (0 + n) - base) with n by lia.
    rewrite insert_app_r_alt by (rewrite length_fmap, length_seq; lia).
    rewrite length_fmap, length_seq, Nat.sub_diag. rewrite fmap_app, <-app_assoc. do 2 f_equal.
    cbn [fmap list_fmap app]. rewrite Nat.add_0_l.
    destruct (drop (base + n) l) as [|x l'] eqn:Hd.
    + apply (f_equal length) in Hd. rewrite length_drop in Hd. simpl in Hd. lia.
    + cbn. f_equal. replace (base + S n) with (base + n + 1) by lia. by rewrite <-drop_drop, Hd.
Qed.

Lemma map_nth_seq {B} (g : A → B) l d : (λ i, g (nth i l d)) <$> seq 0 (length l) = g <$> l.
Proof.
  induction l as [|a l IH]; [done|]. cbn [length seq]. rewrite !fmap_cons. f_equal.
  rewrite <-fmap_S_seq, <-list_fmap_compose. exact IH.
Qed.

Lemma bind_nth_seq {B} (g : A → list B) l d : (seq 0 (length l) ≫= λ i, g (nth i l d)) = l ≫= g.
Proof.
  induction l as [|a l IH]; [done|]. cbn [length seq]. cbn [mbind list_bind]. f_equal.
  rewrite <-IH, <-fmap_S_seq. clear. generalize (seq 0 (length l)). intros k.
  induction k as [|i k IH]; [done|]. cbn [fmap list_fmap mbind list_bind]. f_equal. exact IH.
Qed.
End names.

Lemma imageNames_product_eq repos tags :
  imageNames repos tags = repos ≫= λ repo, (λ tag, repo +:+ ":" +:+ tag) <$> tags.
Proof.
  unfold imageNames. set (n := length tags).
  assert (∀ m l, (m * n ≤ length l)%nat →
    foldl (λ out i, foldl (λ out j, <[(i * n + j)%nat := nth i repos "" +:+ ":" +:+ nth j tags ""]> out)
             out (seq 0 n)) l (seq 0 m) =
    (seq 0 m ≫= λ i, (λ tag, nth i repos "" +:+ ":" +:+ tag) <$> tags) ++ drop (m * n) l) as H.
  { intros m. induction m as [|m IH]; intros l Hl; [done|].
    rewrite seq_S, foldl_app, IH by lia. cbn [foldl].
    assert (∀ k, length (seq 0 k ≫= λ i, (λ tag, nth i repos "" +:+ ":" +:+ tag) <$> tags) = k * n)%nat as Hlen.
    { intros k. induction k as [|k IHk]; [done|]. rewrite seq_S, bind_app, length_app, IHk.
      cbn [mbind list_bind]. rewrite app_nil_r, length_fmap. fold n. lia. }
    rewrite (foldl_insert_seq (λ j, nth (0 + m) repos "" +:+ ":" +:+ nth j tags "") (0 + m * n) n).
    - rewrite Nat.add_0_l, take_app_length' by (by rewrite Hlen).
      rewrite (drop_app_ge _ _ (m * n + n)) by (rewrite Hlen; lia).
      rewrite Hlen, drop_drop. rewrite bind_app, <-app_assoc. f_equal.
      cbn [mbind list_bind]. rewrite app_nil_r. f_equal; [|f_equal; lia].
      apply (map_nth_seq (λ tag, nth m repos "" +:+ ":" +:+ tag)).
    - rewrite length_app, Hlen, length_drop. lia. }
  rewrite H by (rewrite length_replicate; lia).
  rewrite drop_ge by (rewrite length_replicate; lia). rewrite app_nil_r.
  apply (bind_nth_seq (λ repo, (λ tag, repo +:+ ":" +:+ tag) <$> tags)).
Qed.

(** The images a build pushes are every tag in every repository, by repository: the
    index arithmetic of imageNames fills the slice exactly. *)
Theorem imageNames_product repos tags :
  imageNames repos tags = repos ≫= λ repo, (λ tag, repo +:+ ":" +:+ tag) <$> tags.
Proof. apply imageNames_product_eq. Qed.

(** ** The options of a solve *)

Lemma expand_no_dollar f s : ContainsByte s "$" = false → expand f 0 s = s.
Proof.
  induction s as [|c s IH]; [done|]. simpl.
  intros [Hc%bool_decide_eq_false Hs]%orb_false_iff. rewrite decide_False by tauto. by rewrite IH.
Qed.

Lemma map_fold_prefix (f : string → string) pfx (m : gmap string string) :
  let r := map_fold (λ k v acc, <[pfx +:+ k := f v]> acc) (∅ : gmap string string) m in
  (∀ k, r !! (pfx +:+ k) = f <$> m !! k) ∧ (∀ key v, r !! key = Some v → ∃ k, key = pfx +:+ k).
Proof.
  apply (map_fold_weak_ind (λ r m, (∀ k, r !! (pfx +:+ k) = f <$> m !! k) ∧
    (∀ key v, r !! key = Some v → ∃ k, key = pfx +:+ k))).
  - split; [intros k; by rewrite !lookup_empty|by intros key v ?%lookup_empty_Some].
  - intros k v m' r Hk [H1 H2]. split.
    + intros k'. destruct (decide (k = k')) as [<-|Hne]; [by rewrite !lookup_insert_eq|].
      rewrite !lookup_insert_ne; [done|done|]. by intros ?%str_app_inj_l.
    + intros key v'. rewrite lookup_insert_Some. intros [[<- _]|[_ ?]]; [by eexists|by eapply H2].
Qed.

(** What the solver is asked for: one build argument per argument of the build, its
    environment variables expanded (so unchanged when it has no dollar sign), and
    nothing else; the context and Dockerfile directories; and one image export that
    pushes every tag - the commit too, when the build is tagged with it. *)
Theorem genSolveOpt_correct {W} (p : BkProcess W) (bks : BuildSolver W) b opts :
  let s := genSolveOpt p bks b opts in
  (∀ k, FrontendAttrs s !! ("build-arg:" +:+ k) =
        (λ v, Expand v (bk_Getenv p)) <$> bo_BuildArgs opts !! k) ∧
  (∀ key v, FrontendAttrs s !! key = Some v → ∃ k, key = "build-arg:" +:+ k) ∧
  (∀ k v, bo_BuildArgs opts !! k = Some v → ContainsByte v "$" = false →
     FrontendAttrs s !! ("build-arg:" +:+ k) = Some v) ∧
  LocalDirs s !! "context"%string = Some (bo_ContextPath opts) ∧
  LocalDirs s !! "dockerfile"%string = Some (bo_RelativeDockerfilePath opts) ∧
  (∃ e, Exports s = [e] ∧ e_Attrs e !! "push"%string = Some "true"%string ∧
     e_Attrs e !! "name"%string = Some (Join (b_ImageRepos b ≫= λ repo,
       (λ tag, repo +:+ ":" +:+ tag) <$>
         (b_Tags b ++ (if b_CommitSHATag b then [bo_CommitSHA opts] else []))) ",")).
Proof.
  intros s. unfold s, genSolveOpt. cbn [FrontendAttrs LocalDirs Exports].
  destruct (map_fold_prefix (λ v, Expand v (bk_Getenv p)) "build-arg:" (bo_BuildArgs opts)) as [H1 H2].
  split; [exact H1|]. split; [exact H2|]. split.
  { intros k v Hk Hv. rewrite H1, Hk. simpl. f_equal. by apply expand_no_dollar. }
  split_and!; [done|done|]. eexists. split; [done|]. cbn [e_Attrs]. split; [done|].
  assert ((if b_CommitSHATag b then b_Tags b ++ [bo_CommitSHA opts] else b_Tags b) =
          b_Tags b ++ (if b_CommitSHATag b then [bo_CommitSHA opts] else [])) as ->
    by (destruct (b_CommitSHATag b); [done|by rewrite app_nil_r]).
  rewrite imageNames_product_eq. done.
Qed.

(** ** Waiting for the socket *)

Section verify.
Context {W : Type} (p : BkProcess W) (clk : W → Z) (addr : string).
Context (Hclk : clock_laws (bk_Now p) (bk_Dial p (TrimPrefix addr "unix://"))
                  (bk_Sleep p SocketConnectRetryDelay) clk SocketConnectRetryDelay).

(** C33: VerifyAddr ends: within 26 rounds it has connected to the socket or two minutes
    have passed, however fast the dials fail. *)
Theorem VerifyAddr_terminates bks w :
  bks_addr bks = addr → 0 ≤ t_sec (bk_Now p w).1 < 2 ^ 62 →
  wp (VerifyAddr p bks)
     (λ r w', match r with
              | Ok _ => ∃ v, (bk_Dial p (TrimPrefix addr "unix://") v).1 = Ok ()
              | Err _ => clk w + SocketConnectTimeout ≤ clk w'
              | Panic _ => False
              end) w.
Proof.
  intros Ha Hs. unfold VerifyAddr, verify_fuel, verify_loop. rewrite Ha.
  eapply wp_mono; [|apply (poll_for_ends _ _ _ _ clk SocketConnectRetryDelay 25); [done|done|by vm_compute|by vm_compute]].
  intros [[]|err|err] w' H; [done|by destruct H|done].
Qed.
End verify.

(** ** The outcome of a build, and what it leaves behind *)

Section build.
Context {W : Type} (p : BkProcess W) (bks : BuildSolver W).

(** The directories that exist. *)
Context (dirs : W → gset string).

(** A call that makes a new directory and returns its path, or fails and makes none. *)
Definition makes_dir (m : M W string) : Prop := ∀ w,
  match m w with
  | (Ok d, w') => d ∉ dirs w ∧ dirs w' = {[d]} ∪ dirs w
  | (_, w') => dirs w' = dirs w
  end.

(** The calls of the cache's Save so far. *)
Context (saved : W → list (Build * string)).
Definition files (w : W) : gset string * list (Build * string) := (dirs w, saved w).

(** What of the environment of a build touches directories, and saves a cache. *)
Record dir_laws : Prop := {
  dl_tmp : makes_dir (bk_TempDir p);
  dl_tmp_saved : same saved (bk_TempDir p);
  dl_fetch cf ctx b : s3cf bks = Some cf → makes_dir (cache_Fetch cf ctx b);
  dl_fetch_saved cf ctx b : s3cf bks = Some cf → same saved (cache_Fetch cf ctx b);
  dl_remove d w : files (bk_RemoveAll p d w) = (dirs w ∖ {[d]}, saved w);
  dl_save cf ctx b d w : s3cf bks = Some cf → files (cache_Save cf ctx b d w).2 = (dirs w, saved w ++ [(b, d)]);
  dl_get ctx id : same files (GetBuildByID (bks_dl bks) ctx id);
  dl_event ctx id ev : same files (AddEvent (bks_dl bks) ctx id ev);
  dl_solve ctx s : same files (bc_Solve bks ctx s);
  dl_dial a : same files (bk_Dial p a);
  dl_now w : files (bk_Now p w).2 = files w;
  dl_sleep d w : files (bk_Sleep p d w) = files w;
  dl_logf msg : same files (bks_log bks msg);
}.

Context (Hd : dir_laws).

Lemma same_verify_loop n addr deadline : same files (verify_loop p n addr deadline).
Proof. apply same_poll; [apply (dl_now Hd)|apply (dl_dial Hd)|intros w; apply (dl_sleep Hd)]. Qed.

Lemma same_VerifyAddr : same files (VerifyAddr p bks).
Proof.
  apply same_bind; [apply same_run, (dl_now Hd)|]. intros. apply same_verify_loop.
Qed.

Lemma new_dir (m : M W string) w : makes_dir m → same saved m →
  match m w with
  | (Ok d, w') => d ∉ dirs w ∧ files w' = ({[d]} ∪ dirs w, saved w)
  | (_, w') => files w' = files w
  end.
Proof.
  intros Hm Hs. specialize (Hm w). specialize (Hs w). unfold files.
  destruct (m w) as [[d|?|?] w']; cbn in Hs |- *; rewrite Hs; [destruct Hm as [? ->]; done|by rewrite Hm..].
Qed.

(** The cleanup removes the directories [l]. *)
Lemma remove_all l w :
  files (foldl (λ w d, bk_RemoveAll p d w) w l) = (dirs w ∖ list_to_set l, saved w).
Proof.
  revert w. induction l as [|d l IH]; intros w; cbn [foldl list_to_set].
  - unfold files. f_equal. set_solver.
  - rewrite IH. pose proof (dl_remove Hd d w) as Hr. injection Hr as -> ->. f_equal. set_solver.
Qed.

(** The directory the solver exports a local cache to, if it has to. *)
Definition exported (s : SolveOpt) : string :=
  match CacheExports s with
  | [e] => default ""%string (e_Attrs e !! "dest"%string)
  | _ => ""%string
  end.

(** What saveCache saves once it has read the build again. *)
Definition saves (opts : BuildOpts) (r : res Build) (d : string) : list (Build * string) :=
  match r with
  | Ok b => if decide (Type_ (bo_Cache opts) = BuildCacheOpts_S3 ∧ d ≠ ""%string) then [(b, d)] else []
  | _ => []
  end.

(** The options of the solve are those of genSolveOpt, up to the cache; a build with an S3
    cache exports its cache to a new directory, unless that could not be made. *)
Record solve_options (ctx : context) (opts : BuildOpts) (b : Build) (w : W) (s : SolveOpt) : Prop := {
  so_Exports : Exports s = Exports (genSolveOpt p bks b opts);
  so_Frontend : Frontend s = Frontend (genSolveOpt p bks b opts);
  so_FrontendAttrs : FrontendAttrs s = FrontendAttrs (genSolveOpt p bks b opts);
  so_LocalDirs : LocalDirs s = LocalDirs (genSolveOpt p bks b opts);
  so_Session : Session s = Session (genSolveOpt p bks b opts);
  so_export : Type_ (bo_Cache opts) = BuildCacheOpts_S3 →
    (exported s ∉ dirs w ∧ ∃ v, (bk_TempDir p v).1 = Ok (exported s)) ∨
    (exported s = ""%string ∧ ∃ v e, (bk_TempDir p v).1 = Err e ∨
       (GetBuildByID (bks_dl bks) ctx (bo_BuildID opts) v).1 = Err e);
}.

(** loadCache makes new directories, and hands all of them to its cleanup. *)
Lemma wp_loadCache ctx opts b w :
  wp (loadCache p bks ctx opts (genSolveOpt p bks b opts))
     (λ r w', match r with
              | Ok cl => files w' = (list_to_set (cl_cleanup cl) ∪ dirs w, saved w) ∧
                         list_to_set (cl_cleanup cl) ## dirs w ∧
                         cl_expath cl = exported (cl_sopts cl) ∧ solve_options ctx opts b w (cl_sopts cl)
              | Err _ => False
              | Panic _ => True
              end) w.
Proof.
  unfold loadCache. rewrite wp_bind, wp_attempt. unfold wp at 1.
  pose proof (dl_get Hd ctx (bo_BuildID opts) w) as Hg.
  assert (∀ v, files v = files w → files v = (list_to_set [] ∪ dirs w, saved w)) as Hnil.
  { intros v ->. unfold files. f_equal. set_solver. }
  destruct (GetBuildByID _ _ _ w) as [[b1|e|e] w1] eqn:Eg; cbn [fst snd] in *; [| |done].
  2: { rewrite wp_ret. split; [by apply Hnil|]. split; [set_solver|]. split; [done|]. constructor; [done..|]. intros _. right.
       split; [done|]. exists w, e. rewrite Eg. by right. }
  destruct (decide _) as [Hs3|Hs3]; [|destruct (decide _); cbn; (split; [by apply Hnil|]);
    (split; [set_solver|split; [done|constructor; done]])].
  rewrite wp_bind, wp_attempt. unfold wp at 1. pose proof (new_dir _ w1 (dl_tmp Hd) (dl_tmp_saved Hd)) as Ht.
  destruct (bk_TempDir p w1) as [[d|e'|e'] w2] eqn:Et; cbn [fst snd] in *; [| |done].
  2: { rewrite wp_ret. split; [apply Hnil; congruence|]. split; [set_solver|]. split; [done|]. constructor; [done..|]. intros _. right.
       split; [done|]. exists w1, e'. rewrite Et. by left. }
  injection Hg as Hg1 Hg2. rewrite Hg1, Hg2 in Ht. destruct Ht as [Hnew Hw2].
  rewrite wp_bind. destruct (s3cf bks) as [cf|] eqn:Ecf; [|done].
  cbn [deref]. rewrite wp_ret, wp_bind, wp_attempt. unfold wp at 1.
  pose proof (new_dir _ w2 (dl_fetch Hd cf ctx b1 Ecf) (dl_fetch_saved Hd cf ctx b1 Ecf)) as Hf.
  assert (∀ i, solve_options ctx opts b w (with_cache i [{| e_Type := "local"; e_Attrs := <["dest" := d]> {["mode" :=
    if MaxMode (bo_Cache opts) then "max" else "min"]} |}] (genSolveOpt p bks b opts)))%string as Hso.
  { intros i. constructor; try done. intros _. left. unfold exported. cbn [CacheExports with_cache e_Attrs].
    rewrite lookup_insert_eq. split; [done|]. exists w1. by rewrite Et. }
  injection Hw2 as Hw2 Hw2'.
  destruct (cache_Fetch cf ctx b1 w2) as [[d2|e''|e''] w3]; cbn -[genSolveOpt] in *; [| |done].
  - destruct Hf as [Hnew2 Hw3]. rewrite Hw3, Hw2, Hw2'. split; [f_equal; set_solver|].
    split; [set_solver|]. split; [unfold exported; cbn; by rewrite lookup_insert_eq|apply Hso].
  - rewrite Hf. unfold files. rewrite Hw2, Hw2'. split; [f_equal; set_solver|].
    split; [set_solver|]. split; [unfold exported; cbn; by rewrite lookup_insert_eq|apply Hso].
Qed.

(** What Build promises at its end. *)
Definition build_post (ctx : context) (opts : BuildOpts) (w : W) (r : res ()) (w' : W) : Prop :=
  let get w := (GetBuildByID (bks_dl bks) ctx (bo_BuildID opts) w).1 in
  match r with
  | Ok _ => dirs w' = dirs w ∧ ∃ b sopts u v v',
      get w = Ok b ∧ solve_options ctx opts b w sopts ∧
      VerifyAddr p bks u = (Ok (), v) ∧ bc_Solve bks ctx sopts v = (Ok (), v') ∧
      saved w' = saved w ++ saves opts (get v') (exported sopts)
  | Err e => files w' = files w ∧ ∃ c,
      e = ErrWrap ("error getting build: " +:+ uuid_String (bo_BuildID opts)) c ∧ get w = Err c ∨
      e = ErrWrap "error verifying that buildkit is available" c ∧ (∃ u, (VerifyAddr p bks u).1 = Err c) ∨
      e = ErrWrap "error running solver" c ∧
        ∃ b sopts u v, solve_options ctx opts b w sopts ∧ VerifyAddr p bks u = (Ok (), v) ∧
          (bc_Solve bks ctx sopts v).1 = Err c
  | Panic _ => True
  end.

(** Warnings and the end of a build never fail. *)
Definition no_err {A} (m : M W A) : Prop := ∀ w e w', m w ≠ (Err e, w').

Lemma no_err_bind {A B} (m : M W A) (f : A → M W B) :
  no_err m → (∀ a, no_err (f a)) → no_err (m ≫= f).
Proof.
  intros Hm Hf w e w'. unfold mbind, M_bind. specialize (Hm w).
  destruct (m w) as [[a|e1|e1] w1]; [apply Hf| |done]. by destruct (Hm e1 w1).
Qed.
Lemma no_err_attempt {A} (m : M W A) : no_err (attempt m).
Proof. intros w e w'. unfold attempt. by destruct (m w) as [[?|?|?] ?]. Qed.
Lemma no_err_run {A} (f : W → A * W) : no_err (run f).
Proof. intros w e w'. unfold run. by destruct (f w). Qed.

Lemma warn_ok ctx id msg err : same files (warn bks ctx id msg err) ∧ no_err (warn bks ctx id msg err).
Proof.
  destruct err as [err|]; [|done]. split; [apply same_ignore, (dl_event Hd)|].
  apply no_err_bind; [apply no_err_attempt|done].
Qed.

(** saveCache saves the exported cache, with the build as it is then. *)
Lemma wp_saveCache ctx opts d w :
  wp (saveCache bks ctx opts d) (λ r w', (∀ e, r ≠ Panic e) →
    files w' = (dirs w, saved w ++ saves opts (GetBuildByID (bks_dl bks) ctx (bo_BuildID opts) w).1 d)) w.
Proof.
  unfold saveCache. rewrite wp_bind, wp_wrapf. unfold wp at 1. pose proof (dl_get Hd ctx (bo_BuildID opts) w) as Hg.
  assert (∀ v, files v = files w → files v = (dirs w, saved w ++ [])) as Hnil by (intros v ->; by rewrite app_nil_r).
  destruct (GetBuildByID _ _ _ w) as [[b|e|e] w1]; cbn [fst snd saves] in *; [|by intros _; apply Hnil|intros Hp; by destruct (Hp e)].
  destruct (decide (Type_ (bo_Cache opts) = _)) as [Hs3|Hs3].
  - case_bool_decide as Hempty; [rewrite decide_False by tauto; by intros _; apply Hnil|].
    rewrite decide_True by done. destruct (s3cf bks) as [cf|] eqn:Ecf; [|by intros Hp; destruct (Hp _ eq_refl)].
    rewrite wp_bind. cbn [deref]. rewrite wp_ret, wp_wrapf. unfold wp. pose proof (dl_save Hd cf ctx b d w1 Ecf) as Hs.
    injection Hg as Hg1 Hg2. rewrite Hg1, Hg2 in Hs.
    destruct (cache_Save cf ctx b d w1) as [[?|?|?] ?]; by intros _.
  - rewrite decide_False by tauto. by intros _; apply Hnil.
Qed.

Lemma wp_after_solve ctx opts d w :
  wp (after_solve bks ctx opts d) (λ r w',
    match r with
    | Ok _ => files w' = (dirs w, saved w ++ saves opts (GetBuildByID (bks_dl bks) ctx (bo_BuildID opts) w).1 d)
    | Err _ => False
    | Panic _ => True
    end) w.
Proof.
  unfold after_solve. rewrite wp_bind, wp_attempt. eapply wp_mono; [|apply wp_saveCache].
  intros r w1 Hs. destruct r as [[]|e|e]; [..|done]; specialize (Hs ltac:(done)); rewrite <-Hs; clear Hs.
  all: match goal with |- context [warn _ ?c ?i ?m ?r] => destruct (warn_ok c i m r) as [Hw Hn] end.
  all: rewrite wp_bind; unfold wp at 1; specialize (Hw w1); specialize (Hn w1).
  all: destruct (warn _ _ _ _ _ w1) as [[[]|e2|e2] w2]; cbn [fst snd] in *; [|by destruct (Hn e2 w2)|done].
  all: rewrite wp_bind, wp_attempt; unfold wp at 1; rewrite <-Hw.
  all: pose proof (dl_event Hd ctx (bo_BuildID opts) "solve success" w2) as He.
  all: destruct (AddEvent _ _ _ _ w2) as [[[]|e3|e3] w3]; cbn [fst snd] in *; [done| |done].
  all: rewrite <-He; exact (dl_logf Hd _ w3).
Qed.

(** C15: A build succeeds only after its socket took a connection and the solver then
    succeeded with the options of genSolveOpt up to the cache; the S3 cache that the solver
    exported is saved, with the build as it is then, once, and only then.  It fails only
    when the build cannot be read, the socket never opens or the solver fails, with the
    error of that - a cache that cannot be loaded or saved is no failure; and either way
    the directories of the cache are gone. *)
Theorem Build_outcome ctx opts w : wp (Build_ p bks ctx opts) (build_post ctx opts w) w.
Proof.
  unfold Build_. rewrite wp_bind, wp_wrapf. unfold wp at 1.
  pose proof (dl_get Hd ctx (bo_BuildID opts) w) as Hg.
  destruct (GetBuildByID _ _ _ w) as [[b|e|e] w1] eqn:Eg; cbn [fst snd] in *;
    [|cbn; rewrite Eg; split; [done|]; exists e; by left|done].
  rewrite wp_bind. eapply wp_mono; [|apply wp_loadCache].
  intros [cl|e|e] w2 Hcl; [|done|done]. destruct Hcl as (Hw2 & Hdis & Hex & Hopts).
  assert (solve_options ctx opts b w (cl_sopts cl)) as Hopts'.
  { destruct Hopts. injection Hg as Hg _. constructor; try done. by rewrite <-Hg. }
  rewrite wp_bind. unfold wp at 1.
  destruct (warn_ok ctx (b_ID b) "warning: error loading cache: " (cl_err cl)) as [Hwarn Hnoerr].
  specialize (Hwarn w2). specialize (Hnoerr w2).
  destruct (warn _ _ _ _ _ w2) as [[[]|e|e] w3]; cbn [fst snd] in *; [|by destruct (Hnoerr e w3)|done].
  assert (∀ w4 more, files w4 = (dirs w3, saved w3 ++ more) →
            files (foldl (λ w d, bk_RemoveAll p d w) w4 (cl_cleanup cl)) = (dirs w, saved w ++ more)) as Hclean.
  { intros w4 more Hw4. rewrite remove_all. unfold files in *. simplify_eq.
    repeat match goal with H : dirs _ = _ |- _ => rewrite H in * | H : saved _ = _ |- _ => rewrite H in * end.
    f_equal. set_solver. }
  assert (∀ w4, files w4 = files w3 →
            files (foldl (λ w d, bk_RemoveAll p d w) w4 (cl_cleanup cl)) = files w) as Hsame.
  { intros w4 Hw4. rewrite (Hclean w4 []); unfold files in *; by rewrite app_nil_r. }
  rewrite wp_deferring, wp_bind, wp_wrapf. unfold wp at 1. pose proof (same_VerifyAddr w3) as Hv.
  destruct (VerifyAddr p bks w3) as [[[]|e|e] w4] eqn:Ev; cbn [fst snd] in Hv |- *;
    [|rewrite wp_run; cbn; split; [by apply Hsame|]; exists e; right; left; split; [done|]; exists w3; by rewrite Ev
     |by rewrite wp_run].
  rewrite wp_bind, wp_wrapf. unfold wp at 1. pose proof (dl_solve Hd ctx (cl_sopts cl) w4) as Hs.
  destruct (bc_Solve bks ctx (cl_sopts cl) w4) as [[[]|e|e] w5] eqn:Esolve; cbn [fst snd] in Hs |- *;
    [|rewrite wp_run; cbn; split; [apply Hsame; congruence|]; exists e; right; right; split; [done|];
      exists b, (cl_sopts cl), w3, w4; by rewrite Esolve
     |by rewrite wp_run].
  eapply wp_mono; [|apply wp_after_solve]. intros [[]|?|?] w6 Ha; rewrite wp_run; [|done..]. cbn.
  rewrite Hex in Ha. assert (files w5 = files w3) as Hs3 by congruence. injection Hs3 as Hs1 Hs2.
  rewrite Hs1, Hs2 in Ha. pose proof (Hclean w6 _ Ha) as Hend. injection Hend as Hend1 Hend2. split; [done|]. exists b, (cl_sopts cl), w3, w4, w5. by rewrite Eg.
Qed.
End build.

(** ** Witnesses *)

(** The world is the clock, in nanoseconds; nobody listens on the socket. *)
Definition clock_process : BkProcess Z := {|
  bk_TempDir := throw ErrEOF;
  bk_RemoveAll _ w := w;
  bk_Dial _ := throw (ErrNetOp false false);
  bk_Now w := (Time (w / 10 ^ 9) (w `mod` 10 ^ 9), w);
  bk_Sleep d w := w + Z.max 0 d;
  bk_Getenv _ := "";
|}.

Lemma clock_process_laws a :
  clock_laws (bk_Now clock_process) (bk_Dial clock_process a) (bk_Sleep clock_process SocketConnectRetryDelay)
    id SocketConnectRetryDelay.
Proof.
  constructor.
  - intros w. simpl. pose proof (Z.mod_pos_bound w (10 ^ 9) ltac:(lia)).
    pose proof (Z.div_mod w (10 ^ 9) ltac:(lia)). unfold abs_ns. simpl. lia.
  - intros w. unfold SocketConnectRetryDelay, Second. simpl. lia.
  - intros w. split; [simpl; lia|done].
Qed.

Definition sample_solver {W} (dl : DataLayer W) (cf : option (CacheFetcher W)) : BuildSolver W := {|
  bks_dl := dl; s3cf := cf; bc_Solve _ _ := mret (); bks_addr := "unix:///run/buildkit/buildkitd.sock";
  AuthProvider := false; LogF := None |}.

Lemma VerifyAddr_terminates_witness :
  ∃ e w', VerifyAddr clock_process (sample_solver down_dl None) 0 = (Err e, w') ∧
          0 + SocketConnectTimeout ≤ w'.
Proof.
  pose proof (VerifyAddr_terminates clock_process id _ (clock_process_laws _) (sample_solver down_dl None) 0 eq_refl) as H.
  do 2 eexists. split; [vm_compute; reflexivity|]. apply H. vm_compute. split; congruence.
Defined.

(** The world is the set of directories, and the caches that were saved. *)
Notation dir_world := (gset string * list (Build * string))%type.

Definition mkdir_once (d : string) : M (gset string) string := λ w,
  if decide (d ∈ w) then (Err (ErrText "exists"), w) else (Ok d, {[d]} ∪ w).

Definition dir_process : BkProcess dir_world := {|
  bk_TempDir := on_fst (mkdir_once "/tmp/export");
  bk_RemoveAll d w := (w.1 ∖ {[d]}, w.2);
  bk_Dial _ := mret ();
  bk_Now w := (time_zero, w);
  bk_Sleep d w := w;
  bk_Getenv _ := "";
|}.

(** Nothing can be saved. *)
Definition dir_fetcher : CacheFetcher dir_world := {|
  cache_Fetch _ _ := on_fst (mkdir_once "/tmp/cache");
  cache_Save _ b d w := (Err (ErrAWS "SlowDown"), (w.1, w.2 ++ [(b, d)]));
|}.

(** The database has one build, and takes no events. *)
Definition one_build_dl {W} : DataLayer W :=
  let down {A} : M W A := throw (ErrNetOp false false) in {|
  CreateBuild _ _ := down; GetBuildByID _ _ := mret Build_zero; ListBuilds _ _ := down;
  SetBuildCompletedTimestamp _ _ _ := down; SetBuildStatus _ _ _ := down;
  DeleteBuild _ _ := down; CancelBuild _ _ := down; ListenForCancellation _ _ := down;
  ListenForBuildEvents _ _ _ := down; AddEvent _ _ _ := down; SetBuildAsRunning _ _ := down;
  ListenForBuildRunning _ _ := down; SetBuildAsCompleted _ _ _ := down;
  ListenForBuildCompleted _ _ := down; CreateAPIKey _ _ := down; GetAPIKey _ _ := down;
  DeleteAPIKey _ _ := down |}.

Definition s3_opts : BuildOpts := {|
  bo_BuildID := uuid_Nil; bo_ContextPath := "/ctx"; bo_CommitSHA := "0123abc";
  bo_RelativeDockerfilePath := "/ctx"; bo_BuildArgs := ∅;
  bo_Cache := {| Type_ := BuildCacheOpts_S3; MaxMode := true |}; bo_Resources := BuildResources_zero |}.

Lemma mkdir_once_makes d : makes_dir id (mkdir_once d).
Proof. intros w. unfold mkdir_once. by destruct (decide (d ∈ w)). Qed.
Lemma mkdir_on_fst_makes d : makes_dir (fst : dir_world → _) (on_fst (mkdir_once d)).
Proof. intros [w l]. pose proof (mkdir_once_makes d w) as Hm. cbn. by destruct (mkdir_once d w) as [[?|?|?] ?]. Qed.
Lemma mkdir_on_fst_saves d : same (snd : dir_world → _) (on_fst (mkdir_once d)).
Proof. intros [w l]. cbn. by destruct (mkdir_once d w). Qed.

Lemma dir_process_laws : dir_laws dir_process (sample_solver one_build_dl (Some dir_fetcher)) fst snd.
Proof.
  constructor; try done; intros; simplify_eq/=;
    first [apply mkdir_on_fst_makes|apply mkdir_on_fst_saves|done].
Qed.

(** The cache is exported and its Save called, which fails: the build succeeds. *)
Lemma Build_outcome_witness :
  let go := Build_ dir_process (sample_solver one_build_dl (Some dir_fetcher)) CtxCaller s3_opts (∅, []) in
  build_post dir_process (sample_solver one_build_dl (Some dir_fetcher)) fst snd CtxCaller s3_opts (∅, []) go.1 go.2 ∧
  go = (Ok (), (∅, [(Build_zero, "/tmp/export"%string)])).
Proof.
  intros go. split; [|vm_compute; reflexivity].
  apply (Build_outcome dir_process (sample_solver one_build_dl (Some dir_fetcher)) fst snd).
  apply dir_process_laws.
Defined.
