(* ===== verification/Client.v ===== *)
(** * pkg/client: the API client

    [RemoteBuilder] calls the service with the API key as per-RPC credentials.  The gRPC
    connection is a [FuranExecutorClient]; [loopback] is the connection to a server of
    the same process, through its interceptors. *)

From S2P Require Import Prelude GoStrings GoTime Uuid Models Datalayer K8s Grpc.

#[local] Open Scope Z_scope.

(** ** The connection *)

(** A monitoring stream, as the client reads it. *)
Record MonitorClient (W : Type) := { Recv : M W BuildEvent }.
Arguments Recv {_} _ _.

Record FuranExecutorClient (W : Type) := {
  rpc_StartBuild : context → BuildRequest → M W string;
  rpc_GetBuildStatus : context → string → M W BuildStatusResponse;
  rpc_GetBuildEvents : context → string → M W BuildEventsResponse;
  rpc_CancelBuild : context → string → M W string;
  rpc_MonitorBuild : context → string → M W (MonitorClient W);
  rpc_ListBuilds : context → ListBuildsRequest → M W (list (option BuildStatusResponse));
  conn_Close : W → W;
}.
Arguments rpc_StartBuild {_} _ _ _ _.
Arguments rpc_GetBuildStatus {_} _ _ _ _.
Arguments rpc_GetBuildEvents {_} _ _ _ _.
Arguments rpc_CancelBuild {_} _ _ _ _.
Arguments rpc_MonitorBuild {_} _ _ _ _.
Arguments rpc_ListBuilds {_} _ _ _ _.
Arguments conn_Close {_} _ _.

(** The credentials of a call. *)
Record rpcCreds := { apilabel : string; apikey : string }.

Definition GetRequestMetadata (c : rpcCreds) : gmap string string := {[ apilabel c := apikey c ]}.
Definition RequireTransportSecurity (c : rpcCreds) : bool := true.

(** [tls.Config]: whether to skip verification, and the pool of root certificates. *)
Record tls_config := { InsecureSkipVerify : bool; RootCAs : option string }.

Record ClientProcess (W : Type) := {
  cl_ReadFile : string → M W string;
  AppendCertsFromPEM : string → bool;
  Dial : string → rpcCreds → tls_config → M W (FuranExecutorClient W);
}.
Arguments cl_ReadFile {_} _ _ _.
Arguments AppendCertsFromPEM {_} _ _.
Arguments Dial {_} _ _ _ _ _.

(** ** The client *)

Definition DefaultCAPath : string := "/var/run/secrets/kubernetes.io/serviceaccount/ca.crt".

Record client_Options := { Address : string; opt_APIKey : string; TLSInsecureSkipVerify : bool }.

Section client.
Context {W : Type}.

Record RemoteBuilder := { rb_c : FuranExecutorClient W }.

(** [quote] is [%q]. *)
Definition New (p : ClientProcess W) (quote : string → string) (opts : client_Options) : M W RemoteBuilder :=
  let rc := {| apilabel := APIKeyLabel; apikey := opt_APIKey opts |} in
  roots ← (if TLSInsecureSkipVerify opts then mret None
           else
             caCert ← on_err (λ err, ErrText ("failed to read ca-path " +:+ DefaultCAPath +:+ " : " +:+
                                              quote (error_String err)))
                        (cl_ReadFile p DefaultCAPath);
             if AppendCertsFromPEM p caCert then mret (Some caCert)
             else throw (ErrText "failed to parse ca certificate as PEM encoded content"));
  c ← wrapf "error connecting to grpc server"
        (Dial p (Address opts) rc
           {| InsecureSkipVerify := TLSInsecureSkipVerify opts; RootCAs := roots |});
  mret {| rb_c := c |}.

Definition Close (rb : RemoteBuilder) : M W () := run (λ w, ((), conn_Close (rb_c rb) w)).

Definition rb_StartBuild (rb : RemoteBuilder) (ctx : context) (req : BuildRequest) : M W uuid :=
  BuildId ← wrapf "error starting build" (rpc_StartBuild (rb_c rb) ctx req);
  wrapf "malformed build id" (lift_res (FromString BuildId)).

Definition rb_GetBuildStatus (rb : RemoteBuilder) (ctx : context) (id : uuid) : M W BuildStatusResponse :=
  wrapf "error getting build status" (rpc_GetBuildStatus (rb_c rb) ctx (uuid_String id)).

Definition rb_GetBuildEvents (rb : RemoteBuilder) (ctx : context) (id : uuid) : M W BuildEventsResponse :=
  wrapf "error getting build events" (rpc_GetBuildEvents (rb_c rb) ctx (uuid_String id)).

Definition rb_CancelBuild (rb : RemoteBuilder) (ctx : context) (id : uuid) : M W () :=
  rpc_CancelBuild (rb_c rb) ctx (uuid_String id) ;; mret ().

Definition rb_MonitorBuild (rb : RemoteBuilder) (ctx : context) (id : uuid) : M W (MonitorClient W) :=
  rpc_MonitorBuild (rb_c rb) ctx (uuid_String id).

(** The zero value of a response, which stands for a nil one. *)
Definition zero_status : BuildStatusResponse := {|
  rs_BuildId := ""; rs_BuildRequest := None; rs_State := 0; rs_Started := None; rs_Completed := None |}.

Definition rb_ListBuilds (rb : RemoteBuilder) (ctx : context) (req : ListBuildsRequest) :
    M W (list BuildStatusResponse) :=
  Builds ← wrapf "error listing builds" (rpc_ListBuilds (rb_c rb) ctx req);
  mret (default zero_status <$> Builds).
End client.
Arguments RemoteBuilder : clear implicits.

(** ** A server of the same process *)

Section loopback.
Context `{K8sQuantity} {W : Type} (rt : Runtime W) `{SecretBox}.
Context (gr : Server W) (trace : ∀ A, interceptor (W := W) A) (creds : rpcCreds).

(** The metadata the server sees: the pairs of the credentials. *)
Definition incoming : metadata := Some ((λ v, [v]) <$> GetRequestMetadata creds).

(** A call of a method through the interceptors of the server. *)
Definition serve {A} (name : string) (h : M W A) : M W A :=
  chain (interceptors gr (trace A)) ("/" +:+ serviceName +:+ "/" +:+ name) (λ _ _, h) CtxCaller incoming.

(** The call of StartBuild returns the ID only: the goroutine it leaves behind is not part of
    the call, and what it does to the row comes after it (files Grpc, Lifecycle).  The
    streams of MonitorBuild need the network. *)
Definition loopback (monitor : context → string → M W (MonitorClient W)) : FuranExecutorClient W := {|
  rpc_StartBuild ctx req := serve "StartBuild" (p ← StartBuild rt gr ctx req; mret p.1);
  rpc_GetBuildStatus ctx id := serve "GetBuildStatus" (GetBuildStatus gr ctx id);
  rpc_GetBuildEvents ctx id := serve "GetBuildEvents" (GetBuildEvents gr ctx id);
  rpc_CancelBuild ctx id := serve "CancelBuild" (CancelBuild gr ctx id);
  rpc_MonitorBuild ctx id := serve "MonitorBuild" (monitor ctx id);
  rpc_ListBuilds ctx req := serve "ListBuilds" (l ← ListBuilds gr ctx req; mret (Some <$> l));
  conn_Close w := w;
|}.
End loopback.
