(* ===== verification/ClientFacts.v ===== *)
(** * Facts about the API client

    The client against a server of the same process: they agree on keys and on IDs. *)

From S2P Require Import Prelude GoStrings GoTime Uuid Models Datalayer FakeDL K8s Grpc GrpcFacts Client.

#[local] Open Scope Z_scope.

(** ** A call through the interceptors *)

Section calls.
Context `{K8sQuantity} {W X : Type} (gr : Server W) (trace : ∀ A, interceptor (W := W) A) (creds : rpcCreds).
Context (dl : DataLayer W) (obs : W → X).

(** The server of the connection: its data layer is [dl], there is no tracing, and neither
    looking up a key nor logging changes what is observed. *)
Record plain_server : Prop := {
  ps_DL : DL W gr = Some dl;
  ps_APM : APM W (Opts W gr) = false;
  ps_key ctx ak w : obs (GetAPIKey dl ctx ak w).2 = obs w;
  ps_log f msg w : LogFunc W (Opts W gr) = Some f → obs (f msg w) = obs w;
}.
Context (Hgr : plain_server).

Lemma obs_logf {A} (m : M W A) msg w : (∀ w', obs (m w').2 = obs w') → obs ((logf gr msg ;; m) w).2 = obs w.
Proof.
  intros Hm. unfold mbind, M_bind, logf. cbn. rewrite Hm.
  destruct (LogFunc W (Opts W gr)) as [f|] eqn:E; [|done]. by apply (ps_log Hgr).
Qed.

Lemma obs_apiKeyAuth ctx md rpc w : obs (apiKeyAuth gr ctx md rpc w).2 = obs w.
Proof.
  unfold apiKeyAuth. destruct (methods W gr) as [ms|]; [|by apply obs_logf].
  destruct (ms !! rpc); [|by apply obs_logf]. destruct md as [m|]; [|by apply obs_logf].
  destruct (md_Get m) as [|k [|? ?]]; [by apply obs_logf| |by apply obs_logf].
  destruct (FromString k) as [ak|?|?]; [|by apply obs_logf|done].
  rewrite (ps_DL Hgr). unfold mbind, M_bind, attempt. cbn [deref mret M_ret]. unfold mret, M_ret.
  pose proof (ps_key Hgr ctx ak w) as Hk.
  destruct (GetAPIKey dl ctx ak w) as [[a|e|?] w'] eqn:E; cbn in *; [| |done].
  - destruct (_ && _); [|done]. rewrite <-Hk. by apply obs_logf.
  - rewrite <-Hk. destruct e; by apply obs_logf.
Qed.

(** The check itself never fails: it says yes or no. *)
Lemma apiKeyAuth_answers ctx md rpc w e : (apiKeyAuth gr ctx md rpc w).1 ≠ Err e.
Proof.
  unfold apiKeyAuth. destruct (methods W gr) as [ms|]; [|done].
  destruct (ms !! rpc); [|done]. destruct md as [m|]; [|done].
  destruct (md_Get m) as [|k [|? ?]]; [done| |done].
  destruct (FromString k) as [ak|?|?]; [|done|done].
  rewrite (ps_DL Hgr). unfold mbind, M_bind, attempt. cbn [deref mret M_ret]. unfold mret, M_ret.
  destruct (GetAPIKey dl ctx ak w) as [[a|er|?] w']; cbn; [by destruct (_ && _)|by destruct er|done].
Qed.

Definition refusal : error := ErrStatus Unauthenticated "failed API key authentication".

(** A call comes back with what the method did, or was not let in and changed no build. *)
Lemma serve_cases {A} name (h : M W A) w :
  (∃ w1, obs w1 = obs w ∧ serve gr trace creds name h w = h w1) ∨
  (obs (serve gr trace creds name h w).2 = obs w ∧
   ((serve gr trace creds name h w).1 = Err refusal ∨
    ∃ m, (serve gr trace creds name h w).1 = Panic m)).
Proof.
  unfold serve, interceptors. rewrite (ps_APM Hgr). cbn [chain foldr]. unfold auth_interceptor, mbind, M_bind.
  set (rpc := "/" +:+ _). pose proof (obs_apiKeyAuth CtxCaller (incoming creds) rpc w) as Ho.
  pose proof (apiKeyAuth_answers CtxCaller (incoming creds) rpc w) as Hne.
  destruct (apiKeyAuth gr CtxCaller (incoming creds) rpc w) as [[[]|e|?] w1]; cbn in *.
  - left. by exists w1.
  - right. split; [done|by left].
  - by destruct (Hne e).
  - right. split; [done|right; by eexists].
Qed.

(** So what holds after the method, and of any failure, holds after the call. *)
Lemma wp_serve {A} name (h : M W A) (Q : res A → W → Prop) w :
  (∀ w1, obs w1 = obs w → wp h Q w1) → (∀ w1, Q (Err refusal) w1) → (∀ m w1, Q (Panic m) w1) →
  wp (serve gr trace creds name h) Q w.
Proof.
  intros Hh He Hp. unfold wp. destruct (serve_cases name h w) as [(w1 & Ho & ->)|[_ [->|[m ->]]]]; [|done..].
  by apply Hh.
Qed.
End calls.

Section facts.
Context `{K8sQuantity} {W : Type} (rt : Runtime W) `{SecretBox}.
Context (gr : Server W) (trace : ∀ A, interceptor (W := W) A) (key : uuid)
  (monitor : context → string → M W (MonitorClient W)).

Definition key_creds : rpcCreds := {| apilabel := APIKeyLabel; apikey := uuid_String key |}.
Definition remote : RemoteBuilder W := {| rb_c := loopback rt gr trace key_creds monitor |}.

(** The key of the client is the one the interceptor looks up. *)
Lemma incoming_key : md_Get <$> incoming key_creds = Some [uuid_String key].
Proof.
  unfold incoming, key_creds, GetRequestMetadata, md_Get. cbn [fmap option_fmap option_map apilabel apikey].
  by rewrite map_fmap_singleton, lookup_singleton_eq.
Qed.

Context (dl : DataLayer W) (obs : W → gmap uuid Build) `{!DataLayerSpec dl obs}.
Context (Hgr : plain_server gr dl obs).

(** Of a computation only its last call matters for what is said of a successful result. *)
Lemma wp_last {A B} (m : M W A) (f : A → M W B) (P : B → W → Prop) w :
  (∀ a w', returns m a → wp (f a) (λ r w'', ∀ b, r = Ok b → P b w'') w') →
  wp (m ≫= f) (λ r w'', ∀ b, r = Ok b → P b w'') w.
Proof.
  intros Hf. rewrite wp_bind. unfold wp at 1. destruct (m w) as [[a|?|?] w'] eqn:E; [|done..].
  apply Hf. by do 2 eexists.
Qed.

(** The stored build is the one that was asked for. *)
Record as_asked (req : BuildRequest) (bd : BuildDefinition) (b : Build) : Prop := {
  aa_repo : b_GitHubRepo b = bd_GithubRepo bd;
  aa_ref : b_GitHubRef b = bd_Ref bd;
  aa_tags : b_Tags b = bd_Tags bd;
  aa_sha : b_CommitSHATag b = bd_TagWithCommitSha bd;
  aa_repos : default [] (rq_Push req) = Some <$> b_ImageRepos b;
  aa_args : bo_BuildArgs (b_BuildOptions b) = bd_Args bd;
  aa_dockerfile : bo_RelativeDockerfilePath (b_BuildOptions b) =
    (if decide (bd_DockerfilePath bd = ""%string) then "."%string else bd_DockerfilePath bd);
  aa_resources : bo_Resources (b_BuildOptions b) = default BuildResources_zero (bd_Resources bd);
  aa_cache : ∀ c, bd_CacheOptions bd = Some c → Type_ c ≠ BuildCacheOpts_UNKNOWN →
    bo_Cache (b_BuildOptions b) = c;
  aa_skip : rq_SkipIfExists (b_Request b) = rq_SkipIfExists req;
}.

Lemma returns_mapM_deref {A} (l : list (option A)) r : returns (W := W) (mapM deref l) r → l = Some <$> r.
Proof.
  revert r. induction l as [|[a|] l IH]; intros r (v & v' & Hr); cbn in Hr; [by injection Hr as <- _| |done].
  unfold mbind, M_bind, mret, M_ret in Hr.
  destruct (mapM deref l v) as [[l'|?|?] v1] eqn:E; [|done..]. injection Hr as <- _.
  cbn. f_equal. apply IH. by exists v, v1.
Qed.

(** A started build is stored, not started, under the ID that is returned, with the
    credential of the request encrypted with the key and the nonce of the server. *)
Definition stored (req : BuildRequest) (sid : string) (w' : W) : Prop :=
  ∃ id b bd rnd w0 b0 b1, sid = uuid_String id ∧ obs w' !! id = Some b ∧ b_ID b = id ∧
    b_Status b = BuildStatusNotStarted ∧ rq_Build req = Some bd ∧ bd_GithubCredential bd ≠ ""%string ∧
    (rand_Read rt 24 w0).1 = rnd ∧
    EncryptAndSetGitHubCredential rnd.1 rnd.2 (String.list_ascii_of_string (bd_GithubCredential bd))
      (CredentialDecryptionKey W (Opts W gr)) b0 = Ok b1 ∧
    b_EncryptedGitHubCredential b = b_EncryptedGitHubCredential b1 ∧ as_asked req bd b.

Lemma StartBuild_stores ctx req w :
  wp (StartBuild rt gr ctx req) (λ r w', ∀ p, r = Ok p → stored req p.1 w') w.
Proof.
  unfold StartBuild. apply wp_last. intros bd w1 (? & ? & Hbd).
  assert (rq_Build req = Some bd) as Hreq by (destruct (rq_Build req); [by injection Hbd as -> _|done]).
  case_bool_decide; [done|]. case_bool_decide; [done|].
  apply wp_last. intros cff w2 _. apply wp_last. intros sha w3 _. case_bool_decide; [done|].
  apply wp_last. intros repos w4 Hrepos%returns_mapM_deref. case_bool_decide as Hcred; [done|].
  apply wp_last. intros rnd w5 (v & v' & Hrnd). unfold run in Hrnd.
  destruct (rand_Read rt 24 v) as [rd v1] eqn:Erd. injection Hrnd as -> _.
  apply wp_last. intros b1 w6 (? & ? & Henc)%returns_on_err. injection Henc as Henc _.
  apply wp_last. intros res w7 Hres.
  assert (res = default BuildResources_zero (bd_Resources bd)) as ->.
  { destruct Hres as (v3 & v4 & Hres). cbn [bd_Resources clear_credential] in Hres.
    destruct (bd_Resources bd) as [rs|]; [|by injection Hres as <- _].
    unfold mbind, M_bind, mret, M_ret in Hres.
    destruct (check_resources _ rs v3) as [[?|?|?] ?]; [by injection Hres as <- _|done..]. }
  rewrite (ps_DL _ _ _ Hgr), wp_bind. cbn [deref]. rewrite wp_ret, wp_bind, wp_on_err.
  eapply wp_mono; [|apply (spec_Create ctx _ w7)]. intros [id|?|?] w8 Hc; [|done..].
  destruct Hc as (b' & Hobs & Hc). rewrite wp_ret. intros p [= <-]. cbn [fst]. exists id, b', bd, rnd, v. eexists _, b1.
  rewrite Hobs, lookup_insert_eq, Erd. split_and!; [done..|by apply (cf_id _ _ _ Hc)|by apply (cf_status _ _ _ Hc)|done|done|done|exact Henc|by rewrite (cf_cred _ _ _ Hc)|].
  pose proof (Encrypt_fields _ _ _ _ _ _ Henc) as Hb1. destruct Hc.
  constructor; [rewrite cf_repo|rewrite cf_ref|rewrite cf_tags|rewrite cf_sha|rewrite cf_repos|rewrite cf_args
    |rewrite cf_dockerfile|rewrite cf_resources|intros c Hc Ht; rewrite cf_cache|]; cbn; try (by rewrite Hb1); try done.
  - unfold cache_options. cbn [bd_CacheOptions clear_credential]. rewrite Hc. by apply decide_False.
  - apply (f_equal rq_SkipIfExists) in cf_request. rewrite Hb1 in cf_request. exact cf_request.
Qed.

(** What the client says of the status of a build that is there: that status, or an error
    that is not "not found" and not about the ID. *)
Definition sees (id : uuid) (status : Z) (w : W) (r : res BuildStatusResponse) (w' : W) : Prop :=
  obs w' = obs w ∧
  match r with
  | Ok resp => rs_BuildId resp = uuid_String id ∧ rs_State resp = State status
  | Err e => e ≠ ErrWrap "error getting build status" (invalid "build not found") ∧
             ∀ m, e ≠ ErrWrap "error getting build status" (invalid ("invalid build id: " +:+ m))
  | Panic _ => True
  end.

Lemma client_finds ctx id b w : obs w !! id = Some b → b_ID b = id →
  wp (rb_GetBuildStatus remote ctx id) (sees id (b_Status b) w) w.
Proof.
  intros Hb Hid. unfold rb_GetBuildStatus. rewrite wp_wrapf. unfold wp, sees. cbn [rb_c remote loopback rpc_GetBuildStatus].
  destruct (serve_cases gr trace key_creds dl obs Hgr "GetBuildStatus" (GetBuildStatus gr ctx (uuid_String id)) w) as [(w2 & Hobs & ->)|[Hobs Hno]].
  - unfold GetBuildStatus, parse_id, get_build, mbind, M_bind, on_err, lift_res.
    rewrite FromString_String, (ps_DL _ _ _ Hgr). cbn [deref]. unfold mret, M_ret.
    pose proof (spec_Get ctx id w2) as Hget. unfold wp in Hget.
    destruct (GetBuildByID dl ctx id w2) as [[b2|e|m] w3]; cbn -[decide] in Hget |- *.
    + destruct Hget as [Ho Hl]. split; [congruence|]. rewrite Hobs, Hb in Hl. injection Hl as ->.
      cbn in Hid |- *. by rewrite Hid.
    + destruct Hget as [Ho Hl]. split; [congruence|].
      assert (e ≠ ErrNotFound) as He by (intros ->; by rewrite Hobs, Hb in Hl).
      rewrite decide_False by done. split; [by intros [=]|by intros m [=]].
    + by destruct Hget.
  - destruct (serve _ _ _ _ _ w) as [[resp|e|m] w2] eqn:E; cbn in *; [by destruct Hno as [|[? ?]]| |done].
    split; [done|]. destruct Hno as [[= ->]|[? ?]]; [|done]. split; [by intros [=]|by intros m [=]].
Qed.
End facts.

(** C20: the client and the server agree on the ID of a build.  When the client is told the
    ID of the build it started, the row of that ID is what was asked for, not started.  From
    then on the goroutine of StartBuild, the job and other clients may change the row; in
    every world in which it is still there the client that asks for the status of that ID
    is told the status the row has, under that ID, or gets an error that is not "not found"
    and does not call the ID malformed. *)
Theorem client_sees_its_build `{K8sQuantity} {W} (rt : Runtime W) `{SecretBox} (gr : Server W)
    trace key monitor dl obs `{!DataLayerSpec dl obs} ctx req w :
  plain_server gr dl obs →
  wp (rb_StartBuild (remote rt gr trace key monitor) ctx req) (λ r w1,
    match r with
    | Ok id =>
        (∃ b bd, obs w1 !! id = Some b ∧ b_ID b = id ∧ b_Status b = BuildStatusNotStarted ∧
                 rq_Build req = Some bd ∧ as_asked req bd b) ∧
        ∀ w2 b, obs w2 !! id = Some b → b_ID b = id →
          wp (rb_GetBuildStatus (remote rt gr trace key monitor) ctx id) (sees obs id (b_Status b) w2) w2
    | Err e => ∃ e', e = ErrWrap "error starting build" e'
    | Panic _ => True
    end) w.
Proof.
  intros Hgr. unfold rb_StartBuild. rewrite wp_bind, wp_wrapf. unfold wp at 1. cbn [rb_c remote loopback rpc_StartBuild].
  pose proof (serve_cases gr trace (key_creds key) dl obs Hgr "StartBuild" (p ← StartBuild rt gr ctx req; mret p.1) w) as Hs.
  destruct (serve _ _ _ _ _ w) as [[BuildId|e|m] w1]; cbn [fst snd]; [|by eexists|done].
  destruct Hs as [(w0 & _ & Hs)|[_ Hs]]; [|by destruct Hs as [|[? ?]]].
  pose proof (StartBuild_stores rt gr dl obs Hgr ctx req w0) as Hst. unfold wp in Hst.
  unfold mbind, M_bind in Hs. destruct (StartBuild rt gr ctx req w0) as [[p|?|?] w1']; [|done..].
  unfold mret, M_ret in Hs. injection Hs as -> ->. destruct (Hst p eq_refl) as (id & b & bd & rnd & v & b0 & b1 & Hp & Hb & Hid & Hst' & Hbd & _ & _ & _ & _ & Has).
  cbn [fst snd] in *. rewrite Hp, wp_wrapf, wp_lift_res, FromString_String.
  split; [by exists b, bd|]. intros w2 b2 Hb2 Hid2. by apply (client_finds rt gr trace key monitor dl obs Hgr).
Qed.

(** ** Witness *)

#[local] Existing Instance milli_quantity.

Definition plain_sample : Server fake_world := {|
  DL := Some Fake.dl; BM := Some failing_manager; CFFactory := Some sample_fetcher;
  Opts := {| APM := false; CredentialDecryptionKey := []; Cache := BuildCacheOpts_zero;
             LogFunc := None; JobHandoffTimeout := 0;
             MaxResources := {| MaxCPUReq := milli 0; MaxMemReq := milli 0; MaxCPULim := milli 0;
                                MaxMemLim := milli 0 |} |};
  methods := match methodsFromFuranService (Ok {[ serviceName := FuranExecutor ]}) with
             | Ok ms => Some ms | _ => None end;
|}.

(** The store with one key. *)
Definition keyed_world : fake_world :=
  (Fake.CreateAPIKey {| ak_ID := uuid_Nil; ak_Created := time_zero; ak_GitHubUser := ""; ak_Name := "ci";
                        ak_Description := ""; ak_ReadOnly := false |} fake_empty).2.

Lemma GetAPIKey_d ctx ak (w : fake_world) : Fake.d (store (GetAPIKey Fake.dl ctx ak w).2) = Fake.d (store w).
Proof.
  change (wp (Fake.GetAPIKey ak) (λ _ w', Fake.d (store w') = Fake.d (store w)) w).
  unfold Fake.GetAPIKey. wp_simpl.
  assert (∀ s, Fake.d (Fake.init_store s) = Fake.d s) as Hd by (intros s; unfold Fake.d, Fake.init_store; by destruct (fd_d (fdl s))).
  destruct (_ !! ak); wp_simpl; exact (Hd (store w)).
Qed.

Lemma GetAPIKey_same ctx ak (w : fake_world) : fake_obs (GetAPIKey Fake.dl ctx ak w).2 = fake_obs w.
Proof. unfold fake_obs. by rewrite GetAPIKey_d. Qed.

Lemma plain_sample_ok : plain_server plain_sample Fake.dl fake_obs.
Proof. constructor; try done. apply GetAPIKey_same. Qed.

Definition sample_remote : RemoteBuilder fake_world :=
  remote idle_runtime plain_sample (λ _ _ h, h) uuid_Nil (λ _ _, throw ErrEOF).

Definition sample_start : res uuid * fake_world := rb_StartBuild sample_remote CtxCaller sample_request keyed_world.
Definition sample_id : uuid := match sample_start.1 with Ok id => id | _ => uuid_Nil end.

Lemma sample_started : rb_StartBuild sample_remote CtxCaller sample_request keyed_world = (Ok sample_id, sample_start.2).
Proof.
  assert (isOk sample_start.1 = true) as Ho by (vm_compute; reflexivity). fold sample_start. unfold sample_id.
  by destruct sample_start as [[?|?|?] ?].
Qed.

(** The build of [sample_request] is started; its status is read after the server's
    goroutine, which finds no build manager that works, has completed it as failed. *)
Definition sample_later : fake_world :=
  (start_job idle_runtime plain_sample sample_id BuildOpts_zero sample_start.2).2.

Lemma client_sees_its_build_witness :
  wp (rb_GetBuildStatus sample_remote CtxCaller sample_id)
    (sees fake_obs sample_id BuildStatusNotStarted sample_start.2) sample_start.2 ∧
  wp (rb_GetBuildStatus sample_remote CtxCaller sample_id)
    (sees fake_obs sample_id BuildStatusFailure sample_later) sample_later.
Proof.
  pose proof (client_sees_its_build idle_runtime plain_sample (λ _ _ h, h) uuid_Nil (λ _ _, throw ErrEOF)
    Fake.dl fake_obs CtxCaller sample_request keyed_world plain_sample_ok) as H.
  unfold wp at 1 in H. fold sample_remote in H. rewrite sample_started in H. destruct H as [(b & bd & Hb & Hid & Hs & _) H].
  split; [rewrite <-Hs; by apply H|].
  assert ((λ b, (b_Status b, bool_decide (b_ID b = sample_id))) <$> (fake_obs sample_later !! sample_id) =
          Some (BuildStatusFailure, true)) as Hlater by (vm_compute; reflexivity).
  apply fmap_Some in Hlater as (b' & Hb' & Heq). injection Heq as Hs' Hid'. symmetry in Hid'.
  rewrite Hs'. apply H; [done|by eapply bool_decide_eq_true_1].
Defined.
