(* ===== verification/S3.v ===== *)
(** * pkg/s3: the build cache in S3

    [CacheManager] is the [models.CacheFetcher] of a job: it moves the cache of a
    repository between a directory and an object in a bucket, through an archive in a
    temporary file. *)

From S2P Require Import Prelude GoStrings GoPath GoTime Uuid Models Datalayer.

#[local] Open Scope Z_scope.

(** ** What the libraries and the process give *)

(** [aws.Config] as dlclient and ulclient fill it. *)
Record aws_config := {
  cfg_Region : string;
  cfg_AccessKeyID : string;
  cfg_SecretAccessKey : string;
  cfg_Endpoint : string;
  cfg_DisableSSL : bool;
  cfg_S3ForcePathStyle : bool;
}.

(** A downloader writes the object of a bucket under a key into a file, and an uploader
    reads it from one; the first returns the number of bytes. *)
Definition DownloaderAPI (W : Type) : Type := context → string → string → string → M W Z.
Definition UploaderAPI (W : Type) : Type := context → string → string → string → M W ().

Record S3Process (W : Type) := {
  aws_NewSession : aws_config → res ();
  NewDownloader : DownloaderAPI W;
  NewUploader : UploaderAPI W;
  Unarchive : string → string → M W ();           (* the archive, the directory *)
  TarGz_Archive : list string → string → M W ();  (* the files, the archive *)
  s3_TempFile : string → M W string;              (* the pattern; the file, open *)
  s3_TempDir : string → M W string;
  s3_Remove : string → W → W;
  s3_RemoveAll : string → W → W;
  s3_ReadDir : string → M W (list string);
  s3_Open : string → M W ();
  s3_Stat : string → M W Z;                       (* the size of the open file *)
  s3_Now : W → time * W;
  s3_Since : time → W → Z * W;
}.
Arguments aws_NewSession {_} _ _.
Arguments NewDownloader {_} _ _ _ _ _.
Arguments NewUploader {_} _ _ _ _ _.
Arguments Unarchive {_} _ _ _ _.
Arguments TarGz_Archive {_} _ _ _ _.
Arguments s3_TempFile {_} _ _ _.
Arguments s3_TempDir {_} _ _ _.
Arguments s3_Remove {_} _ _ _.
Arguments s3_RemoveAll {_} _ _ _.
Arguments s3_ReadDir {_} _ _ _.
Arguments s3_Open {_} _ _ _.
Arguments s3_Stat {_} _ _ _.
Arguments s3_Now {_} _ _.
Arguments s3_Since {_} _ _ _.

Record CacheManager (W : Type) := {
  cm_AccessKeyID : string;
  cm_SecretAccessKey : string;
  cm_Region : string;
  cm_Bucket : string;
  cm_Keypfx : string;
  cm_Host : string;
  cm_DL : DataLayer W;
  S3UploaderFactoryFunc : option (UploaderAPI W);
  S3DownloaderFactoryFunc : option (DownloaderAPI W);
}.
Arguments cm_AccessKeyID {_} _.
Arguments cm_SecretAccessKey {_} _.
Arguments cm_Region {_} _.
Arguments cm_Bucket {_} _.
Arguments cm_Keypfx {_} _.
Arguments cm_Host {_} _.
Arguments cm_DL {_} _.
Arguments S3UploaderFactoryFunc {_} _.
Arguments S3DownloaderFactoryFunc {_} _.

(** ** The cache manager *)

Section s3.
Context {W : Type} (p : S3Process W).
Implicit Types cm : CacheManager W.

Definition s3_config cm : aws_config := {|
  cfg_Region := cm_Region cm; cfg_AccessKeyID := cm_AccessKeyID cm;
  cfg_SecretAccessKey := cm_SecretAccessKey cm; cfg_Endpoint := cm_Host cm;
  cfg_DisableSSL := true; cfg_S3ForcePathStyle := true |}.

Definition session_error {A} (r : res A) : M W A :=
  on_err (λ err, ErrText ("error getting aws session: " +:+ error_String err)) (lift_res r).

Definition dlclient cm : M W (DownloaderAPI W) :=
  session_error (aws_NewSession p (s3_config cm)) ;;
  mret (default (NewDownloader p) (S3DownloaderFactoryFunc cm)).

Definition ulclient cm : M W (UploaderAPI W) :=
  session_error (aws_NewSession p (s3_config cm)) ;;
  mret (default (NewUploader p) (S3UploaderFactoryFunc cm)).

Definition keyForBuild cm (b : Build) : string :=
  cm_Keypfx cm +:+ b_GitHubRepo b +:+ "_buildcache.tar.gz".

(** The codes of AWS hold no percent sign, so fmt.Errorf leaves them as they are. *)
Definition awsError (err : error) : error :=
  match err with ErrAWS code => ErrText code | _ => err end.

Definition cm_event cm (ctx : context) (id : uuid) (msg : string) : M W () :=
  ignore_err (AddEvent (cm_DL cm) ctx id msg).

(** [time.Since(start)] as the events print it. *)
Definition elapsed (start : time) : M W string :=
  d ← run (s3_Since p start); mret (Duration_String d).

(** [defer os.Remove(f.Name())]. *)
Definition removing {A} (f : string) (m : M W A) : M W A :=
  deferring (λ _, run (λ w, ((), s3_Remove p f w))) m.

Definition s3_Fetch cm (ctx : context) (b : Build) : M W string :=
  dlc ← wrapf "error getting S3 downloader" (dlclient cm);
  f ← wrapf "error creating temp file" (s3_TempFile p "s3-cache-fetch-*.tar.gz");
  removing f
   (let key := keyForBuild cm b in
    cm_event cm ctx (b_ID b) ("downloading cache: s3://" +:+ cm_Bucket cm +:+ "/" +:+ key) ;;
    start ← run (s3_Now p);
    n ← on_err (λ err, ErrWrap "error downloading cache from S3" (awsError err))
          (dlc ctx (cm_Bucket cm) key f);
    e ← elapsed start;
    cm_event cm ctx (b_ID b) ("successfully downloaded cache from S3 (size " +:+ fmt_int n +:+
                              " bytes; elapsed: " +:+ e +:+ ")") ;;
    start ← run (s3_Now p);
    dir ← wrapf "error getting temp dir" (s3_TempDir p "build-cache-*");
    r ← attempt (Unarchive p f dir);
    match r with
    | Err err => run (λ w, ((), s3_RemoveAll p dir w)) ;;
                 throw (ErrWrap "error unarchiving build cache" err)
    | _ =>
        e ← elapsed start;
        cm_event cm ctx (b_ID b) ("successfully unarchived build cache (elapsed: " +:+ e +:+ ")") ;;
        mret dir
    end).

Definition s3_Save cm (ctx : context) (b : Build) (path : string) : M W () :=
  ulc ← wrapf "error getting s3 uploader" (ulclient cm);
  f ← wrapf "error getting temp file" (s3_TempFile p "s3-cache-save-*.tar.gz");
  removing f
   (cm_event cm ctx (b_ID b) "archiving build cache snapshot" ;;
    start ← run (s3_Now p);
    names ← wrapf "error listing cache files" (s3_ReadDir p path);
    wrapf "error archiving build cache" (TarGz_Archive p (map (Join2 path) names) f) ;;
    e ← elapsed start;
    cm_event cm ctx (b_ID b) ("archived build cache (elapsed: " +:+ e +:+ ")") ;;
    wrapf "error opening archive" (s3_Open p f) ;;
    fi ← attempt (s3_Stat p f);
    let sz := match fi with Ok size => size | _ => 0 end in
    let key := keyForBuild cm b in
    start ← run (s3_Now p);
    cm_event cm ctx (b_ID b) ("uploading cache: s3://" +:+ cm_Bucket cm +:+ "/" +:+ key) ;;
    on_err (λ err, ErrWrap "error uploading build cache" (awsError err))
      (ulc ctx (cm_Bucket cm) key f) ;;
    e ← elapsed start;
    cm_event cm ctx (b_ID b) ("successfully uploaded cache from S3 (size " +:+ fmt_int sz +:+
                              " bytes; elapsed: " +:+ e +:+ ")")).

(** [*CacheManager] as a [models.CacheFetcher]. *)
Definition cache_manager cm : CacheFetcher W := {|
  cache_Fetch := s3_Fetch cm;
  cache_Save := s3_Save cm;
|}.
End s3.
