(* ===== verification/S3Facts.v ===== *)
(** * Facts about the S3 cache

    What the cache manager leaves on the disk, its keys, and a round trip through a
    bucket. *)

From S2P Require Import Prelude GoStrings GoPath GoTime Uuid Models Datalayer Buildkit BuildkitFacts S3.

#[local] Open Scope Z_scope.

Section disk.
Context {W : Type} (p : S3Process W) (cm : CacheManager W) (temps : W → gset string).

(** What of the environment of the cache manager touches temporary paths. *)
Record temp_laws : Prop := {
  tl_file pat : makes_dir temps (s3_TempFile p pat);
  tl_dir pat : makes_dir temps (s3_TempDir p pat);
  tl_Remove f w : temps (s3_Remove p f w) = temps w ∖ {[f]};
  tl_RemoveAll d w : temps (s3_RemoveAll p d w) = temps w ∖ {[d]};
  tl_unarchive f d : same temps (Unarchive p f d);
  tl_unarchive_total f d w m : (Unarchive p f d w).1 ≠ Panic m;
  tl_archive l f : same temps (TarGz_Archive p l f);
  tl_download ctx b k f : same temps (default (NewDownloader p) (S3DownloaderFactoryFunc cm) ctx b k f);
  tl_upload ctx b k f : same temps (default (NewUploader p) (S3UploaderFactoryFunc cm) ctx b k f);
  tl_readdir d : same temps (s3_ReadDir p d);
  tl_open f : same temps (s3_Open p f);
  tl_stat f : same temps (s3_Stat p f);
  tl_now w : temps (s3_Now p w).2 = temps w;
  tl_since t w : temps (s3_Since p t w).2 = temps w;
  tl_event ctx id ev : same temps (AddEvent (cm_DL cm) ctx id ev);
  tl_event_total ctx id ev w m : (AddEvent (cm_DL cm) ctx id ev w).1 ≠ Panic m;
}.

Context (HT : temp_laws).

Lemma same_event ctx id msg : same temps (cm_event cm ctx id msg).
Proof. apply same_ignore, (tl_event HT). Qed.

Lemma same_elapsed t : same temps (elapsed p t).
Proof. apply same_bind; [apply same_run, (tl_since HT)|done]. Qed.

Lemma same_now : same temps (run (s3_Now p)).
Proof. apply same_run, (tl_now HT). Qed.

Lemma makes_after {A} (m : M W A) (f : A → M W string) :
  same temps m → (∀ a, makes_dir temps (f a)) → makes_dir temps (m ≫= f).
Proof.
  intros Hm Hf w. unfold mbind, M_bind. specialize (Hm w).
  destruct (m w) as [[a|e|e] w']; cbn in *; [|done..]. specialize (Hf a w').
  destruct (f a w') as [[d|?|?] w'']; [destruct Hf as [Hd Hw]|..]; rewrite ?Hm in *; done.
Qed.

(** The rest of Fetch, once it has its directory: the directory stays only if it is
    returned. *)
Lemma unarchive_tail ctx id f dir start w :
  dir ∈ temps w →
  let r := (r ← attempt (Unarchive p f dir);
            match r with
            | Err err => run (λ w, ((), s3_RemoveAll p dir w)) ;;
                         throw (ErrWrap "error unarchiving build cache" err)
            | _ =>
                e ← elapsed p start;
                cm_event cm ctx id ("successfully unarchived build cache (elapsed: " +:+ e +:+ ")") ;;
                mret dir
            end) w in
  match r with
  | (Ok d, w') => d = dir ∧ temps w' = temps w
  | (_, w') => temps w' = temps w ∖ {[dir]}
  end.
Proof.
  intros Hdir. unfold mbind, M_bind, attempt, run, throw, elapsed, cm_event, ignore_err.
  pose proof (tl_unarchive HT f dir w) as Hu. pose proof (tl_unarchive_total HT f dir w) as Hut.
  destruct (Unarchive p f dir w) as [[[]|e|m] w1]; cbn in *; [| |by destruct (Hut m)].
  - unfold mbind, M_bind. pose proof (tl_since HT start w1) as Hs.
    unfold run, mret, M_ret, attempt. destruct (s3_Since p start w1) as [d w2]. cbn in *.
    match goal with |- context [AddEvent _ _ _ ?ev _] =>
      pose proof (tl_event HT ctx id ev w2) as He; pose proof (tl_event_total HT ctx id ev w2) as Het;
      destruct (AddEvent (cm_DL cm) ctx id ev w2) as [[[]|?|m] w3] end; cbn in *; [..|by destruct (Het m)];
      (split; [done|congruence]).
  - by rewrite (tl_RemoveAll HT), Hu.
Qed.

(** [removing]: a temporary file is gone, a directory made meanwhile stays. *)
Lemma makes_removing (mk : M W string) (body : string → M W string) :
  makes_dir temps mk → (∀ f, makes_dir temps (body f)) →
  makes_dir temps (f ← mk; removing p f (body f)).
Proof.
  intros Hmk Hbody w. unfold mbind, M_bind, removing, deferring, run. specialize (Hmk w).
  destruct (mk w) as [[f|?|?] w1]; [|done..]. destruct Hmk as [Hf Hw1]. specialize (Hbody f w1).
  destruct (body f w1) as [[d|?|?] w2]; cbn; rewrite (tl_Remove HT).
  - destruct Hbody as [Hd ->]. rewrite Hw1 in *. set_solver.
  - rewrite Hbody, Hw1. set_solver.
  - rewrite Hbody, Hw1. set_solver.
Qed.

Lemma same_removing {A} (mk : M W string) (body : string → M W A) :
  makes_dir temps mk → (∀ f, same temps (body f)) →
  same temps (f ← mk; removing p f (body f)).
Proof.
  intros Hmk Hbody w. unfold mbind, M_bind, removing, deferring, run. specialize (Hmk w).
  destruct (mk w) as [[f|?|?] w1]; cbn in *; [|done..]. destruct Hmk as [Hf Hw1]. specialize (Hbody f w1).
  destruct (body f w1) as [[a|?|?] w2]; cbn in *; rewrite (tl_Remove HT), Hbody, Hw1; set_solver.
Qed.

Lemma makes_wrapf msg (m : M W string) : makes_dir temps m → makes_dir temps (wrapf msg m).
Proof. intros Hm w. unfold wrapf, on_err. specialize (Hm w). by destruct (m w) as [[?|?|?] ?]. Qed.

(** Only the client that was made is used. *)
Lemma makes_client {A B} msg (r : res A) (x : B) k :
  makes_dir temps (k x) → makes_dir temps (wrapf msg (session_error r ;; mret x) ≫= k).
Proof. intros Hk w. destruct r; [apply Hk|done..]. Qed.

Lemma same_client {A B C} msg (r : res A) (x : B) (k : B → M W C) :
  same temps (k x) → same temps (wrapf msg (session_error r ;; mret x) ≫= k).
Proof. intros Hk w. destruct r; [apply Hk|done..]. Qed.

(** Fetch makes the directory it returns and nothing else. *)
Lemma makes_Fetch ctx b : makes_dir temps (s3_Fetch p cm ctx b).
Proof.
  unfold s3_Fetch. apply makes_client.
  apply makes_removing; [apply makes_wrapf, (tl_file HT)|]. intros f.
  apply makes_after; [apply same_event|]. intros _.
  apply makes_after; [apply same_now|]. intros start.
  apply makes_after; [apply same_on_err, (tl_download HT)|]. intros n.
  apply makes_after; [apply same_elapsed|]. intros e.
  apply makes_after; [apply same_event|]. intros _.
  apply makes_after; [apply same_now|]. intros start'.
  intros w. pose proof (makes_wrapf "error getting temp dir" _ (tl_dir HT "build-cache-*") w) as Hmk.
  unfold mbind at 1, M_bind at 1. destruct (wrapf _ _ w) as [[dir|?|?] w1]; [|done..].
  destruct Hmk as [Hdir Hw1].
  assert (dir ∈ temps w1) as Hin by (rewrite Hw1; set_solver).
  pose proof (unarchive_tail ctx (b_ID b) f dir start' w1 Hin) as Ht. cbn zeta in Ht.
  revert Ht. match goal with |- match ?m w1 with _ => _ end → _ => destruct (m w1) as [[d|?|?] w2] end.
  - intros [-> ->]. done.
  - intros ->. rewrite Hw1. set_solver.
  - intros ->. rewrite Hw1. set_solver.
Qed.

Lemma same_Save ctx b path : same temps (s3_Save p cm ctx b path).
Proof.
  unfold s3_Save. apply same_client.
  apply same_removing; [apply makes_wrapf, (tl_file HT)|]. intros f.
  apply same_bind; [apply same_event|]. intros _. apply same_bind; [apply same_now|]. intros start.
  apply same_bind; [apply same_on_err, (tl_readdir HT)|]. intros names.
  apply same_bind; [apply same_on_err, (tl_archive HT)|]. intros _.
  apply same_bind; [apply same_elapsed|]. intros e. apply same_bind; [apply same_event|]. intros _.
  apply same_bind; [apply same_on_err, (tl_open HT)|]. intros _.
  apply same_bind; [apply same_attempt, (tl_stat HT)|]. intros fi.
  apply same_bind; [apply same_now|]. intros start'. apply same_bind; [apply same_event|]. intros _.
  apply same_bind; [apply same_on_err, (tl_upload HT)|]. intros _.
  apply same_bind; [apply same_elapsed|]. intros e'. apply same_event.
Qed.
End disk.

(** C38: whatever fails on the way, Fetch leaves exactly the directory it returns and Save
    leaves nothing - what the solver relies on to clean up after itself - and the caches
    of two repositories never share a key. *)
Theorem cache_manager_tidy {W} (p : S3Process W) (cm : CacheManager W) temps :
  temp_laws p cm temps →
  (∀ ctx b, makes_dir temps (cache_Fetch (cache_manager p cm) ctx b)) ∧
  (∀ ctx b path, same temps (cache_Save (cache_manager p cm) ctx b path)) ∧
  (∀ b b', keyForBuild cm b = keyForBuild cm b' → b_GitHubRepo b = b_GitHubRepo b').
Proof.
  intros HT. split_and!.
  - intros ctx b. by apply makes_Fetch.
  - intros ctx b path. by apply same_Save.
  - intros b b' E%str_app_inj_l. pose proof (f_equal String.length E) as Hl.
    rewrite !str_app_length in Hl. apply (str_app_inj_len _ _ _ _) in E as [E _]; [done|lia].
Qed.

(** ** Witness *)

(** The world is the set of temporary paths; the bucket is empty. *)
Definition tmp_process : S3Process (gset string) := {|
  aws_NewSession _ := Ok ();
  NewDownloader _ _ _ _ := throw (ErrAWS "NoSuchKey");
  NewUploader _ _ _ _ := mret ();
  Unarchive _ _ := mret ();
  TarGz_Archive _ _ := mret ();
  s3_TempFile _ := mkdir_once "/tmp/s3-cache.tar.gz";
  s3_TempDir _ := mkdir_once "/tmp/build-cache";
  s3_Remove f w := w ∖ {[f]};
  s3_RemoveAll d w := w ∖ {[d]};
  s3_ReadDir _ := mret ["index.json"%string];
  s3_Open _ := mret ();
  s3_Stat _ := mret 10;
  s3_Now w := (time_zero, w);
  s3_Since _ w := (5, w);
|}.

Definition sample_cache (dlf : option (DownloaderAPI (gset string))) : CacheManager (gset string) := {|
  cm_AccessKeyID := "id"; cm_SecretAccessKey := "secret"; cm_Region := "us-east-1";
  cm_Bucket := "caches"; cm_Keypfx := "furan/"; cm_Host := ""; cm_DL := one_build_dl;
  S3UploaderFactoryFunc := None; S3DownloaderFactoryFunc := dlf |}.

Lemma tmp_laws dlf : (dlf = None ∨ dlf = Some (λ _ _ _ _, mret 7)) →
  temp_laws tmp_process (sample_cache dlf) id.
Proof.
  intros Hf. constructor; try done; try (intros; apply mkdir_once_makes).
  intros ctx b k f w. by destruct Hf as [->| ->].
Qed.

(** A fetch that finds nothing leaves nothing, one that does leaves its directory. *)
Lemma cache_manager_tidy_witness :
  cache_Fetch (cache_manager tmp_process (sample_cache None)) CtxCaller Build_zero ∅ =
    (Err (ErrWrap "error downloading cache from S3" (ErrText "NoSuchKey")), ∅) ∧
  makes_dir id (cache_Fetch (cache_manager tmp_process (sample_cache (Some (λ _ _ _ _, mret 7))))
                  CtxCaller Build_zero) ∧
  (cache_Fetch (cache_manager tmp_process (sample_cache (Some (λ _ _ _ _, mret 7))))
     CtxCaller Build_zero ∅).1 = Ok "/tmp/build-cache"%string.
Proof.
  split_and!; [vm_compute; reflexivity| |vm_compute; reflexivity].
  exact (proj1 (cache_manager_tidy tmp_process _ id (tmp_laws _ (or_intror eq_refl))) CtxCaller Build_zero).
Defined.
