(* ===== verification/TagCheck.v ===== *)
(** * pkg/tagcheck: do the tags of a build exist already?

    One checker per kind of registry, and [Checker], the [models.TagChecker] that
    chooses by the name of the repository.  The registries are reached through
    [Registries]: an HTTP client, and the paging call of the ECR client. *)

From S2P Require Import Prelude GoStrings Models.

#[local] Open Scope Z_scope.

(** [http.Response], the body as far as it can be read. *)
Record http_response := { StatusCode : Z; Body : string }.

Inductive http_auth := Bearer (token : string) | Basic (user password : string).

Definition StatusOK : Z := 200.
Definition StatusNotFound : Z := 404.

(** A page of [DescribeImagesPages]: the tags of each image of it. *)
Definition ecr_page : Type := list (list (option string)).

(** An AWS session: what its configuration gives the clients made from it. *)
Record ecr_session := { ses_Region : string; ses_AccessKeyID : string; ses_SecretAccessKey : string }.

(** [awsecr.DescribeImagesInput], for one tag. *)
Record DescribeImagesInput := {
  RegistryId : option string;    (* nil: the default registry of the caller's account *)
  RepositoryName : string;
  ImageTag : string;
}.

Record Registries (W : Type) := {
  NewRequest : string → res ();                       (* whether the URL parses *)
  http_Do : string → http_auth → M W http_response;
  Unmarshal_tags : string → res (list string);        (* the field "tags" of a JSON body *)
  ExtractRegistry : string → res string;              (* the region of an ECR server *)
  NewSession : string → string → string → res ();     (* region, key id, secret *)
  (* the pages the client gave to the callback, and its error *)
  DescribeImagesPages : ecr_session → DescribeImagesInput → W → (list ecr_page * option error) * W;
  range_set : gset string → W → list string * W;      (* the order of a range over a map *)
}.
Arguments NewRequest {_} _ _.
Arguments http_Do {_} _ _ _ _.
Arguments Unmarshal_tags {_} _ _.
Arguments ExtractRegistry {_} _ _.
Arguments NewSession {_} _ _ _ _.
Arguments DescribeImagesPages {_} _ _ _ _.
Arguments range_set {_} _ _ _.

Record ECRChecker := { AccessKeyID : string; SecretAccessKey : string }.
Record QuayChecker := { APIToken : string; quay_endpoint : option (string → string → string) }.
Record GCRChecker := { gcr_ServiceAccount : string; gcr_endpoint : option (string → string) }.

(** The endpoints, as functions of what Sprintf puts in them. *)
Definition QuayAPIEndpoint (repo tag : string) : string :=
  "https://quay.io/api/v1/repository/" +:+ repo +:+ "/tag/" +:+ tag +:+ "/images".
Definition GCRAPIEndpoint (repo : string) : string :=
  "https://europe-west1-docker.pkg.dev/v2/" +:+ repo +:+ "/tags/list".

Section tagcheck.
Context {W : Type} (rg : Registries W).

(** ** The loop the HTTP checkers share: the tags that are absent, in order *)

Fixpoint missing_tags (checkTag : string → M W bool) (tags : list string) : M W (list string) :=
  match tags with
  | [] => mret []
  | t :: tags' =>
      present ← wrapf ("error checking tag: " +:+ t) (checkTag t);
      missing ← missing_tags checkTag tags';
      mret (if (present : bool) then missing else t :: missing)
  end.

Definition all_tags (checkTag : string → M W bool) (tags : list string) : M W (bool * list string) :=
  missing ← missing_tags checkTag tags;
  mret (bool_decide (length missing = 0%nat), missing).

Definition status_error (resp : http_response) : error :=
  ErrText ("status code indicates error: " +:+ fmt_int (StatusCode resp) +:+ ": " +:+ Body resp).

(** ** quay.io *)

Definition quay_prefix : string := "quay.io/".
Definition IsQuay (repo : string) : bool := HasPrefix repo quay_prefix.

Definition quay_checkTag (qc : QuayChecker) (repo tag : string) : M W bool :=
  let endpoint := default QuayAPIEndpoint (quay_endpoint qc) in
  let route := endpoint (Replace1 repo quay_prefix "") tag in
  wrapf "error creating http request" (lift_res (NewRequest rg route)) ;;
  resp ← wrapf "error performing API call" (http_Do rg route (Bearer (APIToken qc)));
  if StatusCode resp =? StatusOK then mret true
  else if StatusCode resp =? StatusNotFound then mret false
  else throw (status_error resp).

Definition quay_AllTagsExist (qc : QuayChecker) (tags : list string) (repo : string) :
    M W (bool * list string) :=
  if negb (IsQuay repo) then throw (ErrText "not a quay.io repo")
  else all_tags (quay_checkTag qc repo) tags.

(** ** europe-west1-docker.pkg.dev *)

Definition gcr_prefix : string := "europe-west1-docker.pkg.dev/".
Definition IsGCR (repo : string) : bool := HasPrefix repo gcr_prefix.

Definition gcr_checkTag (gc : GCRChecker) (repo tag : string) : M W bool :=
  let endpoint := default GCRAPIEndpoint (gcr_endpoint gc) in
  let route := endpoint (Replace1 repo gcr_prefix "") in
  wrapf "error creating http request" (lift_res (NewRequest rg route)) ;;
  resp ← wrapf "error performing API call"
           (http_Do rg route (Basic "_json_key" (gcr_ServiceAccount gc)));
  if StatusCode resp =? StatusOK then
    tags ← wrapf "error parsing returned tags" (lift_res (Unmarshal_tags rg (Body resp)));
    mret (foldl (λ found v, if bool_decide (v = tag) then true else found) false tags)
  else if StatusCode resp =? StatusNotFound then mret false
  else throw (status_error resp).

Definition gcr_AllTagsExist (gc : GCRChecker) (tags : list string) (repo : string) :
    M W (bool * list string) :=
  if negb (IsGCR repo) then throw (ErrText "not a europe-west1-docker.pkg.dev repo")
  else all_tags (gcr_checkTag gc repo) tags.

(** ** ECR *)

Definition IsECR (repo : string) : bool :=
  match ExtractRegistry rg (default "" (head (Split repo "/"))) with
  | Ok _ => true
  | _ => false
  end.

Definition ErrCodeImageNotFoundException : string := "ImageNotFoundException".

(** The callback: every tag of every image of a page is not missing. *)
Definition delete_page (missing : gset string) (page : ecr_page) : gset string :=
  foldl (λ m (id : list (option string)),
    foldl (λ m it, match it with Some t => m ∖ {[t]} | None => m end) m id) missing page.

(** The client is [awsecr.New(sess)]: ECRClientFactoryFunc is nil. *)
Fixpoint describe_all (sess : ecr_session) (reponame : string) (tags : list string) (missing : gset string) :
    M W (gset string) :=
  match tags with
  | [] => mret missing
  | t :: tags' =>
      let in_ := {| RegistryId := None; RepositoryName := reponame; ImageTag := t |} in
      r ← run (DescribeImagesPages rg sess in_);
      let missing := foldl delete_page missing r.1 in
      match r.2 with
      | None => describe_all sess reponame tags' missing
      | Some err =>
          if decide (err = ErrAWS ErrCodeImageNotFoundException)
          then describe_all sess reponame tags' missing
          else throw (ErrText ("error describing image: " +:+ error_String err))
      end
  end.

Definition text_error {A} (msg : string) (r : res A) : M W A :=
  on_err (λ err, ErrText (msg +:+ ": " +:+ error_String err)) (lift_res r).

Definition ecr_AllTagsExist (r : ECRChecker) (tags : list string) (repo : string) : M W (bool * list string) :=
  match SplitN2 repo "/" with
  | [serverURL; reponame] =>
      if ContainsByte reponame ":"
      then throw (ErrText ("repo contains unexpected tag: " +:+ repo))
      else
        region ← text_error "error parsing server URL" (ExtractRegistry rg serverURL);
        text_error "error getting aws session" (NewSession rg region (AccessKeyID r) (SecretAccessKey r)) ;;
        let sess := {| ses_Region := region; ses_AccessKeyID := AccessKeyID r;
                       ses_SecretAccessKey := SecretAccessKey r |} in
        missing ← describe_all sess reponame tags (list_to_set tags);
        mt ← run (range_set rg missing);
        mret (bool_decide (size missing = 0%nat), mt)
  | _ => throw (ErrText ("unexpected repo format or bad repo: " +:+ repo +:+
                         " (expected: [ecr url]/[reponame]:[tag])"))
  end.

(** ** [Checker]: pointers, each dereferenced when the code reaches its case *)

Record Checker := { Quay : option QuayChecker; ECR : option ECRChecker; GCR : option GCRChecker }.

Definition AllTagsExist_ (c : Checker) (tags : list string) (repo : string) : M W (bool * list string) :=
  ecr ← deref (ECR c);
  if IsECR repo then ecr_AllTagsExist ecr tags repo
  else
    quay ← deref (Quay c);
    if IsQuay repo then quay_AllTagsExist quay tags repo
    else
      gcr ← deref (GCR c);
      if IsGCR repo then gcr_AllTagsExist gcr tags repo
      else throw (ErrText ("unsupported or bad repo: " +:+ repo)).

Definition checker (c : Checker) : TagChecker W := {| AllTagsExist := AllTagsExist_ c |}.
End tagcheck.

(** pkg/tagcheck/fake.go. *)
Definition FakeChecker {W} (AllTagsExistFunc : option (list string → string → M W (bool * list string))) :
    TagChecker W := {|
  AllTagsExist tags repo :=
    match AllTagsExistFunc with Some f => f tags repo | None => mret (false, []) end |}.
