(* ===== verification/TagCheckFacts.v ===== *)
(** * Tag checks: correctness against a registry

    Whatever the kind of registry, a check that returns gives exactly the tags the
    registry it looks into does not have.  For ECR that is the registry of the account
    of the keys, whatever account the name of the repository says. *)

From S2P Require Import Prelude GoStrings Models TagCheck.

#[local] Open Scope Z_scope.

(** ** The server of a repository *)

Lemma Split_host host name : ContainsByte host "/" = false →
  default ""%string (head (Split (host +:+ "/" +:+ name) "/")) = host.
Proof.
  intros Hh. assert (∃ l, Split (host +:+ "/" +:+ name) "/" = host :: l) as [l ->]; [|done].
  induction host as [|c host IH]; [by eexists|].
  cbn in Hh. apply orb_false_iff in Hh as [Hc%bool_decide_eq_false Hh]. destruct (IH Hh) as [l Hl].
  change (String c host +:+ "/" +:+ name) with (String c (host +:+ "/" +:+ name)). cbn [Split].
  rewrite decide_False, Hl by done. by eexists.
Qed.

Section correct.
Context {W : Type} (rg : Registries W) (c : Checker).

(** [ex repo tag]: the image repository has the tag.  What the registries answer says
    so: a status of 200 or 404 for quay.io, the list of tags for Artifact Registry.  An
    ECR repository [server/name] is the repository [name] of one account in one region,
    [has account region name]; the service answers for the registry that is asked for and
    without one for that of the account the keys belong to, in the region of the session,
    with the images that have the tag, whose other tags exist as well. *)
Record truthful (ex : string → string → bool) (has : string → string → string → string → bool)
    (account : string → string) (caller : string → string → string) : Prop := {
  tr_quay qc repo tag w resp w' : Quay c = Some qc → IsQuay repo = true →
    http_Do rg (default QuayAPIEndpoint (quay_endpoint qc) (Replace1 repo quay_prefix "") tag)
      (Bearer (APIToken qc)) w = (Ok resp, w') →
    (StatusCode resp = StatusOK → ex repo tag = true) ∧
    (StatusCode resp = StatusNotFound → ex repo tag = false);
  tr_gcr gc repo w resp w' : GCR c = Some gc → IsGCR repo = true →
    http_Do rg (default GCRAPIEndpoint (gcr_endpoint gc) (Replace1 repo gcr_prefix ""))
      (Basic "_json_key" (gcr_ServiceAccount gc)) w = (Ok resp, w') →
    (StatusCode resp = StatusOK → ∀ l, Unmarshal_tags rg (Body resp) = Ok l →
       ∀ t, t ∈ l ↔ ex repo t = true) ∧
    (StatusCode resp = StatusNotFound → ∀ t, ex repo t = false);
  tr_ecr sess input w pages err w' :
    let in_registry := has (default (caller (ses_AccessKeyID sess) (ses_SecretAccessKey sess)) (RegistryId input))
                           (ses_Region sess) (RepositoryName input) in
    let t := ImageTag input in
    DescribeImagesPages rg sess input w = ((pages, err), w') →
    (∀ page img t', page ∈ pages → img ∈ page → Some t' ∈ img → in_registry t' = true) ∧
    (err = None → in_registry t = true → ∃ page img, page ∈ pages ∧ img ∈ page ∧ Some t ∈ img) ∧
    (err = Some (ErrAWS ErrCodeImageNotFoundException) → in_registry t = false);
  tr_repo server name region t :
    ContainsByte server "/" = false → ExtractRegistry rg server = Ok region →
    ex (server +:+ "/" +:+ name) t = has (account server) region name t;
  tr_range s w : (range_set rg s w).1 ≡ₚ elements s;
}.

(** What a check promises. *)
Definition checks (ex : string → string → bool) (repo : string) (tags : list string) (r : res (bool * list string)) : Prop :=
  match r with
  | Ok (b, missing) =>
      (∀ t, t ∈ missing ↔ t ∈ tags ∧ ex repo t = false) ∧
      (b = true ↔ ∀ t, t ∈ tags → ex repo t = true)
  | _ => True
  end.

(** The missing tags decide the answer. *)
Lemma checks_missing (ex : string → string → bool) repo tags b missing :
  (∀ t, t ∈ missing ↔ t ∈ tags ∧ ex repo t = false) → (b = true ↔ missing = []) →
  checks ex repo tags (Ok (b, missing)).
Proof.
  intros Hm Hb. split; [done|]. rewrite Hb. split.
  - intros -> t Ht. destruct (ex repo t) eqn:E; [done|].
    assert (t ∈ []) as Hin by (by apply Hm). by apply not_elem_of_nil in Hin.
  - intros Hall. destruct missing as [|t missing]; [done|].
    assert (t ∈ tags ∧ ex repo t = false) as [Ht E] by (apply Hm; left). by rewrite Hall in E.
Qed.

(** ** The HTTP checkers *)

Lemma missing_tags_spec (ex : string → string → bool) repo (checkTag : string → M W bool) tags w :
  (∀ t w, wp (checkTag t) (λ r _, match r with Ok b => b = ex repo t | _ => True end) w) →
  wp (missing_tags checkTag tags)
     (λ r _, match r with Ok m => m = filter (λ t, ex repo t = false) tags | _ => True end) w.
Proof.
  intros Hc. revert w. induction tags as [|t tags IH]; intros w; cbn [missing_tags]; [done|].
  rewrite wp_bind, wp_wrapf. eapply wp_mono; [|apply Hc]. intros [b|?|?] w1; [|done..]. intros ->.
  rewrite wp_bind. eapply wp_mono; [|apply IH]. intros [m|?|?] w2; [|done..]. intros ->.
  rewrite wp_ret. destruct (ex repo t) eqn:E; [by rewrite filter_cons_False by congruence|].
  by rewrite filter_cons_True.
Qed.

Lemma all_tags_spec (ex : string → string → bool) repo (checkTag : string → M W bool) tags w :
  (∀ t w, wp (checkTag t) (λ r _, match r with Ok b => b = ex repo t | _ => True end) w) →
  wp (all_tags checkTag tags) (λ r _, checks ex repo tags r) w.
Proof.
  intros Hc. unfold all_tags. rewrite wp_bind.
  eapply wp_mono; [|by apply (missing_tags_spec ex repo)]. intros [m|?|?] w1; [|done..]. intros ->.
  rewrite wp_ret. apply checks_missing.
  - intros t. rewrite list_elem_of_filter. tauto.
  - rewrite bool_decide_eq_true. split; [apply nil_length_inv|by intros ->].
Qed.

Context (ex : string → string → bool) (has : string → string → string → string → bool)
  (account : string → string) (caller : string → string → string).
Context (Hex : truthful ex has account caller).

Lemma quay_checkTag_spec qc repo t w : Quay c = Some qc → IsQuay repo = true →
  wp (quay_checkTag rg qc repo t) (λ r _, match r with Ok b => b = ex repo t | _ => True end) w.
Proof.
  intros Hc Hq. unfold quay_checkTag. rewrite wp_bind, wp_wrapf, wp_lift_res.
  destruct (NewRequest rg _) as [[]|?|?]; [|done..]. rewrite wp_bind, wp_wrapf. unfold wp at 1.
  destruct (http_Do rg _ _ w) as [[resp|?|?] w1] eqn:E; [|done..]. cbn [fst snd].
  destruct (tr_quay _ _ _ _ Hex qc repo t w resp w1 Hc Hq E) as [H1 H2].
  destruct (Z.eqb_spec (StatusCode resp) StatusOK); [rewrite wp_ret; symmetry; auto|].
  destruct (Z.eqb_spec (StatusCode resp) StatusNotFound); [rewrite wp_ret; symmetry; auto|done].
Qed.

Lemma found_spec tag (l : list string) b :
  foldl (λ found v, if bool_decide (v = tag) then true else found) b l = true ↔ b = true ∨ tag ∈ l.
Proof.
  revert b. induction l as [|v l IH]; intros b; cbn [foldl].
  - split; [by left|]. intros [?|?%not_elem_of_nil]; done.
  - rewrite IH, elem_of_cons. case_bool_decide; naive_solver.
Qed.

Lemma gcr_checkTag_spec gc repo t w : GCR c = Some gc → IsGCR repo = true →
  wp (gcr_checkTag rg gc repo t) (λ r _, match r with Ok b => b = ex repo t | _ => True end) w.
Proof.
  intros Hc Hq. unfold gcr_checkTag. rewrite wp_bind, wp_wrapf, wp_lift_res.
  destruct (NewRequest rg _) as [[]|?|?]; [|done..]. rewrite wp_bind, wp_wrapf. unfold wp at 1.
  destruct (http_Do rg _ _ w) as [[resp|?|?] w1] eqn:E; [|done..]. cbn [fst snd].
  destruct (tr_gcr _ _ _ _ Hex gc repo w resp w1 Hc Hq E) as [H1 H2].
  destruct (Z.eqb_spec (StatusCode resp) StatusOK) as [Hs|_].
  - rewrite wp_bind, wp_wrapf, wp_lift_res. destruct (Unmarshal_tags rg _) as [l|?|?] eqn:El; [|done..].
    rewrite wp_ret. specialize (H1 Hs l eq_refl t). apply eq_true_iff_eq. rewrite found_spec. naive_solver.
  - destruct (Z.eqb_spec (StatusCode resp) StatusNotFound); [rewrite wp_ret; symmetry; auto|done].
Qed.

(** ** ECR *)

Lemma delete_image_spec (img : list (option string)) (m : gset string) t :
  t ∈ foldl (λ m it, match it with Some t => m ∖ {[t]} | None => m end) m img ↔
  t ∈ m ∧ Some t ∉ img.
Proof.
  revert m. induction img as [|[t'|] img IH]; intros m; cbn [foldl].
  - pose proof (not_elem_of_nil (Some t)). tauto.
  - rewrite IH, elem_of_difference, elem_of_singleton, elem_of_cons. naive_solver.
  - rewrite IH, elem_of_cons. naive_solver.
Qed.

Lemma delete_page_spec (page : ecr_page) (m : gset string) t :
  t ∈ delete_page m page ↔ t ∈ m ∧ ∀ img, img ∈ page → Some t ∉ img.
Proof.
  unfold delete_page. revert m. induction page as [|img page IH]; intros m; cbn [foldl].
  - split; [|tauto]. intros Ht. split; [done|]. by intros ? ?%not_elem_of_nil.
  - rewrite IH, delete_image_spec. setoid_rewrite elem_of_cons. naive_solver.
Qed.

Lemma delete_pages_spec (pages : list ecr_page) (m : gset string) t :
  t ∈ foldl delete_page m pages ↔ t ∈ m ∧ ∀ page img, page ∈ pages → img ∈ page → Some t ∉ img.
Proof.
  revert m. induction pages as [|page pages IH]; intros m; cbn [foldl].
  - split; [|tauto]. intros Ht. split; [done|]. by intros ? ? ?%not_elem_of_nil.
  - rewrite IH, delete_page_spec. setoid_rewrite elem_of_cons. naive_solver.
Qed.

(** The tags still missing after the tags [done] have been looked up: nothing that
    exists was among those, nothing that does not exist was removed. *)
Lemma describe_all_spec sess name tags m w :
  let ex := has (caller (ses_AccessKeyID sess) (ses_SecretAccessKey sess)) (ses_Region sess) name in
  wp (describe_all rg sess name tags m)
     (λ r _, match r with
             | Ok m' => (∀ t, t ∈ m' → t ∈ m) ∧ (∀ t, t ∈ m → ex t = false → t ∈ m') ∧
                        (∀ t, t ∈ tags → ex t = true → t ∉ m')
             | _ => True
             end) w.
Proof.
  intros ex'. revert m w. induction tags as [|t tags IH]; intros m w; cbn [describe_all].
  { rewrite wp_ret. split_and!; try done. by intros t ?%not_elem_of_nil. }
  rewrite wp_bind, wp_run. set (input := {| RegistryId := None; RepositoryName := name; ImageTag := t |}).
  destruct (DescribeImagesPages rg sess input w) as [[pages err] w1] eqn:E.
  destruct (tr_ecr _ _ _ _ Hex sess input w pages err w1 E) as (H1 & H2 & H3).
  cbn [default RegistryId RepositoryName ImageTag input from_option id] in H1, H2, H3. fold ex' in H1, H2, H3. cbn [fst snd].
  assert (∀ m' : gset string, ((∀ t, t ∈ m' → t ∈ foldl delete_page m pages) ∧
            (∀ t, t ∈ foldl delete_page m pages → ex' t = false → t ∈ m') ∧
            (∀ t, t ∈ tags → ex' t = true → t ∉ m')) →
            (err = None ∨ err = Some (ErrAWS ErrCodeImageNotFoundException)) →
            (∀ t, t ∈ m' → t ∈ m) ∧ (∀ t, t ∈ m → ex' t = false → t ∈ m') ∧
            (∀ t', t' ∈ t :: tags → ex' t' = true → t' ∉ m')) as Hstep.
  { intros m' (Ha & Hb & Hc) Herr. split_and!.
    - intros t' Ht'%Ha. by apply delete_pages_spec in Ht' as [? _].
    - intros t' Ht' He. apply Hb; [|done]. apply delete_pages_spec. split; [done|].
      intros page img Hp Hi Hin. by rewrite (H1 page img t' Hp Hi Hin) in He.
    - intros t' [->|Ht']%elem_of_cons He; [|by apply Hc]. intros Hin%Ha.
      apply delete_pages_spec in Hin as [_ Hin]. destruct Herr as [Herr|Herr].
      + destruct (H2 Herr He) as (page & img & Hp & Hi & Hs'). by apply (Hin page img).
      + by rewrite (H3 Herr) in He. }
  destruct err as [err|].
  - destruct (decide _) as [->|_]; [|done]. eapply wp_mono; [|apply IH].
    intros [m'|?|?] w2 Hm; [|done..]. apply Hstep; [done|by right].
  - eapply wp_mono; [|apply IH]. intros [m'|?|?] w2 Hm; [|done..]. apply Hstep; [done|by left].
Qed.

(** The registry an ECR check looks into: that of the account of its keys. *)
Definition looked_up (repo t : string) : bool :=
  match ECR c, Cut repo "/" with
  | Some r, (server, Some name) =>
      match ExtractRegistry rg server with
      | Ok region => has (caller (AccessKeyID r) (SecretAccessKey r)) region name t
      | _ => ex repo t
      end
  | _, _ => ex repo t
  end.

Lemma ecr_spec r tags repo w : ECR c = Some r →
  wp (ecr_AllTagsExist rg r tags repo) (λ r _, checks looked_up repo tags r) w.
Proof.
  intros Hr. unfold ecr_AllTagsExist. destruct (SplitN2 repo "/") as [|server [|name [|? ?]]] eqn:Hs; try done.
  assert (Cut repo "/" = (server, Some name)) as Hs'
    by (unfold SplitN2 in Hs; destruct (Cut repo "/") as [? [?|]]; [by injection Hs as -> ->|done]).
  destruct (ContainsByte _ _); [done|]. unfold text_error.
  rewrite wp_bind, wp_on_err, wp_lift_res. destruct (ExtractRegistry rg server) as [region|?|?] eqn:Hx; [|done..].
  rewrite wp_bind, wp_on_err, wp_lift_res. destruct (NewSession rg region _ _) as [[]|?|?]; [|done..].
  assert (∀ t, looked_up repo t = has (caller (AccessKeyID r) (SecretAccessKey r)) region name t) as Hl
    by (intros t; unfold looked_up; by rewrite Hr, Hs', Hx).
  cbn zeta. rewrite wp_bind. eapply wp_mono; [|apply describe_all_spec]. cbn [ses_Region ses_AccessKeyID ses_SecretAccessKey].
  intros [m|?|?] w1; [|done..]. intros (H1 & H2 & H3). setoid_rewrite <-Hl in H2. setoid_rewrite <-Hl in H3.
  rewrite wp_bind, wp_run, wp_ret. pose proof (tr_range _ _ _ _ Hex m w1) as Hp.
  apply checks_missing.
  - intros t. rewrite Hp, elem_of_elements. split.
    + intros Ht. pose proof (H1 _ Ht) as Hin%elem_of_list_to_set. split; [done|].
      destruct (looked_up repo t) eqn:E; [|done]. by destruct (H3 t Hin E).
    + intros [Hin He]. apply H2; [by apply elem_of_list_to_set|done].
  - rewrite bool_decide_eq_true. change (size m) with (length (elements m)). rewrite <-Hp. split; [apply nil_length_inv|by intros ->].
Qed.

(** The keys of the ECR checker belong to the account the repository is named after. *)
Definition own_registry (repo : string) : Prop :=
  ∀ r server name, ECR c = Some r → Cut repo "/" = (server, Some name) →
    caller (AccessKeyID r) (SecretAccessKey r) = account server.

Lemma looked_up_own repo t : own_registry repo → looked_up repo t = ex repo t.
Proof.
  intros Hown. unfold looked_up. destruct (ECR c) as [r|] eqn:Hr; [|done].
  destruct (Cut repo "/") as [server [name|]] eqn:Hc; [|done].
  destruct (ExtractRegistry rg server) as [region|?|?] eqn:Hx; [|done..].
  rewrite (Hown r server name Hr Hc). destruct (Cut_Some _ _ _ _ Hc) as [-> Hs].
  symmetry. by apply (tr_repo _ _ _ _ Hex).
Qed.

(** Elsewhere than on ECR the repository itself is looked into. *)
Lemma looked_up_other repo t : IsECR rg repo = false → looked_up repo t = ex repo t.
Proof.
  unfold looked_up, IsECR. destruct (ECR c) as [r|]; [|done].
  destruct (Cut repo "/") as [server [name|]] eqn:Hc; [|done].
  destruct (Cut_Some _ _ _ _ Hc) as [-> Hs].
  change (String "/" name) with ("/" +:+ name)%string. rewrite Split_host by done.
  by destruct (ExtractRegistry rg server).
Qed.

Lemma checks_ext ex1 ex2 repo tags r :
  (∀ t, ex1 repo t = ex2 repo t) → checks ex1 repo tags r → checks ex2 repo tags r.
Proof.
  intros He. destruct r as [[b m]|?|?]; [|done..]. unfold checks. intros [H1 H2].
  split; [intros t; by rewrite H1, He|rewrite H2; by setoid_rewrite He].
Qed.

Lemma AllTagsExist_looked_up tags repo w :
  wp (AllTagsExist_ rg c tags repo) (λ r _, checks looked_up repo tags r) w.
Proof.
  unfold AllTagsExist_.
  rewrite wp_bind. destruct (ECR c) as [ecr|] eqn:He; [|done]. cbn [deref]. rewrite wp_ret.
  destruct (IsECR rg repo) eqn:Hecr; [by apply ecr_spec|].
  eapply wp_mono; [intros r w'; apply (checks_ext ex); intros t; symmetry; by apply looked_up_other|].
  rewrite wp_bind. destruct (Quay c) as [quay|] eqn:Hqc; [|done]. cbn [deref]. rewrite wp_ret.
  destruct (IsQuay repo) eqn:Hq.
  { unfold quay_AllTagsExist. rewrite Hq. apply all_tags_spec. intros. by eapply quay_checkTag_spec. }
  rewrite wp_bind. destruct (GCR c) as [gcr|] eqn:Hgc; [|done]. cbn [deref]. rewrite wp_ret.
  destruct (IsGCR repo) eqn:Hg; [|done].
  unfold gcr_AllTagsExist. rewrite Hg. apply all_tags_spec. intros. by eapply gcr_checkTag_spec.
Qed.
End correct.

(** C16: When a tag check returns, the tags it calls missing are exactly the tags asked
    for that the repository it looked into does not have, and it says that all exist
    exactly when none is missing (so also for no tags at all) - for all three kinds of
    registry.  The repository it looks into is the one it was asked about, but on ECR: no
    registry is named in the request, so it is the repository of that name, in the region
    of the server, of the account the configured keys belong to; it is the right one
    exactly where this is the account in the name of the server. *)
Theorem AllTagsExist_correct {W} (rg : Registries W) (c : Checker) ex has account caller tags repo w :
  truthful rg c ex has account caller →
  wp (AllTagsExist_ rg c tags repo) (λ r _,
    checks (looked_up rg c ex has caller) repo tags r ∧
    (IsECR rg repo = false ∨ own_registry c account caller repo → checks ex repo tags r)) w.
Proof.
  intros Hex. eapply wp_mono; [|by eapply AllTagsExist_looked_up]. intros r w' Hr. split; [done|].
  intros Hown. eapply checks_ext; [|exact Hr]. intros t.
  destruct Hown; [by apply looked_up_other|by eapply looked_up_own].
Qed.

(** ** Witness *)

(** Registries that have the tag "v1" of every repository - on ECR, only the account "1"
    does - and checkers whose endpoints are the tag and the list of tags; the keys belong to
    the account "1". *)
Definition v1_registries : Registries () := {|
  NewRequest _ := Ok ();
  http_Do url _ := mret (if decide (url = "v1"%string)
                         then {| StatusCode := 200; Body := "v1" |}
                         else {| StatusCode := 404; Body := "" |});
  Unmarshal_tags body := Ok [body];
  ExtractRegistry server := if HasSuffix server ".amazonaws.com" then Ok "us-west-2"%string
                            else Err (ErrLib "not ECR");
  NewSession _ _ _ := Ok ();
  DescribeImagesPages _ input w :=
    if decide (default "1"%string (RegistryId input) = "1"%string ∧ ImageTag input = "v1"%string)
    then (([[[Some (ImageTag input); None]]], None), w)
    else (([], Some (ErrAWS ErrCodeImageNotFoundException)), w);
  range_set s w := (elements s, w);
|}.

Definition v1_checker : Checker := {|
  Quay := Some {| APIToken := "token"; quay_endpoint := Some (λ _ tag, tag) |};
  ECR := Some {| AccessKeyID := "id"; SecretAccessKey := "secret" |};
  GCR := Some {| gcr_ServiceAccount := "{}"; gcr_endpoint := Some (λ _, "v1"%string) |};
|}.

Definition v1_account (server : string) : string := default ""%string (head (Split server ".")).
Definition v1_has (account region name t : string) : bool := bool_decide (account = "1"%string ∧ t = "v1"%string).
Definition v1_ex (repo t : string) : bool :=
  match Cut repo "/" with
  | (server, Some name) =>
      if HasSuffix server ".amazonaws.com" then v1_has (v1_account server) "us-west-2" name t
      else bool_decide (t = "v1"%string)
  | _ => bool_decide (t = "v1"%string)
  end.

Lemma v1_ex_other repo t : HasPrefix repo quay_prefix = true ∨ HasPrefix repo gcr_prefix = true →
  v1_ex repo t = bool_decide (t = "v1"%string).
Proof.
  unfold v1_ex. intros Hp.
  assert (∃ server name, repo = (server +:+ "/" +:+ name)%string ∧
    (server = "quay.io" ∨ server = "europe-west1-docker.pkg.dev")%string) as (server & name & -> & Hs).
  { destruct Hp as [Hp|Hp]; apply prefix_spec in Hp as [rest ->].
    - exists "quay.io"%string, rest. auto.
    - exists "europe-west1-docker.pkg.dev"%string, rest. auto. }
  change ("/" +:+ name)%string with (String "/" name).
  rewrite Cut_app by (by destruct Hs as [-> | ->]). by destruct Hs as [-> | ->].
Qed.

Lemma v1_truthful : truthful v1_registries v1_checker v1_ex v1_has v1_account (λ _ _, "1"%string).
Proof.
  split; cbn [Quay ECR GCR v1_checker].
  - intros qc repo t w resp w' [= <-] Hq. rewrite v1_ex_other by (by left). cbn. intros [= <- <-]. case_decide as Ht.
    + cbn. split; [intros _; by apply bool_decide_eq_true|done].
    + cbn. split; [done|intros _; by apply bool_decide_eq_false].
  - intros gc repo w resp w' [= <-] Hq. cbn. intros [= <- <-]. cbn. split; [|done].
    intros _ l [= <-] t. by rewrite v1_ex_other, list_elem_of_singleton, bool_decide_eq_true by (by right).
  - intros sess [reg name t] w pages err w'. cbn -[decide]. unfold v1_has. case_decide as Ht; intros [= <- <- <-].
    + split_and!; [|intros _ _|done].
      * intros page img t' ->%list_elem_of_singleton ->%list_elem_of_singleton Hin.
        apply elem_of_cons in Hin as [[= ->]|Hin%list_elem_of_singleton]; [|done].
        by apply bool_decide_eq_true.
      * exists [[Some t; None]], [Some t; None]. by rewrite !list_elem_of_singleton, elem_of_cons; auto.
    + split_and!; [by intros page img t' ?%not_elem_of_nil|done|].
      intros _. by apply bool_decide_eq_false.
  - intros server name region t Hs. cbn [v1_registries ExtractRegistry]. unfold v1_ex.
    change ("/" +:+ name)%string with (String "/" name). rewrite Cut_app by done.
    destruct (HasSuffix server _); [|done]. by intros [= <-].
  - done.
Qed.

(** The tag is found where it is; and also, with the keys of the account "1", in the
    registry of the account "2", which does not have it. *)
Lemma AllTagsExist_correct_witness :
  let go := AllTagsExist_ v1_registries v1_checker ["v1"; "v2"]%string in
  (go "quay.io/foo/bar" ()).1 = Ok (false, ["v2"%string]) ∧
  checks v1_ex "quay.io/foo/bar" ["v1"; "v2"]%string (go "quay.io/foo/bar" ()).1 ∧
  checks v1_ex "1.amazonaws.com/foo" ["v1"; "v2"]%string (go "1.amazonaws.com/foo" ()).1 ∧
  (go "2.amazonaws.com/foo" ()).1 = Ok (false, ["v2"%string]) ∧ v1_ex "2.amazonaws.com/foo" "v1" = false.
Proof.
  intros go. split; [by vm_compute|]. split; [|split; [|split; by vm_compute]].
  - apply (AllTagsExist_correct v1_registries v1_checker v1_ex v1_has v1_account (λ _ _, "1"%string)
      ["v1"; "v2"]%string "quay.io/foo/bar" () v1_truthful). by left.
  - apply (AllTagsExist_correct v1_registries v1_checker v1_ex v1_has v1_account (λ _ _, "1"%string)
      ["v1"; "v2"]%string "1.amazonaws.com/foo" () v1_truthful). right.
    intros r server name _ Hc. vm_compute in Hc. injection Hc as <- <-. by vm_compute.
Defined.
