(* ===== verification/Auth.v ===== *)
(** * pkg/auth: registry credentials for BuildKit

    [Provider] is the session attachable that buildkitd asks for the credentials of a
    registry host.  It knows the same registries as the tag checker of file TagCheck,
    with which it shares the model of the AWS and ECR libraries. *)

From S2P Require Import Prelude GoStrings TagCheck.

#[local] Open Scope Z_scope.

(** A client of the ECR API for a region and a pair of keys, as
    [ECRAuthClientFactoryFunc] or the library's factory makes it; [GetCredentials] of a
    server gives a user name and a password. *)
Definition ECRAuthClient (W : Type) : Type := string → M W (string * string).
Definition ECRAuthFactory (W : Type) : Type := string → string → string → ECRAuthClient W.

Record Provider (W : Type) := {
  QuayIOToken : string;
  pv_AccessKeyID : string;
  pv_SecretAccessKey : string;
  GCRCredentials : string;
  ECRAuthClientFactoryFunc : option (ECRAuthFactory W);
}.
Arguments QuayIOToken {_} _.
Arguments pv_AccessKeyID {_} _.
Arguments pv_SecretAccessKey {_} _.
Arguments GCRCredentials {_} _.
Arguments ECRAuthClientFactoryFunc {_} _.

Record CredentialsResponse := { Username : string; Secret : string }.

#[export] Instance CredentialsResponse_eq_dec : EqDecision CredentialsResponse.
Proof. solve_decision. Defined.

Section auth.
Context {W : Type} (rg : Registries W) (DefaultClientFactory : ECRAuthFactory W).
Implicit Types p : Provider W.

Definition auth_New (quaytkn awskeyid awskey gcrcreds : string) : Provider W := {|
  QuayIOToken := quaytkn; pv_AccessKeyID := awskeyid; pv_SecretAccessKey := awskey;
  GCRCredentials := gcrcreds; ECRAuthClientFactoryFunc := None |}.

Definition isECR (host : string) : bool :=
  match ExtractRegistry rg host with Ok _ => true | _ => false end.
Definition isQuay (host : string) : bool := bool_decide (host = "quay.io"%string).
Definition isGCR (host : string) : bool := bool_decide (host = "europe-west1-docker.pkg.dev"%string).

Definition GetECRAuth p (serverURL : string) : M W (string * string) :=
  region ← text_error "error parsing server URL" (ExtractRegistry rg serverURL);
  text_error "error getting aws session"
    (NewSession rg region (pv_AccessKeyID p) (pv_SecretAccessKey p)) ;;
  let client := default DefaultClientFactory (ECRAuthClientFactoryFunc p)
                  region (pv_AccessKeyID p) (pv_SecretAccessKey p) in
  on_err (λ err, ErrText ("error getting ECR credentials for repo: " +:+ serverURL +:+ ": " +:+
                          error_String err))
    (client serverURL).

(** [req] is the host of the request, if there is one. *)
Definition Credentials p (req : option string) : M W CredentialsResponse :=
  match req with
  | None => throw (ErrStatus InvalidArgument "request is nil")
  | Some host =>
      if isECR host then
        us ← on_err (λ err, ErrStatus Internal ("error getting ECR auth: " +:+ error_String err))
               (GetECRAuth p host);
        mret {| Username := us.1; Secret := us.2 |}
      else if isQuay host then mret {| Username := "$oauthtoken"; Secret := QuayIOToken p |}
      else if isGCR host then mret {| Username := "_json_key"; Secret := GCRCredentials p |}
      else if HasSuffix host ".docker.io" then mret {| Username := ""; Secret := "" |}
      else throw (ErrStatus InvalidArgument ("unsupported registry host: " +:+ host))
  end.
End auth.
