(* ===== verification/Secrets.v ===== *)
(** * pkg/config and pkg/secrets: configuration and the secrets that complete it

    The structs of pkg/config, and [Fetcher], which makes a client of the secret store
    the first time it is needed and lets it fill the fields that are secrets.  The
    store is the library pvc: a [SecretsClient]. *)

From S2P Require Import Prelude GoStrings GoTime Uuid Models Datalayer.

#[local] Open Scope Z_scope.

(** ** pkg/config *)

Record VaultConfig := {
  Addr : string;
  Token : string;
  TokenAuth : bool;
  K8sAuth : bool;
  K8sJWTPath : string;
  K8sAuthPath : string;
  K8sRole : string;
}.

Record GitHubConfig := { gh_Token : string }.
Record QuayConfig := { quay_Token : string }.
Record GCRConfig := { gcr_Account : string }.

Record AWSConfig := {
  aws_Region : string;
  CacheBucket : string;
  CacheHost : string;
  CacheKeyPrefix : string;
  aws_AccessKeyID : string;
  aws_SecretAccessKey : string;
  EnableECR : bool;
  ECRRegistryHosts : list string;
}.

Record DBConfig := {
  PostgresURI : string;
  CredentialEncryptionKey : list ascii;
  CredEncKeyArray : list ascii;   (* an array of 32 bytes *)
}.

Definition DBConfig_zero : DBConfig := {|
  PostgresURI := ""; CredentialEncryptionKey := []; CredEncKeyArray := replicate 32 Ascii.zero |}.

(** The tags [secret:"id"] of a struct, and the struct with values in these fields; a
    field that gets none stays as it is. *)
Class Filled (C : Type) := {
  secret_ids : list string;
  fill_fields : list (option string) → C → C;
}.

(** The value of the n-th tagged field. *)
Definition field (vals : list (option string)) (n : nat) (old : string) : string :=
  default old (mjoin (vals !! n)).

#[export] Instance fill_GitHub : Filled GitHubConfig := {
  secret_ids := ["github/token"%string];
  fill_fields vals c := {| gh_Token := field vals 0 (gh_Token c) |};
}.
#[export] Instance fill_Quay : Filled QuayConfig := {
  secret_ids := ["quay/token"%string];
  fill_fields vals c := {| quay_Token := field vals 0 (quay_Token c) |};
}.
#[export] Instance fill_GCR : Filled GCRConfig := {
  secret_ids := ["gcr/service_account"%string];
  fill_fields vals c := {| gcr_Account := field vals 0 (gcr_Account c) |};
}.
#[export] Instance fill_AWS : Filled AWSConfig := {
  secret_ids := ["aws/access_key_id"; "aws/secret_access_key"]%string;
  fill_fields vals c := {|
    aws_Region := aws_Region c; CacheBucket := CacheBucket c; CacheHost := CacheHost c;
    CacheKeyPrefix := CacheKeyPrefix c; aws_AccessKeyID := field vals 0 (aws_AccessKeyID c);
    aws_SecretAccessKey := field vals 1 (aws_SecretAccessKey c); EnableECR := EnableECR c;
    ECRRegistryHosts := ECRRegistryHosts c |};
}.
#[export] Instance fill_DB : Filled DBConfig := {
  secret_ids := ["db/uri"; "db/credential_encryption_key"]%string;
  fill_fields vals c := {|
    PostgresURI := field vals 0 (PostgresURI c);
    CredentialEncryptionKey :=
      match mjoin (vals !! 1%nat) with
      | Some key => String.list_ascii_of_string key
      | None => CredentialEncryptionKey c
      end;
    CredEncKeyArray := CredEncKeyArray c |};
}.

(** ** pkg/secrets *)

(** The options of [pvc.NewSecretsClient]. *)
Inductive vault_auth := TokenVaultAuth | K8sVaultAuth.

Inductive pvc_option :=
  | WithVaultToken (token : string)
  | WithVaultK8sAuth (jwt role : string)
  | WithVaultK8sAuthPath (path : string)
  | WithVaultBackend (auth : option vault_auth) (addr : string)
  | WithJSONFileBackend (file : string)
  | WithEnvVarBackend
  | WithFileTreeBackend (root : string)
  | WithMapping (mapping : string).

(** A client fills the fields of a list of secret ids: what it set (possibly not all of
    them, when it fails), and its error. *)
Record SecretsClient (W : Type) := {
  Fill : list string → W → (list (option string) * option error) * W;
}.
Arguments Fill {_} _ _ _.

Record SecProcess (W : Type) := {
  sec_Open : string → M W ();
  sec_Stat : string → M W Z;          (* the size of the open file *)
  sec_ReadAll : string → M W string;
  NewSecretsClient : list pvc_option → M W (SecretsClient W);
}.
Arguments sec_Open {_} _ _.
Arguments sec_Stat {_} _ _.
Arguments sec_ReadAll {_} _ _.
Arguments NewSecretsClient {_} _ _.

(** [type BackendType int]. *)
Definition UnknownBackend : Z := 0.
Definition VaultBackend : Z := 1.
Definition JSONBackend : Z := 2.
Definition EnvVarBackend : Z := 3.
Definition FileTreeBackend : Z := 4.

Record Fetcher (W : Type) := {
  Backend : Z;
  Mapping : string;
  JSONFile : string;
  FileTreeRoot : string;
  VaultOptions : VaultConfig;
  sc : option (SecretsClient W);
}.
Arguments Backend {_} _.
Arguments Mapping {_} _.
Arguments JSONFile {_} _.
Arguments FileTreeRoot {_} _.
Arguments VaultOptions {_} _.
Arguments sc {_} _.

Definition maxJWTSizeBytes : Z := 4096.

Section secrets.
Context {W : Type} (p : SecProcess W).
Implicit Types f : Fetcher W.

Definition with_sc (s : option (SecretsClient W)) f : Fetcher W := {|
  Backend := Backend f; Mapping := Mapping f; JSONFile := JSONFile f;
  FileTreeRoot := FileTreeRoot f; VaultOptions := VaultOptions f; sc := s |}.

Definition with_backend (b : Z) (vo : VaultConfig) f : Fetcher W := {|
  Backend := b; Mapping := Mapping f; JSONFile := JSONFile f;
  FileTreeRoot := FileTreeRoot f; VaultOptions := vo; sc := sc f |}.

(** The token of the pod's service account. *)
Definition read_jwt (path : string) : M W string :=
  wrapf "error opening k8s jwt" (sec_Open p path) ;;
  size ← wrapf "error stating k8s jwt" (sec_Stat p path);
  if maxJWTSizeBytes <? size
  then throw (ErrText ("k8s jwt exceeds max size (" +:+ fmt_int maxJWTSizeBytes +:+ "): " +:+ fmt_int size))
  else wrapf "error reading k8s jwt" (sec_ReadAll p path).

Definition vault_ops (vo : VaultConfig) : M W (list pvc_option) :=
  if negb (TokenAuth vo) && negb (K8sAuth vo)
  then throw (ErrText "at least one vault auth option is required")
  else if TokenAuth vo && K8sAuth vo
  then throw (ErrText "only one vault auth option is allowed")
  else
    let '(vauth, ops) := if TokenAuth vo then (Some TokenVaultAuth, [WithVaultToken (Token vo)])
                         else (None, []) in
    k ← (if K8sAuth vo then
           jwt ← read_jwt (K8sJWTPath vo);
           mret (Some K8sVaultAuth,
                 ops ++ [WithVaultK8sAuth jwt (K8sRole vo); WithVaultK8sAuthPath (K8sAuthPath vo)])
         else mret (vauth, ops));
    let '(vauth, ops) := k in
    mret (ops ++ [WithVaultBackend vauth (Addr vo)]).

Definition backend_ops f : M W (list pvc_option) :=
  if decide (Backend f = VaultBackend) then vault_ops (VaultOptions f)
  else if decide (Backend f = JSONBackend) then mret [WithJSONFileBackend (JSONFile f)]
  else if decide (Backend f = EnvVarBackend) then mret [WithEnvVarBackend]
  else if decide (Backend f = FileTreeBackend) then mret [WithFileTreeBackend (FileTreeRoot f)]
  else throw (ErrText ("unknown backend type: " +:+ fmt_int (Backend f))).

(** The methods act on the process, on the fetcher and on the struct they are given a
    pointer to.  (The mutex is left out: the program fetches its secrets in one
    goroutine.) *)
Definition get_fetcher {C} : M (W * Fetcher W * C) (Fetcher W) := λ w, (Ok w.1.2, w).
Definition set_fetcher {C} f : M (W * Fetcher W * C) () := λ w, (Ok (), (w.1.1, f, w.2)).
Definition get_struct {C} : M (W * Fetcher W * C) C := λ w, (Ok w.2, w).
Definition set_struct {C} (c : C) : M (W * Fetcher W * C) () := λ w, (Ok (), (w.1, c)).

Definition init {C} : M (W * Fetcher W * C) () :=
  f ← get_fetcher;
  ops ← on_fst (on_fst (backend_ops f));
  c ← wrapf "error creating secrets client"
        (on_fst (on_fst (NewSecretsClient p (ops ++ [WithMapping (Mapping f)]))));
  set_fetcher (with_sc (Some c) f).

(** [if f.sc == nil { f.init() }], then [f.sc]. *)
Definition client {C} : M (W * Fetcher W * C) (SecretsClient W) :=
  f ← get_fetcher;
  (if decide (is_Some (sc f)) then mret () else init) ;;
  f ← get_fetcher;
  deref (sc f).

(** [f.sc.Fill(c)]. *)
Definition filling {C} `{Filled C} (s : SecretsClient W) : M (W * Fetcher W * C) () :=
  r ← run (λ w, let '(r, w1) := Fill s secret_ids w.1.1 in (r, (w1, w.1.2, fill_fields r.1 w.2)));
  match r.2 with Some err => throw err | None => mret () end.

(** [GitHub], [Quay], [GCR] and [AWS] have the same body. *)
Definition fetch_secrets {C} `{Filled C} : M (W * Fetcher W * C) () :=
  s ← client; filling s.

Definition GitHub : M (W * Fetcher W * GitHubConfig) () := fetch_secrets.
Definition Quay_ : M (W * Fetcher W * QuayConfig) () := fetch_secrets.
Definition GCR_ : M (W * Fetcher W * GCRConfig) () := fetch_secrets.
Definition AWS : M (W * Fetcher W * AWSConfig) () := fetch_secrets.

(** [copy(dst, src)]. *)
Definition copy {A} (dst src : list A) : list A := take (length dst) src ++ drop (length src) dst.

Definition Database : M (W * Fetcher W * DBConfig) () :=
  s ← client;
  filling s ;;
  dc ← get_struct;
  let i := length (CredentialEncryptionKey dc) in
  if decide (i ≠ 32%nat)
  then throw (ErrText ("bad size for credential encryption key: " +:+ fmt_nat i +:+ " (wanted 32)"))
  else set_struct {|
    PostgresURI := PostgresURI dc; CredentialEncryptionKey := [];
    CredEncKeyArray := copy (CredEncKeyArray dc) (CredentialEncryptionKey dc) |}.
End secrets.
