(* ===== verification/CmdClient.v ===== *)
(** * cmd: the commands of the client

    [furan trigger], [list], [cancel] and [events] call a server through the client of
    file Client; the flags of a command are a record, its output goes to the process. *)

From S2P Require Import Prelude GoStrings GoTime Uuid Models Datalayer K8s Grpc Client.

#[local] Open Scope Z_scope.

(** ** Formats *)

(** [t.Format(time.RFC3339)] of a time in UTC.  Years begin in March, so that the leap day
    is the last of its year; a cycle of the calendar has 146097 days. *)
Definition civil (days : Z) : Z * Z * Z :=
  let z := days + 306 in
  let doe := z mod 146097 in
  let yoe := (doe - doe / 1460 + doe / 36524 - doe / 146096) / 365 in
  let doy := doe - (365 * yoe + yoe / 4 - yoe / 100) in
  let mp := (5 * doy + 2) / 153 in
  let y := yoe + z / 146097 * 400 in
  let m := if mp <? 10 then mp + 3 else mp - 9 in
  (if m <=? 2 then y + 1 else y, m, doy - (153 * mp + 2) / 5 + 1).

Fixpoint zeros (n : nat) : string := match n with O => "" | S n' => String "0" (zeros n') end.

(** [appendInt]: at least [width] digits. *)
Definition pad (width : nat) (x : Z) : string :=
  let ds := fmt_int (Z.abs x) in
  (if x <? 0 then "-" else "") +:+ zeros (width - String.length ds) +:+ ds.

Definition Format_RFC3339 (t : time) : string :=
  let '(y, m, d) := civil (t_sec t / 86400) in
  let s := t_sec t mod 86400 in
  pad 4 y +:+ "-" +:+ pad 2 m +:+ "-" +:+ pad 2 d +:+ "T" +:+
  pad 2 (s / 3600) +:+ ":" +:+ pad 2 (s / 60 mod 60) +:+ ":" +:+ pad 2 (s mod 60) +:+ "Z".

(** [BuildState.String()] of protos/api.proto. *)
Definition BuildState_String (s : Z) : string :=
  if s =? BuildState_UNKNOWN then "UNKNOWN"
  else if s =? BuildState_NOTSTARTED then "NOTSTARTED"
  else if s =? BuildState_SKIPPED then "SKIPPED"
  else if s =? BuildState_RUNNING then "RUNNING"
  else if s =? BuildState_FAILURE then "FAILURE"
  else if s =? BuildState_SUCCESS then "SUCCESS"
  else if s =? BuildState_CANCEL_REQUESTED then "CANCEL_REQUESTED"
  else if s =? BuildState_CANCELLED then "CANCELLED"
  else fmt_int s.

Definition nl : string := String (byte_of 10) "".

(** ** The process of a command *)

Record CliProcess (W : Type) := {
  cli_net : ClientProcess W;
  cli_quote : string → string;      (* [%q] *)
  Stdout : string → W → W;
  Stderr : string → W → W;
  cli_Now : W → time * W;
}.
Arguments cli_net {_} _.
Arguments cli_quote {_} _ _.
Arguments Stdout {_} _ _ _.
Arguments Stderr {_} _ _ _.
Arguments cli_Now {_} _ _.

Section commands.
Context {W : Type} (p : CliProcess W).

Definition out (s : string) : M W () := run (λ w, ((), Stdout p s w)).
Definition err_out (s : string) : M W () := run (λ w, ((), Stderr p s w)).

(** [rb, err := client.New(clientops)], [defer rb.Close()] and the rest of the command. *)
Definition with_client (opts : client_Options) (body : RemoteBuilder W → M W ()) : M W () :=
  rb ← wrapf "error creating rpc client" (New (cli_net p) (cli_quote p) opts);
  deferring (λ _, Close rb) (body rb).

(** ** furan trigger *)

(** The flags: those of the build, with the others beside them. *)
Record trigger_flags := {
  github_token : string;
  github_repo : string;
  source_ref : string;
  dockerfile_path : string;
  tags : list string;
  tag_sha : bool;
  skip_if_exists : bool;
  cachetype : string;
  cachemaxmode : bool;
  buildArgs : list string;
  imagerepos : list string;
  monitorBuild : bool;
  rpctimeout : Z;
  buildtimeout : Z;
  trigger_resources : BuildResources;
}.
Implicit Types fl : trigger_flags.

Definition cache_type (s : string) : option Z :=
  if decide (s = "disabled"%string) then Some BuildCacheOpts_DISABLED
  else if decide (s = "s3"%string) then Some BuildCacheOpts_S3
  else if decide (s = "inline"%string) then Some BuildCacheOpts_INLINE
  else None.

(** [triggerBuildRequest], completed: the field Args is never set. *)
Definition trigger_request fl (ctype : Z) : BuildRequest := {|
  rq_Build := Some {|
    bd_GithubRepo := github_repo fl; bd_GithubCredential := github_token fl;
    bd_DockerfilePath := dockerfile_path fl; bd_Ref := source_ref fl; bd_Tags := tags fl;
    bd_TagWithCommitSha := tag_sha fl; bd_Args := ∅;
    bd_CacheOptions := Some {| Type_ := ctype; MaxMode := cachemaxmode fl |};
    bd_Resources := Some (trigger_resources fl) |};
  rq_Push := Some (Some <$> imagerepos fl);
  rq_SkipIfExists := skip_if_exists fl |}.

(** What both monitoring loops print of the state of an event. *)
Definition event_status (be : BuildEvent) : string :=
  if be_CurrentState be =? BuildState_RUNNING then ""
  else " (status: " +:+ BuildState_String (be_CurrentState be) +:+ ")".

(** [for { be, err := mc.Recv() ... }]: the number of messages received.  [n] bounds
    it: a stream of fewer than [n] messages is read to its end. *)
Fixpoint recv_loop (n : nat) (mc : MonitorClient W) (print : BuildEvent → M W ()) (msg : string) : M W nat :=
  match n with
  | O => panic out_of_fuel
  | S n' =>
      r ← attempt (Recv mc);
      match r with
      | Ok be => print be ;; i ← recv_loop n' mc print msg; mret (S i)
      | Err err => if decide (err = ErrEOF) then mret 0%nat else throw (ErrWrap msg err)
      | Panic e => panic e
      end
  end.

(** The duration both commands print at the end. *)
Definition duration (bs : BuildStatusResponse) : string :=
  match rs_Started bs, rs_Completed bs with
  | Some s, Some c =>
      " (duration: " +:+ Duration_String (time_Sub (TimeFromRPCTimestamp c) (TimeFromRPCTimestamp s)) +:+ ") "
  | _, _ => " "
  end.

Definition trigger_monitor (n : nat) fl (rb : RemoteBuilder W) (id : uuid) : M W () :=
  mc ← wrapf "error monitoring build" (rb_MonitorBuild rb (CtxWithTimeout CtxBackground (buildtimeout fl)) id);
  i ← recv_loop n mc (λ be, err_out (be_Message be +:+ event_status be +:+ nl)) "error getting build message";
  bs ← wrapf "error getting final build status" (rb_GetBuildStatus rb CtxBackground id);
  err_out ("build completed: state: " +:+ BuildState_String (rs_State bs) +:+ duration bs +:+
           "(" +:+ fmt_nat i +:+ " msgs received)" +:+ nl).

Definition trigger (n : nat) (clientops : client_Options) fl : M W () :=
  with_client clientops (λ rb,
    if negb (tag_sha fl) && bool_decide (tags fl = [])
    then throw (ErrText "at least one tag is required if not tagging with commit SHA")
    else
      match cache_type (cachetype fl) with
      | None => throw (ErrText ("unknown or invalid build cache type: " +:+ cachetype fl))
      | Some ctype =>
          id ← wrapf "error triggering build"
                 (rb_StartBuild rb (CtxWithTimeout CtxBackground (rpctimeout fl)) (trigger_request fl ctype));
          err_out ("build started: " +:+ uuid_String id +:+ nl) ;;
          if monitorBuild fl then trigger_monitor n fl rb id else mret ()
      end).

(** ** furan list *)

Definition cliStatuses : list (string * Z) :=
  [("notstarted", BuildStatusNotStarted); ("running", BuildStatusRunning);
   ("skipped", BuildStatusSkipped); ("failure", BuildStatusFailure);
   ("success", BuildStatusSuccess); ("cancelrequested", BuildStatusCancelRequested);
   ("cancelled", BuildStatusCancelled)]%string.

Definition status_of (s : string) : option Z := snd <$> find (λ kv, bool_decide (kv.1 = s)) cliStatuses.

(** The flags; the durations are zero when they are not given. *)
Record list_flags := {
  with_github_repo : string;
  with_github_ref : string;
  with_image_repo : string;
  statusstr : string;
  completedafter : Z;
  startedafter : Z;
  completedbefore : Z;
  startedbefore : Z;
}.

(** [now.Add(-1 * d)], unless the flag was not given. *)
Definition time_op (now : time) (d : Z) : option Timestamp :=
  if d =? 0 then None else Some (RPCTimestampFromTime (time_Add now (int64 (-1 * d)))).

Definition list_request (fl : list_flags) (state : Z) (now : time) : ListBuildsRequest := {|
  WithGithubRepo := with_github_repo fl; WithGithubRef := with_github_ref fl;
  lq_WithImageRepo := with_image_repo fl; WithBuildState := state;
  lq_CompletedAfter := time_op now (completedafter fl);
  lq_StartedAfter := time_op now (startedafter fl);
  lq_CompletedBefore := time_op now (completedbefore fl);
  lq_StartedBefore := time_op now (startedbefore fl); lq_Limit := 0 |}.

(** A row of the table (its columns are aligned by text/tabwriter). *)
Definition list_row (b : BuildStatusResponse) : M W (list string) :=
  req ← deref (rs_BuildRequest b);
  bd ← deref (rq_Build req);
  started ← deref (rs_Started b);
  mret [rs_BuildId b; bd_GithubRepo bd; BuildState_String (rs_State b);
        Format_RFC3339 (TimeFromRPCTimestamp started);
        match rs_Completed b with
        | Some c => Format_RFC3339 (TimeFromRPCTimestamp c)
        | None => ""
        end]%string.

Definition list_header : list string := ["BUILD ID"; "GITHUB REPO"; "STATUS"; "STARTED"; "COMPLETED"]%string.

(** It returns the table it prints; [smkeys] lists the keys of [cliStatuses], in an order
    that is that of a range over a map. *)
Definition list_ (smkeys : string) (clientops : client_Options) (fl : list_flags) : M W (list (list string)) :=
  state ← (if bool_decide (statusstr fl = ""%string) then mret BuildState_UNKNOWN
           else match status_of (statusstr fl) with
                | Some s => mret (State s)
                | None => throw (ErrText ("invalid or unknown status: " +:+ statusstr fl +:+
                                          " (wanted one of: " +:+ smkeys +:+ ")"))
                end);
  now ← run (cli_Now p);
  rb ← wrapf "error creating rpc client" (New (cli_net p) (cli_quote p) clientops);
  deferring (λ _, Close rb)
   (builds ← rb_ListBuilds rb CtxBackground (list_request fl state now);
    rows ← mapM list_row builds;
    mret (list_header :: rows)).

(** ** furan cancel and furan events *)

Definition cancel (clientops : client_Options) (cancelBuildID : string) : M W () :=
  with_client clientops (λ rb,
    id ← wrapf "malformed or invalid build id" (lift_res (FromString cancelBuildID));
    wrapf "error sending cancel request" (rb_CancelBuild rb CtxBackground id) ;;
    out ("build cancellation requested: " +:+ uuid_String id +:+ nl)).

Definition events (clientops : client_Options) (ids : string) : M W () :=
  if bool_decide (ids = ""%string) then throw (ErrText "build id is required")
  else
    bid ← wrapf "invalid build id" (lift_res (FromString ids));
    with_client clientops (λ rb,
      resp ← wrapf "error getting build events" (rb_GetBuildEvents rb CtxBackground bid);
      mforeach (λ e, out (e +:+ nl)) (ev_Messages resp) ;;
      out ("STATUS: " +:+ BuildState_String (ev_CurrentState resp) +:+ nl)).
End commands.

Example Format_epoch : Format_RFC3339 (TimeFromRPCTimestamp {| Seconds := 0; Nanos := 0 |}) = "1970-01-01T00:00:00Z"%string.
Proof. vm_compute. reflexivity. Qed.

Example Format_leap_day :
  Format_RFC3339 (TimeFromRPCTimestamp {| Seconds := 1582934399; Nanos := 5 |}) = "2020-02-28T23:59:59Z"%string ∧
  Format_RFC3339 (TimeFromRPCTimestamp {| Seconds := 1582934400; Nanos := 0 |}) = "2020-02-29T00:00:00Z"%string.
Proof. vm_compute. done. Qed.

Example Format_zero : Format_RFC3339 time_zero = "0001-01-01T00:00:00Z"%string.
Proof. vm_compute. reflexivity. Qed.
