(* ===== verification/CmdClientFacts.v ===== *)
(** * Facts about the commands of the client

    The commands against a server of the same process: what [furan list] prints and what
    [furan trigger] starts. *)

From S2P Require Import Prelude GoStrings GoTime Uuid Models Datalayer FakeDL K8s Grpc GrpcFacts Client ClientFacts CmdClient.

#[local] Open Scope Z_scope.

(** ** A process that is connected to a server of its own *)

Section local.
Context `{K8sQuantity} {W : Type} (rt : Runtime W) `{SecretBox}.
Context (gr : Server W) (trace : ∀ A, interceptor (W := W) A)
  (monitor : context → string → M W (MonitorClient W)).

Definition local_net : ClientProcess W := {|
  cl_ReadFile _ := mret ""%string;
  AppendCertsFromPEM _ := true;
  Dial _ rc _ := mret (loopback rt gr trace rc monitor);
|}.

(** The connection of a client with these options. *)
Definition local_client (opts : client_Options) : RemoteBuilder W :=
  {| rb_c := loopback rt gr trace {| apilabel := APIKeyLabel; apikey := opt_APIKey opts |} monitor |}.

Lemma wp_New quote opts Q w :
  wp (New local_net quote opts) Q w ↔ Q (Ok (local_client opts)) w.
Proof. unfold New. by destruct (TLSInsecureSkipVerify opts). Qed.

Lemma wp_Close opts Q w : wp (Close (local_client opts)) Q w ↔ Q (Ok ()) w.
Proof. done. Qed.
End local.

(** ** furan list *)







Section listing.
Context `{K8sQuantity} {W : Type} (rt : Runtime W) `{SecretBox} (gr : Server W)
  (trace : ∀ A, interceptor (W := W) A) (monitor : context → string → M W (MonitorClient W)).
Context (p : CliProcess W) (dl : DataLayer W) (builds : W → list Build).


End listing.

(** ** furan trigger *)

Lemma cache_type_known s ctype : cache_type s = Some ctype → ctype ≠ BuildCacheOpts_UNKNOWN.
Proof. unfold cache_type. repeat case_decide; by intros [= <-]. Qed.

Section triggering.
Context `{K8sQuantity} {W : Type} (rt : Runtime W) `{SecretBox} (gr : Server W)
  (trace : ∀ A, interceptor (W := W) A) (monitor : context → string → M W (MonitorClient W)).
Context (p : CliProcess W) (dl : DataLayer W) (obs : W → gmap uuid Build) `{!DataLayerSpec dl obs}.

(** The build of the flags, as it is stored: with something to be tagged with, and without
    build arguments. *)
Record given (fl : trigger_flags) (b : Build) : Prop := {
  gv_status : b_Status b = BuildStatusNotStarted;
  gv_repo : b_GitHubRepo b = github_repo fl;
  gv_ref : b_GitHubRef b = source_ref fl;
  gv_tags : b_Tags b = tags fl;
  gv_sha : b_CommitSHATag b = tag_sha fl;
  gv_tagged : b_Tags b ≠ [] ∨ b_CommitSHATag b = true;
  gv_repos : b_ImageRepos b = imagerepos fl;
  gv_dockerfile : bo_RelativeDockerfilePath (b_BuildOptions b) =
    (if decide (dockerfile_path fl = ""%string) then "."%string else dockerfile_path fl);
  gv_cache : cache_type (cachetype fl) = Some (Type_ (bo_Cache (b_BuildOptions b)));
  gv_max : MaxMode (bo_Cache (b_BuildOptions b)) = cachemaxmode fl;
  gv_resources : bo_Resources (b_BuildOptions b) = trigger_resources fl;
  gv_skip : rq_SkipIfExists (b_Request b) = skip_if_exists fl;
  gv_args : bo_BuildArgs (b_BuildOptions b) = ∅;
}.

(** A client that monitors the build: its stream was read to the end, then its status, which
    is printed last. *)
Definition watched (rb : RemoteBuilder W) fl (id : uuid) (v w' : W) : Prop :=
  ∃ mc v1 i u u' bs v2,
    rb_MonitorBuild rb (CtxWithTimeout CtxBackground (buildtimeout fl)) id v = (Ok mc, v1) ∧
    Recv mc u = (Err ErrEOF, u') ∧ rb_GetBuildStatus rb CtxBackground id u' = (Ok bs, v2) ∧
    w' = Stderr p ("build completed: state: " +:+ BuildState_String (rs_State bs) +:+ duration bs +:+
                   "(" +:+ fmt_nat i +:+ " msgs received)" +:+ nl) v2.

Lemma recv_loop_ends n (mc : MonitorClient W) (print : BuildEvent → M W ()) msg (w : W) i w' :
  recv_loop n mc print msg w = (Ok i, w') → ∃ u, Recv mc u = (Err ErrEOF, w').
Proof.
  revert w i. induction n as [|n IH]; intros w i; cbn [recv_loop]; [done|].
  unfold mbind, M_bind, attempt. destruct (Recv mc w) as [[be|e|e] w1] eqn:E; [| |done].
  - destruct (print be w1) as [[[]|?|?] w2]; [|done..].
    destruct (recv_loop n mc print msg w2) as [[j|?|?] w3] eqn:El; [|done..].
    intros [= _ <-]. by eapply IH.
  - destruct (decide (e = ErrEOF)) as [->|]; [|done]. intros [= _ <-]. by exists w.
Qed.

Lemma wp_trigger_monitor n fl rb id w :
  wp (trigger_monitor p n fl rb id) (λ r w', r = Ok () → watched rb fl id w w') w.
Proof.
  unfold trigger_monitor. rewrite wp_bind, wp_wrapf. unfold wp at 1.
  destruct (rb_MonitorBuild rb _ id w) as [[mc|?|?] v1] eqn:Em; [|done..]. cbn [fst snd].
  rewrite wp_bind. unfold wp at 1. destruct (recv_loop _ _ _ _ v1) as [[i|?|?] u'] eqn:El; [|done..].
  apply recv_loop_ends in El as [u Hu]. cbn [fst snd].
  rewrite wp_bind, wp_wrapf. unfold wp at 1. destruct (rb_GetBuildStatus rb _ id u') as [[bs|?|?] v2] eqn:Eg; [|done..].
  cbn [fst snd]. unfold err_out. rewrite wp_run. intros _. by exists mc, v1, i, u, u', bs, v2.
Qed.

(** C40: a [furan trigger] that succeeds has had its StartBuild answered with the ID of a row
    that is not started and is the build of its flags - but without build arguments, whatever
    [--build-arg] says.  With [--monitor], the default, it has then read the stream of that
    build to its end and the status after it, which it prints; without, it leaves the row as
    it is. *)
Theorem trigger_starts_what_it_is_given n opts fl w :
  cli_net p = local_net rt gr trace monitor → plain_server gr dl obs →
  (∀ s v, obs (Stderr p s v) = obs v) →
  let rb := local_client rt gr trace monitor opts in
  wp (trigger p n opts fl) (λ r w', r = Ok () → ∃ id b ctype w1,
    rb_StartBuild rb (CtxWithTimeout CtxBackground (rpctimeout fl)) (trigger_request fl ctype) w = (Ok id, w1) ∧
    obs w1 !! id = Some b ∧ given fl b ∧
    let v := Stderr p ("build started: " +:+ uuid_String id +:+ nl) w1 in
    if monitorBuild fl then watched rb fl id v w' else obs w' = obs w1) w.
Proof.
  intros Hnet Hgr Herr rb. unfold trigger, with_client. rewrite wp_bind, wp_wrapf, Hnet, wp_New, wp_deferring.
  eapply (wp_mono _ (λ r w', r = Ok () → ∃ id b ctype w1, _)).
  { intros r w1 Hr. rewrite wp_Close. exact Hr. }
  destruct (negb (tag_sha fl) && bool_decide (tags fl = [])) eqn:Htags; [done|].
  destruct (cache_type (cachetype fl)) as [ctype|] eqn:Hct; [|done]. fold rb.
  rewrite wp_bind, wp_wrapf. unfold wp at 1.
  assert (wp (rb_StartBuild rb (CtxWithTimeout CtxBackground (rpctimeout fl)) (trigger_request fl ctype))
    (λ r w1, ∀ id, r = Ok id → ∃ b, obs w1 !! id = Some b ∧ given fl b) w) as Hstart.
  { unfold rb_StartBuild, rb, local_client. rewrite wp_bind, wp_wrapf. cbn [rb_c rpc_StartBuild loopback].
    apply (wp_serve gr trace _ dl obs Hgr); [|done..]. intros w1 _. rewrite wp_bind.
    eapply wp_mono; [|by apply (StartBuild_stores rt gr dl obs Hgr)]. intros [[sid go]|?|?] w2 Hst; [|done..].
    destruct (Hst _ eq_refl) as (id & b & bd & rnd & v & b0 & b1 & Hid & Hb & _ & Hs & Hbd & _ & _ & _ & _ & Ha).
    injection Hbd as <-. rewrite wp_ret, wp_wrapf, wp_lift_res. cbn [fst] in Hid |- *. rewrite Hid, FromString_String.
    intros ? [= <-]. exists b. split; [done|].
    destruct Ha as [H1 H2 H3 H4 H5 H6 H7 H8 H9 H10]. cbn in *. specialize (H9 _ eq_refl (cache_type_known _ _ Hct)).
    constructor; try congruence.
    - rewrite H3, H4. destruct (tag_sha fl); [by right|left]. cbn in Htags. by apply bool_decide_eq_false in Htags.
    - clear -H5. revert H5. generalize (b_ImageRepos b), (imagerepos fl). intros l l' Hl.
      symmetry. by apply (inj (fmap Some)).
    - by rewrite Hct, H9.
    - by rewrite H9. }
  unfold wp in Hstart. destruct (rb_StartBuild rb _ _ w) as [[id|?|?] w1] eqn:Es; [|done..]. cbn [fst snd] in *.
  destruct (Hstart id eq_refl) as (b & Hb & Hg). rewrite wp_bind. unfold err_out at 1. rewrite wp_run. cbn [fst snd].
  destruct (monitorBuild fl) eqn:Hmon.
  - eapply wp_mono; [|apply wp_trigger_monitor]. intros r w2 Hr Hok. exists id, b, ctype, w1. by auto.
  - rewrite wp_ret. intros _. exists id, b, ctype, w1. split_and!; [done..|]. by apply Herr.
Qed.
End triggering.

(** ** Witnesses *)

#[local] Existing Instance milli_quantity.

(** The clock of the command stands at the beginning of 2020; a monitored stream is empty. *)
Definition sample_monitor (_ : context) (_ : string) : M fake_world (MonitorClient fake_world) :=
  mret {| Recv := throw ErrEOF |}.

Definition sample_cli : CliProcess fake_world := {|
  cli_net := local_net idle_runtime plain_sample (λ _ _ h, h) sample_monitor;
  cli_quote s := s; Stdout _ w := w; Stderr _ w := w;
  cli_Now w := (TimeFromRPCTimestamp {| Seconds := 1577836800; Nanos := 0 |}, w) |}.

Definition sample_options : client_Options :=
  {| Address := "furan:4000"; opt_APIKey := uuid_String uuid_Nil; TLSInsecureSkipVerify := true |}.

Definition sample_trigger : trigger_flags := {|
  github_token := "token"; github_repo := "acme/widget"; source_ref := "master"; dockerfile_path := ".";
  tags := ["v1"%string]; tag_sha := false; skip_if_exists := false; cachetype := "disabled"; cachemaxmode := false;
  buildArgs := ["VERSION=2"%string]; imagerepos := ["quay.io/acme/widget"%string]; monitorBuild := true;
  rpctimeout := 30 * Second; buildtimeout := 30 * Minute; trigger_resources := BuildResources_zero |}.

Definition triggered : res () * fake_world := trigger sample_cli 10 sample_options sample_trigger keyed_world.

Lemma trigger_starts_what_it_is_given_witness :
  triggered.1 = Ok () ∧ ∃ id b, given sample_trigger b ∧
    ∃ v, watched sample_cli (local_client idle_runtime plain_sample (λ _ _ h, h) sample_monitor sample_options)
           sample_trigger id v triggered.2.
Proof.
  assert (triggered.1 = Ok ()) as Ho by (vm_compute; reflexivity). split; [exact Ho|].
  destruct (trigger_starts_what_it_is_given idle_runtime plain_sample (λ _ _ h, h) sample_monitor sample_cli
    Fake.dl fake_obs 10 sample_options sample_trigger keyed_world eq_refl plain_sample_ok (λ _ _, eq_refl) Ho)
    as (id & b & ctype & w1 & _ & _ & Hg & Hw).
  exists id, b. split; [exact Hg|]. eexists. exact Hw.
Defined.



