(* ===== verification/Integration.v ===== *)
(** * cmd/integration.go: the integration tests

    [furan integration] reads its tests from a file, their GitHub tokens from Kubernetes
    secrets and the root API key from the database, waits for the server, and runs every
    test in a goroutine of its own: it builds, monitors the build and compares how it ended
    with what was expected. *)

From S2P Require Import Prelude GoStrings GoTime Poll Uuid Models K8s Grpc Client CmdClient.

#[local] Open Scope Z_scope.

Record IntegrationTest := {
  it_Name : string;
  it_Build : BuildDefinition;
  it_ImageRepos : list string;
  it_SkipIfExists : bool;
  ExpectFailure : bool;
  ExpectSkipped : bool;
  SecretNames_GitHubToken : string;
}.

(** The flags and the environment variables. *)
Record integration_flags := {
  integrationTestsFile : string;
  furanaddr : string;
  furanServerConnectTimeout : Z;
  POD_NAMESPACE : string;
  DB_URI : string;
}.

(** What a group of goroutines did, once all have returned: their results in the order they
    returned, and the order in which they took the lock of the map of builds. *)
Record group_result (A : Type) := { gr_done : list (nat * res A); gr_locked : list nat }.
Arguments gr_done {_} _.
Arguments gr_locked {_} _.

(** The process of the command: the file it opens, package yaml, the Kubernetes client, the
    database, and the run time. *)
Record ItProcess (W : Type) := {
  it_cli : CliProcess W;
  it_Open : string → M W nat;                       (* the file, by its descriptor *)
  it_Stat_Size : nat → M W Z;
  it_ReadAll : nat → M W string;
  it_Close : nat → W → W;
  it_Unmarshal : string → res (list IntegrationTest);
  it_InClusterConfig : M W ();
  it_NewForConfig : M W (string → string → M W (gmap string string)); (* Secrets(ns).Get(name): its Data *)
  it_NewRawPGClient : string → Z → M W (M W uuid);  (* the pool, as the query for the root key *)
  it_Dial : string → M W ();                        (* net.Dial, and closing the connection *)
  it_Sleep : Z → W → W;
  it_Group : list (M W uuid) → M W (group_result uuid);
  it_Range : gmap string uuid → W → list (string * uuid);
}.
Arguments it_cli {_} _.
Arguments it_Open {_} _ _ _.
Arguments it_Stat_Size {_} _ _ _.
Arguments it_ReadAll {_} _ _ _.
Arguments it_Close {_} _ _ _.
Arguments it_Unmarshal {_} _ _.
Arguments it_InClusterConfig {_} _ _.
Arguments it_NewForConfig {_} _ _.
Arguments it_NewRawPGClient {_} _ _ _ _.
Arguments it_Dial {_} _ _ _.
Arguments it_Sleep {_} _ _ _.
Arguments it_Group {_} _ _ _.
Arguments it_Range {_} _ _ _.

Section integration.
Context {W : Type} (p : ItProcess W).

Abbreviation out := (CmdClient.out (it_cli p)).
Abbreviation err_out := (CmdClient.err_out (it_cli p)).

(** The verdict on the final state of a build. *)
Definition verdict (fail skip : bool) (state : Z) : res () :=
  if state =? BuildState_FAILURE then
    if negb fail then Err (ErrText "unexpected build failure") else Ok ()
  else if state =? BuildState_SUCCESS then
    if fail then Err (ErrText "wanted build failure but it succeeded instead") else Ok ()
  else if state =? BuildState_SKIPPED then
    if negb skip then Err (ErrText "unexpected build skipped") else Ok ()
  else Err (ErrText ("unexpected final build status: " +:+ BuildState_String state)).

(** Its log goes where [log.Printf] writes: to the standard error. *)
Definition monitorIntegrationBuild (n : nat) (bid : uuid) (fail skip : bool) (fc : RemoteBuilder W) : M W () :=
  let ctx := CtxBackground in
  s ← wrapf ("error monitoring build " +:+ uuid_String bid) (rb_MonitorBuild fc ctx bid);
  recv_loop n s (λ ev, err_out (uuid_String bid +:+ ": " +:+ be_Message ev +:+ event_status ev +:+ nl))
    ("error getting build event (" +:+ uuid_String bid +:+ ")") ;;
  bs ← wrapf "error getting final build status" (rb_GetBuildStatus fc ctx bid);
  err_out ("build completed: state: " +:+ BuildState_String (rs_State bs) +:+ duration bs +:+ nl) ;;
  lift_res (verdict fail skip (rs_State bs)).

(** What is asked of the server for a test. *)
Definition test_request (t : IntegrationTest) : BuildRequest := {|
  rq_Build := Some (it_Build t); rq_Push := Some (Some <$> it_ImageRepos t);
  rq_SkipIfExists := it_SkipIfExists t |}.

(** The function that is run for the test of index [i]: the ID it returns is the entry it
    made in the map of builds, which is only read if no test failed.  [fc] is nil if
    client.New failed. *)
Definition run_test (n : nat) (fc : option (RemoteBuilder W)) (i : nat) (t : IntegrationTest) : M W uuid :=
  out ("starting build: " +:+ fmt_nat i +:+ ": " +:+ it_Name t +:+ nl) ;;
  fc ← deref fc;
  bid ← wrapf ("error starting build: " +:+ it_Name t)
          (rb_StartBuild fc CtxBackground (test_request t));
  out ("build started: " +:+ fmt_nat i +:+ ": " +:+ it_Name t +:+ ": " +:+ uuid_String bid +:+ nl) ;;
  monitorIntegrationBuild n bid (ExpectFailure t) (ExpectSkipped t) fc ;;
  mret bid.

Definition NewInClusterK8sClient : M W (string → string → M W (gmap string string)) :=
  wrapf "error getting in-cluster config" (it_InClusterConfig p) ;;
  wrapf "error getting client" (it_NewForConfig p).

Definition GetAPIKey_ (fl : integration_flags) : M W uuid :=
  db ← wrapf "error getting postgres client" (it_NewRawPGClient p (DB_URI fl) 1);
  db.

(** The loop of WaitForFuranServer, of at most [n] rounds: it logs that it retries. *)
Definition WaitForFuranServer (n : nat) (fl : integration_flags) (addr : string) : M W () :=
  now ← run (cli_Now (it_cli p));
  poll (cli_Now (it_cli p)) (it_Dial p addr)
    (λ w, it_Sleep p (1 * Second)
            (Stderr (it_cli p) ("error connecting to furan server: waiting & retrying..." +:+ nl) w))
    (ErrText ("timeout waiting for furan server (" +:+ Duration_String (furanServerConnectTimeout fl) +:+ ")"))
    n (time_Add now (furanServerConnectTimeout fl)).

Definition with_GithubCredential (c : string) (t : IntegrationTest) : IntegrationTest :=
  let b := it_Build t in
  {| it_Name := it_Name t;
     it_Build := {| bd_GithubRepo := bd_GithubRepo b; bd_GithubCredential := c;
                    bd_DockerfilePath := bd_DockerfilePath b; bd_Ref := bd_Ref b; bd_Tags := bd_Tags b;
                    bd_TagWithCommitSha := bd_TagWithCommitSha b; bd_Args := bd_Args b;
                    bd_CacheOptions := bd_CacheOptions b; bd_Resources := bd_Resources b |};
     it_ImageRepos := it_ImageRepos t; it_SkipIfExists := it_SkipIfExists t;
     ExpectFailure := ExpectFailure t; ExpectSkipped := ExpectSkipped t;
     SecretNames_GitHubToken := SecretNames_GitHubToken t |}.

(** The tests of the file; it is closed when the command ends, here when it is read. *)
Definition read_tests (fl : integration_flags) : M W (list IntegrationTest) :=
  f ← wrapf "error opening integration tests file" (it_Open p (integrationTestsFile fl));
  deferring (λ _, run (λ w, ((), it_Close p f w)))
   (size ← wrapf "error getting file info" (it_Stat_Size p f);
    if 10000000 <? size then throw (ErrText ("integration test exceeds max size: " +:+ fmt_int size))
    else
      td ← wrapf "error reading file" (it_ReadAll p f);
      wrapf "error decoding integration tests file" (lift_res (it_Unmarshal p td))).

(** The token of every test, from the key "token" of its secret. *)
Definition with_tokens (fl : integration_flags) (kc : string → string → M W (gmap string string))
    (tests : list IntegrationTest) : M W (list IntegrationTest) :=
  mapM (λ t,
    let sn := SecretNames_GitHubToken t in
    s ← wrapf ("error getting secret: " +:+ sn) (kc (POD_NAMESPACE fl) sn);
    mret (with_GithubCredential (default ""%string (s !! "token"%string)) t)) tests.

(** [eg.Wait()]: the first error that was returned. *)
Definition eg_Wait {A} (done : list (nat * res A)) : res () :=
  match omap (λ d, match d.2 with Ok _ => None | Err e => Some (Err e) | Panic s => Some (Panic s) end) done with
  | e :: _ => e
  | [] => Ok ()
  end.

(** The map of builds, as the goroutines filled it one after the other. *)
Definition build_map (tests : list IntegrationTest) (g : group_result uuid) : gmap string uuid :=
  foldl (λ m i,
    match tests !! i, list_find (λ d, d.1 = i) (gr_done g) with
    | Some t, Some (_, (_, Ok bid)) => <[it_Name t := bid]> m
    | _, _ => m
    end) ∅ (gr_locked g).

Definition print_status (fc : option (RemoteBuilder W)) (nb : string * uuid) : M W () :=
  fc ← deref fc;
  r ← attempt (rb_GetBuildStatus fc CtxBackground nb.2);
  match r with
  | Ok bs => out ("build status: " +:+ uuid_String nb.2 +:+ ": " +:+ nb.1 +:+ ": " +:+
                  BuildState_String (rs_State bs) +:+ nl)
  | Err err => out ("error getting build status: " +:+ uuid_String nb.2 +:+ ": " +:+ nb.1 +:+ ": " +:+
                    error_String err)
  | Panic s => panic s
  end.

(** Running the tests, with the client it got (nil if client.New failed: its error is not
    looked at). *)
Definition run_tests (n : nat) (fc : option (RemoteBuilder W)) (tests : list IntegrationTest) : M W () :=
  g ← it_Group p (imap (run_test n fc) tests);
  wrapf "failure" (lift_res (eg_Wait (gr_done g))) ;;
  builds ← (λ w, (Ok (it_Range p (build_map tests g) w), w));
  mforeach (print_status fc) builds.

(** [n] bounds the dials of the wait and the messages of each build. *)
Definition integration (n : nat) (fl : integration_flags) : M W () :=
  tests ← read_tests fl;
  kc ← wrapf "error getting k8s client" NewInClusterK8sClient;
  if bool_decide (tests = []) then throw (ErrText "no tests defined")
  else
    tests ← with_tokens fl kc tests;
    apikey ← wrapf "error getting api key" (GetAPIKey_ fl);
    wrapf "error verifying furan server is running" (WaitForFuranServer n fl (furanaddr fl)) ;;
    r ← attempt (New (cli_net (it_cli p)) (cli_quote (it_cli p))
                   {| Address := furanaddr fl; opt_APIKey := uuid_String apikey; TLSInsecureSkipVerify := true |});
    let fc := match r with Ok rb => Some rb | _ => None end in
    deferring (λ _, rb ← deref fc; Close rb) (run_tests n fc tests).
End integration.
