(* ===== verification/IntegrationFacts.v ===== *)
(** * Facts about the integration tests

    Waiting for the server ends; and a run that exits without an error has asked the server
    for the build of every test of its file and has seen it end as the test expects. *)

From S2P Require Import Prelude GoStrings GoTime Poll Uuid Models Datalayer Grpc Client CmdClient Integration.

#[local] Open Scope Z_scope.

(** The verdict on a final state: what was expected decides, but a build that was expected
    to be skipped passes when it was not. *)
Lemma verdict_spec fail skip state :
  verdict fail skip state = Ok () ↔
    (state = BuildState_FAILURE ∧ fail = true) ∨ (state = BuildState_SUCCESS ∧ fail = false) ∨
    (state = BuildState_SKIPPED ∧ skip = true).
Proof.
  unfold verdict. destruct (Z.eqb_spec state BuildState_FAILURE) as [->|]; [by destruct fail; cbn; naive_solver|].
  destruct (Z.eqb_spec state BuildState_SUCCESS) as [->|]; [by destruct fail; cbn; naive_solver|].
  destruct (Z.eqb_spec state BuildState_SKIPPED) as [->|]; [by destruct skip; cbn; naive_solver|naive_solver].
Qed.

(** A group has no error exactly when every goroutine returned without one. *)
Lemma eg_Wait_Ok {A} (done : list (nat * res A)) : eg_Wait done = Ok () ↔ Forall (λ d, isOk d.2 = true) done.
Proof.
  unfold eg_Wait. induction done as [|[i [a|e|m]] done IH]; cbn; [done| |..].
  - rewrite Forall_cons, IH. naive_solver.
  - split; [done|]. by intros [H _]%Forall_cons.
  - split; [done|]. by intros [H _]%Forall_cons.
Qed.

Section integration.
Context {W : Type} (p : ItProcess W).

(** However often the dials fail, the wait ends: the server answered or the time-out of the
    flag has passed.  A round sleeps a second. *)
Lemma WaitForFuranServer_ends clk n fl addr w :
  let pause w := it_Sleep p (1 * Second)
    (Stderr (it_cli p) ("error connecting to furan server: waiting & retrying..." +:+ nl) w) in
  clock_laws (cli_Now (it_cli p)) (it_Dial p addr) pause clk Second →
  0 ≤ t_sec (cli_Now (it_cli p) w).1 < 2 ^ 62 → 0 ≤ furanServerConnectTimeout fl < 2 ^ 60 →
  furanServerConnectTimeout fl ≤ Z.of_nat n * Second →
  wp (WaitForFuranServer p (S n) fl addr) (λ r w', match r with
    | Ok _ => ∃ v, (it_Dial p addr v).1 = Ok ()
    | Err _ => clk w + furanServerConnectTimeout fl ≤ clk w'
    | Panic _ => False
    end) w.
Proof.
  intros pause Hclk Hs Ht Hn. unfold WaitForFuranServer.
  eapply wp_mono; [|by apply (poll_for_ends _ _ _ _ clk Second n)].
  intros [[]|err|err] w' H; [done|by destruct H|done].
Qed.

End integration.

(** ** What a run that passes has seen *)

(** The calls of the server a run makes, with their answers. *)
Inductive rpc :=
  | CStart (req : BuildRequest) (answer : res string)
  | CStatus (id : string) (answer : res BuildStatusResponse).

Section observed.
Context {W : Type} (log : W → list rpc).

(** The connection notes its calls in [log]. *)
Record observed (c : FuranExecutorClient W) : Prop := {
  ob_Start ctx req w : log (rpc_StartBuild c ctx req w).2 = log w ++ [CStart req (rpc_StartBuild c ctx req w).1];
  ob_Status ctx id w : log (rpc_GetBuildStatus c ctx id w).2 = log w ++ [CStatus id (rpc_GetBuildStatus c ctx id w).1];
  ob_Monitor ctx id : same log (rpc_MonitorBuild c ctx id);
  ob_Recv ctx id mc : returns (rpc_MonitorBuild c ctx id) mc → same log (Recv mc);
  ob_Close w : log (conn_Close c w) = log w;
}.

(** The other calls of the process are not calls of the server. *)
Record process_observed (p : ItProcess W) : Prop := {
  po_Dial a rc tls : same log (Dial (cli_net (it_cli p)) a rc tls);
  po_client a rc tls c : returns (Dial (cli_net (it_cli p)) a rc tls) c → observed c;
  po_Stdout s w : log (Stdout (it_cli p) s w) = log w;
  po_Stderr s w : log (Stderr (it_cli p) s w) = log w;
  po_Now w : log (cli_Now (it_cli p) w).2 = log w;
  po_Open f : same log (it_Open p f);
  po_Stat f : same log (it_Stat_Size p f);
  po_ReadAll f : same log (it_ReadAll p f);
  po_Close f w : log (it_Close p f w) = log w;
  po_InCluster : same log (it_InClusterConfig p);
  po_NewForConfig : same log (it_NewForConfig p);
  po_secrets kc ns name : returns (it_NewForConfig p) kc → same log (kc ns name);
  po_NewRawPG uri size : same log (it_NewRawPGClient p uri size);
  po_query uri size q : returns (it_NewRawPGClient p uri size) q → same log q;
  po_net a : same log (it_Dial p a);
  po_Sleep d w : log (it_Sleep p d w) = log w;
}.

(** A computation that only grows calls. *)
Definition grows {A} (m : M W A) : Prop := ∀ w, log w `prefix_of` log (m w).2.

(** What the run time promises of a group of goroutines that do no more than that: every
    one is run once, from some moment on, to a result of its own; the calls it makes are
    among those of the group, in its order.  They may be interleaved with the calls of the
    others in any way. *)
Definition runs_all (p : ItProcess W) : Prop := ∀ (ms : list (M W uuid)) w g w',
  Forall grows ms → it_Group p ms w = (Ok g, w') →
  (gr_done g).*1 ≡ₚ seq 0 (length ms) ∧
  ∃ made, log w' = log w ++ made ∧
  ∀ i r, (i, r) ∈ gr_done g → ∃ m v calls,
    ms !! i = Some m ∧ (m v).1 = r ∧ log (m v).2 = log v ++ calls ∧ calls `sublist_of` made.

(** The two calls of a test that passes. *)
Definition passing (t : IntegrationTest) (calls : list rpc) : Prop := ∃ sid bid bs,
  calls = [CStart (test_request t) (Ok sid); CStatus (uuid_String bid) (Ok bs)] ∧
  FromString sid = Ok bid ∧ verdict (ExpectFailure t) (ExpectSkipped t) (rs_State bs) = Ok ().

Context (p : ItProcess W) (Hp : process_observed p) (Hg : runs_all p).

(** *** A test *)

Lemma same_recv_loop n mc print msg :
  same log (Recv mc) → (∀ ev, same log (print ev)) → same log (recv_loop n mc print msg).
Proof.
  intros Hmc Hpr. induction n as [|n IH]; [done|]. apply same_bind; [by apply same_attempt|].
  intros [be|e|e]; [|by destruct (decide _)|done]. apply same_bind; [done|]. intros _. by apply same_bind.
Qed.

Lemma monitor_calls n bid fail skip fc w : observed (rb_c fc) →
  wp (monitorIntegrationBuild p n bid fail skip fc) (λ r w', r = Ok () → ∃ bs,
    log w' = log w ++ [CStatus (uuid_String bid) (Ok bs)] ∧ verdict fail skip (rs_State bs) = Ok ()) w.
Proof.
  intros Hc. unfold monitorIntegrationBuild. rewrite wp_bind, wp_wrapf. unfold wp at 1, rb_MonitorBuild.
  destruct (rpc_MonitorBuild _ _ _ w) as [[mc|e|m] w1] eqn:Em; [|done..].
  pose proof (ob_Monitor _ Hc CtxBackground (uuid_String bid) w) as H1. rewrite Em in H1. cbn [fst snd] in *.
  rewrite wp_bind.
  match goal with |- wp ?m ?Q w1 => assert (same log m) as H2 end.
  { apply same_recv_loop; [eapply ob_Recv; [done|by do 2 eexists]|]. intros ev. apply same_run. intros v. by apply po_Stderr. }
  specialize (H2 w1). unfold wp at 1. destruct (recv_loop _ _ _ _ w1) as [[k|e|m] w2]; [|done..]. cbn [fst snd] in *.
  rewrite wp_bind, wp_wrapf. unfold rb_GetBuildStatus. rewrite wp_wrapf. unfold wp at 1.
  pose proof (ob_Status _ Hc CtxBackground (uuid_String bid) w2) as H3.
  destruct (rpc_GetBuildStatus _ _ _ w2) as [[bs|e|m] w3]; [|done..]. cbn [fst snd] in *.
  rewrite wp_bind. unfold CmdClient.err_out. rewrite wp_run, wp_lift_res. cbn [fst snd]. intros Hv. exists bs.
  by rewrite po_Stderr, H3, H2, H1.
Qed.

Lemma run_test_calls n fc i t w : (∀ rb, fc = Some rb → observed (rb_c rb)) →
  wp (run_test p n fc i t) (λ r w', isOk r = true → ∃ calls, log w' = log w ++ calls ∧ passing t calls) w.
Proof.
  intros Hfc. unfold run_test, CmdClient.out. rewrite wp_bind, wp_run, wp_bind. destruct fc as [rb|]; [|done].
  specialize (Hfc rb eq_refl). cbn [deref fst snd]. rewrite wp_ret, wp_bind, wp_wrapf. unfold rb_StartBuild.
  rewrite wp_bind, wp_wrapf. unfold wp at 1.
  set (w0 := Stdout _ _ w). assert (log w0 = log w) as H0 by by apply po_Stdout.
  pose proof (ob_Start _ Hfc CtxBackground (test_request t) w0) as H1.
  destruct (rpc_StartBuild _ _ _ w0) as [[sid|e|m] w1]; [|done..]. cbn [fst snd] in *.
  rewrite wp_wrapf, wp_lift_res. destruct (FromString sid) as [bid|e|e] eqn:Hid; [|done..].
  rewrite wp_bind, wp_run, wp_bind. eapply wp_mono; [|by apply monitor_calls].
  intros r w2 Hr. destruct r as [[]|e|m]; [|done..]. rewrite wp_ret. intros _.
  destruct (Hr eq_refl) as (bs & Hl & Hv). cbn [snd] in Hl. rewrite po_Stdout in Hl by done. eexists. split.
  - by rewrite Hl, H1, H0, <-app_assoc.
  - by exists sid, bid, bs.
Qed.

Lemma same_grows {A} (m : M W A) : same log m → grows m.
Proof. intros H w. by rewrite H. Qed.

Lemma grows_bind_returned {A B} (m : M W A) (f : A → M W B) :
  grows m → (∀ a, returns m a → grows (f a)) → grows (m ≫= f).
Proof.
  intros Hm Hf w. unfold mbind, M_bind. specialize (Hm w).
  destruct (m w) as [[a|e|e] w'] eqn:E; cbn in *; [|done..]. etrans; [done|]. apply Hf. by do 2 eexists.
Qed.

Lemma grows_bind {A B} (m : M W A) (f : A → M W B) : grows m → (∀ a, grows (f a)) → grows (m ≫= f).
Proof. intros Hm Hf. by apply grows_bind_returned. Qed.

Lemma grows_on_err {A} g (m : M W A) : grows m → grows (on_err g m).
Proof. intros Hm w. unfold on_err. specialize (Hm w). by destruct (m w) as [[a|e|e] w']. Qed.

Lemma grows_attempt {A} (m : M W A) : grows m → grows (attempt m).
Proof. intros Hm w. unfold attempt. specialize (Hm w). by destruct (m w) as [[a|e|e] w']. Qed.

Lemma grows_mforeach {A} (f : A → M W ()) l : (∀ x, grows (f x)) → grows (mforeach f l).
Proof. intros Hf. induction l as [|x l IH]; [by apply same_grows|]. by apply grows_bind. Qed.

Lemma grows_print s : grows (CmdClient.out (it_cli p) s) ∧ grows (CmdClient.err_out (it_cli p) s).
Proof. by split; apply same_grows, same_run; intros w; [apply po_Stdout|apply po_Stderr]. Qed.

Lemma grows_StartBuild rb ctx req : observed (rb_c rb) → grows (rb_StartBuild rb ctx req).
Proof.
  intros H. apply grows_bind; [|intros sid; by apply same_grows, same_on_err]. apply grows_on_err. intros w.
  rewrite (ob_Start _ H). by eexists.
Qed.

Lemma grows_GetBuildStatus rb ctx id : observed (rb_c rb) → grows (rb_GetBuildStatus rb ctx id).
Proof. intros H. apply grows_on_err. intros w. rewrite (ob_Status _ H). by eexists. Qed.

Lemma print_status_grows fc nb : (∀ rb, fc = Some rb → observed (rb_c rb)) → grows (print_status p fc nb).
Proof.
  intros Hfc. destruct fc as [rb|]; [|by apply same_grows]. unfold print_status.
  change (grows (r ← attempt (rb_GetBuildStatus rb CtxBackground nb.2); match r with
    | Ok bs => CmdClient.out (it_cli p) ("build status: " +:+ uuid_String nb.2 +:+ ": " +:+ nb.1 +:+ ": " +:+
                  BuildState_String (rs_State bs) +:+ nl)
    | Err err => CmdClient.out (it_cli p) ("error getting build status: " +:+ uuid_String nb.2 +:+ ": " +:+ nb.1 +:+ ": " +:+
                    error_String err)
    | Panic s => panic s end)).
  apply grows_bind; [by apply grows_attempt, grows_GetBuildStatus, Hfc|].
  intros []; [apply grows_print..|by apply same_grows].
Qed.

Lemma monitor_grows n bid fail skip fc : observed (rb_c fc) → grows (monitorIntegrationBuild p n bid fail skip fc).
Proof.
  intros Hc. unfold monitorIntegrationBuild, rb_MonitorBuild. apply grows_bind_returned.
  { by apply grows_on_err, same_grows, ob_Monitor. }
  intros mc Em%returns_on_err.
  apply grows_bind; [|intros k; apply grows_bind; [|intros bs; apply grows_bind]].
  - apply same_grows, same_recv_loop; [by eapply ob_Recv|]. intros ev. apply same_run. intros v. by apply po_Stderr.
  - by apply grows_on_err, grows_GetBuildStatus.
  - apply grows_print.
  - intros _. by apply same_grows.
Qed.

Lemma run_test_grows n fc i t : (∀ rb, fc = Some rb → observed (rb_c rb)) → grows (run_test p n fc i t).
Proof.
  intros Hfc. unfold run_test. apply grows_bind; [apply grows_print|]. intros _.
  destruct fc as [rb|]; [|by apply same_grows]. specialize (Hfc rb eq_refl).
  match goal with |- grows (deref _ ≫= ?f) => change (grows (f rb)) end. cbn beta.
  apply grows_bind; [by apply grows_on_err, grows_StartBuild|]. intros bid.
  apply grows_bind; [apply grows_print|]. intros _. apply grows_bind; [by apply monitor_grows|].
  intros _. by apply same_grows.
Qed.

(** *** The tests *)

(** The tests pass: each made its two calls. *)
Definition all_passing (tests : list IntegrationTest) (made : list rpc) : Prop :=
  ∀ t, t ∈ tests → ∃ calls, passing t calls ∧ calls `sublist_of` made.

Lemma run_tests_calls n fc tests w : (∀ rb, fc = Some rb → observed (rb_c rb)) →
  wp (run_tests p n fc tests) (λ r w', r = Ok () → ∃ made, log w' = log w ++ made ∧ all_passing tests made) w.
Proof.
  intros Hfc. unfold run_tests. rewrite wp_bind. unfold wp at 1.
  destruct (it_Group p _ w) as [[g|e|m] w1] eqn:E; [|done..]. cbn [fst snd].
  apply Hg in E as (Hperm & made & Hl & Hown);
    [|apply Forall_lookup; intros i m [t [_ ->]]%list_lookup_imap_Some; by apply run_test_grows].
  rewrite wp_bind, wp_wrapf, wp_lift_res.
  destruct (eg_Wait (gr_done g)) as [[]|e|m] eqn:Hw; [|done..]. apply eg_Wait_Ok in Hw. rewrite Forall_forall in Hw.
  match goal with |- wp ?m _ w1 => assert (grows m) as Ha end.
  { apply grows_bind; [by apply same_grows|]. intros bs. apply grows_mforeach. intros nb. by apply print_status_grows. }
  destruct (Ha w1) as [more Hm]. unfold wp. rewrite Hm, Hl, <-app_assoc. intros _. exists (made ++ more). split; [done|].
  intros t [i Hi]%list_elem_of_lookup.
  assert (i ∈ (gr_done g).*1) as [[i' r] [-> Hin]]%list_elem_of_fmap.
  { rewrite Hperm, elem_of_seq, length_imap. apply lookup_lt_Some in Hi. lia. }
  destruct (Hown _ _ Hin) as (m & v & calls & Hms & Hr & Hc & Hsub). cbn in Hi. rewrite list_lookup_imap, Hi in Hms.
  injection Hms as <-. specialize (Hw _ Hin). cbn in Hw.
  pose proof (run_test_calls n fc i' t v Hfc) as Ht. unfold wp in Ht. rewrite Hr, Hc in Ht.
  destruct (Ht Hw) as (calls' & <-%app_inv_head & Hpass). exists calls. split; [done|].
  etrans; [exact Hsub|]. by apply sublist_inserts_r.
Qed.

(** *** Before the tests *)

(** A computation that makes no call, and what is run if it succeeds. *)
Lemma wp_quietly {A B} (m : M W A) (f : A → M W B) (P : W → Prop) w :
  same log m →
  (∀ a w', returns m a → log w' = log w → wp (f a) (λ r v, isOk r = true → P v) w') →
  wp (m ≫= f) (λ r v, isOk r = true → P v) w.
Proof.
  intros Hm Hf. rewrite wp_bind. unfold wp at 1. specialize (Hm w).
  destruct (m w) as [[a|e|e] w'] eqn:E; [|done..]. apply Hf; [by do 2 eexists|done].
Qed.

Lemma returns_bind {A B} (m : M W A) (f : A → M W B) b : returns (m ≫= f) b → ∃ a, returns m a ∧ returns (f a) b.
Proof.
  intros (w & w' & H). unfold mbind, M_bind in H. destruct (m w) as [[a|e|e] w1] eqn:E; [|done..].
  exists a. split; by do 2 eexists.
Qed.

Lemma returns_deferring {A} (d : res A → M W ()) (m : M W A) a : returns (deferring d m) a → returns m a.
Proof.
  intros (w & w' & H). unfold deferring in H. destruct (m w) as [r w1] eqn:E.
  destruct (d r w1) as [[] w2]; simplify_eq; by do 2 eexists.
Qed.

Lemma same_deferring {A} (d : res A → M W ()) (m : M W A) :
  (∀ r, same log (d r)) → same log m → same log (deferring d m).
Proof.
  intros Hd Hm w. unfold deferring. specialize (Hm w). destruct (m w) as [r w1]. specialize (Hd r w1).
  destruct (d r w1) as [[]]; cbn in *; by rewrite Hd.
Qed.

Lemma read_tests_quiet fl : same log (read_tests p fl).
Proof.
  apply same_bind; [by apply same_on_err, po_Open|]. intros f. apply same_deferring.
  { intros r. apply same_run. by apply po_Close. }
  apply same_bind; [by apply same_on_err, po_Stat|]. intros size. destruct (_ <? _); [done|].
  apply same_bind; [by apply same_on_err, po_ReadAll|]. intros td. by apply same_on_err.
Qed.

(** [td] is the text of the file of the flag, of at most ten million bytes. *)
Definition file_text (fl : integration_flags) (w : W) (td : string) : Prop :=
  ∃ f w1 size w2 w3, it_Open p (integrationTestsFile fl) w = (Ok f, w1) ∧
    it_Stat_Size p f w1 = (Ok size, w2) ∧ size ≤ 10000000 ∧ it_ReadAll p f w2 = (Ok td, w3).

Lemma read_tests_decodes fl w :
  wp (read_tests p fl) (λ r _, ∀ tests, r = Ok tests → ∃ td, file_text fl w td ∧ it_Unmarshal p td = Ok tests) w.
Proof.
  unfold read_tests. rewrite wp_bind, wp_wrapf. unfold wp at 1.
  destruct (it_Open p _ w) as [[f|?|?] w1] eqn:Eo; [|done..]. cbn [fst snd]. rewrite wp_deferring.
  eapply (wp_mono _ (λ r _, ∀ tests, r = Ok tests → ∃ td, file_text fl w td ∧ it_Unmarshal p td = Ok tests)).
  { intros r w2 Hr. rewrite wp_run. by destruct r. }
  rewrite wp_bind, wp_wrapf. unfold wp at 1. destruct (it_Stat_Size p f w1) as [[size|?|?] w2] eqn:Es; [|done..].
  cbn [fst snd]. destruct (Z.ltb_spec 10000000 size) as [|Hsize]; [done|].
  rewrite wp_bind, wp_wrapf. unfold wp at 1. destruct (it_ReadAll p f w2) as [[td|?|?] w3] eqn:Er; [|done..].
  cbn [fst snd]. rewrite wp_wrapf, wp_lift_res. destruct (it_Unmarshal p td) as [ts|?|?] eqn:Eu; [|done..].
  intros ? [= <-]. exists td. split; [|done]. by exists f, w1, size, w2, w3.
Qed.

(** [token] is what the secret of the test has under the key "token", if anything. *)
Definition secret_token (fl : integration_flags) (t : IntegrationTest) (token : string) : Prop :=
  ∃ kc data, returns (it_NewForConfig p) kc ∧
    returns (kc (POD_NAMESPACE fl) (SecretNames_GitHubToken t)) data ∧
    token = default ""%string (data !! "token"%string).

Lemma with_tokens_spec fl kc tests w :
  returns (it_NewForConfig p) kc → (∀ ns name, same log (kc ns name)) →
  wp (with_tokens fl kc tests) (λ r w', log w' = log w ∧ ∀ ts, r = Ok ts →
    Forall2 (λ t t', ∃ token, secret_token fl t token ∧ t' = with_GithubCredential token t) tests ts) w.
Proof.
  intros Hnew Hkc. revert w. unfold with_tokens. induction tests as [|t tests IH]; intros w.
  - split; [done|]. by intros ts [= <-].
  - cbn [mapM]. rewrite !wp_bind, wp_wrapf. specialize (Hkc (POD_NAMESPACE fl) (SecretNames_GitHubToken t) w).
    unfold wp at 1. destruct (kc _ _ w) as [[d|e|m] w1] eqn:Ek; cbn [fst snd] in Hkc |- *; [|by split..]. rewrite wp_ret, wp_bind.
    eapply wp_mono; [|apply IH]. intros r w2 [Hl Hr]. rewrite Hkc in Hl. destruct r as [ts|e|m]; [|done..].
    rewrite wp_ret. split; [done|]. intros ? [= <-]. constructor; [|by apply Hr].
    eexists. split; [|reflexivity]. exists kc, d. split; [done|]. split; [by do 2 eexists|done].
Qed.

Lemma WaitForFuranServer_quiet n fl addr : same log (WaitForFuranServer p n fl addr).
Proof.
  apply same_bind; [by apply same_run, po_Now|]. intros now. apply same_poll; [by apply po_Now|by apply po_net|].
  intros w. by rewrite po_Sleep, po_Stderr.
Qed.

(** *** The client, and the whole command *)

Lemma New_insecure a key :
  let m := New (cli_net (it_cli p)) (cli_quote (it_cli p))
             {| Address := a; opt_APIKey := key; TLSInsecureSkipVerify := true |} in
  same log m ∧ ∀ rb, returns m rb → observed (rb_c rb).
Proof.
  cbn zeta. unfold New. cbn [TLSInsecureSkipVerify Address opt_APIKey]. split.
  - apply same_bind; [done|]. intros roots. apply same_bind; [by apply same_on_err, po_Dial|done].
  - intros rb (roots & _ & (c & Hc%returns_on_err & (? & ? & [= <- _]))%returns_bind)%returns_bind. by eapply po_client.
Qed.

(** From the client on: what client.New returned, the tests, and closing the client. *)
Lemma with_new_client_calls n a key tests w :
  wp (r ← attempt (New (cli_net (it_cli p)) (cli_quote (it_cli p))
                     {| Address := a; opt_APIKey := key; TLSInsecureSkipVerify := true |});
      let fc := match r with Ok rb => Some rb | _ => None end in
      deferring (λ _, rb ← deref fc; Close rb) (run_tests p n fc tests))
    (λ r w', isOk r = true → ∃ made, log w' = log w ++ made ∧ all_passing tests made) w.
Proof.
  destruct (New_insecure a key) as [Hq Ho]. rewrite wp_bind, wp_attempt. unfold wp at 1. specialize (Hq w).
  assert (∀ fc w1, log w1 = log w → (∀ rb, fc = Some rb → observed (rb_c rb)) →
    wp (deferring (λ _, rb ← deref fc; Close rb) (run_tests p n fc tests))
      (λ r w', isOk r = true → ∃ made, log w' = log w ++ made ∧ all_passing tests made) w1) as Hrun.
  { intros fc w1 <- Hfc. rewrite wp_deferring. eapply wp_mono; [|by apply run_tests_calls]. intros r w2 Hr.
    destruct fc as [rb|]; [|done]. cbn [deref]. rewrite wp_bind, wp_ret. unfold Close. rewrite wp_run. cbn [fst snd].
    destruct r as [[]|e|e]; [|done..]. intros _. rewrite ob_Close by by apply Hfc. by apply Hr. }
  destruct (New _ _ _ w) as [[rb|e|e] w1] eqn:E; cbn [fst snd] in *; [| |done]; apply Hrun; [done| |done|done].
  intros ? [= <-]. apply Ho. by do 2 eexists.
Qed.

(** C21: furan integration only exits without an error if the file it was given lists tests
    and each of them passed: its build was requested, with the token its secret holds, and
    the status that was asked for afterwards is one the test expects.  (The verdict does
    not look at ExpectSkipped when a build succeeds.)  The goroutines of the tests may make
    their calls in any interleaving. *)
Theorem integration_passes n fl w :
  wp (integration p n fl) (λ r w', isOk r = true → ∃ td tests made,
    file_text fl w td ∧ it_Unmarshal p td = Ok tests ∧ tests ≠ [] ∧ log w' = log w ++ made ∧
    ∀ t, t ∈ tests → ∃ token calls, secret_token fl t token ∧
      passing (with_GithubCredential token t) calls ∧ calls `sublist_of` made) w.
Proof.
  unfold integration. rewrite wp_bind. unfold wp at 1. pose proof (read_tests_decodes fl w) as Hread.
  pose proof (read_tests_quiet fl w) as H1. unfold wp in Hread.
  destruct (read_tests p fl w) as [[tests|?|?] w1]; [|done..]. cbn [fst snd] in *.
  destruct (Hread tests eq_refl) as (td & Hfile & Htd). clear Hread.
  apply wp_quietly.
  { apply same_on_err, same_bind; [by apply same_on_err, po_InCluster|]. intros _. by apply same_on_err, po_NewForConfig. }
  intros kc w2 (u & _ & Hkc%returns_on_err)%returns_on_err%returns_bind H2. case_bool_decide as Hne; [done|].
  rewrite wp_bind. eapply wp_mono; [|apply with_tokens_spec; [done|intros; by eapply po_secrets]].
  intros r w3 [H3 Hts]. destruct r as [ts|e|e]; [|done..]. specialize (Hts ts eq_refl).
  apply wp_quietly.
  { apply same_on_err. intros v. unfold GetAPIKey_, mbind, M_bind, wrapf, on_err.
    pose proof (po_NewRawPG p Hp (DB_URI fl) 1 v) as Hv.
    destruct (it_NewRawPGClient p _ _ v) as [[q|e|e] v'] eqn:E; cbn in *; [|done..].
    rewrite <-Hv. eapply po_query; [done|by do 2 eexists]. }
  intros key w4 _ H4. apply wp_quietly; [by apply same_on_err, WaitForFuranServer_quiet|]. intros _ w5 _ H5.
  eapply wp_mono; [|apply with_new_client_calls]. intros r w6 Hr (made & Hl & Hall)%Hr. exists td, tests, made.
  split; [done|]. split; [done|]. split; [done|]. split; [by rewrite Hl, H5, H4, H3, H2, H1|].
  intros t [i Hi]%list_elem_of_lookup. destruct (Forall2_lookup_l _ _ _ _ _ Hts Hi) as (t' & Hi' & token & Htok & ->).
  destruct (Hall (with_GithubCredential token t)) as (calls & Hc); [by eapply list_elem_of_lookup_2|].
  by exists token, calls.
Qed.
End observed.

(** ** Witness *)

(** A run time that runs the goroutines one after the other. *)
Fixpoint run_group {W} (i : nat) (ms : list (M W uuid)) (w : W) : list (nat * res uuid) * W :=
  match ms with
  | [] => ([], w)
  | m :: ms' => let '(r, w1) := m w in let '(done, w2) := run_group (S i) ms' w1 in ((i, r) :: done, w2)
  end.

Definition seq_group {W} (ms : list (M W uuid)) : M W (group_result uuid) :=
  run (λ w, let '(done, w') := run_group 0 ms w in ({| gr_done := done; gr_locked := done.*1 |}, w')).

Lemma run_group_runs i (ms : list (M (list rpc) uuid)) w done w' :
  Forall (grows id) ms → run_group i ms w = (done, w') →
  done.*1 = seq i (length ms) ∧ ∃ made, w' = w ++ made ∧
  ∀ j r, (j, r) ∈ done → ∃ m v calls,
    ms !! (j - i)%nat = Some m ∧ (i ≤ j)%nat ∧ (m v).1 = r ∧ (m v).2 = v ++ calls ∧ calls `sublist_of` made.
Proof.
  intros Hms. revert i w done w'. induction Hms as [|m ms Hm _ IH]; intros i w done w'; cbn.
  - intros [= <- <-]. split; [done|]. exists []. rewrite app_nil_r. split; [done|]. by intros j r ?%elem_of_nil.
  - destruct (m w) as [r0 w1] eqn:E. destruct (run_group (S i) ms w1) as [done' w2] eqn:E'. intros [= <- <-].
    destruct (IH _ _ _ _ E') as (Hf & made & -> & Hown). destruct (Hm w) as [c Hc]. rewrite E in Hc. cbn in Hc. subst w1.
    split; [by cbn; rewrite Hf|]. exists (c ++ made). split; [by rewrite app_assoc|].
    intros j r [[= -> ->]|Hin]%elem_of_cons.
    + exists m, w, c. rewrite Nat.sub_diag, E. split_and!; [done..|]. by apply sublist_inserts_r.
    + destruct (Hown _ _ Hin) as (m' & v & calls & Hl & Hle & ? & ? & ?). exists m', v, calls.
      replace (j - i)%nat with (S (j - S i)) by lia. split_and!; [done|lia|done..|]. by apply sublist_inserts_l.
Qed.

Lemma seq_group_runs_all p : it_Group p = seq_group → runs_all id p.
Proof.
  intros Hp ms w g w' Hms Hg. rewrite Hp in Hg. unfold seq_group, run in Hg.
  destruct (run_group 0 ms w) as [done w1] eqn:E. injection Hg as <- <-. cbn.
  destruct (run_group_runs _ _ _ _ _ Hms E) as (Hf & made & -> & Hown). split; [by rewrite Hf|].
  exists made. split; [done|]. intros i r Hin. destruct (Hown _ _ Hin) as (m & v & calls & Hl & _ & Hr).
  rewrite Nat.sub_0_r in Hl. by exists m, v, calls.
Qed.

(** A server that builds everything but "acme/broken". *)
Definition other_id : uuid := Uuid ("1"%char :: replicate 15 Ascii.zero) I.

Definition sample_conn : FuranExecutorClient (list rpc) := {|
  rpc_StartBuild _ req w :=
    let id := if decide (bd_GithubRepo <$> rq_Build req = Some "acme/broken"%string) then other_id else uuid_Nil in
    (Ok (uuid_String id), w ++ [CStart req (Ok (uuid_String id))]);
  rpc_GetBuildStatus _ id w :=
    let s := if decide (id = uuid_String uuid_Nil) then BuildState_SUCCESS else BuildState_FAILURE in
    let bs := {| rs_BuildId := id; rs_BuildRequest := None; rs_State := s; rs_Started := None; rs_Completed := None |} in
    (Ok bs, w ++ [CStatus id (Ok bs)]);
  rpc_GetBuildEvents _ _ := throw ErrEOF; rpc_CancelBuild _ _ := throw ErrEOF;
  rpc_MonitorBuild _ _ := mret {| Recv := throw ErrEOF |};
  rpc_ListBuilds _ _ := throw ErrEOF; conn_Close w := w |}.

Definition sample_test (repo : string) (fail : bool) : IntegrationTest := {|
  it_Name := repo;
  it_Build := {| bd_GithubRepo := repo; bd_GithubCredential := ""; bd_DockerfilePath := "."; bd_Ref := "master";
                 bd_Tags := ["v1"%string]; bd_TagWithCommitSha := false; bd_Args := ∅; bd_CacheOptions := None;
                 bd_Resources := None |};
  it_ImageRepos := ["quay.io/acme/widget"%string]; it_SkipIfExists := false;
  ExpectFailure := fail; ExpectSkipped := false; SecretNames_GitHubToken := "github" |}.

Definition sample_tests : list IntegrationTest := [sample_test "acme/widget" false; sample_test "acme/broken" true].

Definition sample_it : ItProcess (list rpc) := {|
  it_cli := {| cli_net := {| cl_ReadFile _ := throw ErrEOF; AppendCertsFromPEM _ := false; Dial _ _ _ := mret sample_conn |};
               cli_quote s := s; Stdout _ w := w; Stderr _ w := w; cli_Now w := (time_Unix 1577836800 0, w) |};
  it_Open _ := mret 3%nat; it_Stat_Size _ := mret 100; it_ReadAll _ := mret "tests"%string; it_Close _ w := w;
  it_Unmarshal _ := Ok sample_tests; it_InClusterConfig := mret ();
  it_NewForConfig := mret (λ _ _, mret {["token"%string := "secret"%string]});
  it_NewRawPGClient _ _ := mret (mret uuid_Nil); it_Dial _ := mret (); it_Sleep _ w := w;
  it_Group := seq_group; it_Range m _ := map_to_list m |}.

Definition sample_flags : integration_flags := {|
  integrationTestsFile := "integration.yaml"; furanaddr := "furan:4000"; furanServerConnectTimeout := 120 * Second;
  POD_NAMESPACE := "furan"; DB_URI := "postgresql://" |}.

Lemma sample_it_observed : process_observed id sample_it.
Proof.
  split; try done.
  - intros a rc tls c (? & ? & [= <- _]). split; try done. by intros ctx id w (? & ? & [= <- _]).
  - by intros kc ns name (? & ? & [= <- _]).
  - by intros uri size q (? & ? & [= <- _]).
Qed.

Lemma integration_passes_witness :
  let go := integration sample_it 10 sample_flags [] in
  isOk go.1 = true ∧ length go.2 = 6%nat ∧ ∃ td tests made,
    file_text sample_it sample_flags [] td ∧ it_Unmarshal sample_it td = Ok tests ∧ tests ≠ [] ∧ go.2 = made ∧
    ∀ t, t ∈ tests → ∃ token calls, secret_token sample_it sample_flags t token ∧ passing (with_GithubCredential token t) calls ∧ calls `sublist_of` made.
Proof.
  intros go. assert (isOk go.1 = true) as Ho by (vm_compute; reflexivity). split; [exact Ho|].
  split; [vm_compute; reflexivity|].
  exact (integration_passes id sample_it sample_it_observed (seq_group_runs_all sample_it eq_refl) 10 sample_flags [] Ho).
Defined.
