(* ===== verification/Cmd.v ===== *)
(** * cmd: the server and the job

    [furan server] and [furan runbuild] put the components together, each from the flags
    and from the secrets its PreRun fetches; [furan migrate] runs the migrations.  What
    [clierr] reports ends the process: here it is the error of the command.  Tracing and
    profiling are left out. *)

From S2P Require Import Prelude GoStrings GoTime Uuid Models Datalayer K8s GoSlice Grpc.
From S2P Require Import Builder FuranJob JobRunner Buildkit S3 TagCheck Auth Secrets.

#[local] Open Scope Z_scope.

(** ** The secrets of a command *)

Record Configs := {
  ghConfig : GitHubConfig;
  quayConfig : QuayConfig;
  gcrConfig : GCRConfig;
  awsConfig : AWSConfig;
  dbConfig : DBConfig;
}.

Definition set_gh c g := {| ghConfig := c; quayConfig := quayConfig g; gcrConfig := gcrConfig g;
                            awsConfig := awsConfig g; dbConfig := dbConfig g |}.
Definition set_quay c g := {| ghConfig := ghConfig g; quayConfig := c; gcrConfig := gcrConfig g;
                              awsConfig := awsConfig g; dbConfig := dbConfig g |}.
Definition set_gcr c g := {| ghConfig := ghConfig g; quayConfig := quayConfig g; gcrConfig := c;
                             awsConfig := awsConfig g; dbConfig := dbConfig g |}.
Definition set_aws c g := {| ghConfig := ghConfig g; quayConfig := quayConfig g; gcrConfig := gcrConfig g;
                             awsConfig := c; dbConfig := dbConfig g |}.
Definition set_db c g := {| ghConfig := ghConfig g; quayConfig := quayConfig g; gcrConfig := gcrConfig g;
                            awsConfig := awsConfig g; dbConfig := c |}.

(** [clierr(msg + ": %v", err)]. *)
Definition clierr {W A} (msg : string) (m : M W A) : M W A :=
  on_err (λ err, ErrText (msg +:+ ": " +:+ error_String err)) m.

Section secrets.
Context {W : Type} (p : SecProcess W) (secretsbackend : string) (vaultConfig : VaultConfig).

(** The process, the fetcher [sf] and the configuration. *)
Definition cmd_world : Type := W * Fetcher W * Configs.

(** A method of the fetcher at the address of one of the variables. *)
Definition focus {C} (get : Configs → C) (set : C → Configs → Configs)
    (m : M (W * Fetcher W * C) ()) : M cmd_world () := λ w,
  let '(r, w1) := m (w.1, get w.2) in (r, (w1.1, set w1.2 w.2)).

(** A name that is none of the four leaves the backend as it is. *)
Definition secretsSetup : M cmd_world () :=
  f ← get_fetcher;
  set_fetcher (with_backend
    (if decide (secretsbackend = "vault"%string) then VaultBackend
     else if decide (secretsbackend = "env"%string) then EnvVarBackend
     else if decide (secretsbackend = "json"%string) then JSONBackend
     else if decide (secretsbackend = "filetree"%string) then FileTreeBackend
     else Backend f) vaultConfig f).

Definition gitHubSecrets : M cmd_world () :=
  secretsSetup ;; clierr "error getting github secrets" (focus ghConfig set_gh (GitHub p)).
Definition quaySecrets : M cmd_world () :=
  secretsSetup ;; clierr "error getting quay secrets" (focus quayConfig set_quay (Quay_ p)).
Definition gcrSecrets : M cmd_world () :=
  secretsSetup ;; clierr "error getting gcr secrets" (focus gcrConfig set_gcr (GCR_ p)).
Definition awsSecrets : M cmd_world () :=
  secretsSetup ;; clierr "error getting aws secrets" (focus awsConfig set_aws (AWS p)).
Definition dbSecrets : M cmd_world () :=
  secretsSetup ;; clierr "error getting db secrets" (focus dbConfig set_db (Database p)).

(** The PreRun of the server and of the job. *)
Definition PreRun : M cmd_world Configs :=
  gitHubSecrets ;; awsSecrets ;; gcrSecrets ;; quaySecrets ;; dbSecrets ;; get_struct.
End secrets.

(** ** furan runbuild *)

(** What the packages of the job give it: the connection to the database, the libraries and
    the operating system. *)
Record RunEnv (W : Type) := {
  re_database : string → M W (DataLayer W);        (* datalayer.NewPostgresDBLayer *)
  re_s3 : S3Process W;
  re_registries : Registries W;
  re_bkclient : string → M W (context → SolveOpt → M W ());
  re_bk : BkProcess W;
  re_os : OS W;
  re_github : string → CodeFetcher W;              (* github.NewGitHubFetcher *)
  re_log : string → W → W;                         (* log.Printf *)
}.
Arguments re_database {_} _ _ _.
Arguments re_s3 {_} _.
Arguments re_registries {_} _.
Arguments re_bkclient {_} _ _ _.
Arguments re_bk {_} _.
Arguments re_os {_} _.
Arguments re_github {_} _ _.
Arguments re_log {_} _ _ _.

Section runbuild.
Context {W : Type} `{SecretBox} (e : RunEnv W) (cfg : Configs).

Definition runbuild_cache (dl : DataLayer W) : CacheManager W := {|
  cm_AccessKeyID := aws_AccessKeyID (awsConfig cfg);
  cm_SecretAccessKey := aws_SecretAccessKey (awsConfig cfg);
  cm_Region := aws_Region (awsConfig cfg); cm_Bucket := CacheBucket (awsConfig cfg);
  cm_Keypfx := CacheKeyPrefix (awsConfig cfg); cm_Host := CacheHost (awsConfig cfg);
  cm_DL := dl; S3UploaderFactoryFunc := None; S3DownloaderFactoryFunc := None |}.

Definition runbuild_checker : Checker := {|
  Quay := Some {| APIToken := quay_Token (quayConfig cfg); quay_endpoint := None |};
  ECR := Some {| AccessKeyID := aws_AccessKeyID (awsConfig cfg);
                 SecretAccessKey := aws_SecretAccessKey (awsConfig cfg) |};
  GCR := Some {| gcr_ServiceAccount := gcr_Account (gcrConfig cfg); gcr_endpoint := None |} |}.

(** The session attachable of [AuthProviderFunc]. *)
Definition runbuild_auth : Provider W :=
  auth_New (quay_Token (quayConfig cfg)) (aws_AccessKeyID (awsConfig cfg))
    (aws_SecretAccessKey (awsConfig cfg)) (gcr_Account (gcrConfig cfg)).

(** [bks.LogF = log.Printf] and [bks.AuthProviderFunc = ...]. *)
Definition with_log_and_auth (bks : BuildSolver W) : BuildSolver W := {|
  bks_dl := bks_dl bks; s3cf := s3cf bks; bc_Solve := bc_Solve bks; bks_addr := bks_addr bks;
  AuthProvider := true; LogF := Some (re_log e) |}.

Definition runbuild_manager (dl : DataLayer W) (bks : BuildSolver W) : Manager W := {|
  mDL := Some dl; BRunner := Some (solver (re_bk e) bks); JRunner := None;
  TCheck := Some (checker (re_registries e) runbuild_checker);
  FetcherFactory := Some (re_github e); GitHubTokenKey := CredEncKeyArray (dbConfig cfg) |}.

Definition runbuild (buildid bkaddr : string) (timeout : Z) : M W () :=
  dl ← wrapf "error configuring database" (re_database e (PostgresURI (dbConfig cfg)));
  bks ← wrapf "error initializing build solver"
          (NewBuildSolver bkaddr (Some (cache_manager (re_s3 e) (runbuild_cache dl))) dl (re_bkclient e));
  let bks := with_log_and_auth bks in
  bid ← wrapf "invalid build id" (lift_res (FromString buildid));
  on_err (λ err, ErrText ("error connecting to buildkitd: " +:+ error_String err))
    (VerifyAddr (re_bk e) bks) ;;
  Builder.Run (re_os e) (runbuild_manager dl bks) (CtxWithTimeout CtxBackground timeout) bid.
End runbuild.

(** ** furan server *)

(** [defaultcachetype] and [defaultcachemaxmode]; the unknown type is logged. *)
Definition cachedefaults {W} (log : string → W → W) (defaultcachetype : string) (maxmode : bool) :
    M W BuildCacheOpts :=
  t ← (if decide (defaultcachetype = "s3"%string) then mret BuildCacheOpts_S3
       else if decide (defaultcachetype = "inline"%string) then mret BuildCacheOpts_INLINE
       else if decide (defaultcachetype = "disabled"%string) then mret BuildCacheOpts_DISABLED
       else run (λ w, (BuildCacheOpts_UNKNOWN,
                       log ("unknown cache type: " +:+ defaultcachetype +:+ "; ignoring") w)));
  mret {| Type_ := t; MaxMode := maxmode |}.

Section server.
Context `{K8sQuantity}.

Record maxResourceLimits := { CPUReq : string; MemReq : string; CPULim : string; MemLim : string }.

Definition wrap_res {A} (msg : string) (r : res A) : res A :=
  match r with Err e => Err (ErrWrap msg e) | _ => r end.

Definition process (mr : maxResourceLimits) : res MaxResourceLimits :=
  res_bind (wrap_res "max cpu req is invalid" (ParseQuantity (CPUReq mr))) (λ cr,
  res_bind (wrap_res "max mem req is invalid" (ParseQuantity (MemReq mr))) (λ mr',
  res_bind (wrap_res "max cpu limit is invalid" (ParseQuantity (CPULim mr))) (λ cl,
  res_bind (wrap_res "max cpu limit is invalid" (ParseQuantity (MemLim mr))) (λ ml,
  Ok {| MaxCPUReq := cr; MaxMemReq := mr'; MaxCPULim := cl; MaxMemLim := ml |})))).

(** The flags. *)
Record server_flags := {
  GRPCAddr : string;
  SeedKey : string;
  builderimg : string;
  jcinterval : Z;
  jcage : Z;
  tlscert : string;
  tlskey : string;
  defaultcachetype : string;
  defaultcachemaxmode : bool;
  maxResources : maxResourceLimits;
  apmConfig_APM : bool;
}.

Record ServeEnv (W Watch : Type) := {
  (* the data layer, and its method CreateSeedAPIKey *)
  se_database : string → M W (DataLayer W * (uuid → M W ()));
  se_InClusterConfig : M W ();
  se_NewForConfig : M W (K8sClient W Watch);
  se_process : Process W;
  se_watch : JobRunner.JobWatcher (Watch := Watch) → Job W;   (* the goroutine of a watcher: file JobWatch *)
  se_cleanup : nat * (W → bool * W);                          (* the ticks of the cleanup *)
  se_LoadX509KeyPair : string → string → M W ();
  se_github : string → CodeFetcher W;
  se_go : M W () → W → W;                                     (* [go f()] *)
  se_log : string → W → W;
  se_net_Listen : string → M W ();
  se_descriptors : res (gmap string service);
  se_Serve : Server W → M W ();
  se_ticks : nat;                                             (* of the loop of Manager.Start *)
}.

Context {W Watch : Type} `{GoHeap W, SecretBox} (grow : nat → nat → nat) (os : OS W).
Context (e : ServeEnv W Watch) (cfg : Configs).

(** [*K8sJobRunner] as the [models.JobRunner] of the manager. *)
Definition job_runner (kr : K8sJobRunner (W := W) (Watch := Watch)) : Builder.JobRunner W := {|
  jr_Run b := j ← JobRunner.Run kr b; mret (se_watch _ _ e j) |}.

Definition server_manager (dl : DataLayer W) (kr : K8sJobRunner (W := W) (Watch := Watch)) : Manager W := {|
  mDL := Some dl; JRunner := Some (job_runner kr); BRunner := None; TCheck := None;
  FetcherFactory := None; GitHubTokenKey := replicate 32 Ascii.zero |}.

(** [jr.JobFunc = jobrunner.FuranJobFunc] and [jr.LogFunc = log.Printf]. *)
Definition with_job_func (bkimage : string) (kr : K8sJobRunner (W := W) (Watch := Watch)) : K8sJobRunner (W := W) (Watch := Watch) := {|
  kr_client := kr_client kr; kr_dl := kr_dl kr; imageInfo := imageInfo kr;
  JobFunc := Some (FuranJobFunc grow bkimage); kr_LogFunc := Some (se_log _ _ e) |}.

Definition server_options (fl : server_flags) (cache : BuildCacheOpts) (mr : MaxResourceLimits) :
    Grpc.Options W := {|
  APM := apmConfig_APM fl; CredentialDecryptionKey := CredEncKeyArray (dbConfig cfg); Cache := cache;
  LogFunc := Some (se_log _ _ e); JobHandoffTimeout := 0; MaxResources := mr |}.

(** The value of [grpc.Server]; its methods are those that Listen finds. *)
Definition grpc_server (dl : DataLayer W) (kr : K8sJobRunner (W := W) (Watch := Watch)) (opts : Grpc.Options W) : Server W := {|
  DL := Some dl; BM := Some (manager os (se_ticks _ _ e) (server_manager dl kr));
  CFFactory := Some (se_github _ _ e); Opts := opts; methods := None |}.

Definition seed (fl : server_flags) (create : uuid → M W ()) : M W () :=
  if bool_decide (SeedKey fl = ""%string) then mret ()
  else
    run (λ w, ((), se_log _ _ e "WARNING: seed api key set, not suitable for production use!" w)) ;;
    id ← clierr "invalid seed key" (lift_res (FromString (SeedKey fl)));
    clierr "error creating seed key" (create id).

Definition server (fl : server_flags) : M W () :=
  db ← clierr "error configuring database" (se_database _ _ e (PostgresURI (dbConfig cfg)));
  let '(dl, create) := db in
  seed fl create ;;
  let bkimage := if decide (builderimg fl = ""%string) then BuildKitImage else builderimg fl in
  jr ← clierr "error setting up in-cluster job runner"
         (NewInClusterRunner grow (se_process _ _ e) (se_InClusterConfig _ _ e) (se_NewForConfig _ _ e) dl);
  let jr := with_job_func bkimage jr in
  cleanup ← clierr "error starting job cleanup"
              (StartCleanup (se_process _ _ e) (se_cleanup _ _ e).1 (se_cleanup _ _ e).2 jr
                 (jcinterval fl) (jcage fl) JobLabel);
  run (λ w, ((), se_go _ _ e cleanup w)) ;;
  (if decide (tlskey fl ≠ ""%string ∧ tlscert fl ≠ ""%string)
   then clierr "error loading tls cert/key" (se_LoadX509KeyPair _ _ e (tlscert fl) (tlskey fl))
   else mret ()) ;;
  mr ← clierr "error in max resource limits" (lift_res (process (maxResources fl)));
  cache ← cachedefaults (se_log _ _ e) (defaultcachetype fl) (defaultcachemaxmode fl);
  r ← attempt (Listen (grpc_server dl jr (server_options fl cache mr)) (GRPCAddr fl)
                 (se_net_Listen _ _ e) (se_descriptors _ _ e) (se_Serve _ _ e));
  run (λ w, ((), se_log _ _ e (match r with Err err => error_String err | _ => "<nil>" end) w)).
End server.

(** ** furan migrate *)

(** A [migrate.Migrate]: its methods, and whether an error is [ErrNoChange] or
    [ErrNilVersion]. *)
Record Migrate (W : Type) := {
  mg_Up : M W ();
  mg_Down : M W ();
  mg_Version : M W (Z * bool);
}.
Arguments mg_Up {_} _ _.
Arguments mg_Down {_} _ _.
Arguments mg_Version {_} _ _.

Section migrate.
Context {W : Type} (p : SecProcess W) (secretsbackend : string) (vaultConfig : VaultConfig).
Context (mg_New : string → string → M W (Migrate W)) (is_NoChange is_NilVersion : error → bool).
Context (Getenv : string → W → string * W) (print : string → W → W).

Record migrate_flags := {
  migrationCommand : string;
  migrationsPath : string;
  postgresURI : string;
  uriFromVault : bool;
  uriFromEnv : bool;
}.

Definition on_process {A} (m : M W A) : M (cmd_world (W := W)) A := on_fst (on_fst m).

(** The database it migrates. *)
Definition migrate_uri (fl : migrate_flags) : M cmd_world string :=
  if bool_decide (postgresURI fl ≠ ""%string) then mret (postgresURI fl)
  else if uriFromVault fl then
    dbSecrets p secretsbackend vaultConfig ;;
    cfg ← get_struct;
    mret (PostgresURI (dbConfig cfg))
  else if uriFromEnv fl then
    uri ← on_process (run (Getenv "DB_URI"));
    if bool_decide (uri = ""%string) then throw (ErrText "DB_URI missing from environment") else mret uri
  else throw (ErrText "at least one postgres URI option is required (vault, env, or explicitly provided)").

(** [if err == migrate.ErrNoChange { break }]. *)
Definition unless_no_change (msg : string) (m : M W ()) : M W () :=
  r ← attempt m;
  match r with
  | Err err => if is_NoChange err then mret () else clierr msg (throw err)
  | _ => mret ()
  end.

Definition domigrations (fl : migrate_flags) : M cmd_world () :=
  uri ← migrate_uri fl;
  m ← clierr "error creating migrations client" (on_process (mg_New ("file://" +:+ migrationsPath fl) uri));
  on_process
   (if decide (migrationCommand fl = "up"%string) then
      unless_no_change "error running up migrations" (mg_Up m)
    else if decide (migrationCommand fl = "down"%string) then
      unless_no_change "error running down migrations" (mg_Down m)
    else if decide (migrationCommand fl = "version"%string) then
      r ← attempt (mg_Version m);
      match r with
      | Err err =>
          if is_NilVersion err then run (λ w, ((), print "no migrations applied yet" w))
          else clierr "error checking migrations version" (throw err)
      | Ok (v, dirty) =>
          run (λ w, ((), print ("version: " +:+ fmt_int v +:+ "; dirty: " +:+
                                (if (dirty : bool) then "true" else "false")) w))
      | Panic e => panic e
      end
    else throw (ErrText ("unknown/invalid command: " +:+ migrationCommand fl))).
End migrate.
