(* ===== verification/CmdLine.v ===== *)
(** * cmd: the command lines of furan

    The flags every command registers, and what its function finds in the variables they
    are bound to.  Several commands bind the same variables, with the same defaults; one
    command is run, so the variables have the values of its flags. *)

From S2P Require Import Prelude GoStrings Flags Models Client Secrets CmdClient Integration Cmd.

#[local] Open Scope Z_scope.
#[local] Open Scope string_scope.

Section flags.
Context (Getenv : string → string).

(** ** The tables *)

Definition serverAndRunnerFlags : list flag := [
  StringVar "vault-addr" (Getenv "VAULT_ADDR");
  StringVar "vault-token" (Getenv "VAULT_TOKEN");
  BoolVar "vault-token-auth" false;
  BoolVar "vault-k8s-auth" false;
  StringVar "vault-k8s-jwt-path" "/var/run/secrets/kubernetes.io/serviceaccount/token";
  StringVar "vault-k8s-role" "";
  StringVar "vault-k8s-auth-path" "kubernetes";
  StringVar "secrets-backend" "vault";
  StringVar "secrets-json-file" "secrets.json";
  StringVar "secrets-filetree-root" "/vault/secrets/";
  StringVar "secrets-mapping" "{{.ID}}";
  StringVar "aws-region" "us-east-1";
  StringVar "s3-cache-bucket" "";
  StringVar "s3-cache-host" "";
  StringVar "s3-cache-key-pfx" "";
  BoolVar "ecr" false;
  StringSliceVar "ecr-registry-hosts" [];
  BoolVar "enable-apm" false;
  BoolVar "enable-profiling" false;
  StringVar "apm-addr" "datadog:8126";
  StringVar "apm-svc-name" "furan2";
  StringVar "apm-env-name" "development"].

Definition serverFlags : list flag := [
  StringVar "https-addr" "0.0.0.0:4001";
  StringVar "grpc-addr" "0.0.0.0:4000";
  StringVar "testing-seed-api-key" "";
  StringVar "trace-svc" "furan2";
  StringVar "builder-image" "";
  DurationVar "job-cleanup-interval" (30 * Minute);
  DurationVar "job-cleanup-min-age" (48 * Hour);
  StringVar "tls-cert-file" "";
  StringVar "tls-key-file" "";
  StringVar "default-cache-type" "disabled";
  BoolVar "default-cache-max-mode" false;
  StringVar "max-cpu-request" "2";
  StringVar "max-mem-request" "16G";
  StringVar "max-cpu-limit" "4";
  StringVar "max-mem-limit" "64G"].

Definition runbuildFlags : list flag := [
  StringVar "build-id" "";
  StringVar "buildkit-addr" "";
  DurationVar "timeout" (30 * Minute)].

Definition migrateFlags : list flag := [
  StringVar "cmd" "up";
  StringVar "migrations-path" "migrations";
  StringVar "postgres-uri" "";
  BoolVar "db-uri-from-vault" false;
  BoolVar "db-uri-from-env" false;
  BoolVar "verbose" false].

Definition setclientflags : list flag := [
  StringVar "remote-host" "";
  StringVar "api-key" "";
  BoolVar "tls-skip-verify" false].

Definition triggerFlags : list flag := [
  StringVar "github-token" (Getenv "GITHUB_TOKEN");
  StringVar "github-repo" "";
  StringVar "source-ref" "master";
  StringVar "dockerfile-path" ".";
  StringArrayVar "tags" [];
  BoolVar "tag-sha" true;
  BoolVar "skip-if-exists" false;
  StringVar "build-cache-type" "disabled";
  BoolVar "build-cache-max-mode" false;
  StringSliceVar "build-arg" [];
  StringArrayVar "image-repos" [];
  BoolVar "monitor" true;
  DurationVar "timeout" (30 * Second);
  DurationVar "build-timeout" (30 * Minute);
  StringVar "cpu-request" "";
  StringVar "mem-request" "";
  StringVar "cpu-limit" "";
  StringVar "mem-limit" ""].

Definition listFlags : list flag := [
  StringVar "with-github-repo" "";
  StringVar "with-github-ref" "";
  StringVar "with-image-repo" "";
  StringVar "with-status" "";
  DurationVar "with-completed-after" 0;
  DurationVar "with-started-after" 0;
  DurationVar "with-completed-before" 0;
  DurationVar "with-started-before" 0].

Definition cancelFlags : list flag := [StringVar "build-id" ""].
Definition eventsFlags : list flag := [StringVar "id" ""].

Definition integrationFlags : list flag := [
  StringVar "integration-tests-file" "/opt/testing/integration.yaml";
  StringVar "furan-addr" "furan:4000";
  DurationVar "furan-timeout" (2 * Minute)].

Definition serverCmd : Command := {| cmd_Name := "server"; cmd_Flags := serverAndRunnerFlags ++ serverFlags |}.
Definition runbuildCmd : Command := {| cmd_Name := "runbuild"; cmd_Flags := serverAndRunnerFlags ++ runbuildFlags |}.
Definition migrateCmd : Command := {| cmd_Name := "migrate"; cmd_Flags := serverAndRunnerFlags ++ migrateFlags |}.
Definition triggerCmd : Command := {| cmd_Name := "trigger"; cmd_Flags := setclientflags ++ triggerFlags |}.
Definition listCmd : Command := {| cmd_Name := "list"; cmd_Flags := setclientflags ++ listFlags |}.
Definition cancelCmd : Command := {| cmd_Name := "cancel"; cmd_Flags := setclientflags ++ cancelFlags |}.
Definition eventsCmd : Command := {| cmd_Name := "events"; cmd_Flags := setclientflags ++ eventsFlags |}.
Definition integrationCmd : Command := {| cmd_Name := "integration"; cmd_Flags := integrationFlags |}.

(** The commands of RootCmd, in the order of the files; cobra adds one for help. *)
Definition RootCmd : list Command :=
  [cancelCmd; eventsCmd; integrationCmd; listCmd; migrateCmd; runbuildCmd; serverCmd; triggerCmd;
   {| cmd_Name := "help"; cmd_Flags := [] |}].

(** ** The variables *)

Record APMConfig := {
  APM : bool; Profiling : bool; apm_Addr : string; apm_App : string; apm_Environment : string }.

(** What [serverAndRunnerFlags] binds: the secrets' backend, its options, and two structs
    of pkg/config; the keys of [awsConfig] come from the secrets. *)
Record shared_config := {
  sh_secretsbackend : string;
  sh_vaultConfig : VaultConfig;
  sh_JSONFile : string;
  sh_FileTreeRoot : string;
  sh_Mapping : string;
  sh_awsConfig : AWSConfig;
  sh_apmConfig : APMConfig;
}.

Section variables.
Variables (flags : list flag) (st : parsed).
Abbreviation str := (string_flag flags st).
Abbreviation bool_ := (bool_flag flags st).
Abbreviation dur := (duration_flag flags st).
Abbreviation strs := (strings_flag flags st).

Definition shared_config_of : shared_config := {|
  sh_secretsbackend := str "secrets-backend";
  sh_vaultConfig := {|
    Addr := str "vault-addr"; Token := str "vault-token"; TokenAuth := bool_ "vault-token-auth";
    K8sAuth := bool_ "vault-k8s-auth"; K8sJWTPath := str "vault-k8s-jwt-path";
    K8sAuthPath := str "vault-k8s-auth-path"; K8sRole := str "vault-k8s-role" |};
  sh_JSONFile := str "secrets-json-file";
  sh_FileTreeRoot := str "secrets-filetree-root";
  sh_Mapping := str "secrets-mapping";
  sh_awsConfig := {|
    aws_Region := str "aws-region"; CacheBucket := str "s3-cache-bucket"; CacheHost := str "s3-cache-host";
    CacheKeyPrefix := str "s3-cache-key-pfx"; aws_AccessKeyID := ""; aws_SecretAccessKey := "";
    EnableECR := bool_ "ecr"; ECRRegistryHosts := strs "ecr-registry-hosts" |};
  sh_apmConfig := {|
    APM := bool_ "enable-apm"; Profiling := bool_ "enable-profiling"; apm_Addr := str "apm-addr";
    apm_App := str "apm-svc-name"; apm_Environment := str "apm-env-name" |};
|}.

(** [https-addr] and [trace-svc] are bound to variables no function reads. *)
Definition server_flags_of : server_flags := {|
  GRPCAddr := str "grpc-addr"; SeedKey := str "testing-seed-api-key"; builderimg := str "builder-image";
  jcinterval := dur "job-cleanup-interval"; jcage := dur "job-cleanup-min-age";
  tlscert := str "tls-cert-file"; tlskey := str "tls-key-file";
  defaultcachetype := str "default-cache-type"; defaultcachemaxmode := bool_ "default-cache-max-mode";
  maxResources := {| CPUReq := str "max-cpu-request"; MemReq := str "max-mem-request";
                     CPULim := str "max-cpu-limit"; MemLim := str "max-mem-limit" |};
  apmConfig_APM := bool_ "enable-apm" |}.

Definition migrate_flags_of : migrate_flags := {|
  migrationCommand := str "cmd"; migrationsPath := str "migrations-path"; postgresURI := str "postgres-uri";
  uriFromVault := bool_ "db-uri-from-vault"; uriFromEnv := bool_ "db-uri-from-env" |}.

Definition clientops_of : client_Options := {|
  Address := str "remote-host"; opt_APIKey := str "api-key"; TLSInsecureSkipVerify := bool_ "tls-skip-verify" |}.

Definition trigger_flags_of : trigger_flags := {|
  github_token := str "github-token"; github_repo := str "github-repo"; source_ref := str "source-ref";
  dockerfile_path := str "dockerfile-path"; tags := strs "tags"; tag_sha := bool_ "tag-sha";
  skip_if_exists := bool_ "skip-if-exists"; cachetype := str "build-cache-type";
  cachemaxmode := bool_ "build-cache-max-mode"; buildArgs := strs "build-arg"; imagerepos := strs "image-repos";
  monitorBuild := bool_ "monitor"; rpctimeout := dur "timeout"; buildtimeout := dur "build-timeout";
  trigger_resources := {| CpuRequest := str "cpu-request"; MemoryRequest := str "mem-request";
                          CpuLimit := str "cpu-limit"; MemoryLimit := str "mem-limit" |} |}.

Definition list_flags_of : list_flags := {|
  with_github_repo := str "with-github-repo"; with_github_ref := str "with-github-ref";
  with_image_repo := str "with-image-repo"; statusstr := str "with-status";
  completedafter := dur "with-completed-after"; startedafter := dur "with-started-after";
  completedbefore := dur "with-completed-before"; startedbefore := dur "with-started-before" |}.

Definition integration_flags_of : integration_flags := {|
  integrationTestsFile := str "integration-tests-file"; furanaddr := str "furan-addr";
  furanServerConnectTimeout := dur "furan-timeout";
  POD_NAMESPACE := Getenv "POD_NAMESPACE"; DB_URI := Getenv "DB_URI" |}.

(** ** The function that is run *)

(** A command's function with the variables it reads; the arguments that are no flags are
    not looked at. *)
Inductive invocation :=
  | Server (shared : shared_config) (fl : server_flags)
  | Runbuild (shared : shared_config) (buildid bkaddr : string) (runbuildtimeout : Z)
  | Migrations (shared : shared_config) (fl : migrate_flags)
  | Trigger (clientops : client_Options) (fl : trigger_flags)
  | List (clientops : client_Options) (fl : list_flags)
  | Cancel (clientops : client_Options) (cancelBuildID : string)
  | Events (clientops : client_Options) (ids : string)
  | Integration (fl : integration_flags)
  | Help.

Definition invocation_of (name : string) : invocation :=
  if decide (name = "server") then Server shared_config_of server_flags_of
  else if decide (name = "runbuild") then
    Runbuild shared_config_of (str "build-id") (str "buildkit-addr") (dur "timeout")
  else if decide (name = "migrate") then Migrations shared_config_of migrate_flags_of
  else if decide (name = "trigger") then Trigger clientops_of trigger_flags_of
  else if decide (name = "list") then List clientops_of list_flags_of
  else if decide (name = "cancel") then Cancel clientops_of (str "build-id")
  else if decide (name = "events") then Events clientops_of (str "id")
  else if decide (name = "integration") then Integration integration_flags_of
  else Help.
End variables.

(** [main] with the arguments of the process: what is run, or an error. *)
Definition furan `{Texts} (args : list string) : res invocation :=
  res_bind (Execute RootCmd args) (λ r,
    match r with
    | Some (c, st) => Ok (invocation_of (cmd_Flags c) st (cmd_Name c))
    | None => Ok Help
    end).
End flags.
