(* ===== verification/CmdFacts.v ===== *)
(** * Facts about the commands

    The job as [furan runbuild] puts it together: what its parts do to the build, the
    credentials it pushes with, and the secrets. *)

From S2P Require Import Prelude GoStrings GoPath GoTime Poll Uuid Models Datalayer FakeDL K8s GoSlice Grpc GrpcFacts.
From S2P Require Import Builder BuilderFacts Buildkit S3 TagCheck TagCheckFacts Auth Secrets Cmd.

#[local] Open Scope Z_scope.

(** ** What the parts of a job write *)

Section adds.
Context {W : Type}.
Notation world := (W * list dlcall)%type.

Lemma adds_ignore {A} (m : M world A) : adds_events m → adds_events (ignore_err m).
Proof. intros Hm. apply adds_bind; [by apply adds_attempt|]. intros _. by apply adds_keeps. Qed.

Lemma adds_deferring {A} (d : res A → M world ()) (m : M world A) :
  (∀ r, adds_events (d r)) → adds_events m → adds_events (deferring d m).
Proof.
  intros Hd Hm w l. unfold deferring. destruct (Hm w l) as (evs & Hl & Hevs).
  destruct (m (w, l)) as [r [w' l']]. simpl in *. subst.
  destruct (Hd r w' (l ++ evs)) as (evs' & Hl' & Hevs').
  exists (evs ++ evs'). rewrite app_assoc, <-Hl'. split; [|by apply Forall_app].
  by destruct (d r (w', l ++ evs)) as [[?|?|?] [? ?]].
Qed.

Lemma adds_deref_some {A B} (a : A) (f : A → M world B) :
  adds_events (f a) → adds_events (deref (Some a) ≫= f).
Proof. done. Qed.

Lemma adds_run {A} (f : world → A * world) : (∀ w, (f w).2.2 = w.2) → adds_events (run f).
Proof. intros Hf. by apply adds_keeps, keeps_run. Qed.
End adds.

(** Walk through a program whose calls are known to add events at most. *)
Ltac adds_step :=
  match goal with
  | |- adds_events (deref (Some _) ≫= _) => apply adds_deref_some
  | |- adds_events (_ ≫= _) => apply adds_bind
  | |- adds_events (wrapf _ _) => apply adds_on_err
  | |- adds_events (on_err _ _) => apply adds_on_err
  | |- adds_events (clierr _ _) => apply adds_on_err
  | |- adds_events (attempt _) => apply adds_attempt
  | |- adds_events (ignore_err _) => apply adds_ignore
  | |- adds_events (deferring _ _) => apply adds_deferring
  | |- adds_events (AddEvent (logged _) _ _ _) => apply adds_AddEvent
  | |- adds_events (match ?x with _ => _ end) => destruct x
  | |- adds_events (mret _) => apply adds_keeps, keeps_ret
  | |- adds_events (throw _) => apply adds_keeps, keeps_throw
  | |- adds_events (panic _) => apply adds_keeps, keeps_panic
  | |- adds_events (lift_res _) => apply adds_keeps, keeps_lift_res
  | |- adds_events (deref _) => apply adds_keeps, keeps_deref
  | |- adds_events (GetBuildByID (logged _) _ _) => apply adds_keeps, keeps_on_fst
  | |- adds_events _ => assumption
  | |- adds_events _ => solve [auto with job]
  end.
Ltac adds_solve := repeat (intros; cbn beta iota zeta; adds_step).

Create HintDb job discriminated.

Section job.
Context {W : Type} `{SecretBox} (dl : DataLayer W) (obs : W → gmap uuid Build) `{!DataLayerSpec dl obs}.
Context (e : RunEnv (W * list dlcall)) (cfg : Configs).

(** What the job's environment leaves alone: the builds, but for the events the printer of
    the progress adds while BuildKit solves, and on the way to Run also their IDs. *)
Definition writes_and_builds (w : W * list dlcall) : list dlcall * gmap uuid Build := (w.2, obs w.1).

Record framed_s3 (p : S3Process (W * list dlcall)) : Prop := {
  f3_download ctx b k f : adds_events (NewDownloader p ctx b k f);
  f3_upload ctx b k f : adds_events (NewUploader p ctx b k f);
  f3_unarchive f d : adds_events (Unarchive p f d);
  f3_archive l f : adds_events (TarGz_Archive p l f);
  f3_file pat : adds_events (s3_TempFile p pat);
  f3_dir pat : adds_events (s3_TempDir p pat);
  f3_remove f w : (s3_Remove p f w).2 = w.2;
  f3_removeall f w : (s3_RemoveAll p f w).2 = w.2;
  f3_readdir d : adds_events (s3_ReadDir p d);
  f3_open f : adds_events (s3_Open p f);
  f3_stat f : adds_events (s3_Stat p f);
  f3_now w : (s3_Now p w).2.2 = w.2;
  f3_since t w : (s3_Since p t w).2.2 = w.2;
}.

Record job_env : Prop := {
  je_database uri d : returns (re_database e uri) d → d = logged dl;
  je_connect uri : same writes_and_builds (re_database e uri);
  je_client addr : same writes_and_builds (re_bkclient e addr);
  je_dial a : same writes_and_builds (bk_Dial (re_bk e) a);
  je_now : same writes_and_builds (run (bk_Now (re_bk e)));
  je_sleep d : same writes_and_builds (run (λ w, ((), bk_Sleep (re_bk e) d w)));
  je_solve addr solve ctx o : returns (re_bkclient e addr) solve → adds_events (solve ctx o);
  je_tmp : keeps_log (bk_TempDir (re_bk e));
  je_rm d w : (bk_RemoveAll (re_bk e) d w).2 = w.2;
  je_log msg w : (re_log e msg w).2 = w.2;
  je_s3 : framed_s3 (re_s3 e);
  je_http url a : keeps_log (http_Do (re_registries e) url a);
  je_describe r t w : (DescribeImagesPages (re_registries e) r t w).2.2 = w.2;
  je_range s w : (range_set (re_registries e) s w).2.2 = w.2;
  je_sha tok ctx repo ref : keeps_log (GetCommitSHA (re_github e tok) ctx repo ref);
  je_fetch tok ctx repo ref dst : keeps_log (Fetch (re_github e tok) ctx repo ref dst);
  je_ps : keeps_log (ps_Processes (re_os e));
  je_kill pid : keeps_log (sys_Kill (re_os e) pid);
  je_ostmp : keeps_log (TempDir (re_os e));
  je_osrm d w : (RemoveAll (re_os e) d w).2 = w.2;
  je_osopen p : keeps_log (os_Open (re_os e) p);
  je_readdir p : keeps_log (Readdir (re_os e) p);
  je_flag w : (cancelled_get (re_os e) w).2.2 = w.2;
}.
Context (He : job_env).

Lemma same_keeps {A} (m : M (W * list dlcall) A) : same writes_and_builds m → keeps_log m.
Proof. intros Hm w l. specialize (Hm (w, l)). unfold writes_and_builds in Hm. by injection Hm. Qed.

(** *** The cache *)

#[local] Notation p3 := (re_s3 e).
#[local] Notation cm := (runbuild_cache cfg (logged dl)).

Lemma adds_cm_event ctx id msg : adds_events (cm_event cm ctx id msg).
Proof. apply adds_ignore, adds_AddEvent. Qed.
Lemma adds_elapsed t : adds_events (elapsed p3 t).
Proof. unfold elapsed. adds_step; [apply adds_run, (f3_since _ (je_s3 He))|adds_solve]. Qed.
Lemma adds_s3_now : adds_events (run (s3_Now p3)).
Proof. apply adds_run, (f3_now _ (je_s3 He)). Qed.
Lemma adds_removing {A} f (m : M (W * list dlcall) A) : adds_events m → adds_events (removing p3 f m).
Proof.
  intros Hm. unfold removing. adds_step; [|done]. intros _. apply adds_run, (f3_remove _ (je_s3 He)).
Qed.

Hint Resolve adds_cm_event adds_elapsed adds_s3_now : job.

(** Only the client that was made is used. *)
Lemma adds_client {A B C} msg (r : res A) (x : B) (k : B → M (W * list dlcall) C) :
  adds_events (k x) → adds_events (wrapf msg (session_error r ;; mret x) ≫= k).
Proof.
  intros Hk w l. destruct r; [apply Hk|exists []; by rewrite app_nil_r..].
Qed.

Ltac adds_s3_solve :=
  repeat (intros; cbn beta iota zeta;
    first [apply adds_removing | adds_step | apply adds_run; intros ?; cbn; by auto | by eauto]).


Lemma adds_s3_Fetch ctx b : adds_events (s3_Fetch p3 cm ctx b).
Proof.
  destruct (je_s3 He). apply adds_client. adds_s3_solve.
Qed.

Lemma adds_s3_Save ctx b path : adds_events (s3_Save p3 cm ctx b path).
Proof.
  destruct (je_s3 He). apply adds_client. adds_s3_solve.
Qed.

(** *** The tag checker *)

Lemma keeps_missing_tags (f : string → M (W * list dlcall) bool) tags :
  (∀ t, keeps_log (f t)) → keeps_log (missing_tags f tags).
Proof.
  intros Hf. induction tags as [|t tags IH]; cbn [missing_tags]; [apply keeps_ret|].
  apply keeps_bind; [by apply keeps_on_err|]. intros present. apply keeps_bind; [done|]. intros. apply keeps_ret.
Qed.

Lemma keeps_describe_all sess r tags m : keeps_log (describe_all (re_registries e) sess r tags m).
Proof.
  revert m. induction tags as [|t tags IH]; intros m; cbn [describe_all]; [apply keeps_ret|].
  apply keeps_bind; [apply keeps_run, (je_describe He)|]. intros [pages [err|]]; [|apply IH].
  cbn. destruct (decide _); [apply IH|apply keeps_throw].
Qed.

Lemma keeps_AllTagsExist c tags repo : keeps_log (AllTagsExist_ (re_registries e) c tags repo).
Proof.
  pose proof (je_http He) as Hh. pose proof (je_range He) as Hr.
  unfold AllTagsExist_, ecr_AllTagsExist, quay_AllTagsExist, gcr_AllTagsExist, text_error.
  keeps_log_solve.
  all: try (apply keeps_missing_tags; intros; unfold quay_checkTag, gcr_checkTag; keeps_log_solve).
  all: try apply keeps_describe_all. all: try (by apply keeps_run).
Qed.

(** *** The solver *)

Lemma same_VerifyAddr_job bks : same writes_and_builds (VerifyAddr (re_bk e) bks).
Proof.
  apply same_bind; [apply (je_now He)|]. intros now. apply same_poll; [|apply (je_dial He)|].
  - intros w. pose proof (je_now He w) as Hn. unfold run in Hn. by destruct (bk_Now _ w).
  - intros w. exact (je_sleep He SocketConnectRetryDelay w).
Qed.

(** A solver as runbuild makes it. *)
Record job_solver (bks : BuildSolver (W * list dlcall)) : Prop := {
  js_dl : bks_dl bks = logged dl;
  js_cache : s3cf bks = Some (cache_manager p3 cm);
  js_solve ctx o : adds_events (bc_Solve bks ctx o);
  js_log : LogF bks = Some (re_log e);
}.

Lemma adds_loadCache bks ctx opts sopts : job_solver bks → adds_events (loadCache (re_bk e) bks ctx opts sopts).
Proof.
  intros [Hdl Hc _ _]. pose proof (je_tmp He) as Ht. unfold loadCache. rewrite Hdl, Hc. adds_solve.
  all: apply adds_s3_Fetch || by apply adds_keeps.
Qed.

Lemma adds_after_solve bks ctx opts expath : job_solver bks → adds_events (after_solve bks ctx opts expath).
Proof.
  intros [Hdl Hc _ Hl]. pose proof (je_log He) as Hlog. unfold after_solve, saveCache, warn, bks_log. rewrite Hdl, Hc, Hl.
  adds_solve; [apply adds_s3_Save|apply adds_run; intros ?; apply Hlog].
Qed.

Lemma adds_Build bks ctx opts : job_solver bks → adds_events (Build_ (re_bk e) bks ctx opts).
Proof.
  intros Hb. pose proof Hb as [Hdl _ Hs _]. unfold Build_, warn. rewrite Hdl. adds_solve.
  - by apply adds_loadCache.
  - intros _. apply adds_run. intros w. cbn. generalize (cl_cleanup a0). intros l. revert w.
    induction l as [|d l IH]; intros w; cbn [foldl]; [done|]. by rewrite IH, (je_rm He).
  - apply adds_keeps, same_keeps, same_VerifyAddr_job.
  - intros _. by apply adds_after_solve.
Qed.

Lemma job_manager_framed bks : job_solver bks →
  framed_manager (re_os e) dl (runbuild_manager e cfg (logged dl) bks).
Proof.
  intros Hb. pose proof He as []. constructor; try done; intros * [= <-].
  - by apply adds_Build.
  - apply keeps_AllTagsExist.
  - done.
  - done.
Qed.
(** A step on the way to Run. *)
Lemma wp_same {A} (m : M (W * list dlcall) A) Q w l :
  same writes_and_builds m →
  (∀ r w', obs w' = obs w → (∀ a, r = Ok a → returns m a) → Q r (w', l)) → wp m Q (w, l).
Proof.
  intros Hm HQ. unfold wp. specialize (Hm (w, l)). destruct (m (w, l)) as [r [w' l']] eqn:E.
  unfold writes_and_builds in Hm. cbn in Hm |- *. injection Hm as -> Ho. apply HQ; [done|]. intros a ->. by do 2 eexists.
Qed.

Lemma returns_solver addr cf d bks :
  returns (NewBuildSolver addr cf d (re_bkclient e)) bks →
  bks_dl bks = d ∧ s3cf bks = cf ∧ (∃ solve, returns (re_bkclient e addr) solve ∧ bc_Solve bks = solve).
Proof.
  intros (v & v' & Hr). unfold NewBuildSolver in Hr. destruct (negb _); [done|].
  unfold mbind, M_bind, wrapf, on_err in Hr.
  destruct (re_bkclient e addr v) as [[solve|?|?] v1] eqn:Ec; [|done..].
  injection Hr as <- <-. split_and!; [done..|]. exists solve. split; [by do 2 eexists|done].
Qed.

Lemma same_NewBuildSolver addr cf d : same writes_and_builds (NewBuildSolver addr cf d (re_bkclient e)).
Proof.
  unfold NewBuildSolver. destruct (negb _); [done|].
  apply same_bind; [apply same_on_err, (je_client He)|done].
Qed.
End job.

(** What is behind the status of a build the job has completed: its tag checker, or its
    solver on the BuildKit client it got for [addr]. *)
Definition job_outcome {W} `{SecretBox} (dl : DataLayer W) (e : RunEnv (W * list dlcall)) cfg addr
    (stored : option Build) (ctx2 : context) (l evs : list dlcall) (s : Z) : Prop :=
  ∃ bks, job_solver dl e cfg bks ∧ returns (re_bkclient e addr) (bc_Solve bks) ∧
    run_outcome (runbuild_manager e cfg (logged dl) bks) stored ctx2 l evs s.

(** C3: the job that [furan runbuild] puts together - the data layer, the S3 cache, the
    tag checker and the BuildKit solver - writes to the build it is run for what the
    manager is meant to write and nothing else: once it has taken the build over it ends
    it, with the status of the outcome - success if the solver built it and a tag was
    missing where that was to be checked, skipped if the tag checker found all the tags,
    cancelled if the flag of the cancellation was set when the job failed, and otherwise
    failed, with the error the job returns in the event; when it gives up before (no
    database, a socket address that is none, a BuildKit that does not come up) it writes
    nothing; and the components below it add events only. *)
Theorem runbuild_completes_what_it_started {W} `{SecretBox} (dl : DataLayer W) obs `{!DataLayerSpec dl obs}
    (e : RunEnv (W * list dlcall)) cfg id addr timeout w l :
  job_env dl obs e → map_Forall (λ id b, b_ID b = id) (obs w) →
  wp (runbuild e cfg (uuid_String id) addr timeout)
    (run_log (re_os e) (job_outcome dl e cfg addr (obs w !! id)) id l) (w, l).
Proof.
  intros He Hids. unfold runbuild. set (out := job_outcome dl e cfg addr (obs w !! id)).
  assert (∀ er (w' : W), run_log (re_os e) out id l (Err er) (w', l)) as HE.
  { intros er w'. left. exists [], []. rewrite app_nil_r. auto. }
  rewrite wp_bind. apply (wp_same obs); [apply same_on_err, (je_connect _ _ _ He)|].
  intros [d|?|?] w1 Ho1 Hd; [|apply HE|done].
  assert (d = logged dl) as -> by (eapply (je_database _ _ _ He), returns_on_err; by apply Hd).
  rewrite wp_bind. apply (wp_same obs); [apply same_on_err; by apply (same_NewBuildSolver dl)|].
  intros [bks|?|?] w2 Ho2 Hb; [|apply HE|done]. cbn zeta.
  destruct (returns_solver e _ _ _ bks ltac:(eapply returns_on_err; by apply Hb)) as (Hdl & Hc & solve & Hs & Hbs).
  rewrite wp_bind, wp_wrapf, wp_lift_res, FromString_String, wp_bind.
  apply (wp_same obs); [apply same_on_err; by apply (same_VerifyAddr_job dl)|].
  intros [[]|?|?] w3 Ho3 _; [|apply HE|done].
  assert (job_solver dl e cfg (with_log_and_auth e bks)) as Hj.
  { constructor; try done. intros ctx o. cbn. rewrite Hbs. by apply (je_solve _ _ _ He addr). }
  eapply wp_mono; [|apply (wp_Run (re_os e) dl _ (obs := obs));
    [by apply (job_manager_framed dl obs e cfg He)|by rewrite Ho3, Ho2, Ho1]].
  intros r w4. apply run_log_mono. intros ctx2 l2 evs s Hs'. eexists. split; [exact Hj|].
  split; [cbn; by rewrite Hbs|]. by rewrite Ho3, Ho2, Ho1 in Hs'.
Qed.

(** ** The credentials a job pushes with *)

Section credentials.
Context {W : Type} (rg : Registries W) (default_client : ECRAuthFactory W) (cfg : Configs).

(** A prefix that ends in its first slash is a host. *)
Lemma HasPrefix_host host name h : ContainsByte host "/" = false → ContainsByte h "/" = false →
  HasPrefix (host +:+ "/" +:+ name) (h +:+ "/") = bool_decide (host = h).
Proof.
  intros Hh Hh'. unfold HasPrefix. apply eq_true_iff_eq. rewrite prefix_spec, bool_decide_eq_true. split.
  - intros [t Ht]. rewrite str_app_assoc in Ht.
    pose proof (Cut_app host "/" name Hh) as H1. pose proof (Cut_app h "/" t Hh') as H2.
    change (String "/" name) with ("/" +:+ name) in H1. change (String "/" t) with ("/" +:+ t) in H2.
    rewrite Ht, H2 in H1. by injection H1.
  - intros ->. exists name. by rewrite str_app_assoc.
Qed.

(** What the provider of the job answers for the host of an image repository. *)
Definition answers (host : string) (m : M W CredentialsResponse) : Prop := ∀ w,
  wp m (λ r w',
    if isECR rg host then
      match r with
      | Ok c => ∃ region w0, ExtractRegistry rg host = Ok region ∧
          NewSession rg region (aws_AccessKeyID (awsConfig cfg)) (aws_SecretAccessKey (awsConfig cfg)) = Ok () ∧
          default_client region (aws_AccessKeyID (awsConfig cfg)) (aws_SecretAccessKey (awsConfig cfg)) host w0 =
            (Ok (Username c, Secret c), w')
      | Err err => ∃ msg, err = ErrStatus Internal msg
      | Panic _ => True
      end
    else w' = w ∧
      r = if isQuay host then Ok {| Username := "$oauthtoken"; Secret := quay_Token (quayConfig cfg) |}
          else if isGCR host then Ok {| Username := "_json_key"; Secret := gcr_Account (gcrConfig cfg) |}
          else if HasSuffix host ".docker.io" then Ok {| Username := ""; Secret := "" |}
          else Err (ErrStatus InvalidArgument ("unsupported registry host: " +:+ host))) w.

Lemma Credentials_answers host :
  answers host (Credentials rg default_client (runbuild_auth cfg) (Some host)).
Proof.
  intros w. unfold Credentials. destruct (isECR rg host) eqn:He.
  - unfold GetECRAuth, text_error. rewrite wp_bind, wp_on_err, wp_bind, wp_on_err, wp_lift_res.
    destruct (ExtractRegistry rg host) as [region|?|?] eqn:Hx; [|by eexists|done].
    rewrite wp_bind, wp_on_err, wp_lift_res. cbn [runbuild_auth auth_New pv_AccessKeyID pv_SecretAccessKey].
    destruct (NewSession rg region _ _) as [[]|?|?] eqn:Hn; [|by eexists|done].
    cbn [default ECRAuthClientFactoryFunc]. rewrite wp_on_err. unfold wp. cbn.
    set (key := aws_AccessKeyID (awsConfig cfg)) in *. set (secret := aws_SecretAccessKey (awsConfig cfg)) in *.
    destruct (default_client region key secret host w : res (string * string) * W)
      as [[[u s]|?|?] w1] eqn:Ec; cbn; [|by eexists|done].
    by exists region, w.
  - by destruct (isQuay host), (isGCR host), (HasSuffix host ".docker.io").
Qed.

(** C19: a job pushes with the credentials it checks tags with: for an image repository
    [host/name] the tag checker and the credential provider that runbuild makes take the
    same branch, and the provider answers with the secret that the checker of this branch
    sends (for ECR, the user of a client made with its keys); a repository the checker
    calls unsupported has no credentials, except that Docker Hub is read anonymously. *)
Theorem pushes_with_what_it_checks (host name : string) tags w :
  ContainsByte host "/" = false →
  answers host (Credentials rg default_client (runbuild_auth cfg) (Some host)) ∧
  AllTagsExist_ rg (runbuild_checker cfg) tags (host +:+ "/" +:+ name) w =
    if isECR rg host then
      ecr_AllTagsExist rg {| AccessKeyID := aws_AccessKeyID (awsConfig cfg);
                             SecretAccessKey := aws_SecretAccessKey (awsConfig cfg) |} tags (host +:+ "/" +:+ name) w
    else if isQuay host then
      all_tags (quay_checkTag rg {| APIToken := quay_Token (quayConfig cfg); quay_endpoint := None |}
                  (host +:+ "/" +:+ name)) tags w
    else if isGCR host then
      all_tags (gcr_checkTag rg {| gcr_ServiceAccount := gcr_Account (gcrConfig cfg); gcr_endpoint := None |}
                  (host +:+ "/" +:+ name)) tags w
    else (Err (ErrText ("unsupported or bad repo: " +:+ host +:+ "/" +:+ name)), w).
Proof.
  intros Hh. split; [apply Credentials_answers|].
  unfold AllTagsExist_, runbuild_checker. cbn [ECR Quay GCR deref].
  unfold mbind, M_bind, mret, M_ret. unfold IsECR, isECR. rewrite Split_host by done.
  destruct (ExtractRegistry rg host); [done|..].
  all: unfold quay_AllTagsExist, gcr_AllTagsExist, IsQuay, IsGCR, isQuay, isGCR, quay_prefix, gcr_prefix.
  all: change "quay.io/"%string with ("quay.io" +:+ "/")%string.
  all: change "europe-west1-docker.pkg.dev/"%string with ("europe-west1-docker.pkg.dev" +:+ "/")%string.
  all: rewrite !HasPrefix_host by done.
  all: destruct (bool_decide (host = "quay.io"%string)); [done|].
  all: by destruct (bool_decide (host = "europe-west1-docker.pkg.dev"%string)).
Qed.
End credentials.

(** ** Witness: a build through the whole job *)

#[local] Existing Instance milli_quantity.

Notation job_world := (fake_world * list dlcall)%type.

Definition sample_registries : Registries job_world := {|
  NewRequest _ := Ok (); http_Do _ _ := throw (ErrLib "no network"); Unmarshal_tags _ := Ok [];
  ExtractRegistry _ := Err (ErrLib "not ECR"); NewSession _ _ _ := Ok ();
  DescribeImagesPages _ _ w := (([], None), w); range_set s w := (elements s, w) |}.

Definition sample_s3 : S3Process job_world := {|
  aws_NewSession _ := Ok (); NewDownloader _ _ _ _ := mret 0; NewUploader _ _ _ _ := mret ();
  Unarchive _ _ := mret (); TarGz_Archive _ _ := mret (); s3_TempFile _ := mret "/tmp/cache.tar.gz"%string;
  s3_TempDir _ := mret "/tmp/cache"%string; s3_Remove _ w := w; s3_RemoveAll _ w := w;
  s3_ReadDir _ := mret []; s3_Open _ := mret (); s3_Stat _ := mret 0; s3_Now w := (time_zero, w);
  s3_Since _ w := (0, w) |}.

Definition sample_bk : BkProcess job_world := {|
  bk_TempDir := mret "/tmp/export"%string; bk_RemoveAll _ w := w; bk_Dial _ := mret ();
  bk_Now w := (time_zero, w); bk_Sleep _ w := w; bk_Getenv _ := ""%string |}.

Definition sample_env : RunEnv job_world := {|
  re_database _ := mret (logged Fake.dl); re_s3 := sample_s3; re_registries := sample_registries;
  re_bkclient _ := mret (λ _ _, mret ()); re_bk := sample_bk; re_os := sample_os;
  re_github := sample_fetcher; re_log _ w := w |}.

Definition sample_configs : Configs := {|
  ghConfig := {| gh_Token := "" |}; quayConfig := {| quay_Token := "quay" |};
  gcrConfig := {| gcr_Account := "{}" |};
  awsConfig := {| aws_Region := "us-east-1"; CacheBucket := "cache"; CacheHost := ""; CacheKeyPrefix := "";
                  aws_AccessKeyID := "id"; aws_SecretAccessKey := "key"; EnableECR := false;
                  ECRRegistryHosts := [] |};
  dbConfig := DBConfig_zero |}.

(** A build that uses the S3 cache. *)
Definition cached_build : Build :=
  match EncryptAndSetGitHubCredential (replicate 24 Ascii.zero) None
          (String.list_ascii_of_string "token") (replicate 32 Ascii.zero)
          (with_Status BuildStatusNotStarted (with_BuildOptions
             {| bo_BuildID := uuid_Nil; bo_ContextPath := ""; bo_CommitSHA := "";
                bo_RelativeDockerfilePath := "."; bo_BuildArgs := ∅;
                bo_Cache := {| Type_ := BuildCacheOpts_S3; MaxMode := false |};
                bo_Resources := BuildResources_zero |} Build_zero)) with
  | Ok b => b
  | _ => Build_zero
  end.

Lemma sample_s3_framed : framed_s3 sample_s3.
Proof. by constructor; intros; try (apply adds_keeps). Qed.

Lemma sample_job_env : job_env Fake.dl fake_obs sample_env.
Proof.
  constructor; try done.
  - by intros uri d (? & ? & [= <- _]).
  - intros addr solve ctx o (? & ? & [= <- _]). by apply adds_keeps.
  - apply sample_s3_framed.
Qed.

(** The build is taken over, the cache fetched and saved, and the build ends with success. *)
Lemma runbuild_completes_what_it_started_witness :
  let w := fake_world_with cached_build in
  let go := runbuild sample_env sample_configs (uuid_String uuid_Nil) "unix:///run/buildkit/buildkitd.sock" (30 * Minute) (w, []) in
  run_log sample_os (job_outcome Fake.dl sample_env sample_configs "unix:///run/buildkit/buildkitd.sock"
    (fake_obs w !! uuid_Nil)) uuid_Nil [] go.1 go.2 ∧ go.1 = Ok () ∧ length (go.2.2) = 10%nat ∧
  head go.2.2 = Some (LSetRunning (CtxWithCancel (CtxWithTimeout CtxBackground (30 * Minute))) uuid_Nil true).
Proof.
  intros w go. split; [|vm_compute; done].
  apply (runbuild_completes_what_it_started Fake.dl fake_obs sample_env sample_configs uuid_Nil _ _ w []).
  - apply sample_job_env.
  - apply fake_world_with_ids.
Defined.

Lemma pushes_with_what_it_checks_witness :
  answers sample_registries (λ _ _ _ _, throw (ErrLib "no ECR")) sample_configs "quay.io"
    (Credentials sample_registries (λ _ _ _ _, throw (ErrLib "no ECR")) (runbuild_auth sample_configs) (Some "quay.io"%string)) ∧
  (Credentials sample_registries (λ _ _ _ _, throw (ErrLib "no ECR")) (runbuild_auth sample_configs) (Some "quay.io"%string)
     (fake_empty, [])).1 = Ok {| Username := "$oauthtoken"; Secret := "quay" |}.
Proof.
  split; [|reflexivity].
  apply (pushes_with_what_it_checks sample_registries (λ _ _ _ _, throw (ErrLib "no ECR")) sample_configs
           "quay.io" "acme/foo" [] (fake_empty, [])).
  reflexivity.
Defined.
