(* ===== verification/CmdLineFacts.v ===== *)
(** * Facts about the command lines

    Parsing a command line goes argument by argument and looks at the flags it meets only;
    so the arguments a server hands over to its jobs configure them as they configured it. *)

From S2P Require Import Prelude GoStrings Flags Uuid Models K8s GoSlice FuranJob FuranJobFacts JobRunner JobRunnerFacts.
From S2P Require Import Datalayer Client Secrets CmdClient Integration Cmd CmdLine.

#[local] Open Scope Z_scope.

(** ** Parsing *)

Section parsing.
Context `{Texts}.

Lemma res_bind_Ok {A B} (r : res A) (f : A → res B) b : res_bind r f = Ok b → ∃ a, r = Ok a ∧ f a = Ok b.
Proof. destruct r as [a|e|p]; [|done..]. intros Hf. by exists a. Qed.

Lemma Set_inv f v st st' : Set_ f v st = Ok st' →
  ∃ x, Value_Set (fl_kind f) (actual st !! fl_Name f) v = Ok x ∧ st' = Parsed (<[fl_Name f := x]> (actual st)) (Args st).
Proof. unfold Set_. destruct (Value_Set _ _ _) as [x|e|p]; [|done..]. intros [= <-]. by exists x. Qed.

(** Two flags a parser cannot tell apart: they may have other defaults. *)
Definition like (f f' : flag) : Prop := fl_Name f = fl_Name f' ∧ fl_kind f = fl_kind f'.

Lemma Set_like f f' v st st' : like f f' → Set_ f v st = Ok st' → Set_ f' v st = Ok st'.
Proof. intros [Hn Hk] (x & Hx & ->)%Set_inv. unfold Set_. by rewrite <-Hk, <-Hn, Hx. Qed.

Lemma NoOptDefVal_like f f' : like f f' → NoOptDefVal f = NoOptDefVal f'.
Proof. intros [_ Hk]. unfold NoOptDefVal. by rewrite Hk. Qed.

(** More flags. *)
Definition extends (formal formal' : list flag) : Prop :=
  (∀ n f, Lookup formal n = Some f → ∃ f', Lookup formal' n = Some f' ∧ like f f') ∧
  (∀ c f, ShorthandLookup formal c = Some f → ∃ f', ShorthandLookup formal' c = Some f' ∧ like f f').

(** An argument that was parsed without looking at the next is parsed alike before others. *)
Lemma parseShortArg_next formal sh st b st' : parseShortArg formal sh None st = Ok (b, st') →
  b = false ∧ ∀ next, parseShortArg formal sh next st = Ok (false, st').
Proof.
  revert st. induction sh as [|c sh IH]; intros st; cbn [parseShortArg]; [by intros [= <- <-]|].
  destruct (HasPrefix _ _); [by intros [= <- <-]|]. destruct (ShorthandLookup _ _) as [f|]; [|by case_bool_decide].
  match goal with |- context [match ?o with Some _ => _ | None => _ end] => destruct o as [v|] end.
  { intros (st1 & -> & [= <- <-])%res_bind_Ok. done. }
  destruct (decide (NoOptDefVal f ≠ _)).
  { intros (st1 & -> & Hr)%res_bind_Ok. cbn. by apply IH. }
  destruct (decide _); [|done]. intros (st1 & -> & [= <- <-])%res_bind_Ok. done.
Qed.

Lemma parseArg_next formal s st b st' : parseArg formal s None st = Ok (b, st') →
  b = false ∧ ∀ next, parseArg formal s next st = Ok (false, st').
Proof.
  unfold parseArg. destruct (is_long s); [|apply parseShortArg_next]. unfold parseLongArg.
  destruct (after_dashes s) as [|c n]; [done|]. destruct (_ || _); [done|].
  destruct (Cut _ _) as [name [v|]]; (destruct (Lookup _ _) as [f|]; [|by destruct (decide _)]).
  - intros (st1 & -> & [= <- <-])%res_bind_Ok. done.
  - destruct (decide _); [|done]. intros (st1 & -> & [= <- <-])%res_bind_Ok. done.
Qed.

(** The argument taken is there. *)
Lemma parseArg_took formal s rest st st' : parseArg formal s (head rest) st = Ok (true, st') → ∃ v rest', rest = v :: rest'.
Proof.
  destruct rest as [|v rest]; [|by eexists _, _]. cbn [head]. intros Hp. by apply parseArg_next in Hp as [].
Qed.

(** Induction along the parser, which takes one argument or two. *)
Lemma args_ind (P : list string → Prop) :
  P [] → (∀ s rest, P rest → (∀ v rest', rest = v :: rest' → P rest') → P (s :: rest)) → ∀ args, P args.
Proof.
  intros H0 HS. assert (∀ n args, (length args ≤ n)%nat → P args) as Hn; [|intros args; by eapply Hn].
  induction n as [|n IH]; intros [|s rest] Hl; cbn in Hl; [done|lia|done|]. apply HS; [apply IH; lia|].
  intros v rest' ->. apply IH. cbn in Hl. lia.
Qed.

(** A command line is parsed up to any point where that ends well. *)
Lemma parseArgs_app formal args more st st1 :
  "--"%string ∉ args → parseArgs formal args st = Ok st1 → parseArgs formal (args ++ more) st = parseArgs formal more st1.
Proof.
  revert st. induction args as [|s rest IH IH'] using args_ind; intros st Hd; cbn [parseArgs app]; [by intros [= ->]|].
  apply not_elem_of_cons in Hd as [Hs Hd]. destruct (negb (is_flag s)); [by apply IH|].
  destruct (decide _); [done|]. destruct rest as [|v rest].
  - cbn [head app]. destruct (parseArg formal s None st) as [[b st']|e|p] eqn:Hp; [|done..].
    apply parseArg_next in Hp as [-> Hp]. rewrite Hp. cbn. by intros [= ->].
  - cbn [head app]. destruct (parseArg _ _ _ _) as [[[] st']|e|p]; [|by apply IH|done..].
    intros Hr. apply not_elem_of_cons in Hd as [_ Hd]. by eapply IH'.
Qed.

(** More flags do no harm. *)
Lemma parseShortArg_extends formal formal' sh next st r : extends formal formal' →
  parseShortArg formal sh next st = Ok r → parseShortArg formal' sh next st = Ok r.
Proof.
  intros [_ Hsh]. revert st. induction sh as [|c sh IH]; intros st; cbn [parseShortArg]; [done|].
  destruct (HasPrefix _ _); [done|]. destruct (ShorthandLookup formal c) as [f|] eqn:Hf; [|by case_bool_decide].
  destruct (Hsh _ _ Hf) as (f' & -> & Hl). rewrite <-(NoOptDefVal_like _ _ Hl).
  match goal with |- context [match ?o with Some _ => _ | None => _ end] => destruct o as [v|] end.
  { intros (st1 & Hs & Hr)%res_bind_Ok. by rewrite (Set_like _ _ _ _ _ Hl Hs). }
  destruct (decide (NoOptDefVal f ≠ _)).
  { intros (st1 & Hs & Hr)%res_bind_Ok. rewrite (Set_like _ _ _ _ _ Hl Hs). by apply IH. }
  destruct (decide _); [|destruct next as [v|]; [|done]];
    intros (st1 & Hs & Hr)%res_bind_Ok; by rewrite (Set_like _ _ _ _ _ Hl Hs).
Qed.

Lemma parseArg_extends formal formal' s next st r : extends formal formal' →
  parseArg formal s next st = Ok r → parseArg formal' s next st = Ok r.
Proof.
  intros Hext. unfold parseArg. destruct (is_long s); [|by apply parseShortArg_extends].
  destruct Hext as [Hlg _]. unfold parseLongArg.
  destruct (after_dashes s) as [|c n]; [done|]. destruct (_ || _); [done|]. destruct (Cut _ _) as [name value].
  destruct (Lookup formal name) as [f|] eqn:Hf; [|by destruct (decide _)].
  destruct (Hlg _ _ Hf) as (f' & -> & Hl). rewrite <-(NoOptDefVal_like _ _ Hl).
  destruct value as [v|]; [|destruct (decide _); [|destruct next as [v|]; [|done]]];
    intros (st1 & Hs & Hr)%res_bind_Ok; by rewrite (Set_like _ _ _ _ _ Hl Hs).
Qed.

Lemma parseArgs_extends formal formal' args st st1 : extends formal formal' →
  parseArgs formal args st = Ok st1 → parseArgs formal' args st = Ok st1.
Proof.
  intros Hext. revert st. induction args as [|s rest IH IH'] using args_ind; intros st; cbn [parseArgs]; [done|].
  destruct (negb (is_flag s)); [by apply IH|]. destruct (decide _); [done|].
  destruct (parseArg formal s (head rest) st) as [[b st']|e|p] eqn:Hp; [|done..].
  rewrite (parseArg_extends _ _ _ _ _ _ Hext Hp). destruct b; [|by apply IH].
  destruct rest as [|v rest]; [done|]. by eapply IH'.
Qed.

(** The long flag that an argument names. *)
Definition long_name (s : string) : string := (Cut (after_dashes s) equals).1.

Lemma Lookup_Name formal n f : Lookup formal n = Some f → fl_Name f = n.
Proof.
  unfold Lookup. destruct (list_find _ _) as [[i f']|] eqn:Hf; [|done]. intros [= <-].
  by apply list_find_Some in Hf as (_ & Hn & _).
Qed.

Lemma parseShortArg_keeps formal n sh next st b st' : (∀ c f, ShorthandLookup formal c = Some f → fl_Name f ≠ n) →
  parseShortArg formal sh next st = Ok (b, st') → actual st' !! n = actual st !! n.
Proof.
  intros Hsh. revert st. induction sh as [|c sh IH]; intros st; cbn [parseShortArg]; [by intros [= _ <-]|].
  destruct (HasPrefix _ _); [by intros [= _ <-]|].
  destruct (ShorthandLookup formal c) as [f|] eqn:Hf; [|by case_bool_decide]. apply Hsh in Hf.
  match goal with |- context [match ?o with Some _ => _ | None => _ end] => destruct o as [v|] end.
  { intros (st1 & (x & _ & ->)%Set_inv & [= _ <-])%res_bind_Ok. cbn. by rewrite lookup_insert_ne. }
  destruct (decide (NoOptDefVal f ≠ _)).
  { intros (st1 & (x & _ & ->)%Set_inv & Hr)%res_bind_Ok. apply IH in Hr as ->. cbn. by rewrite lookup_insert_ne. }
  destruct (decide _); [|destruct next as [v|]; [|done]];
    intros (st1 & (x & _ & ->)%Set_inv & [= _ <-])%res_bind_Ok; cbn; by rewrite lookup_insert_ne.
Qed.

(** Only flags that are on the command line, or have a shorthand, are set. *)
Lemma parseArgs_keeps formal n args st st1 : (∀ c f, ShorthandLookup formal c = Some f → fl_Name f ≠ n) →
  Forall (λ s, is_long s = true → ∀ f, Lookup formal (long_name s) = Some f → fl_Name f ≠ n) args →
  parseArgs formal args st = Ok st1 → actual st1 !! n = actual st !! n.
Proof.
  intros Hsh. revert st. induction args as [|s rest IH IH'] using args_ind; intros st; cbn [parseArgs]; [by intros _ [= ->]|].
  intros [Hs Hn1]%Forall_cons. unfold long_name in Hs.
  destruct (negb (is_flag s)); [intros Hr; by rewrite (IH _ Hn1 Hr)|]. destruct (decide _); [by intros [= <-]|].
  destruct (parseArg formal s (head rest) st) as [[b st']|e|p] eqn:Hp; [|done..].
  assert (actual st' !! n = actual st !! n) as Hk.
  { unfold parseArg in Hp. destruct (is_long s) eqn:Hlong; [|by eapply parseShortArg_keeps]. unfold parseLongArg in Hp.
    destruct (after_dashes s) as [|c m] eqn:Ha; [done|]. destruct (_ || _); [done|].
    destruct (Cut _ _) as [name value] eqn:Hc. destruct (Lookup formal name) as [f|] eqn:Hf; [|by destruct (decide _)].
    assert (fl_Name f ≠ n) by (apply Hs; [done|exact Hf]).
    destruct value as [v|]; [|destruct (decide _); [|destruct (head rest) as [v|]; [|done]]];
      apply res_bind_Ok in Hp as (st1' & (x & _ & ->)%Set_inv & [= _ <-]); cbn; by rewrite lookup_insert_ne. }
  rewrite <-Hk. destruct b; [|by apply IH]. destruct rest as [|v rest]; [by intros [= <-]|].
  apply Forall_cons in Hn1 as [_ Hn1]. by eapply IH'.
Qed.

(** A name the parser does not know. *)
Lemma parseArgs_unknown formal n args st st1 :
  n ∉ fl_Name <$> formal → parseArgs formal args st = Ok st1 → actual st1 !! n = actual st !! n.
Proof.
  intros Hn. assert (∀ f, f ∈ formal → fl_Name f ≠ n) as Hf.
  { intros f Hf <-. apply Hn, list_elem_of_fmap. by exists f. }
  apply parseArgs_keeps; [|apply Forall_forall]; unfold Lookup, ShorthandLookup.
  - intros c f. destruct (list_find _ _) as [[i g]|] eqn:E; [|done]. intros [= <-]. apply Hf.
    apply list_find_Some in E as [E _]. by eapply list_elem_of_lookup_2.
  - intros s _ _ f. destruct (list_find _ _) as [[i g]|] eqn:E; [|done]. intros [= <-]. apply Hf.
    apply list_find_Some in E as [E _]. by eapply list_elem_of_lookup_2.
Qed.
End parsing.

(** Setting a string. *)
Definition plain (n : string) : bool :=
  match n with String c _ => negb (bool_decide (c = dash) || bool_decide (c = equals)) | "" => false end &&
  bool_decide (Cut n equals = (n, None)).

Lemma parse_string `{Texts} formal n def v more st : plain n = true → Lookup formal n = Some (StringVar n def) →
  parseArgs formal (("--" +:+ n) :: v :: more) st = parseArgs formal more (Parsed (<[n := VString v]> (actual st)) (Args st)).
Proof.
  intros [Hc Hcut%bool_decide_eq_true]%andb_true_iff Hl. destruct n as [|c n]; [done|]. apply negb_true_iff in Hc.
  assert (parseArg formal ("--" +:+ String c n) (Some v) st =
    Ok (true, Parsed (<[String c n := VString v]> (actual st)) (Args st))) as Harg.
  { change (parseLongArg formal ("--" +:+ String c n) (Some v) st =
      Ok (true, Parsed (<[String c n := VString v]> (actual st)) (Args st))).
    unfold parseLongArg. change (after_dashes ("--" +:+ String c n)) with (String c n). cbv iota. by rewrite Hc, Hcut, Hl. }
  cbn [parseArgs head]. rewrite Harg. by destruct (decide (("--" +:+ String c n) = "--"%string)).
Qed.

(** ** Which command is run *)

(** Arguments that, to who knows no flags, are flags with their values. *)
Fixpoint only_flags (args : list string) : bool :=
  match args with
  | [] => true
  | s :: rest =>
      bool_decide (s ≠ "--"%string) &&
      if takes_next [] s then match rest with _ :: rest' => only_flags rest' | [] => false end
      else (bool_decide (s = ""%string) || HasPrefix s "-") && only_flags rest
  end.

Lemma stripFlags_only_flags args cmd more : cmd ≠ ""%string → HasPrefix cmd "-" = false → takes_next [] cmd = false →
  only_flags args = true → stripFlags [] (args ++ cmd :: more) = cmd :: stripFlags [] more.
Proof.
  intros Hne Hp Ht. induction args as [|s rest IH IH'] using args_ind; cbn [only_flags stripFlags app].
  - intros _. destruct (decide (cmd = "--"%string)) as [->|_]; [done|]. by rewrite Ht, bool_decide_eq_false_2, Hp.
  - intros [Hs%bool_decide_eq_true Hf]%andb_true_iff. destruct (decide _); [done|]. destruct (takes_next [] s).
    + destruct rest as [|v rest]; [done|]. cbn [app]. rewrite <-(IH' v rest eq_refl Hf). by destruct (rest ++ _) eqn:E; [destruct rest|].
    + apply andb_true_iff in Hf as [-> Hf]. by apply IH.
Qed.

Lemma argsMinusFirstX_app args cmd more : cmd ∉ args → argsMinusFirstX (args ++ cmd :: more) cmd = args ++ more.
Proof.
  induction args as [|s args IH]; cbn [app argsMinusFirstX]; [by rewrite decide_True|].
  intros [Hs Hn]%not_elem_of_cons. by rewrite decide_False, IH.
Qed.

Section commands.
Context `{Texts} (Getenv : string → string).

(** Flags, a command, and its arguments: the command parses both. *)
Lemma Execute_command args cmd more c : list_find (λ c, cmd_Name c = cmd) (RootCmd Getenv) = Some c →
  only_flags args = true → cmd ∉ args →
  Execute (RootCmd Getenv) (args ++ cmd :: more) =
    match execute (cmd_Flags c.2) (args ++ more) with
    | Ok st => Ok (Some (c.2, st))
    | Err err => if decide (err = ErrHelp) then Ok None else Err err
    | Panic p => Panic p
    end.
Proof.
  intros Hc Hf Hn. assert (cmd ≠ ""%string ∧ HasPrefix cmd "-" = false ∧ takes_next [] cmd = false) as (? & ? & ?).
  { destruct c as [i c]. apply list_find_Some in Hc as (Hi & <- & _). apply list_elem_of_lookup_2 in Hi. unfold RootCmd in Hi.
    repeat (apply elem_of_cons in Hi as [->|Hi]; [by vm_compute|]). by apply elem_of_nil in Hi. }
  unfold Execute, Find. rewrite (stripFlags_only_flags args cmd more) by done. rewrite Hc. destruct c as [i c].
  cbn [res_bind snd]. by rewrite argsMinusFirstX_app.
Qed.
End commands.

(** ** The configuration of a job *)

Definition shared_names : list string := fl_Name <$> serverAndRunnerFlags (λ _, ""%string).

(** A table with other defaults, and more flags behind. *)
Lemma extends_app formal formal' more :
  Forall2 (λ f f', like f f' ∧ fl_Shorthand f = fl_Shorthand f') formal formal' → extends formal (formal' ++ more).
Proof.
  intros Hl. unfold extends, Lookup, ShorthandLookup. induction Hl as [|f f' l l' [Hff Hs] _ [IH IH']]; [done|].
  split; [intros n g|intros c g]; cbn.
  - rewrite <-(proj1 Hff). destruct (decide (fl_Name f = n)) as [Hn|Hn]; [intros [= <-]; by exists f'|].
    specialize (IH n g). revert IH.
    destruct (list_find _ l) as [[i x]|]; [|done]; cbn. destruct (list_find _ (l' ++ more)) as [[j y]|]; cbn; [naive_solver|].
    intros IH Hx. by destruct (IH Hx) as (? & ? & _).
  - rewrite <-Hs. destruct (decide (fl_Shorthand f = Some c)) as [Hn|Hn]; [intros [= <-]; by exists f'|].
    specialize (IH' c g). revert IH'.
    destruct (list_find _ l) as [[i x]|]; [|done]; cbn. destruct (list_find _ (l' ++ more)) as [[j y]|]; cbn; [naive_solver|].
    intros IH' Hx. by destruct (IH' Hx) as (? & ? & _).
Qed.

Lemma shared_extends Getenv Getenv' more :
  extends (serverAndRunnerFlags Getenv) (with_help (serverAndRunnerFlags Getenv' ++ more)).
Proof. unfold with_help. rewrite <-app_assoc. apply extends_app. by repeat constructor. Qed.

Lemma Lookup_app l more n : n ∈ fl_Name <$> l → ∃ f, Lookup (l ++ more) n = Some f ∧ Lookup l n = Some f.
Proof.
  unfold Lookup. induction l as [|f l IH]; cbn; [by intros ?%elem_of_nil|].
  destruct (decide (fl_Name f = n)) as [|Hne]; [by exists f|]. intros [->|Hin]%elem_of_cons; [done|].
  destruct (IH Hin) as (g & Hg & Hg'). exists g. by destruct (list_find _ (l ++ more)) as [[]|], (list_find _ l) as [[]|].
Qed.

(** What the shared flags are bound to only depends on what was set by name. *)
Lemma shared_config_same Getenv Getenv' more more' st st' :
  Getenv' "VAULT_ADDR"%string = Getenv "VAULT_ADDR"%string → Getenv' "VAULT_TOKEN"%string = Getenv "VAULT_TOKEN"%string →
  (∀ n, n ∈ shared_names → actual st' !! n = actual st !! n) →
  shared_config_of (serverAndRunnerFlags Getenv' ++ more') st' = shared_config_of (serverAndRunnerFlags Getenv ++ more) st.
Proof.
  intros Ha Ht Hn.
  assert (serverAndRunnerFlags Getenv' = serverAndRunnerFlags Getenv) as -> by (unfold serverAndRunnerFlags; by rewrite Ha, Ht).
  assert (∀ n, n ∈ shared_names → flag_of (serverAndRunnerFlags Getenv ++ more') st' n =
                                   flag_of (serverAndRunnerFlags Getenv ++ more) st n) as Hf.
  { intros n Hin. unfold flag_of. rewrite Hn by done. destruct (actual st !! n); [done|].
    change shared_names with (fl_Name <$> serverAndRunnerFlags Getenv) in Hin.
    destruct (Lookup_app _ more n Hin) as (f & -> & Hf), (Lookup_app _ more' n Hin) as (f' & -> & Hf'). congruence. }
  unfold shared_config_of, string_flag, bool_flag, strings_flag.
  rewrite !Hf by (apply (bool_decide_unpack _); vm_compute; exact I). reflexivity.
Qed.

Lemma help_shorthand flags c f : Forall (λ f, fl_Shorthand f = None) flags →
  ShorthandLookup (with_help flags) c = Some f → f = help_flag.
Proof.
  unfold ShorthandLookup, with_help. intros Hn. destruct (list_find _ _) as [[i g]|] eqn:E; [|done]. intros [= <-].
  apply list_find_Some in E as (Hi & Hc & _). apply list_elem_of_lookup_2, elem_of_app in Hi as [Hi|Hi].
  - rewrite Forall_forall in Hn. by rewrite Hn in Hc.
  - by apply elem_of_cons in Hi as [->|?%elem_of_nil].
Qed.

(** No command registers a name twice, on which pflag panics, and no two commands have one
    name: a flag or a command is what it is looked up as. *)
Lemma tables_distinct Getenv :
  Forall (λ c, NoDup (fl_Name <$> with_help (cmd_Flags c))) (RootCmd Getenv) ∧ NoDup (cmd_Name <$> RootCmd Getenv).
Proof.
  split; [|apply (bool_decide_unpack _); vm_compute; exact I].
  repeat constructor; apply (bool_decide_unpack _); vm_compute; exact I.
Qed.

(** What the chart of the program asks for: before "server" there are only flags that jobs
    share, each with its value; after it there are none of these. *)
Record well_placed `{Texts} (root rest : list string) (st : parsed) : Prop := {
  wp_flags : only_flags root = true;
  wp_nodash : "--"%string ∉ root;
  wp_runbuild : "runbuild"%string ∉ root;
  wp_shared : parseArgs (serverAndRunnerFlags (λ _, ""%string)) root (Parsed ∅ []) = Ok st;
  wp_rest : Forall (λ s, is_long s = true → long_name s ∉ shared_names) rest;
}.

Section job.
Context `{Texts} (Getenv Getenv' : string → string) (root rest : list string) (st0 : parsed).
Context (Hwp : well_placed root rest st0).

(** The arguments before the command are parsed by every command that shares the flags. *)
Lemma root_parsed getenv flags more :
  parseArgs (with_help (serverAndRunnerFlags getenv ++ flags)) (root ++ more) (Parsed ∅ []) =
  parseArgs (with_help (serverAndRunnerFlags getenv ++ flags)) more st0.
Proof.
  apply parseArgs_app; [by apply wp_nodash with rest st0|].
  eapply parseArgs_extends; [apply shared_extends|by apply Hwp].
Qed.

Lemma root_sets n : n ∉ shared_names → actual st0 !! n = None.
Proof. intros Hn. rewrite (parseArgs_unknown _ n _ _ _ Hn (wp_shared _ _ _ Hwp)). apply lookup_empty. Qed.

(** The server has the shared flags of [root]. *)
Lemma server_shared shared fl : "server"%string ∉ root →
  furan Getenv (root ++ "server"%string :: rest) = Ok (Server shared fl) →
  ∃ st, shared = shared_config_of (serverAndRunnerFlags Getenv ++ serverFlags) st ∧
        ∀ n, n ∈ shared_names → actual st !! n = actual st0 !! n.
Proof.
  intros Hs. unfold furan.
  rewrite (Execute_command Getenv root "server" rest (6%nat, serverCmd Getenv)) by (done || apply Hwp).
  unfold execute. cbn [snd serverCmd cmd_Flags]. rewrite root_parsed.
  destruct (parseArgs _ rest st0) as [st|e|p] eqn:Hp; [|by cbn [res_bind]; destruct (decide _)|done].
  cbn [res_bind]. destruct (decide (actual st !! _ = _)) as [|_]; [by destruct (decide _)|]. cbn [res_bind serverCmd cmd_Name cmd_Flags].
  intros Hi. assert (shared = shared_config_of (serverAndRunnerFlags Getenv ++ serverFlags) st) as -> by (by injection Hi).
  exists st. split; [done|]. intros n Hn. revert Hp. apply parseArgs_keeps.
  - intros c f ->%help_shorthand; [|by repeat constructor]. cbn. intros <-. revert Hn. apply (bool_decide_unpack _). vm_compute. exact I.
  - eapply Forall_impl; [apply (wp_rest _ _ _ Hwp)|]. intros s Hl Hlong f ->%Lookup_Name Hx. apply (Hl Hlong). by rewrite Hx.
Qed.

(** A job runs its build, with the shared flags of [root]. *)
Lemma job_runs b :
  ∃ st, furan Getenv' (root ++ id_args b) =
    Ok (Runbuild (shared_config_of (serverAndRunnerFlags Getenv' ++ runbuildFlags) st) (uuid_String (b_ID b))
          ("unix://" +:+ bkSocketMountPath +:+ "/" +:+ bkSocketName) (30 * Minute)) ∧
    ∀ n, n ∈ shared_names → actual st !! n = actual st0 !! n.
Proof.
  unfold furan, id_args, furan_args. cbn [app].
  rewrite (Execute_command Getenv' root "runbuild" _ (5%nat, runbuildCmd Getenv')) by (done || apply Hwp).
  unfold execute. cbn [snd runbuildCmd cmd_Flags]. rewrite root_parsed.
  set (F := serverAndRunnerFlags Getenv' ++ runbuildFlags).
  assert (Lookup (with_help F) "buildkit-addr" = Some (StringVar "buildkit-addr" "")) as H1 by (vm_compute; reflexivity).
  assert (Lookup (with_help F) "build-id" = Some (StringVar "build-id" "")) as H2 by (vm_compute; reflexivity).
  change "--buildkit-addr"%string with ("--" +:+ "buildkit-addr"). change "--build-id"%string with ("--" +:+ "build-id").
  rewrite (parse_string _ _ "") by done. rewrite (parse_string _ _ "") by done. cbn [parseArgs res_bind actual Args].
  set (set_ := <["build-id"%string := VString (uuid_String (b_ID b))]> (<["buildkit-addr"%string :=
       VString ("unix://" +:+ bkSocketMountPath +:+ "/" +:+ bkSocketName)]> (actual st0))).
  assert (∀ n, n ∉ shared_names → n ≠ "build-id"%string → n ≠ "buildkit-addr"%string →
    set_ !! n = None) as Hnone.
  { intros n Hn Hb Hk. unfold set_. rewrite !lookup_insert_ne by done. by apply root_sets. }
  assert ("help"%string ∉ shared_names ∧ "timeout"%string ∉ shared_names) as [Hh Ht]
    by (apply (bool_decide_unpack _); vm_compute; exact I).
  destruct (decide _) as [Hx|_]; [by rewrite Hnone in Hx|]. cbn [res_bind]. set (P := Parsed set_ (Args st0)).
  exists P. split.
  - change (Ok (Runbuild (shared_config_of F P) (string_flag F P "build-id") (string_flag F P "buildkit-addr") (duration_flag F P "timeout")) =
      Ok (Runbuild (shared_config_of F P) (uuid_String (b_ID b)) ("unix://" +:+ bkSocketMountPath +:+ "/" +:+ bkSocketName) (30 * Minute))).
    subst P.
    unfold string_flag, duration_flag, flag_of. cbn [actual].
    rewrite (Hnone "timeout"%string) by done. unfold set_. rewrite lookup_insert_eq, lookup_insert_ne, lookup_insert_eq by done.
    assert (Lookup F "timeout" = Some (DurationVar "timeout" (30 * Minute))) as -> by (vm_compute; reflexivity). reflexivity.
  - intros n Hn. subst P. cbn [actual]. unfold set_.
    assert ("build-id"%string ∉ shared_names ∧ "buildkit-addr"%string ∉ shared_names) as [Hb Hk]
      by (apply (bool_decide_unpack _); vm_compute; exact I).
    rewrite !lookup_insert_ne by (intros <-; done). done.
Qed.
End job.

Section cluster.
Context `{Texts} `{K8sQuantity} (grow : nat → nat → nat) (bkimage : string) {W Watch : Type} `{GoHeap W} (p : Process W).
Context (Getenv Getenv' : string → string).

(** C12: A job is configured as the server that created it.  The server finds its own
    arguments in its pod and gives those before "server" to the job.  If they are shared
    flags, each with its value, and none of these follows, then cobra runs, in the
    container of every job, runbuild with the configuration of the server - secrets,
    Vault, AWS, tracing - and the id of the build, for as long as the two environments
    agree on the variables that are defaults of flags. *)
Theorem job_inherits_configuration (client : K8sClient W Watch) w info w' :
  (∀ (h : goheap) (v : W), heap_of (with_heap h v) = h) → template_parses →
  Getenv' "VAULT_ADDR"%string = Getenv "VAULT_ADDR"%string → Getenv' "VAULT_TOKEN"%string = Getenv "VAULT_TOKEN"%string →
  image grow p client w = (Ok info, w') →
  let root := sread (heap_of w') (RootArgs info) in
  ∃ pod c rest w1 w2,
    pods_Get W Watch client (Namespace info) (PodName info) w1 = (Ok pod, w2) ∧
    c ∈ Containers (pod_Spec pod) ∧ c_Name c = "furan"%string ∧ c_Args c = root ++ "server"%string :: rest ∧
    ∀ b bk shared fl st, furan Getenv (c_Args c) = Ok (Server shared fl) → well_placed root rest st →
      ∃ j h' args, FuranJobFunc grow bkimage info b bk (heap_of w') = (Ok j, h') ∧
        furan_args_of h' j = Some args ∧
        furan Getenv' args = Ok (Runbuild shared (uuid_String (b_ID b))
          ("unix://" +:+ bkSocketMountPath +:+ "/" +:+ bkSocketName) (30 * Minute)).
Proof.
  intros Hh Ht Ha Hv Himg root.
  destruct (image_spec grow p client w info w' Hh Himg) as (pod & c & rest & w1 & w2 & Hpod & Hc & Hn & _ & _ & Hargs & Hno & Hwf & _).
  fold root in Hargs, Hno. exists pod, c, rest, w1, w2. split_and!; [done..|].
  intros b bk shared fl st Hsrv Hwp. rewrite Hargs in Hsrv.
  destruct (FuranJobFunc_heap grow bkimage info b bk (heap_of w') Ht) as (j & h1 & Hpres & Hj & Hja & _).
  destruct (Hpres _ Hwf) as [Hwf1 Hr1]. eexists j, _, _. split; [exact Hj|]. split; [exact Hja|].
  rewrite sread_sappend by done. rewrite Hr1. fold root.
  destruct (server_shared Getenv root rest st Hwp shared fl Hno Hsrv) as (st1 & -> & Hs1).
  destruct (job_runs Getenv' root rest st Hwp b) as (st2 & -> & Hs2). do 2 f_equal.
  apply shared_config_same; [done..|]. intros n Hin. by rewrite Hs2, Hs1.
Qed.
End cluster.

(** ** Witness: the arguments of the chart *)

#[local] Existing Instance milli_quantity.
#[local] Existing Instance cluster_heap.

#[local] Instance plain_texts : Texts := {|
  ParseDuration _ := Err ErrEOF; readAsCSV s := Ok (Split s ","); quoted s := s; quoted_byte c := String c "" |}.

(** .helm/charts/furan2/templates/deployment.yaml, with Vault and the S3 cache. *)
Definition chart_root : list string := [
  "--secrets-backend"; "vault"; "--vault-addr"; "https://vault:8200"; "--vault-k8s-auth"; "--vault-k8s-role=furan2";
  "--vault-k8s-auth-path=kubernetes"; "--aws-region"; "us-west-2"; "--s3-cache-bucket"; "furan-cache";
  "--s3-cache-host"; "s3.amazonaws.com"; "--s3-cache-key-pfx"; "furan/"; "--enable-apm=true"; "--apm-addr"; "datadog:8126";
  "--apm-svc-name"; "furan2"; "--apm-env-name"; "production"]%string.
Definition chart_rest : list string := [
  "--grpc-addr"; "0.0.0.0:4000"; "--tls-cert-file"; "/opt/tlscert/tls.crt"; "--tls-key-file"; "/opt/tlscert/tls.key";
  "--default-cache-type"; "s3"; "--default-cache-max-mode"; "true"]%string.

Definition chart_pod : Pod := {|
  pod_Name := pod_Name sample_pod; pod_Namespace := pod_Namespace sample_pod;
  pod_Spec := {| ShareProcessNamespace := false; RestartPolicy := ""; NodeSelector := ∅;
    Tolerations := []; Volumes := []; ServiceAccountName := "furan"; ImagePullSecrets := [];
    Containers := [sample_container "furan" "furan:v2" (chart_root ++ "server"%string :: chart_rest)] |};
  pod_ContainerStatuses := [] |}.

Definition chart_client : K8sClient cluster () := {|
  pods_Get _ _ := mret chart_pod; pods_List := pods_List _ _ sample_client; pods_GetLogs := pods_GetLogs _ _ sample_client;
  jobs_Create := jobs_Create _ _ sample_client; jobs_List := jobs_List _ _ sample_client;
  jobs_Delete := jobs_Delete _ _ sample_client; jobs_Watch := jobs_Watch _ _ sample_client |}.

(** What the arguments before "server" set. *)
Definition chart_parsed : parsed :=
  match parseArgs (serverAndRunnerFlags (λ _, ""%string)) chart_root (Parsed ∅ []) with Ok st => st | _ => Parsed ∅ [] end.

Lemma chart_well_placed : well_placed chart_root chart_rest chart_parsed.
Proof.
  constructor; try (vm_compute; reflexivity); try (apply (bool_decide_unpack _); vm_compute; exact I).
Qed.

(** The configuration of the server in that pod. *)
Definition chart_shared : shared_config :=
  match furan (λ _, ""%string) (chart_root ++ "server"%string :: chart_rest) with
  | Ok (Server shared _) => shared | _ => shared_config_of [] (Parsed ∅ []) end.
Definition chart_flags : server_flags :=
  match furan (λ _, ""%string) (chart_root ++ "server"%string :: chart_rest) with
  | Ok (Server _ fl) => fl | _ => server_flags_of [] (Parsed ∅ []) end.

Lemma chart_server : furan (λ _, ""%string) (chart_root ++ "server"%string :: chart_rest) = Ok (Server chart_shared chart_flags).
Proof. vm_compute. reflexivity. Qed.

Lemma job_inherits_configuration_witness :
  sh_secretsbackend chart_shared = "vault"%string ∧ CacheBucket (sh_awsConfig chart_shared) = "furan-cache"%string ∧
  ∃ info w' j h' args,
    image (λ c _, 2 * c)%nat sample_process chart_client (∅, []) = (Ok info, w') ∧
    FuranJobFunc (λ c _, 2 * c)%nat BuildKitImage info Build_zero (None, None) (heap_of w') = (Ok j, h') ∧
    furan_args_of h' j = Some args ∧
    furan (λ _, ""%string) args = Ok (Runbuild chart_shared (uuid_String (b_ID Build_zero))
      ("unix://" +:+ bkSocketMountPath +:+ "/" +:+ bkSocketName) (30 * Minute)).
Proof.
  split; [vm_compute; reflexivity|]. split; [vm_compute; reflexivity|].
  assert (match image (λ c _, 2 * c)%nat sample_process chart_client (∅, []) with
          | (Ok info, w') => sread (heap_of w') (RootArgs info) = chart_root | _ => False end) as Hr by (vm_compute; reflexivity).
  destruct (image (λ c _, 2 * c)%nat sample_process chart_client (∅, [])) as [[info|e|e] w'] eqn:Hi; [|destruct Hr..].
  assert (∀ (h : goheap) (v : cluster), heap_of (with_heap h v) = h) as Hh by reflexivity.
  assert (template_parses) as Ht by (do 3 eexists; split; [reflexivity|split; reflexivity]).
  destruct (job_inherits_configuration (λ c _, 2 * c)%nat BuildKitImage sample_process (λ _, ""%string) (λ _, ""%string)
    chart_client (∅, []) info w' Hh Ht eq_refl eq_refl Hi) as (pod & c & rest & w1 & w2 & Hpod & Hc & _ & Ha & Hjob).
  rewrite Hr in Ha, Hjob.
  assert (c_Args c = chart_root ++ "server"%string :: chart_rest) as Hc'.
  { apply (f_equal fst) in Hpod. injection Hpod as <-. apply list_elem_of_singleton in Hc. by rewrite Hc. }
  rewrite Hc' in Ha, Hjob. apply app_inv_head in Ha. injection Ha as <-.
  destruct (Hjob Build_zero (None, None) chart_shared chart_flags chart_parsed chart_server chart_well_placed)
    as (j & h' & args & Hj & Hargs & Hrun).
  exists info, w', j, h', args. split; [exact eq_refl|]. split; [exact Hj|]. split; [exact Hargs|exact Hrun].
Defined.
