(* ===== verification/SecretsFacts.v ===== *)
(** * Facts about the secrets

    The client of the secret store is made once, and the key of the database
    configuration arrives as it was stored. *)

From S2P Require Import Prelude GoStrings GoTime Uuid Models Datalayer FakeDL K8s Grpc GrpcFacts Builder.
From S2P Require Import Buildkit Secrets Cmd CmdFacts ClientFacts.

#[local] Open Scope Z_scope.

Lemma copy_length {A} (dst src : list A) : length (copy dst src) = length dst.
Proof. unfold copy. rewrite length_app, length_take, length_drop. lia. Qed.

Section secrets.
Context {W : Type} (p : SecProcess W).

(** A client of the process. *)
Definition made (s : SecretsClient W) : Prop := ∃ ops, returns (NewSecretsClient p ops) s.
Definition sound_fetcher (f : Fetcher W) : Prop := ∀ s, sc f = Some s → made s.

(** The fetcher keeps a client it has, and otherwise makes one of the process. *)
Lemma wp_client {C} (w : W * Fetcher W * C) : sound_fetcher w.1.2 →
  wp (client p) (λ r w', sound_fetcher w'.1.2 ∧ w'.2 = w.2 ∧
    (is_Some (sc w.1.2) → w' = w) ∧ (∀ s, r = Ok s → sc w'.1.2 = Some s)) w.
Proof.
  destruct w as [[w f] c]. cbn. intros Hf. unfold client, wp, mbind, M_bind, get_fetcher. cbn.
  destruct (decide (is_Some (sc f))) as [[s Hs]|Hn]; cbn.
  - rewrite Hs. cbn. split_and!; try done. by intros s' [= ->].
  - unfold init, mbind, M_bind, get_fetcher, wrapf, on_err, on_fst, set_fetcher. cbn.
    destruct (backend_ops p f w) as [[ops|?|?] w1]; cbn; [|by split_and!..].
    destruct (NewSecretsClient p _ w1) as [[s|?|?] w2] eqn:E; cbn; [|by split_and!..].
    split_and!; try done.
    + intros s' [= <-]. eexists. by do 2 eexists.
    + by intros s' [= <-].
Qed.

(** A fetch leaves the fetcher sound, and the struct with what one of the clients filled in. *)
Lemma wp_fetch_secrets {C} `{Filled C} (w : W * Fetcher W * C) : sound_fetcher w.1.2 →
  wp (fetch_secrets p) (λ r w', sound_fetcher w'.1.2) w.
Proof.
  intros Hf. unfold fetch_secrets. rewrite wp_bind. eapply wp_mono; [|by apply wp_client].
  intros [s|?|?] [[w1 f1] c1] (Hf1 & _ & _ & _); cbn in *; [|done..].
  unfold filling, wp, mbind, M_bind, run. cbn. destruct (Fill s secret_ids w1) as [[vals [err|]] w2]; done.
Qed.

(** [k] is the encryption key in the store of the process. *)
Definition key_is (k : string) : Prop := ∀ s v, made s →
  let r := (Fill s (secret_ids (C := DBConfig)) v).1 in r.2 = None → r.1 !! 1%nat = Some (Some k).

Context (k : string) (Hk : key_is k).

(** The configuration of the database that a process may go on with: the key in its array,
    and no longer in its slice. *)
Definition keyed (dc : DBConfig) : Prop :=
  CredEncKeyArray dc = String.list_ascii_of_string k ∧ length (CredEncKeyArray dc) = 32%nat ∧
  CredentialEncryptionKey dc = [].

Lemma wp_Database (w : W * Fetcher W * DBConfig) :
  sound_fetcher w.1.2 → length (CredEncKeyArray w.2) = 32%nat →
  wp (Database p) (λ r w', match r with
                           | Ok _ => keyed w'.2
                           | Err _ => CredEncKeyArray w'.2 = CredEncKeyArray w.2
                           | Panic _ => True
                           end) w.
Proof.
  intros Hf Hlen. unfold Database. rewrite wp_bind. eapply wp_mono; [|by apply wp_client].
  intros [s|?|?] [[w1 f1] c1] (Hf1 & Hc1 & _ & Hs); cbn in *; subst; [|done..].
  specialize (Hk s w1 (Hf1 s (Hs s eq_refl))). cbn in Hk.
  unfold filling, wp, mbind, M_bind, run. cbn in *. destruct (Fill s _ w1) as [[vals [err|]] w2]; cbn in *; [done|].
  unfold get_struct, set_struct. cbn. rewrite (Hk eq_refl). cbn.
  destruct (decide _) as [Hne|He%dec_stable]; [done|]. cbn.
  split_and!; [|by etrans; [apply copy_length|]|done].
  unfold copy. rewrite Hlen, drop_ge, app_nil_r, take_ge by lia. done.
Qed.

(** What the PreRun keeps on the way to the database secrets. *)
Definition on_the_way (w : cmd_world (W := W)) : Prop :=
  sound_fetcher w.1.2 ∧ length (CredEncKeyArray (dbConfig w.2)) = 32%nat.

Context (backend : string) (vc : VaultConfig).

Lemma wp_setup (w : cmd_world) (Q : res () → cmd_world → Prop) :
  on_the_way w → (∀ w', on_the_way w' → Q (Ok ()) w') → wp (secretsSetup backend vc) Q w.
Proof. intros [Hf Hl] HQ. unfold secretsSetup, wp, mbind, M_bind, get_fetcher. cbn. by apply HQ. Qed.

Lemma wp_one {C} `{Filled C} msg get (set : C → Configs → Configs) (w : cmd_world) :
  (∀ c g, dbConfig (set c g) = dbConfig g) → on_the_way w →
  wp (secretsSetup backend vc ;; clierr msg (focus get set (fetch_secrets p))) (λ _ w', on_the_way w') w.
Proof.
  intros Hset Hw. rewrite wp_bind. apply wp_setup; [done|]. clear w Hw. intros w [Hf Hl].
  unfold clierr. rewrite wp_on_err. unfold focus, wp.
  pose proof (wp_fetch_secrets (w.1, get w.2) Hf) as H'. unfold wp in H'.
  destruct (fetch_secrets p (w.1, get w.2)) as [[?|?|?] w1]; unfold on_the_way; cbn in *; by rewrite Hset.
Qed.

Lemma wp_PreRun (w : cmd_world) : on_the_way w →
  wp (PreRun p backend vc) (λ r _, ∀ cfg, r = Ok cfg → keyed (dbConfig cfg)) w.
Proof.
  intros Hw. unfold PreRun.
  do 4 (rewrite wp_bind; eapply wp_mono; [|by apply wp_one]; clear w Hw; intros [[]|?|?] w Hw; [|done..]).
  rewrite wp_bind. unfold dbSecrets. rewrite wp_bind. apply wp_setup; [done|]. clear w Hw. intros w [Hf Hl].
  unfold clierr. rewrite wp_on_err. unfold focus. unfold wp at 1.
  pose proof (wp_Database (w.1, dbConfig w.2) Hf Hl) as H'. unfold wp in H'.
  destruct (Database p (w.1, dbConfig w.2)) as [[[]|?|?] w1]; cbn in *; [|done..].
  by intros cfg [= <-].
Qed.
End secrets.

(** ** The GitHub token, from the request to the job *)

(** What the token of a stored build decrypts to. *)
Lemma stored_decrypts `{SecretBoxLaws} rd cred key b0 b1 : length rd = 24%nat → cred ≠ ""%string →
  EncryptAndSetGitHubCredential rd None (String.list_ascii_of_string cred) key b0 = Ok b1 →
  ∀ b, b_EncryptedGitHubCredential b = b_EncryptedGitHubCredential b1 → GetGitHubCredential b key = Ok cred.
Proof.
  intros Hrd Hcred Henc b Hb. unfold EncryptAndSetGitHubCredential in Henc.
  rewrite Hrd in Henc. cbn in Henc. injection Henc as <-. cbn in Hb.
  unfold GetGitHubCredential. rewrite Hb, length_app, Hrd, bool_decide_false by lia.
  rewrite drop_app_length', take_app_length', sb_Open_Seal by done.
  destruct cred as [|c cred]; [done|]. cbn. f_equal. f_equal. apply String.string_of_list_ascii_of_string.
Qed.

(** C11: the GitHub token of a request reaches the job: when the server and a job have got
    through their PreRun against stores that hold the same encryption key, the build the
    server stores for a request has an encrypted credential that the manager of the job
    decrypts to the token of the request. *)
Theorem token_reaches_the_job `{K8sQuantity} `{SecretBoxLaws} {WS WJ W E}
    (ps : SecProcess WS) (pj : SecProcess WJ) k bs vs bj vj ws wj cs cj
    (rt : Runtime W) (gr : Server W) dl obs `{!DataLayerSpec dl obs} ctx req w (e : RunEnv E) jdl bks :
  key_is ps k → key_is pj k → on_the_way ps ws → on_the_way pj wj →
  (PreRun ps bs vs ws).1 = Ok cs → (PreRun pj bj vj wj).1 = Ok cj →
  plain_server gr dl obs → CredentialDecryptionKey W (Opts W gr) = CredEncKeyArray (dbConfig cs) →
  (∀ v, ∃ rd, (rand_Read rt 24 v).1 = (rd, None) ∧ length rd = 24%nat) →
  wp (StartBuild rt gr ctx req) (λ r w', ∀ sid, r = Ok sid →
    ∃ id b bd, sid.1 = uuid_String id ∧ obs w' !! id = Some b ∧ rq_Build req = Some bd ∧
      GetGitHubCredential b (GitHubTokenKey (runbuild_manager e cj jdl bks)) = Ok (bd_GithubCredential bd)) w.
Proof.
  intros Hks Hkj Hs Hj Hcs Hcj Hgr Hkey Hrand.
  pose proof (wp_PreRun ps k Hks bs vs ws Hs cs Hcs) as [Hks' _].
  pose proof (wp_PreRun pj k Hkj bj vj wj Hj cj Hcj) as [Hkj' _].
  eapply wp_mono; [|by apply (StartBuild_stores rt gr dl obs Hgr ctx req w)].
  intros r w' Hst sid Hr. destruct (Hst sid Hr) as (id & b & bd & rnd & v & b0 & b1 & Hid & Hb & _ & _ & Hbd & Hne & Hrnd & Henc & Hcr & _).
  exists id, b, bd. split_and!; [done..|]. destruct (Hrand v) as (rd & Hrd & Hlen). rewrite Hrd in Hrnd. subst rnd.
  cbn [runbuild_manager GitHubTokenKey]. rewrite Hkj', <-Hks', <-Hkey. by eapply stored_decrypts.
Qed.

(** ** Witness *)

#[local] Existing Instance milli_quantity.

Definition sample_key : string := "0123456789abcdef0123456789abcdef".

(** A store with one value for every secret, but for the key of the database. *)
Definition sample_store : SecProcess () := {|
  sec_Open _ := mret (); sec_Stat _ := mret 0; sec_ReadAll _ := mret ""%string;
  NewSecretsClient _ := mret {| Fill ids w :=
    (((λ id, Some (if decide (id = "db/credential_encryption_key"%string) then sample_key else id)) <$> ids, None), w) |};
|}.

Definition no_vault : VaultConfig := {|
  Addr := ""; Token := ""; TokenAuth := false; K8sAuth := false; K8sJWTPath := ""; K8sAuthPath := ""; K8sRole := "" |}.

Definition before_secrets : cmd_world (W := ()) := ((), {|
  Backend := UnknownBackend; Mapping := "{{.ID}}"; JSONFile := ""; FileTreeRoot := "";
  VaultOptions := no_vault; sc := None |}, {|
  ghConfig := {| gh_Token := "" |}; quayConfig := {| quay_Token := "" |}; gcrConfig := {| gcr_Account := "" |};
  awsConfig := {| aws_Region := ""; CacheBucket := ""; CacheHost := ""; CacheKeyPrefix := ""; aws_AccessKeyID := "";
                  aws_SecretAccessKey := ""; EnableECR := false; ECRRegistryHosts := [] |};
  dbConfig := DBConfig_zero |}).

Definition loaded (backend : string) : Configs :=
  match (PreRun sample_store backend no_vault before_secrets).1 with Ok c => c | _ => before_secrets.2 end.

(** The sample server, with the key its PreRun loads from the environment. *)
Definition keyed_server : Server fake_world := {|
  DL := Some Fake.dl; BM := None; CFFactory := Some sample_fetcher;
  Opts := {| APM := false; CredentialDecryptionKey := CredEncKeyArray (dbConfig (loaded "env"));
             Cache := BuildCacheOpts_zero; LogFunc := None; JobHandoffTimeout := 0;
             MaxResources := {| MaxCPUReq := milli 0; MaxMemReq := milli 0; MaxCPULim := milli 0;
                                MaxMemLim := milli 0 |} |};
  methods := None |}.

Definition sample_solver : BuildSolver (fake_world * list dlcall) := {|
  bks_dl := logged Fake.dl; s3cf := None; bc_Solve _ _ := mret (); bks_addr := ""; AuthProvider := true; LogF := None |}.

(** The server takes its key from the environment, the job from a file tree; the build
    of [sample_request] is stored, and the job reads its token. *)
Lemma token_reaches_the_job_witness :
  let go := StartBuild idle_runtime keyed_server CtxCaller sample_request fake_empty in
  isOk go.1 = true ∧
  ∀ sid, go.1 = Ok sid → ∃ id b, sid.1 = uuid_String id ∧ fake_obs go.2 !! id = Some b ∧
    GetGitHubCredential b (GitHubTokenKey
      (runbuild_manager sample_env (loaded "filetree") (logged Fake.dl) sample_solver)) = Ok "token"%string.
Proof.
  intros go. split; [vm_compute; reflexivity|]. intros sid Hsid.
  assert (key_is sample_store sample_key) as Hk by (intros s v (ops & v1 & v2 & [= <- _]) r ?; reflexivity).
  assert (on_the_way sample_store before_secrets) as Hw by (split; [by intros s [=]|reflexivity]).
  destruct (token_reaches_the_job sample_store sample_store sample_key "env" no_vault "filetree" no_vault
    before_secrets before_secrets (loaded "env") (loaded "filetree") idle_runtime keyed_server Fake.dl fake_obs
    CtxCaller sample_request fake_empty sample_env (logged Fake.dl) sample_solver Hk Hk Hw Hw) with (sid := sid)
    as (id & b & bd & H1 & H2 & H3 & H4).
  - vm_compute. reflexivity.
  - vm_compute. reflexivity.
  - constructor; try done. apply GetAPIKey_same.
  - reflexivity.
  - intros v. by exists (replicate 24 Ascii.zero).
  - exact Hsid.
  - exists id, b. split; [exact H1|]. split; [exact H2|]. injection H3 as <-. exact H4.
Defined.
