(* ===== verification/StreamAdapter.v ===== *)
(** * pkg/grpc/streamadapter.go: MonitorBuild without gRPC

    A MonitorStreamAdapter is a channel of events with a context.  SendMsg and RecvMsg
    first check the context and their argument, then wait in a select; the step
    relation interleaves any number of such calls with the cancellation. *)

From S2P Require Import Prelude GoStrings Grpc.
From Stdlib Require Export Relations.

#[local] Open Scope list_scope.

(** A [*furanrpc.BuildEvent], and the value of an [interface{}] argument. *)
Definition event_ptr : Type := option BuildEvent.

Inductive any :=
  | NilInterface
  | OtherType (type : string)
  | EventPtr (p : event_ptr).

(** ** The checks before the select *)

(** The argument of SendMsg and of RecvMsg, once it is accepted. *)
Definition check_msg (ctx_done : bool) (m : any) : res event_ptr :=
  if ctx_done then Err (ErrText "stream is closed")
  else match m with
       | NilInterface => Err (ErrText "msg is nil")
       | OtherType t => Err (ErrText ("unexpected msg type " +:+ t +:+ " (expected BuildEvent)"))
       | EventPtr p => Ok p
       end.

(** RecvMsg has received [received]: what [*m] becomes, if [m] points to an event. *)
Definition assign (m received : event_ptr) : res BuildEvent :=
  match received with
  | None => Err ErrEOF
  | Some ev =>
      match m with
      | None => Err (ErrText "m or received value is not valid")
      | Some _ => Ok ev
      end
  end.

(** ** The calls, interleaved *)

Record state := Adapter {
  c : list event_ptr;             (* the buffer of the channel *)
  bufferedMsgs : nat;             (* its capacity *)
  cancelled : bool;               (* ctx.Done() is closed *)
  sending : list event_ptr;       (* SendMsg calls in their select *)
  receiving : list event_ptr;     (* RecvMsg calls in their select, with their m *)
  put : list event_ptr;           (* what has gone into the channel, in order *)
  got : list event_ptr;           (* what has come out *)
  sent : list (res ());           (* the results of SendMsg *)
  received : list (res BuildEvent); (* and of RecvMsg *)
}.

Definition NewMonitorStreamAdapter (bufmsgs : nat) : state :=
  Adapter [] bufmsgs false [] [] [] [] [] [].

Inductive step : state → state → Prop :=
  (* a call is made *)
  | st_send b n d ss rs p g sr rr m e :
      check_msg d m = Ok e →
      step (Adapter b n d ss rs p g sr rr) (Adapter b n d (ss ++ [e]) rs p g sr rr)
  | st_send_refused b n d ss rs p g sr rr m e :
      check_msg d m = Err e →
      step (Adapter b n d ss rs p g sr rr) (Adapter b n d ss rs p g (sr ++ [Err e]) rr)
  | st_recv b n d ss rs p g sr rr m t :
      check_msg d m = Ok t →
      step (Adapter b n d ss rs p g sr rr) (Adapter b n d ss (rs ++ [t]) p g sr rr)
  | st_recv_refused b n d ss rs p g sr rr m e :
      check_msg d m = Err e →
      step (Adapter b n d ss rs p g sr rr) (Adapter b n d ss rs p g sr (rr ++ [Err e]))
  (* the cases of the selects; a sender and a receiver that meet use no buffer *)
  | st_put b n d ss1 e ss2 rs p g sr rr :
      (length b < n)%nat →
      step (Adapter b n d (ss1 ++ e :: ss2) rs p g sr rr)
           (Adapter (b ++ [e]) n d (ss1 ++ ss2) rs (p ++ [e]) g (sr ++ [Ok ()]) rr)
  | st_take b n d ss rs1 t rs2 e p g sr rr :
      step (Adapter (e :: b) n d ss (rs1 ++ t :: rs2) p g sr rr)
           (Adapter b n d ss (rs1 ++ rs2) p (g ++ [e]) sr (rr ++ [assign t e]))
  | st_meet n d ss1 e ss2 rs1 t rs2 p g sr rr :
      step (Adapter [] n d (ss1 ++ e :: ss2) (rs1 ++ t :: rs2) p g sr rr)
           (Adapter [] n d (ss1 ++ ss2) (rs1 ++ rs2) (p ++ [e]) (g ++ [e])
              (sr ++ [Ok ()]) (rr ++ [assign t e]))
  | st_send_done b n ss1 e ss2 rs p g sr rr :
      step (Adapter b n true (ss1 ++ e :: ss2) rs p g sr rr)
           (Adapter b n true (ss1 ++ ss2) rs p g (sr ++ [Err ErrEOF]) rr)
  | st_recv_done b n ss rs1 t rs2 p g sr rr :
      step (Adapter b n true ss (rs1 ++ t :: rs2) p g sr rr)
           (Adapter b n true ss (rs1 ++ rs2) p g sr (rr ++ [Err ErrEOF]))
  (* cancelFunc, or the parent context *)
  | st_cancel b n d ss rs p g sr rr :
      step (Adapter b n d ss rs p g sr rr) (Adapter b n true ss rs p g sr rr).

Definition reachable (bufmsgs : nat) : state → Prop := rtc step (NewMonitorStreamAdapter bufmsgs).

(** ** Facts *)

(** The received events that are events. *)
Definition delivered (rr : list (res BuildEvent)) : list BuildEvent :=
  omap (λ r, match r with Ok ev => Some ev | _ => None end) rr.

(** The channel keeps the order and loses nothing; the calls that returned agree with it. *)
Record fifo (bufmsgs : nat) (st : state) : Prop := {
  ff_order : put st = (got st ++ c st)%list;
  ff_bound : (length (c st) ≤ bufferedMsgs st)%nat;
  ff_cap : bufferedMsgs st = bufmsgs;
  ff_sent : length (put st) = length (filter (λ r, r = Ok ()) (sent st));
  ff_delivered : delivered (received st) `sublist_of` omap id (got st);
}.

Lemma delivered_app l l' : delivered (l ++ l') = (delivered l ++ delivered l')%list.
Proof. apply omap_app. Qed.

Lemma delivered_assign t e : delivered [assign t e] `sublist_of` omap id [e].
Proof. destruct e as [ev|]; cbn; [|done]. destruct t; cbn; [done|apply sublist_nil_l]. Qed.

Lemma sublist_received l g t e : delivered l `sublist_of` omap id g →
  delivered (l ++ [assign t e]) `sublist_of` omap id (g ++ [e])%list.
Proof. intros. rewrite delivered_app, omap_app. apply sublist_app; [done|apply delivered_assign]. Qed.

Lemma filter_ok_snoc (l : list (res ())) r :
  length (filter (λ r, r = Ok ()) (l ++ [r])) =
  (length (filter (λ r, r = Ok ()) l) + (if decide (r = Ok ()) then 1 else 0))%nat.
Proof. rewrite filter_app, length_app. f_equal. rewrite filter_cons, filter_nil. by case_decide. Qed.

Lemma fifo_step n st st' : fifo n st → step st st' → fifo n st'.
Proof.
  intros [H1 H2 H3 H4 H5] Hs. destruct Hs; cbn in *; split; cbn;
    rewrite ?length_app, ?filter_ok_snoc; cbn; try done; try lia;
    try (by apply sublist_received); try (case_decide; [lia|done]); try (case_decide; [done|lia]);
    try (rewrite delivered_app; cbn; by rewrite app_nil_r).
  - by rewrite H1, app_assoc.
  - by rewrite H1, <-app_assoc.
  - rewrite H1. by rewrite !app_nil_r.
Qed.

(** A call that is in its select, and the number of them. *)
Definition pending (st : state) : nat := length (sending st) + length (receiving st).

(** ** Properties *)

(** C37: whatever the interleaving of senders, receivers and cancellation, events come out of
    the adapter in the order they went in, none twice and none invented, a SendMsg that
    returned nil has put its event, and the buffer never exceeds its size. *)
Theorem adapter_fifo n st : reachable n st → fifo n st.
Proof.
  intros Hr. unfold reachable in Hr.
  remember (NewMonitorStreamAdapter n) as st0 eqn:E.
  assert (fifo n st0) as H0 by (by subst; split; cbn; try done; lia). clear E.
  induction Hr as [|x y z Hs _ IH]; [done|]. apply IH. by eapply fifo_step.
Qed.

(** Once the context is cancelled, every new call returns an error at once, no step adds
    a waiting call, and as long as calls are waiting each of them can return. *)
Theorem adapter_cancel_releases st :
  cancelled st = true →
  (∀ m, check_msg (cancelled st) m = Err (ErrText "stream is closed")) ∧
  (∀ st', step st st' → cancelled st' = true ∧ (pending st' ≤ pending st)%nat) ∧
  (∀ i e, sending st !! i = Some e → ∃ st', step st st' ∧ sending st' = delete i (sending st) ∧
     last (sent st') = Some (Err ErrEOF)) ∧
  (∀ i t, receiving st !! i = Some t → ∃ st', step st st' ∧ receiving st' = delete i (receiving st) ∧
     last (received st') = Some (Err ErrEOF)).
Proof.
  intros Hc. split_and!.
  - intros m. unfold check_msg. by rewrite Hc.
  - intros st' Hs. unfold pending.
    destruct Hs; cbn in *; subst; rewrite ?length_app; cbn; try done; split; try done; lia.
  - intros i e Hi. destruct st as [b n d ss rs p g sr rr]. cbn in *. subst d.
    apply list_elem_of_split_length in Hi as (ss1 & ss2 & -> & ->).
    eexists. split; [apply st_send_done|]. cbn. rewrite last_snoc. by rewrite delete_middle.
  - intros i t Hi. destruct st as [b n d ss rs p g sr rr]. cbn in *. subst d.
    apply list_elem_of_split_length in Hi as (rs1 & rs2 & -> & ->).
    eexists. split; [apply st_recv_done|]. cbn. rewrite last_snoc. by rewrite delete_middle.
Qed.

(** ** Witnesses *)

Definition sample_event (m : string) : BuildEvent :=
  {| be_BuildId := ""; be_Message := m; be_CurrentState := 0 |}.

(** Two events sent into a buffer of one, the first received before the stream is closed. *)
Definition sample_state : state :=
  Adapter [Some (sample_event "b")] 1 true [Some (sample_event "c")] []
    [Some (sample_event "a"); Some (sample_event "b")] [Some (sample_event "a")]
    [Ok (); Ok ()] [Ok (sample_event "a")].

Ltac send_step txt := eapply rtc_l; [eapply st_send with (m := EventPtr (Some (sample_event txt))); reflexivity|cbn].

Lemma sample_reachable : reachable 1 sample_state.
Proof.
  unfold reachable, NewMonitorStreamAdapter, sample_state.
  send_step "a"%string. eapply rtc_l; [eapply st_put with (ss1 := []); cbn; lia|cbn].
  send_step "b"%string. send_step "c"%string.
  eapply rtc_l; [eapply st_recv with (m := EventPtr (Some (sample_event ""))); reflexivity|cbn].
  eapply rtc_l; [eapply st_take with (rs1 := [])|cbn].
  eapply rtc_l; [eapply st_put with (ss1 := []); cbn; lia|cbn].
  eapply rtc_l; [eapply st_cancel|]. apply rtc_refl.
Qed.

Lemma adapter_fifo_witness : fifo 1 sample_state.
Proof. exact (adapter_fifo 1 sample_state sample_reachable). Defined.

Lemma adapter_cancel_releases_witness :
  ∃ st', step sample_state st' ∧ sending st' = [] ∧ last (sent st') = Some (Err ErrEOF).
Proof.
  destruct (adapter_cancel_releases sample_state eq_refl) as (_ & _ & H & _).
  exact (H 0%nat _ eq_refl).
Defined.
