(* ===== verification/Jsonapi.v ===== *)
(** * pkg/jsonapi: the REST interface

    Handlers that decode a JSON body, call the methods of the gRPC server and write its
    answer or its error.  They call the methods themselves, not the service: no
    interceptor runs. *)

From S2P Require Import Prelude GoStrings Uuid Models Datalayer K8s Grpc Json.

#[local] Open Scope Z_scope.

(** ** HTTP *)

(** [http.Request]: the header map, with the keys the server made canonical. *)
Record http_request := { rq_Header : gmap string (list string); rq_Body : string }.

(** What was written to the ResponseWriter; no WriteHeader call is a 200. *)
Record http_written := { wr_code : option Z; wr_header : gmap string (list string); wr_body : string }.

Definition nothing_written : http_written := {| wr_code := None; wr_header := ∅; wr_body := "" |}.

Definition StatusBadRequest : Z := 400.
Definition StatusUnauthorized : Z := 401.
Definition StatusInternalServerError : Z := 500.

(** The status code of a finished response. *)
Definition code_of (w : http_written) : Z := default 200 (wr_code w).

(** [textproto.CanonicalMIMEHeaderKey]: a key with a byte that is no token stays as it is. *)
Definition isTokenByte (c : ascii) : bool :=
  let b := byte_val c in
  ((48 <=? b) && (b <=? 57)) || ((65 <=? b) && (b <=? 90)) || ((97 <=? b) && (b <=? 122)) ||
  existsb (Ascii.eqb c) (String.list_ascii_of_string "!#$%&'*+-.^_`|~").

Definition toUpper (c : ascii) : ascii :=
  let b := byte_val c in if (97 <=? b) && (b <=? 122) then byte_of (b - 32) else c.
Definition toLower (c : ascii) : ascii :=
  let b := byte_val c in if (65 <=? b) && (b <=? 90) then byte_of (b + 32) else c.

Fixpoint canonicalize (upper : bool) (s : string) : string :=
  match s with
  | "" => ""
  | String c s' =>
      String (if upper then toUpper c else toLower c) (canonicalize (Ascii.eqb c "-") s')
  end.

Fixpoint all_bytes (p : ascii → bool) (s : string) : bool :=
  match s with "" => true | String c s' => p c && all_bytes p s' end.

Definition CanonicalMIMEHeaderKey (s : string) : string :=
  if all_bytes isTokenByte s then canonicalize true s else s.

(** The header map of a request that came over the network. *)
Definition from_network (r : http_request) : Prop :=
  ∀ k, is_Some (rq_Header r !! k) → ∃ sent, k = CanonicalMIMEHeaderKey sent.

(** [status.Code(err)] of an error that is not nil. *)
Definition status_Code (err : error) : code :=
  match err with ErrStatus c _ => c | _ => Unknown end.

(** ** The handlers *)

Definition APIKeyHeader : string := "API-Key".

Section jsonapi.
Context `{K8sQuantity} {W : Type} (rt : Runtime W) `{SecretBox}.

(** [json.NewDecoder(r.Body).Decode(&req)] for the generated request structs. *)
Context (Decode_BuildRequest : string → res BuildRequest) (Decode_BuildId : string → res string).

Record Handlers := { h_gr : Server W; h_LogFunc : option (string → W → W) }.

Definition NewHandlers (gr : Server W) : Handlers := {| h_gr := gr; h_LogFunc := None |}.

(** The metadata addkey puts into the context. *)
Definition addkey (r : http_request) : metadata :=
  Some {[ APIKeyLabel := default [] (rq_Header r !! APIKeyHeader) ]}.

Definition h_log (h : Handlers) (msg : string) : M W () :=
  run (λ w, ((), match h_LogFunc h with Some f => f msg w | None => w end)).

Definition handleRPCError (err : error) : http_written := {|
  wr_code := Some match status_Code err with
                  | InvalidArgument => StatusBadRequest
                  | Unauthenticated => StatusUnauthorized
                  | _ => StatusInternalServerError
                  end;
  wr_header := {["Content-Type" := ["text/plain"]]};
  wr_body := error_String err;
|}%string.

(** [json.NewEncoder(w).Encode(resp)]: the value and a newline. *)
Definition encoded (v : jvalue) : http_written := {|
  wr_code := None; wr_header := ∅; wr_body := json_print v +:+ String "010" "" |}.

Definition json_id (id : string) : jvalue := JObj (f_string "build_id" id).

Definition json_Timestamp (t : Timestamp) : jvalue :=
  JObj (field "seconds" (Seconds t =? 0) JNum (Seconds t) ++ field "nanos" (Nanos t =? 0) JNum (Nanos t)).

Definition json_BuildStatusResponse (r : BuildStatusResponse) : jvalue :=
  JObj (f_string "build_id" (rs_BuildId r) ++ f_ptr "build_request" json_BuildRequest (rs_BuildRequest r) ++
        f_enum "state" (rs_State r) ++ f_ptr "started" json_Timestamp (rs_Started r) ++
        f_ptr "completed" json_Timestamp (rs_Completed r)).

(** The shape of the three handlers: decode, call, answer.  [call] gets the metadata of the
    context as the handlers of the server do. *)
Definition handle {Q A} (decode : string → res Q) (call : Q → metadata → M W A) (encode : A → jvalue)
    (h : Handlers) (r : http_request) : M W (http_written * option A) :=
  match decode (rq_Body r) with
  | Err err =>
      h_log h ("error unmarshaling request body: " +:+ error_String err) ;;
      mret ({| wr_code := Some StatusBadRequest; wr_header := ∅; wr_body := "" |}, None)
  | Panic m => panic m
  | Ok req =>
      a ← attempt (call req (addkey r));
      match a with
      | Err err => mret (handleRPCError err, None)
      | Ok resp => mret (encoded (encode resp), Some resp)
      | Panic m => panic m
      end
  end.

(** The answer, and the goroutine StartBuild leaves behind. *)
Definition BuildRequestHandler (h : Handlers) (r : http_request) :
    M W (http_written * option (string * M W ())) :=
  handle Decode_BuildRequest (λ req _, StartBuild rt (h_gr h) CtxCaller req) (λ a, json_id a.1) h r.

Definition BuildStatusHandler (h : Handlers) (r : http_request) :=
  handle Decode_BuildId (λ id _, GetBuildStatus (h_gr h) CtxCaller id) json_BuildStatusResponse h r.

Definition BuildCancelHandler (h : Handlers) (r : http_request) :=
  handle Decode_BuildId (λ id _, CancelBuild (h_gr h) CtxCaller id) json_id h r.

(** The routes of Register: method, path and handler (its response only). *)
Definition routes (h : Handlers) : list (string * string * (http_request → M W http_written)) :=
  let resp {A} (m : M W (http_written * option A)) : M W http_written := p ← m; mret p.1 in
  [("POST", "/api/build", λ r, resp (BuildRequestHandler h r));
   ("GET", "/api/build/{id}/status", λ r, resp (BuildStatusHandler h r));
   ("POST", "/api/build/{id}/cancel", λ r, resp (BuildCancelHandler h r))]%string.
End jsonapi.
