(* ===== verification/JsonapiFacts.v ===== *)
(** * Facts about the REST interface

    No key is ever found, none is needed, and what the status codes say. *)

From S2P Require Import Prelude GoStrings Uuid Models Datalayer K8s Grpc Json Jsonapi.

#[local] Open Scope Z_scope.

(** ** The header of the key *)

Lemma toLower_not_P c : toLower c ≠ "P"%char.
Proof. destruct c as [[] [] [] [] [] [] [] []]; vm_compute; congruence. Qed.

Lemma toUpper_A c : toUpper c = "A"%char → Ascii.eqb c "-" = false.
Proof. destruct c as [[] [] [] [] [] [] [] []]; vm_compute; congruence. Qed.

(** The canonical form of the header is Api-Key, whatever a client sends. *)
Lemma never_canonical s : CanonicalMIMEHeaderKey s ≠ APIKeyHeader.
Proof.
  unfold CanonicalMIMEHeaderKey, APIKeyHeader. destruct (all_bytes isTokenByte s) eqn:E; [|by intros ->].
  destruct s as [|a s]; [done|]. cbn [canonicalize]. intros [= Ha Hs].
  rewrite (toUpper_A a Ha) in Hs. destruct s as [|b s]; [done|]. cbn [canonicalize] in Hs.
  injection Hs as Hb _. by apply (toLower_not_P b).
Qed.

Lemma no_key_found r : from_network r → addkey r = Some {[ APIKeyLabel := [] ]}.
Proof.
  intros Hr. unfold addkey. destruct (rq_Header r !! APIKeyHeader) eqn:E; [|done].
  destruct (Hr APIKeyHeader) as [s Hs]; [by eexists|]. by destruct (never_canonical s).
Qed.

Section jsonapi.
Context `{K8sQuantity} {W : Type} (rt : Runtime W) `{SecretBox}.
Context (Decode_BuildRequest : string → res BuildRequest) (Decode_BuildId : string → res string).

(** ** The methods never ask for authentication *)

Definition no_401 {A} (r : res A) : Prop := ∀ m, r ≠ Err (ErrStatus Unauthenticated m).
Definition open_call {A} (m : M W A) : Prop := ∀ w, wp m (λ r _, no_401 r) w.

Lemma open_ret {A} (a : A) : open_call (mret a).
Proof. by intros w m. Qed.
Lemma open_status {A} c msg : c ≠ Unauthenticated → open_call (throw (ErrStatus c msg) : M W A).
Proof. intros Hc w m. unfold throw. cbn. naive_solver. Qed.
Lemma open_run {A} (f : W → A * W) : open_call (run f).
Proof. intros w. rewrite wp_run. by intros m. Qed.
Lemma open_deref {A} (i : option A) : open_call (deref i).
Proof. intros w. by destruct i. Qed.
Lemma open_bind {A B} (m : M W A) (f : A → M W B) : open_call m → (∀ a, open_call (f a)) → open_call (m ≫= f).
Proof.
  intros Hm Hf w. rewrite wp_bind. eapply wp_mono; [|apply Hm]. unfold no_401.
  intros [a|e|p] w' Hr; [apply Hf|naive_solver..].
Qed.
Lemma open_on_err {A} g (m : M W A) : (∀ e msg, g e ≠ ErrStatus Unauthenticated msg) → open_call (on_err g m).
Proof.
  intros Hg w. rewrite wp_on_err. unfold wp, no_401. destruct (m w) as [[?|e|?] ?]; cbn; [done| |done].
  intros msg [= E]. by apply (Hg e msg).
Qed.
Lemma open_mapM_deref {A} (l : list (option A)) : open_call (mapM deref l).
Proof.
  induction l as [|o l IH]; cbn [mapM]; [apply open_ret|].
  apply open_bind; [apply open_deref|]. intros a. apply open_bind; [done|]. intros. apply open_ret.
Qed.

Lemma open_check_quantity s max bad exceeds : open_call (lift_res (check_quantity s max bad exceeds) : M W ()).
Proof.
  intros w m. unfold check_quantity. case_bool_decide; [done|].
  destruct (ParseQuantity s); [|done..]. by destruct (_ <? _).
Qed.

Lemma open_StartBuild gr ctx req : open_call (StartBuild rt gr ctx req).
Proof.
  unfold StartBuild. apply open_bind; [apply open_deref|]. intros bd.
  case_bool_decide; [by apply open_status|]. case_bool_decide; [by apply open_status|].
  apply open_bind; [apply open_deref|]. intros cff.
  apply open_bind; [by apply open_on_err|]. intros _.
  case_bool_decide; [by apply open_status|].
  apply open_bind; [apply open_mapM_deref|]. intros irepos.
  case_bool_decide; [by apply open_status|].
  apply open_bind; [apply open_run|]. intros rnd. apply open_bind; [by apply open_on_err|]. intros b.
  apply open_bind.
  { destruct (bd_Resources (clear_credential bd)); [|apply open_ret].
    apply open_bind; [|intros; apply open_ret]. unfold check_resources.
    repeat (apply open_bind; [apply open_check_quantity|intros _]). apply open_check_quantity. }
  intros res. apply open_bind; [apply open_deref|]. intros dl.
  apply open_bind; [by apply open_on_err|]. intros id. apply open_ret.
Qed.

Lemma open_parse_id s : open_call (parse_id s : M W uuid).
Proof. by apply open_on_err. Qed.

Lemma open_get_build gr ctx id : open_call (get_build gr ctx id : M W Build).
Proof.
  apply open_bind; [apply open_deref|]. intros dl. apply open_on_err. intros e msg. by case_decide.
Qed.

Lemma open_GetBuildStatus gr ctx id : open_call (GetBuildStatus gr ctx id : M W _).
Proof.
  apply open_bind; [apply open_parse_id|]. intros i. apply open_bind; [apply open_get_build|].
  intros b. apply open_ret.
Qed.

Lemma open_CancelBuild gr ctx id : open_call (CancelBuild gr ctx id : M W _).
Proof.
  apply open_bind; [apply open_parse_id|]. intros i. apply open_bind; [apply open_get_build|]. intros b.
  destruct (_ || _); [by apply open_status|]. apply open_bind; [apply open_deref|]. intros dl.
  apply open_bind; [by apply open_on_err|]. intros _. apply open_ret.
Qed.

(** A handler whose call is open never answers 401. *)
Lemma handle_not_401 {Q A} decode (call : Q → metadata → M W A) encode (h : Handlers) r w :
  (∀ q md, open_call (call q md)) →
  wp (handle decode call encode h r)
     (λ res _, ∀ wr a, res = Ok (wr, a) → code_of wr ≠ StatusUnauthorized) w.
Proof.
  intros Hopen. unfold handle. destruct (decode (rq_Body r)) as [q|err|m]; [| |done].
  - rewrite wp_bind, wp_attempt. eapply wp_mono; [|apply (Hopen q (addkey r) w)]. unfold no_401.
    intros [resp|err|m] w' Hr; rewrite ?wp_ret; [by intros wr a [= <- _]| |done].
    intros wr a [= <- _]. unfold code_of, handleRPCError. cbn.
    destruct err as [| | | | | | | |[] msg]; cbn; try done. by destruct (Hr msg).
  - unfold h_log. rewrite wp_bind, wp_run, wp_ret. by intros wr a [= <- _].
Qed.

Lemma handle_same {Q A} decode (call : Q → metadata → M W A) encode (h : Handlers) r r' w :
  (∀ q md md', call q md = call q md') → rq_Body r = rq_Body r' →
  handle decode call encode h r w = handle decode call encode h r' w.
Proof.
  intros Hmd Hb. unfold handle. rewrite Hb. destruct (decode _) as [q|?|?]; [|done..].
  by rewrite (Hmd q (addkey r) (addkey r')).
Qed.
End jsonapi.

(** C35: over REST the API key of a request does not matter: whatever header a client sends,
    addkey finds no key, so the check of the gRPC interceptors would refuse every
    request; but the handlers do the same for every header, and never answer 401. *)
Theorem jsonapi_unauthenticated `{K8sQuantity} {W} `{SecretBox} (rt : Runtime W) dr di (h : Handlers) r r' w :
  from_network r → rq_Body r = rq_Body r' →
  (∀ ctx rpc, wp (apiKeyAuth (h_gr h) ctx (addkey r) rpc) (λ res _, res = Ok false) w) ∧
  BuildRequestHandler rt dr h r w = BuildRequestHandler rt dr h r' w ∧
  BuildStatusHandler di h r w = BuildStatusHandler di h r' w ∧
  BuildCancelHandler di h r w = BuildCancelHandler di h r' w ∧
  (∀ m, m ∈ (routes rt dr di h).*2 →
     wp (m r) (λ res _, ∀ wr, res = Ok wr → code_of wr ≠ StatusUnauthorized) w).
Proof.
  intros Hr Hb. split_and!.
  - intros ctx rpc. rewrite no_key_found by done. unfold apiKeyAuth.
    destruct (methods W (h_gr h)) as [ms|]; [|done]. by destruct (ms !! rpc).
  - by apply handle_same.
  - by apply handle_same.
  - by apply handle_same.
  - assert (∀ A (m : M W (http_written * option A)),
      wp m (λ res _, ∀ wr a, res = Ok (wr, a) → code_of wr ≠ StatusUnauthorized) w →
      wp (p ← m; mret p.1) (λ res _, ∀ wr, res = Ok wr → code_of wr ≠ StatusUnauthorized) w) as Hresp.
    { intros A m Hm. rewrite wp_bind. eapply wp_mono; [|exact Hm].
      intros [[wr a]|?|?] w' Ha; [|done..]. rewrite wp_ret. intros wr' [= <-]. by eapply Ha. }
    intros m Hm. cbn in Hm. rewrite !elem_of_cons in Hm.
    destruct Hm as [->|[->|[->|Hm%not_elem_of_nil]]]; [| | |done]; apply Hresp, handle_not_401; intros.
    + by apply open_StartBuild.
    + by apply open_GetBuildStatus.
    + by apply open_CancelBuild.
Qed.

(** Cancelling a build that is not running is the client's mistake, and answered as the
    server's: 500, with the text of the gRPC error. *)
Lemma cancel_conflict_is_500 `{K8sQuantity} {W} di (h : Handlers) r id dl b w w' :
  di (rq_Body r) = Ok (uuid_String id) → FromString (uuid_String id) = Ok id →
  DL W (h_gr h) = Some dl → GetBuildByID dl CtxCaller id w = (Ok b, w') → Running b = false →
  ∃ wr, (BuildCancelHandler di h r w).1 = Ok (wr, None) ∧ code_of wr = StatusInternalServerError.
Proof.
  intros Hd Hid Hdl Hb Hrun.
  change (wp (BuildCancelHandler di h r)
    (λ res _, ∃ wr, res = Ok (wr, None) ∧ code_of wr = StatusInternalServerError) w).
  unfold BuildCancelHandler, handle. rewrite Hd, wp_bind, wp_attempt.
  unfold CancelBuild. rewrite wp_bind. unfold parse_id. rewrite wp_on_err, wp_lift_res, Hid.
  rewrite wp_bind. unfold get_build. rewrite wp_bind, Hdl. cbn [deref]. rewrite wp_ret, wp_on_err.
  unfold wp at 1. rewrite Hb. cbn [fst snd]. rewrite Hrun, orb_true_r.
  eexists. split; reflexivity.
Qed.

(** ** Witness *)

#[local] Existing Instance milli_quantity.

(** A server whose data layer is down, and a request that sends a key. *)
Definition keyed_request : http_request := {|
  rq_Header := {[ CanonicalMIMEHeaderKey "API-Key" := ["5c1ab1e0-8b84-4f1e-9d3c-0a8b6f1c2d3e"] ]}%string;
  rq_Body := "{}" |}.

Definition plain_request : http_request := {| rq_Header := ∅; rq_Body := "{}" |}.

Definition rest_handlers : Handlers (W := ()) := NewHandlers {|
  DL := Some down_dl; BM := None; CFFactory := None;
  Opts := {| APM := false; CredentialDecryptionKey := []; Cache := BuildCacheOpts_zero;
             LogFunc := None; JobHandoffTimeout := 0;
             MaxResources := {| MaxCPUReq := milli 0; MaxMemReq := milli 0; MaxCPULim := milli 0;
                                MaxMemLim := milli 0 |} |};
  methods := Some {[ "/furanrpc.FuranExecutor/CancelBuild"%string := false ]} |}.

Lemma jsonapi_unauthenticated_witness :
  (∀ ctx rpc, wp (apiKeyAuth (h_gr rest_handlers) ctx (addkey keyed_request) rpc) (λ res _, res = Ok false) ()) ∧
  BuildCancelHandler (λ _, Ok "nonsense"%string) rest_handlers keyed_request () =
  BuildCancelHandler (λ _, Ok "nonsense"%string) rest_handlers plain_request ().
Proof.
  assert (from_network keyed_request) as Hn.
  { intros k [v Hv]. exists "API-Key"%string. cbn [rq_Header keyed_request] in Hv.
    by apply lookup_singleton_Some in Hv as [<- _]. }
  destruct (jsonapi_unauthenticated (W := ())
    {| rand_Read n w := (([], None), w); rt_Now w := (GoTime.time_zero, w); ctx_Done _ w := (false, w) |}
    (λ _, Err (ErrLib "EOF")) (λ _, Ok "nonsense"%string) rest_handlers keyed_request plain_request () Hn eq_refl)
    as (H1 & _ & _ & H4 & _).
  split; [exact H1|exact H4].
Defined.
