(* ===== verification/Github.v ===== *)
(** * pkg/github: the source of a build

    [GitHubFetcher] asks GitHub for the commit and for the archive of a reference, and
    extracts the archive, a compressed tar stream, into a directory.  GitHub, HTTP
    and the tar reader are parameters; the file system is [GoFS]. *)

From S2P Require Import Prelude GoStrings Utf8 GoPath GoFS Models.

#[local] Open Scope Z_scope.

(** ** What the libraries give *)

(** [tar.Header] and [archiver.File]: the type assertion on [f.Header] can fail. *)
Record tar_header := {
  hdr_Name : string;
  hdr_Typeflag : Z;
  hdr_Linkname : string;
}.

Record tar_file := {
  tf_IsDir : bool;
  tf_Mode : Z;
  tf_Header : tar_header + string;      (* or the name of the type it has *)
  tf_data : string;                     (* what reading the file gives, *)
  tf_err : option error;                (* and the error at the end of it *)
}.

Definition TypeReg : Z := 48.
Definition TypeRegA : Z := 0.
Definition TypeLink : Z := 49.
Definition TypeSymlink : Z := 50.
Definition TypeChar : Z := 51.
Definition TypeBlock : Z := 52.
Definition TypeDir : Z := 53.
Definition TypeFifo : Z := 54.
Definition TypeXGlobalHeader : Z := 103.
Definition TypeGNUSparse : Z := 83.

(** The archiver's tar.gz reader on a stream [Src]. *)
Record TarGz (Src : Type) := {
  tgz_Open : Src → res () * Src;
  tgz_Read : Src → res tar_file * Src;
  tgz_Close : Src → Src;
  in_Close : Src → Src;
}.
Arguments tgz_Open {_} _ _.
Arguments tgz_Read {_} _ _.
Arguments tgz_Close {_} _ _.
Arguments in_Close {_} _ _.

(** The GitHub client and the HTTP client, on the network [N]; a response is its
    status and, for the archive, the stream of its body. *)
Record GitHubNet (Src : Type) := {
  GetCommitSHA1 : string → string → string → Src → res string * Src;
  (* the link, if there is one; the status code and the status line *)
  GetArchiveLink : string → string → string → Src → res (option string * Z * string) * Src;
  gh_NewRequest : string → res ();
  gh_Do : string → Src → res (option Z) * Src;
}.
Arguments GetCommitSHA1 {_} _ _ _ _ _.
Arguments GetArchiveLink {_} _ _ _ _ _.
Arguments gh_NewRequest {_} _ _.
Arguments gh_Do {_} _ _ _.

(** ** Writing one entry *)

(** [fmt.Errorf("%s: what: %w", p, err)]. *)
Definition path_error {A} (p what : string) : M fs A → M fs A := wrapf (p +:+ ": " +:+ what).

Definition fileExists (name : string) : M fs bool :=
  r ← attempt (Stat name);
  mret (match r with Err e => negb (IsNotExist e) | _ => true end).

Definition mkdir (dirPath : string) (dirMode : Z) : M fs () :=
  path_error dirPath "making directory" (MkdirAll dirPath dirMode).

(** io.Copy of the entry into the open file. *)
Definition io_Copy (i : nat) (f : tar_file) : M fs () :=
  (if decide (tf_data f = ""%string) then mret () else Write i (tf_data f)) ;;
  match tf_err f with Some e => throw e | None => mret () end.

Definition writeNewFile (fpath : string) (f : tar_file) (fm : Z) : M fs () :=
  path_error fpath "making directory for file" (MkdirAll (Dir fpath) 493) ;;
  i ← path_error fpath "creating new file" (Create fpath);
  path_error fpath "changing file mode" (Fchmod i fm) ;;
  path_error fpath "writing file" (io_Copy i f).

(** What the two kinds of link share: the directory, and unlinking what is in the way. *)
Definition make_room (fpath : string) : M fs () :=
  path_error fpath "making directory for file" (MkdirAll (Dir fpath) 493) ;;
  l ← attempt (Lstat fpath);
  match l with
  | Ok _ => path_error fpath "failed to unlink" (Remove fpath)
  | _ => mret ()
  end.

Definition writeNewSymbolicLink (fpath target : string) : M fs () :=
  make_room fpath ;; path_error fpath "making symbolic link for" (Symlink target fpath).

Definition writeNewHardLink (fpath target : string) : M fs () :=
  make_room fpath ;; path_error fpath "making hard link for" (Link target fpath).

Definition is_regular (flag : Z) : bool :=
  bool_decide (flag ∈ [TypeReg; TypeRegA; TypeChar; TypeBlock; TypeFifo; TypeGNUSparse]).

Definition untarFile (f : tar_file) (destination : string) (hdr : tar_header) : M fs () :=
  let to := Join2 destination (hdr_Name hdr) in
  exists_ ← (if tf_IsDir f then mret false else fileExists to);
  if (exists_ : bool) then throw (ErrText ("file already exists: " +:+ to))
  else
    let flag := hdr_Typeflag hdr in
    if flag =? TypeDir then mkdir to (tf_Mode f)
    else if is_regular flag then writeNewFile to f (tf_Mode f)
    else if flag =? TypeSymlink then writeNewSymbolicLink to (hdr_Linkname hdr)
    else if flag =? TypeLink then writeNewHardLink to (Join2 destination (hdr_Linkname hdr))
    else if flag =? TypeXGlobalHeader then mret ()
    else throw (ErrText (hdr_Name hdr +:+ ": unknown type flag: " +:+ string_of_runes [flag])).

(** ** The archive *)

Section github.
Context {Src : Type} (tgz : TarGz Src) (net : GitHubNet Src).

(** The file system, and the stream or the network. *)
Abbreviation world := (fs * Src)%type.

Definition on_fs {A} (m : M fs A) : M world A := λ w,
  let '(r, s) := m w.1 in (r, (s, w.2)).
Definition on_src {A} (f : Src → res A * Src) : M world A := λ w,
  let '(r, s) := f w.2 in (r, (w.1, s)).

Definition untarNext (dest : string) : M world () :=
  f ← on_src (tgz_Read tgz);
  match tf_Header f with
  | inr ty => throw (ErrText ("expected header to be *tar.Header but was " +:+ ty))
  | inl header => on_fs (untarFile f dest header)
  end.

(** The loop of extractArchive: it reads until the end of the stream or an error; [n]
    bounds the entries of the stream ([extract_loop_terminates]). *)
Fixpoint extract_loop (n : nat) (dest : string) : M world () :=
  match n with
  | O => panic out_of_fuel
  | S n' =>
      r ← attempt (untarNext dest);
      match r with
      | Err e => if decide (e = ErrEOF) then mret ()
                 else throw (ErrWrap "error reading file from tar stream" e)
      | _ => extract_loop n' dest
      end
  end.

Definition extractArchive (n : nat) (dest : string) : M world () :=
  deferring (λ _, on_src (λ s, (Ok (), in_Close tgz s)))
   (wrapf "error opening tar stream" (on_src (tgz_Open tgz)) ;;
    deferring (λ _, on_src (λ s, (Ok (), tgz_Close tgz s))) (extract_loop n dest)).

(** ** The fetcher *)

Definition errorf {A} (msg : string) : M world A → M world A :=
  on_err (λ e, ErrText (msg +:+ ": " +:+ error_String e)).

Definition getAndExtractArchive (n : nat) (archiveURL destination : string) : M world () :=
  errorf "error creating http request" (lift_res (gh_NewRequest net archiveURL)) ;;
  resp ← errorf "error performing archive http request" (on_src (gh_Do net archiveURL));
  match resp with
  | None => throw (ErrText "error getting archive: response is nil")
  | Some StatusCode =>
      if 299 <? StatusCode
      then throw (ErrText ("archive http request failed: " +:+ fmt_int StatusCode))
      else extractArchive n destination
  end.

(** [rs[0], rs[1]] of [strings.SplitN(repo, "/", 2)]. *)
Definition owner_and_name (repo : string) : M world (string * string) :=
  match SplitN2 repo "/" with
  | owner :: name :: _ => mret (owner, name)
  | _ => panic "index out of range [1] with length 1"
  end.

Definition GetCommitSHA_ (repo ref : string) : M world string :=
  rs ← owner_and_name repo;
  on_src (GetCommitSHA1 net rs.1 rs.2 ref).

Definition Fetch_ (n : nat) (repo ref destinationPath : string) : M world () :=
  rs ← owner_and_name repo;
  r ← errorf "error getting archive link" (on_src (GetArchiveLink net rs.1 rs.2 ref));
  let '(aurl, StatusCode, Status) := r in
  if 399 <? StatusCode
  then throw (ErrText ("error status when getting archive link: " +:+ Status))
  else match aurl with
       | None => throw (ErrText "url is nil")
       | Some aurl => getAndExtractArchive n aurl destinationPath
       end.

(** [*GitHubFetcher] as a [models.CodeFetcher]; [n] bounds the entries of an archive. *)
Definition fetcher (n : nat) : CodeFetcher world := {|
  GetCommitSHA _ repo ref := GetCommitSHA_ repo ref;
  Fetch _ repo ref destinationPath := Fetch_ n repo ref destinationPath;
|}.
End github.

(** pkg/github/fake.go. *)
Definition FakeFetcher {W} (FetchFunc : option (context → string → string → string → M W ()))
    (GetCommitSHAFunc : option (context → string → string → M W string)) : CodeFetcher W := {|
  GetCommitSHA ctx repo ref :=
    match GetCommitSHAFunc with Some f => f ctx repo ref | None => mret "" end;
  Fetch ctx repo ref dst := match FetchFunc with Some f => f ctx repo ref dst | None => mret () end;
|}.
