(* ===== verification/GithubFacts.v ===== *)
(** * Facts about the GitHub fetcher

    Extraction is a fold over the entries of the stream; where it can write, and what
    it writes for the archives GitHub makes. *)

From S2P Require Import Prelude GoStrings Utf8 GoPath GoFS GoFSFacts Models K8s Grpc Github.

#[local] Open Scope Z_scope.

(** ** The loop is a fold over the entries *)

Definition untar_entry (dest : string) (f : tar_file) : M fs () :=
  match tf_Header f with
  | inr ty => throw (ErrText ("expected header to be *tar.Header but was " +:+ ty))
  | inl header => untarFile f dest header
  end.

Definition untar_all (dest : string) : list tar_file → M fs () := mforeach (untar_entry dest).

Definition stream_error : error → error := ErrWrap "error reading file from tar stream".

(** All entries, then the end [e] of the stream. *)
Definition extract_spec (dest : string) (l : list tar_file) (e : error) : M fs () :=
  on_err stream_error (untar_all dest l) ;;
  if decide (e = ErrEOF) then mret () else throw (stream_error e).

Lemma wp_path_error_not_eof {A} p what (m : M fs A) s : 
  wp (path_error p what m) (λ r _, r ≠ Err ErrEOF) s.
Proof. unfold path_error. rewrite wp_wrapf. unfold wp. by destruct (m s) as [[?|?|?] ?]. Qed.

Lemma wp_not_eof_bind {A B} (m : M fs A) (f : A → M fs B) s :
  wp m (λ r _, r ≠ Err ErrEOF) s → (∀ a s', wp (f a) (λ r _, r ≠ Err ErrEOF) s') →
  wp (m ≫= f) (λ r _, r ≠ Err ErrEOF) s.
Proof.
  intros Hm Hf. rewrite wp_bind. eapply wp_mono; [|exact Hm].
  intros [a|e|p] s' H; [by apply Hf|naive_solver..].
Qed.

Lemma wp_make_room_not_eof fpath s : wp (make_room fpath) (λ r _, r ≠ Err ErrEOF) s.
Proof.
  apply wp_not_eof_bind; [apply wp_path_error_not_eof|]. intros _ s1.
  apply wp_not_eof_bind.
  - rewrite wp_attempt. unfold wp. by destruct (Lstat fpath s1) as [[?|?|?] ?].
  - intros [?|?|?] s2; [apply wp_path_error_not_eof|done..].
Qed.

(** An entry never ends the loop by itself. *)
Lemma untar_entry_not_eof dest f s : wp (untar_entry dest f) (λ r _, r ≠ Err ErrEOF) s.
Proof.
  unfold untar_entry. destruct (tf_Header f) as [h|ty]; [|done]. unfold untarFile.
  apply wp_not_eof_bind.
  { destruct (tf_IsDir f); [done|]. unfold fileExists. apply wp_not_eof_bind; [|done].
    rewrite wp_attempt. unfold wp. by destruct (Stat _ s) as [[?|?|?] ?]. }
  intros [] s1; [done|].
  repeat (case_match; [first [apply wp_path_error_not_eof
    | apply wp_not_eof_bind; [apply wp_make_room_not_eof|intros; apply wp_path_error_not_eof]
    | unfold writeNewFile; repeat (apply wp_not_eof_bind; [apply wp_path_error_not_eof|intros ? ?]);
      apply wp_path_error_not_eof
    | done]|]).
  done.
Qed.

Section stream.
Context {Src : Type} (tgz : TarGz Src).

(** The entries the reader gives from [src] on, and how it ends. *)
Inductive reads : Src → list tar_file → error → Prop :=
  | reads_end src e src' : tgz_Read tgz src = (Err e, src') → reads src [] e
  | reads_entry src f src' l e :
      tgz_Read tgz src = (Ok f, src') → reads src' l e → reads src (f :: l) e.

(** What a run on the file system and the stream does to the file system. *)
Definition fs_part {A} (r : res A * (fs * Src)) : res A * fs := (r.1, r.2.1).

Lemma extract_loop_reads n dest s src l e : reads src l e → (length l < n)%nat →
  fs_part (extract_loop tgz n dest (s, src)) = extract_spec dest l e s.
Proof.
  intros Hr. revert n s. induction Hr as [src e src' Hr|src f src' l e Hr _ IH]; intros n s Hn;
    (destruct n as [|n]; [cbn in Hn; lia|]); cbn [extract_loop].
  - unfold fs_part, mbind, M_bind, attempt, untarNext, mbind, M_bind, on_src. cbn -[decide]. rewrite Hr. cbn -[decide].
    unfold extract_spec, mbind, M_bind. cbn -[decide]. by case_decide.
  - pose proof (untar_entry_not_eof dest f s) as Hne. unfold wp in Hne.
    unfold extract_spec, untar_all in *. cbn [mforeach].
    assert (untarNext tgz dest (s, src) =
      let '(r, s') := untar_entry dest f s in (r, (s', src'))) as Hnext.
    { unfold untarNext, mbind, M_bind, on_src, on_fs, untar_entry. cbn. rewrite Hr.
      destruct (tf_Header f); [|done]. cbn. by destruct (untarFile _ _ _ _). }
    unfold mbind, M_bind, attempt, on_err in *. rewrite Hnext.
    destruct (untar_entry dest f s) as [[[]|er|p] s'].
    + rewrite IH by (cbn in Hn; lia). by destruct (mforeach _ _ _) as [[?|?|?] ?].
    + rewrite decide_False; [done|]. intros ->. by apply Hne.
    + done.
Qed.

Lemma extractArchive_loop n dest s src src1 : tgz_Open tgz src = (Ok (), src1) →
  fs_part (extractArchive tgz n dest (s, src)) = fs_part (extract_loop tgz n dest (s, src1)).
Proof.
  intros Ho. unfold extractArchive, deferring, mbind, M_bind, wrapf, on_err, on_src, fs_part.
  cbn. rewrite Ho. cbn. by destruct (extract_loop tgz n dest (s, src1)) as [r [s' src2]].
Qed.
End stream.

(** C34: extracting an archive of [l] entries that ends with [e] ends for any fuel over the
    number of entries, and does to the file system what writing the entries in order
    does: it stops at the first entry that fails, and a stream that breaks off is an
    error. *)
Theorem extractArchive_is_fold {Src} (tgz : TarGz Src) n dest s src src1 l e :
  tgz_Open tgz src = (Ok (), src1) → reads tgz src1 l e → (length l < n)%nat →
  fs_part (extractArchive tgz n dest (s, src)) = extract_spec dest l e s.
Proof.
  intros Ho Hr Hn. by rewrite (extractArchive_loop _ _ _ _ _ _ Ho), (extract_loop_reads _ _ _ _ _ l e).
Qed.

(** ** Where an archive can write *)

(** An entry that names files below the destination only, and is no symbolic link. *)
Definition stays (f : tar_file) : Prop :=
  match tf_Header f with
  | inl h => inside_name (hdr_Name h) ∧ hdr_Typeflag h ≠ TypeSymlink ∧
             (hdr_Typeflag h = TypeLink → inside_name (hdr_Linkname h))
  | inr _ => True
  end.

Section inside.
Context (D : path) (HD : abs_name D) (s0 : fs).

(** The path of an entry below [D]. *)
Definition entry_path (name : string) : path := (D ++ comps name)%list.

Lemma entry_path_abs name : inside_name name → abs_name (entry_path name).
Proof.
  intros [Hne Hd]. unfold entry_path. split; [by intros [? _]%app_nil; apply HD|].
  apply Forall_app. split; [apply HD|by apply comps_plain].
Qed.

Lemma entry_path_below name : below D (entry_path name).
Proof. by eexists. Qed.

Lemma entry_path_parent name : inside_name name →
  abs_name (removelast (entry_path name)) ∧ below D (removelast (entry_path name)) ∧ entry_path name ≠ D.
Proof.
  intros Hi. destruct (entry_path_abs name Hi) as [_ Hp]. unfold entry_path in *.
  destruct Hi as [Hne _]. destruct (comps name) as [|c cs] using rev_ind; [done|]. clear IHcs.
  rewrite app_assoc, removelast_last. rewrite app_assoc in Hp. apply Forall_app in Hp as [Hp _].
  split_and!; [split; [by intros [? _]%app_nil; apply HD|done]|by eexists|].
  intros Hl%(f_equal length). rewrite !length_app in Hl. cbn in Hl. lia.
Qed.

Lemma confined_parent name perm : inside_name name →
  confined D s0 (MkdirAll (Dir (clean_abs (entry_path name))) perm).
Proof.
  intros Hi. destruct (entry_path_parent name Hi) as (Hp & Hb & _).
  rewrite Dir_clean_abs by (by apply entry_path_abs || apply Hp).
  apply confined_MkdirAll; [done|by right].
Qed.

Lemma confined_writeNewFile name f fm : inside_name name →
  confined D s0 (writeNewFile (clean_abs (entry_path name)) f fm).
Proof.
  intros Hi. pose proof (entry_path_abs name Hi) as Ha. pose proof (entry_path_below name) as Hb.
  unfold writeNewFile. apply confined_bind; [by apply confined_wrapf, confined_parent|]. intros _ s Hs.
  rewrite wp_bind. unfold path_error at 1. rewrite wp_wrapf.
  eapply wp_mono; [|exact (Create_spec D s0 _ Ha (or_intror Hb) s Hb Hs)].
  intros [i|?|?] s' [Hs' Hi']; [|done..].
  assert (confined D s0 (path_error (clean_abs (entry_path name)) "changing file mode" (Fchmod i fm) ;;
    path_error (clean_abs (entry_path name)) "writing file" (io_Copy i f))) as H; [|by apply H].
  apply confined_bind; [by apply confined_wrapf, confined_Fchmod|]. intros _. apply confined_wrapf.
  apply confined_bind; [destruct (decide _); [apply confined_ret|by apply confined_Write]|]. intros _.
  destruct (tf_err f); [apply confined_throw|apply confined_ret].
Qed.

Lemma confined_writeNewHardLink name target : inside_name name → inside_name target →
  confined D s0 (writeNewHardLink (clean_abs (entry_path name)) (clean_abs (entry_path target))).
Proof.
  intros Hi Ht. pose proof (entry_path_abs name Hi) as Ha. pose proof (entry_path_below name) as Hb.
  unfold writeNewHardLink, make_room. apply confined_bind.
  - apply confined_bind; [by apply confined_wrapf, confined_parent|]. intros _.
    apply confined_bind; [apply confined_attempt, confined_lookup|].
    intros [?|?|?]; [|apply confined_ret..]. apply confined_wrapf, confined_Remove; [done|by right|done|].
    by apply entry_path_parent.
  - intros _. apply confined_wrapf, confined_Link; [done..|by apply entry_path_abs|apply entry_path_below].
Qed.

Lemma confined_untar_entry f : stays f → confined D s0 (untar_entry (clean_abs D) f).
Proof.
  unfold stays, untar_entry. destruct (tf_Header f) as [h|ty]; [|intros; apply confined_throw].
  intros (Hi & Hns & Hl). pose proof (entry_path_abs _ Hi) as Ha.
  unfold untarFile. rewrite (Join2_inside D) by done. fold (entry_path (hdr_Name h)).
  apply confined_bind.
  { destruct (tf_IsDir f); [apply confined_ret|]. apply confined_bind; [|intros; apply confined_ret].
    apply confined_attempt, confined_lookup. }
  intros []; [apply confined_throw|].
  destruct (Z.eqb_spec (hdr_Typeflag h) TypeDir).
  { apply confined_wrapf, confined_MkdirAll; [done|right; apply entry_path_below]. }
  destruct (is_regular _); [by apply confined_writeNewFile|].
  destruct (Z.eqb_spec (hdr_Typeflag h) TypeSymlink); [done|].
  destruct (Z.eqb_spec (hdr_Typeflag h) TypeLink) as [Hlink|_].
  { rewrite (Join2_inside D) by auto. apply confined_writeNewHardLink; auto. }
  destruct (_ =? _); [apply confined_ret|apply confined_throw].
Qed.

Lemma confined_extract l e : Forall stays l → confined D s0 (extract_spec (clean_abs D) l e).
Proof.
  intros Hl. unfold extract_spec. apply confined_bind.
  - apply (confined_wrapf D s0 "error reading file from tar stream").
    induction Hl as [|f l Hf Hl IH]; [apply confined_ret|]. apply confined_bind; [by apply confined_untar_entry|done].
  - intros _. destruct (decide _); [apply confined_ret|apply confined_throw].
Qed.
End inside.

(** C14: extraction into a tidy directory (reached without symbolic links, with none below
    it) changes nothing outside of it, whatever fails on the way, when the entries have
    no parent components in their names - and none in the targets of hard links - and
    are no symbolic links.  (Both conditions are needed: extract_escapes.) *)
Theorem extract_contained {Src} (tgz : TarGz Src) n D s src src1 l e :
  abs_name D → tidy D s → tgz_Open tgz src = (Ok (), src1) → reads tgz src1 l e →
  (length l < n)%nat → Forall stays l →
  wp (extractArchive tgz n (clean_abs D)) (λ _ w, outside_same D s w.1) (s, src).
Proof.
  intros HD Ht Ho Hr Hn Hl. unfold wp.
  pose proof (extractArchive_loop tgz n (clean_abs D) s src src1 Ho) as Heq.
  rewrite (extract_loop_reads tgz n (clean_abs D) s src1 l e Hr Hn) in Heq.
  apply (f_equal snd) in Heq. cbn in Heq. rewrite Heq.
  by apply (confined_extract D HD s l e Hl s).
Qed.

(** ** What an archive becomes *)

Definition header_of (f : tar_file) : tar_header :=
  match tf_Header f with inl h => h | inr _ => {| hdr_Name := ""; hdr_Typeflag := 0; hdr_Linkname := "" |} end.

Definition is_dir_entry (f : tar_file) : bool := hdr_Typeflag (header_of f) =? TypeDir.
Definition is_global (f : tar_file) : bool := hdr_Typeflag (header_of f) =? TypeXGlobalHeader.

(** An entry as git makes them: a directory, a file, a symbolic link or a global header. *)
Record git_entry (f : tar_file) : Prop := {
  ge_header : tf_Header f = inl (header_of f);
  ge_name : inside_name (hdr_Name (header_of f));
  ge_read : tf_err f = None;
  ge_dir : tf_IsDir f = is_dir_entry f;
  ge_kind : is_dir_entry f = true ∨ is_regular (hdr_Typeflag (header_of f)) = true ∨
    (hdr_Typeflag (header_of f) = TypeSymlink ∧ hdr_Linkname (header_of f) ≠ ""%string) ∨
    is_global f = true;
}.

Section tree.
Context (D : path) (HD : abs_name D).

Definition place (f : tar_file) : path := entry_path D (hdr_Name (header_of f)).

(** Each path once, and nothing below one that is not a directory. *)
Record git_archive (l : list tar_file) : Prop := {
  ga_entry f : f ∈ l → git_entry f;
  ga_nodup : NoDup (place <$> l);
  ga_leaf f g : f ∈ l → g ∈ l → is_dir_entry f = false → place f `prefix_of` place g → place f = place g;
}.

(** The entry is in the tree as the archive has it. *)
Definition entry_ok (s : fs) (f : tar_file) : Prop :=
  let n := tree s !! place f in
  let flag := hdr_Typeflag (header_of f) in
  if is_dir_entry f then ∃ m, n = Some (NDir m)
  else if is_regular flag then
    ∃ i, n = Some (NFile i) ∧ inodes s !! i = Some {| f_mode := tf_Mode f; f_data := tf_data f |}
  else if flag =? TypeSymlink then n = Some (NLink (hdr_Linkname (header_of f)))
  else n = None.

(** The tree after the entries [l]: they are there, below [D] there is nothing else but
    the directories on the way to them, and elsewhere nothing has changed. *)
Record extracted (l : list tar_file) (s0 s : fs) : Prop := {
  ex_calm : calm s;
  ex_closed : closed (tree s);
  ex_dest x : x `prefix_of` D → ∃ m, node_at (tree s) x = Some (NDir m);
  ex_out p : ¬ below D p → tree s !! p = tree s0 !! p;
  ex_dom : dom (inodes s0) ⊆ dom (inodes s);
  ex_files i : i ∈ dom (inodes s0) → inodes s !! i = inodes s0 !! i;
  ex_inode p i : tree s !! p = Some (NFile i) → i ∈ dom (inodes s);
  ex_entry f : f ∈ l → entry_ok s f;
  ex_only p n : below D p → p ≠ D → tree s !! p = Some n →
    ∃ f, f ∈ l ∧ (place f = p ∨ (is_dir n = true ∧ p `prefix_of` place f ∧ p ≠ place f));
}.

(** The change one entry makes: directories on the way, and a node at its place. *)
Record adds (f : tar_file) (s s' : fs) : Prop := {
  ad_calm : calm s';
  ad_closed : closed (tree s');
  ad_tree x : x ≠ place f → tree s' !! x = tree s !! x ∨
    (tree s !! x = None ∧ x ≠ [] ∧ x `prefix_of` place f ∧ ∃ m, tree s' !! x = Some (NDir m));
  ad_dom : dom (inodes s) ⊆ dom (inodes s');
  ad_files i : i ∈ dom (inodes s) → inodes s' !! i = inodes s !! i;
  ad_inode i : tree s' !! place f = Some (NFile i) → i ∈ dom (inodes s');
  ad_ok : entry_ok s' f;
}.

Lemma place_not_dest f x : git_entry f → x `prefix_of` D → x ≠ place f.
Proof.
  intros Hf Hx ->. destruct (entry_path_parent D HD _ (ge_name f Hf)) as (_ & _ & Hne).
  apply Hne. apply (anti_symm prefix); [done|apply entry_path_below].
Qed.

Lemma entry_ok_kept l f g s0 s s' : extracted l s0 s → adds f s s' → g ∈ l →
  place g ≠ place f → (is_dir_entry g = false → ¬ place g `prefix_of` place f) → entry_ok s' g.
Proof.
  intros [] [] Hg Hne Hleaf. specialize (ex_entry0 g Hg). unfold entry_ok in *.
  destruct (is_dir_entry g).
  - destruct ex_entry0 as [m Hm]. exists m. destruct (ad_tree0 _ Hne) as [->|(E & _)]; [done|congruence].
  - assert (tree s' !! place g = tree s !! place g) as ->.
    { destruct (ad_tree0 _ Hne) as [E|(_ & _ & E & _)]; [done|]. by destruct Hleaf. }
    destruct (is_regular _); [|done]. destruct ex_entry0 as (i & Hi & Hfile). exists i. split; [done|].
    rewrite ad_files0; [done|]. by eapply ex_inode0.
Qed.

Lemma extracted_adds l f s0 s s' : git_archive (l ++ [f]) → extracted l s0 s → adds f s s' →
  extracted (l ++ [f]) s0 s'.
Proof.
  intros Hga Hex Had. assert (git_entry f) as Hf by (apply (ga_entry _ Hga); set_solver).
  assert (∀ g, g ∈ l → place g ≠ place f) as Hnew.
  { intros g Hg E. pose proof (ga_nodup _ Hga) as Hnd. rewrite fmap_app in Hnd.
    apply NoDup_app in Hnd as (_ & Hnd & _). apply (Hnd (place g)); [by apply list_elem_of_fmap_2|].
    rewrite E. by left. }
  assert (∀ g, g ∈ l ++ [f] → entry_ok s' g) as Hall.
  { intros g [Hg|Hg]%elem_of_app; [|apply list_elem_of_singleton in Hg as ->; apply Had].
    apply (entry_ok_kept l f g s0 s s'); auto. intros Hd Hp.
    apply (Hnew g Hg). apply (ga_leaf _ Hga); [set_solver..|done|done]. }
  destruct Hex, Had. split; try done.
  - intros x Hx. destruct (ex_dest0 x Hx) as [m Hm]. exists m. destruct x as [|c x]; [done|]. cbn in *.
    destruct (ad_tree0 (c :: x)) as [->|(E & _)]; [by apply place_not_dest|done|congruence].
  - intros p Hp. rewrite <-ex_out0 by done. destruct (ad_tree0 p) as [E|(E & Hne & Hpre & _)]; [|done|].
    + intros ->. apply Hp, entry_path_below.
    + destruct (prefix_weak_total p D (place f) Hpre (entry_path_below D _)) as [Hd|Hd]; [|done].
      destruct (ex_dest0 p Hd) as [m Hm]. rewrite node_at_ne in Hm by done. congruence.
  - by etrans.
  - intros i Hi. rewrite ad_files0; [by apply ex_files0|by apply ex_dom0].
  - intros p i Hp. destruct (decide (p = place f)) as [->|Hne]; [by apply ad_inode0|].
    destruct (ad_tree0 p Hne) as [E|(_ & _ & _ & m & Hm)]; [|congruence].
    rewrite E in Hp. by eapply ad_dom0, ex_inode0.
  - intros p n Hb HnD Hn. destruct (decide (p = place f)) as [->|Hne]; [exists f; set_solver|].
    destruct (ad_tree0 p Hne) as [E|(_ & _ & Hpre & m & Hm)].
    + rewrite E in Hn. destruct (ex_only0 p n Hb HnD Hn) as (g & Hg & H). exists g. set_solver.
    + exists f. rewrite Hm in Hn. injection Hn as <-. split; [set_solver|]. right. done.
Qed.

(** No file or link is in the way of the next entry, and only a directory may be at its
    place already. *)
Lemma place_clear l f s0 s : git_archive (l ++ [f]) → extracted l s0 s →
  clear (tree s) (place f) ∧ dir_or_none (tree s) (place f) ∧
  (is_dir_entry f = false → tree s !! place f = None).
Proof.
  intros Hga Hex. assert (git_entry f) as Hf by (apply (ga_entry _ Hga); set_solver).
  assert (∀ x n, below D x → x ≠ D → x `prefix_of` place f → tree s !! x = Some n →
            (∃ m, n = NDir m) ∧ (x = place f → ∃ g, g ∈ l ∧ x `prefix_of` place g ∧ x ≠ place g)) as Hdir.
  { intros x n Hb HnD Hx Hn. destruct (ex_only _ _ _ Hex x n Hb HnD Hn) as (g & Hg & [Hp|(Hd & Hp & Hne)]).
    - assert (x ≠ place f) as Hxf.
      { intros ->. pose proof (ga_nodup _ Hga) as Hnd. rewrite fmap_app in Hnd.
        apply NoDup_app in Hnd as (_ & Hnd & _). apply (Hnd (place g)); [by apply list_elem_of_fmap_2|].
        rewrite Hp. by left. }
      destruct (is_dir_entry g) eqn:Hgd.
      + pose proof (ex_entry _ _ _ Hex g Hg) as Hok. unfold entry_ok in Hok. rewrite Hgd in Hok.
        destruct Hok as [m Hm]. rewrite Hp in Hm. split; [exists m; congruence|done].
      + exfalso. apply Hxf. rewrite <-Hp. apply (ga_leaf _ Hga); [set_solver..|done|by rewrite Hp].
    - split; [destruct n; [by eexists|done..]|]. intros _. by exists g. }
  assert (∀ x, x `prefix_of` place f → dir_or_none (tree s) x) as Hdn.
  { intros x Hx. destruct (prefix_weak_total x D (place f) Hx (entry_path_below D _)) as [HxD|HDx].
    - right. by apply (ex_dest _ _ _ Hex).
    - destruct (decide (x = D)) as [->|HnD]; [right; by apply (ex_dest _ _ _ Hex)|].
      assert (x ≠ []) as Hne. { intros ->. apply prefix_nil_inv in HDx. congruence. }
      unfold dir_or_none. rewrite node_at_ne by done.
      destruct (tree s !! x) as [n|] eqn:E; [|by left]. right.
      destruct (Hdir x n HDx HnD Hx E) as [[m ->] _]. by exists m. }
  split_and!; [intros x Hx _; by apply Hdn|by apply Hdn|].
  intros Hfd. destruct (tree s !! place f) as [n|] eqn:E; [exfalso|done].
  destruct (Hdir (place f) n) as [_ H]; [apply entry_path_below| |done..|].
  - intros H. by apply (place_not_dest f D Hf).
  - destruct (H eq_refl) as (g & Hg & Hp & Hne). apply Hne. by apply (ga_leaf _ Hga); [set_solver..| |].
Qed.

Lemma place_parent f : git_entry f → ∃ q c, place f = (q ++ [c])%list ∧ q ≠ [] ∧
  Forall plain (q ++ [c])%list ∧ Dir (clean_abs (place f)) = clean_abs q.
Proof.
  intros Hf. destruct (entry_path_parent D HD _ (ge_name f Hf)) as ([Hne Hp] & _ & _).
  pose proof (entry_path_abs D HD _ (ge_name f Hf)) as Ha. fold (place f) in *.
  destruct (place f) as [|c q _] using rev_ind; [by destruct Ha|].
  rewrite removelast_last in *. exists q, c. split_and!; [done..|apply Ha|].
  rewrite Dir_clean_abs, removelast_last by (done || by rewrite removelast_last). done.
Qed.

(** The directory of an entry is made; after that the entry itself is put in place. *)
Lemma parent_made f s perm : git_entry f → calm s → closed (tree s) → clear (tree s) (place f) →
  wp (MkdirAll (Dir (clean_abs (place f))) perm) (λ r s1, r = Ok () ∧
    grown (removelast (place f)) s s1 ∧
    (∀ x, x `prefix_of` place f → x ≠ place f → ∃ m, node_at (tree s1) x = Some (NDir m)) ∧
    tree s1 !! place f = tree s !! place f) s.
Proof.
  intros Hf Hc Hcl Hclear. destruct (place_parent f Hf) as (q & c & Hpl & Hne & Hp & ->).
  rewrite Hpl in *. rewrite removelast_last. pose proof Hp as [Hq _]%Forall_app.
  assert (q ≠ (q ++ [c])%list) as Hqne by (intros E%(f_equal length); rewrite length_app in E; cbn in E; lia).
  eapply wp_mono; [|apply MkdirAll_calm; [done..| |]].
  - intros r s1 [-> [G1 G2 G3 G4 G5]]. split_and!; [done..| |].
    + intros x [->|Hx]%prefix_snoc_inv Hxn; [done|]. by apply G4.
    + destruct (G5 (q ++ [c])%list) as [E|(_ & _ & Hx & _)]; [done|].
      apply prefix_length in Hx. rewrite length_app in Hx. cbn in Hx. lia.
  - intros x Hx Hxn. apply Hclear; [etrans; [done|by eexists]|]. intros ->.
    apply prefix_length in Hx. rewrite length_app in Hx. cbn in Hx. lia.
  - apply Hclear; [by eexists|done].
Qed.

(** From the tree where the directory was made, by a node at the place. *)
Lemma adds_node f s s1 s' n : git_entry f → grown (removelast (place f)) s s1 →
  (∀ x, x `prefix_of` place f → x ≠ place f → ∃ m, node_at (tree s1) x = Some (NDir m)) →
  tree s1 !! place f = None → calm s' → tree s' = <[place f := n]> (tree s1) →
  dom (inodes s1) ⊆ dom (inodes s') → (∀ i, i ∈ dom (inodes s1) → inodes s' !! i = inodes s1 !! i) →
  (∀ i, n = NFile i → i ∈ dom (inodes s')) → entry_ok s' f → adds f s s'.
Proof.
  intros Hf [G1 G2 G3 G4 G5] Hdirs Hnone Hc Ht Hdom Hfiles Hi Hok.
  pose proof (entry_path_abs D HD _ (ge_name f Hf)) as [Hne _]. fold (place f) in Hne.
  rewrite G3 in *. split; try done.
  - rewrite Ht. apply closed_insert; [done| |done..].
    destruct (place_parent f Hf) as (q & c & Hpl & _). rewrite Hpl, removelast_last in *.
    apply Hdirs; [by eexists|]. intros E%(f_equal length). rewrite length_app in E. cbn in E. lia.
  - intros x Hx. rewrite Ht, lookup_insert_ne by done.
    destruct (G5 x) as [E|(E & Hxne & Hpre & Hm)]; [by left|right]. split_and!; [done..| |done].
    etrans; [done|]. destruct (place_parent f Hf) as (q & c & -> & _). rewrite removelast_last. by eexists.
  - intros i. rewrite Ht, lookup_insert_eq. intros [= ->]. by apply Hi.
Qed.

Lemma wp_path_error_ok {A} p what (m : M fs A) (P : res A → fs → Prop) s :
  wp m (λ r s', (∃ a, r = Ok a) ∧ P r s') s → wp (path_error p what m) P s.
Proof.
  intros H. unfold path_error. rewrite wp_wrapf. eapply wp_mono; [|exact H]. by intros r s' [[a ->] ?].
Qed.

(** [m] succeeds and makes the entry. *)
Definition makes (f : tar_file) (s : fs) (m : M fs ()) : Prop :=
  wp m (λ r s', r = Ok () ∧ adds f s s') s.

Lemma makes_writeNewFile f s : git_entry f → is_dir_entry f = false →
  is_regular (hdr_Typeflag (header_of f)) = true → calm s → closed (tree s) →
  clear (tree s) (place f) → tree s !! place f = None →
  makes f s (writeNewFile (clean_abs (place f)) f (tf_Mode f)).
Proof.
  intros Hf Hnd Hreg Hc Hcl Hclear Hnone. pose proof (entry_path_abs D HD _ (ge_name f Hf)) as Ha.
  unfold makes, writeNewFile. rewrite wp_bind. apply wp_path_error_ok.
  eapply wp_mono; [|by apply parent_made]. intros r s1 (-> & Hg & Hdirs & Hsame). split; [by eexists|].
  rewrite Hnone in Hsame. pose proof (gr_calm _ _ _ Hg) as Hc1.
  rewrite wp_bind. apply wp_path_error_ok. unfold wp at 1. rewrite Create_calm by done. cbn [fst snd].
  set (i := fresh _). split; [by eexists|]. set (s2 := with_tree _ _).
  assert (i ∉ dom (inodes s1)) as Hi by apply is_fresh.
  assert (inodes s2 !! i = Some {| f_mode := Z.ldiff 438 (umask (tick s1)); f_data := "" |}) as Hi2
    by (cbn; by rewrite lookup_insert_eq).
  rewrite wp_bind. apply wp_path_error_ok. unfold wp at 1. rewrite (Fchmod_calm s2 i _ _ Hc1 Hi2). cbn [fst snd].
  split; [by eexists|]. set (s3 := with_inodes _ (tick s2)).
  assert (inodes s3 !! i = Some {| f_mode := tf_Mode f; f_data := "" |}) as Hi3
    by (cbn; by rewrite lookup_insert_eq).
  assert (∀ s4, tree s4 = tree s3 → calm s4 →
    inodes s4 = <[i := {| f_mode := tf_Mode f; f_data := tf_data f |}]> (inodes s1) → adds f s s4) as Hdone.
  { intros s4 Ht4 Hc4 Hi4. apply (adds_node f s s1 s4 (NFile i)); try done.
    - rewrite Hi4, dom_insert_L. set_solver.
    - intros j Hj. rewrite Hi4, lookup_insert_ne; [done|]. by intros ->.
    - intros j [= <-]. rewrite Hi4, dom_insert_L. set_solver.
    - unfold entry_ok. rewrite Hnd, Hreg. exists i. rewrite Ht4, Hi4. cbn. by rewrite !lookup_insert_eq. }
  apply wp_path_error_ok. unfold io_Copy. rewrite (ge_read f Hf), wp_bind. destruct (decide _) as [He|He].
  - rewrite !wp_ret. split; [by eexists|]. split; [done|]. apply Hdone; [done..|].
    rewrite He. unfold s3. cbn. by rewrite !insert_insert_eq.
  - unfold wp at 1. rewrite (Write_calm s3 i _ _ Hc1 Hi3). cbn [fst snd]. rewrite wp_ret.
    split; [by eexists|]. split; [done|]. apply Hdone; [done..|]. unfold s3. cbn. by rewrite !insert_insert_eq.
Qed.

Lemma makes_symlink f s : git_entry f → hdr_Typeflag (header_of f) = TypeSymlink →
  hdr_Linkname (header_of f) ≠ ""%string → calm s → closed (tree s) →
  clear (tree s) (place f) → tree s !! place f = None →
  makes f s (writeNewSymbolicLink (clean_abs (place f)) (hdr_Linkname (header_of f))).
Proof.
  intros Hf Hflag Htgt Hc Hcl Hclear Hnone. pose proof (entry_path_abs D HD _ (ge_name f Hf)) as Ha.
  unfold makes, writeNewSymbolicLink, make_room. rewrite !wp_bind. apply wp_path_error_ok.
  eapply wp_mono; [|by apply parent_made]. intros r s1 (-> & Hg & Hdirs & Hsame). split; [by eexists|].
  rewrite Hnone in Hsame. pose proof (gr_calm _ _ _ Hg) as Hc1.
  rewrite wp_bind, wp_attempt. unfold wp at 1, Lstat. rewrite lookup_clear, Hsame; [|try done..].
  2:{ apply (gr_closed _ _ _ Hg). }
  2:{ intros x Hx Hxn. right. by apply Hdirs. }
  cbn [fst snd]. rewrite wp_ret. apply wp_path_error_ok. unfold wp, Symlink. rewrite decide_False by done.
  rewrite make_node_calm by done. cbn [fst snd]. split; [by eexists|]. split; [done|].
  eapply (adds_node f s s1); try done.
  unfold entry_ok, is_dir_entry, is_regular. rewrite Hflag. cbn. by rewrite lookup_insert_eq.
Qed.

Lemma makes_dir f s : git_entry f → is_dir_entry f = true → calm s → closed (tree s) →
  clear (tree s) (place f) → dir_or_none (tree s) (place f) →
  (∀ i, tree s !! place f ≠ Some (NFile i)) →
  makes f s (mkdir (clean_abs (place f)) (tf_Mode f)).
Proof.
  intros Hf Hd Hc Hcl Hclear Hdn Hnf. pose proof (entry_path_abs D HD _ (ge_name f Hf)) as Ha.
  unfold makes, mkdir. apply wp_path_error_ok.
  eapply wp_mono; [|by apply MkdirAll_calm]. intros r s1 [-> [G1 G2 G3 G4 G5]]. split; [by eexists|].
  destruct (G4 (place f)) as [m Hm]; [done|]. rewrite node_at_ne in Hm by apply Ha.
  split; [done|]. split; [done|done| |by rewrite G3|by rewrite G3|congruence|].
  - intros x Hx. destruct (G5 x) as [E|(E & Hne & Hp & Hm')]; [by left|right]. done.
  - unfold entry_ok. rewrite Hd. by exists m.
Qed.

Lemma untar_entry_makes l f s0 s : git_archive (l ++ [f]) → extracted l s0 s →
  makes f s (untar_entry (clean_abs D) f).
Proof.
  intros Hga Hex. assert (git_entry f) as Hf by (apply (ga_entry _ Hga); set_solver).
  destruct (place_clear l f s0 s Hga Hex) as (Hclear & Hdn & Hnone).
  destruct Hex as [Hc Hcl _ _ _ _ _ _ _]. pose proof (entry_path_abs D HD _ (ge_name f Hf)) as Ha.
  unfold untar_entry, makes. rewrite (ge_header f Hf). unfold untarFile.
  rewrite (Join2_inside D) by (done || apply (ge_name f Hf)). fold (entry_path D (hdr_Name (header_of f))).
  fold (place f). rewrite (ge_dir f Hf), wp_bind. fold (is_dir_entry f).
  destruct (is_dir_entry f) eqn:Hd.
  { rewrite wp_ret. apply makes_dir; try done. intros i E.
    destruct Hdn as [H|[m H]]; rewrite node_at_ne in H by apply Ha; congruence. }
  specialize (Hnone eq_refl). unfold fileExists. rewrite wp_bind, wp_attempt. unfold wp at 1, Stat.
  rewrite lookup_clear, Hnone by (done || by rewrite Hnone). cbn [fst snd]. rewrite wp_ret.
  assert (negb (IsNotExist ENOENT) = false) as -> by done.
  assert (∀ m, makes f (tick s) m → wp m (λ r s', r = Ok () ∧ adds f s s') (tick s)) as Htick.
  { unfold makes. intros m Hm. eapply wp_mono; [|exact Hm]. intros r s' [-> []]. by split. }
  apply Htick. destruct (is_regular _) eqn:Hreg; [by apply makes_writeNewFile|].
  destruct (ge_kind f Hf) as [?|[?|[[Hsym Htgt]|Hg]]]; [congruence..| |].
  - rewrite Hsym. by apply makes_symlink.
  - unfold is_global in Hg. apply Z.eqb_eq in Hg. rewrite Hg. unfold makes. cbn. split; [done|].
    split; try done; [by left|cbn; congruence|]. unfold entry_ok. by rewrite Hd, Hreg, Hg.
Qed.
End tree.

(** A directory to extract into: nothing fails, nothing is below it. *)
Record ready (D : path) (s : fs) : Prop := {
  rd_calm : calm s;
  rd_closed : closed (tree s);
  rd_dest x : x `prefix_of` D → ∃ m, node_at (tree s) x = Some (NDir m);
  rd_empty p : below D p → p ≠ D → tree s !! p = None;
  rd_inode p i : tree s !! p = Some (NFile i) → i ∈ dom (inodes s);
}.

Lemma git_archive_prefix D l1 l2 : git_archive D (l1 ++ l2) → git_archive D l1.
Proof.
  intros [H1 H2 H3]. split.
  - intros f Hf. apply H1. set_solver.
  - rewrite fmap_app in H2. by apply NoDup_app in H2 as [? _].
  - intros f g Hf Hg. apply H3; set_solver.
Qed.

Lemma untar_all_extracts D (HD : abs_name D) l1 l2 s0 s : git_archive D (l1 ++ l2) →
  extracted D l1 s0 s →
  wp (untar_all (clean_abs D) l2) (λ r s', r = Ok () ∧ extracted D (l1 ++ l2) s0 s') s.
Proof.
  revert l1 s. induction l2 as [|f l2 IH]; intros l1 s Hga Hex.
  { rewrite app_nil_r. by split. }
  assert (git_archive D (l1 ++ [f])) as Hga1
    by (rewrite cons_middle, app_assoc in Hga; by eapply git_archive_prefix).
  unfold untar_all. cbn [mforeach]. rewrite wp_bind.
  eapply wp_mono; [|by apply (untar_entry_makes D HD l1 f s0 s)]. intros r s1 [-> Had].
  rewrite cons_middle, app_assoc in Hga |- *. apply IH; [done|]. by eapply extracted_adds.
Qed.

(** C13: an archive as git makes them (directories, files and symbolic links, each path
    once, nothing below a file or link), extracted into an empty directory, becomes
    exactly its tree: every file with its content and mode, every link with its target,
    nothing else - and nothing outside the directory changes. *)
Theorem extractArchive_makes_tree {Src} (tgz : TarGz Src) n D s src src1 l :
  abs_name D → ready D s → tgz_Open tgz src = (Ok (), src1) → reads tgz src1 l ErrEOF →
  (length l < n)%nat → git_archive D l →
  wp (extractArchive tgz n (clean_abs D)) (λ r w, r = Ok () ∧ extracted D l s w.1) (s, src).
Proof.
  intros HD [R1 R2 R3 R4 R5] Ho Hr Hn Hga. unfold wp.
  pose proof (extractArchive_loop tgz n (clean_abs D) s src src1 Ho) as Heq.
  rewrite (extract_loop_reads tgz n (clean_abs D) s src1 l ErrEOF Hr Hn) in Heq.
  assert (wp (extract_spec (clean_abs D) l ErrEOF) (λ r s', r = Ok () ∧ extracted D l s s') s) as H.
  { unfold extract_spec. rewrite wp_bind, wp_on_err.
    eapply wp_mono; [|apply (untar_all_extracts D HD [] l s s Hga)].
    - intros r s' [-> Hex]. rewrite decide_True by done. by rewrite wp_ret.
    - split; try done; [by intros ? ?%not_elem_of_nil|]. intros p m Hb Hne Hp. by rewrite R4 in Hp. }
  unfold wp in H. rewrite <-Heq in H. exact H.
Qed.

(** ** Archives that write elsewhere *)

(** A reader of a list of entries. *)
Definition list_tgz : TarGz (list tar_file) := {|
  tgz_Open l := (Ok (), l);
  tgz_Read l := match l with f :: l' => (Ok f, l') | [] => (Err ErrEOF, []) end;
  tgz_Close l := l;
  in_Close l := l;
|}.

Lemma list_tgz_reads l : reads list_tgz l l ErrEOF.
Proof. induction l as [|f l IH]; [by eapply reads_end|by eapply reads_entry]. Qed.

Definition entry (flag : Z) (name target data : string) : tar_file := {|
  tf_IsDir := flag =? TypeDir; tf_Mode := 420;
  tf_Header := inl {| hdr_Name := name; hdr_Typeflag := flag; hdr_Linkname := target |};
  tf_data := data; tf_err := None |}.

(** A machine with /tmp/ctx, empty, and /etc. *)
Definition machine : fs :=
  Fs (<[["etc"] := NDir 493]> (<[["tmp"] := NDir 493]> {[["tmp"; "ctx"] := NDir 448]})) ∅ [] 18 (λ _, None) 0.

Definition content (s : fs) (p : path) : option string :=
  match tree s !! p with Some (NFile i) => f_data <$> inodes s !! i | _ => None end.

(** Extraction trusts the archive: parent components in a name, a file below a symbolic
    link, or a file written onto a dangling symbolic link, put content outside of the
    destination, and Fetch reports success. *)
Theorem extract_escapes :
  let run l := fs_part (extractArchive list_tgz 3 "/tmp/ctx" (machine, l)) in
  let outcome l := ((run l).1, content (run l).2 ["etc"; "evil"]) in
  outcome [entry TypeReg "../../etc/evil" "" "x"] = (Ok (), Some "x"%string) ∧
  outcome [entry TypeSymlink "dir" "/etc" ""; entry TypeReg "dir/evil" "" "y"] = (Ok (), Some "y"%string) ∧
  outcome [entry TypeSymlink "f" "/etc/evil" ""; entry TypeReg "f" "" "z"] = (Ok (), Some "z"%string).
Proof. split_and!; vm_compute; reflexivity. Qed.

(** ** A repository without an owner *)

Lemma SplitN2_single s c : ContainsByte s c = false → SplitN2 s c = [s].
Proof.
  intros Hs. unfold SplitN2. destruct (Cut s c) as [b [a|]] eqn:E.
  - apply Cut_Some in E as [-> _]. rewrite ContainsByte_app in Hs. apply orb_false_iff in Hs as [_ Hs].
    cbn in Hs. by rewrite bool_decide_true in Hs.
  - by apply Cut_None in E as [-> _].
Qed.

(** With the GitHub fetcher, a request whose repository has no owner is not refused:
    StartBuild panics while it validates the repository, before anything is stored. *)
Theorem ownerless_repo_panics `{K8sQuantity} `{SecretBox} {Src} (tgz : TarGz Src)
    (net : GitHubNet Src) n rt (gr : Server (fs * Src)) ctx req bd w :
  CFFactory _ gr = Some (λ _, fetcher tgz net n) → rq_Build req = Some bd →
  bd_GithubRepo bd ≠ ""%string → bd_Ref bd ≠ ""%string → ContainsByte (bd_GithubRepo bd) slash = false →
  StartBuild rt gr ctx req w = (Panic "index out of range [1] with length 1", w).
Proof.
  intros Hf Hbd Hrepo Href Hslash. unfold StartBuild. rewrite Hbd, Hf. unfold mbind, M_bind. cbn [deref mret M_ret].
  unfold mret, M_ret. rewrite !bool_decide_false by done. unfold on_err at 1. cbn [GetCommitSHA fetcher].
  unfold GetCommitSHA_, owner_and_name, mbind, M_bind. by rewrite SplitN2_single.
Qed.

(** ** Witnesses *)

Definition sample_archive : list tar_file :=
  [entry TypeXGlobalHeader "pax_global_header" "" ""; entry TypeDir "acme-1f/" "" "";
   entry TypeReg "acme-1f/Dockerfile" "" "FROM scratch"; entry TypeReg "acme-1f/src/empty" "" "";
   entry TypeSymlink "acme-1f/link" "src/empty" ""].

Lemma sample_archive_ok : git_archive ["tmp"; "ctx"] sample_archive.
Proof.
  assert (Forall git_entry sample_archive) as Hall.
  { unfold sample_archive. repeat (apply Forall_cons; split); [..|done];
      (split; [done|by apply (bool_decide_unpack _)|done|done|]);
      first [by left|right; by left|right; right; left; by split|by do 3 right]. }
  assert (Forall (λ f, Forall (λ g, is_dir_entry f = false →
    place ["tmp"; "ctx"] f `prefix_of` place ["tmp"; "ctx"] g →
    place ["tmp"; "ctx"] f = place ["tmp"; "ctx"] g) sample_archive) sample_archive) as Hleaf.
  { apply (bool_decide_unpack _). vm_compute. exact I. }
  split.
  - by apply Forall_forall.
  - apply (bool_decide_unpack _). vm_compute. exact I.
  - intros f g Hf Hg. rewrite !Forall_forall in Hleaf. specialize (Hleaf f Hf).
    rewrite Forall_forall in Hleaf. by apply Hleaf.
Qed.

Lemma machine_dirs x : x `prefix_of` ["tmp"; "ctx"] → ∃ m, node_at (tree machine) x = Some (NDir m).
Proof.
  intros Hx. destruct x as [|a [|b [|c x]]]; [by eexists|..].
  - apply prefix_cons_inv_1 in Hx as ->. by eexists.
  - pose proof Hx as Hx1. apply prefix_cons_inv_1 in Hx1 as ->.
    apply prefix_cons_inv_2, prefix_cons_inv_1 in Hx as ->. by eexists.
  - apply prefix_length in Hx. cbn in Hx. lia.
Qed.

Lemma machine_nodes p n : tree machine !! p = Some n →
  is_dir n = true ∧ (p = ["etc"] ∨ p = ["tmp"] ∨ p = ["tmp"; "ctx"])%string.
Proof.
  unfold machine. cbn [tree]. rewrite !lookup_insert_Some, lookup_singleton_Some. naive_solver.
Qed.

Lemma machine_ready : ready ["tmp"; "ctx"] machine.
Proof.
  split.
  - done.
  - intros p c n [_ Hp]%machine_nodes. apply machine_dirs.
    destruct Hp as [Hp|[Hp|Hp]].
    + apply (app_inj_tail p []) in Hp as [-> _]. apply prefix_nil.
    + apply (app_inj_tail p []) in Hp as [-> _]. apply prefix_nil.
    + apply (app_inj_tail p ["tmp"%string]) in Hp as [-> _]. by eexists ["ctx"%string].
  - apply machine_dirs.
  - intros p Hb Hne. apply eq_None_not_Some. intros [n [_ Hp]%machine_nodes].
    apply prefix_length in Hb. destruct Hp as [->|[->|Hp]]; cbn in Hb; (lia || done).
  - by intros p i [? _]%machine_nodes.
Qed.

Lemma machine_tidy : tidy ["tmp"; "ctx"] machine.
Proof.
  split; [apply machine_dirs|..].
  - by intros p tgt _ [? _]%machine_nodes.
  - by intros p q i _ _ [? _]%machine_nodes.
  - by intros p i [? _]%machine_nodes.
Qed.

Lemma tmp_ctx_abs : abs_name ["tmp"; "ctx"].
Proof. split; [done|]. by repeat constructor. Qed.

Lemma extractArchive_is_fold_witness :
  fs_part (extractArchive list_tgz 6 "/tmp/ctx" (machine, sample_archive)) =
  extract_spec "/tmp/ctx" sample_archive ErrEOF machine.
Proof.
  apply (extractArchive_is_fold list_tgz 6 "/tmp/ctx" machine sample_archive sample_archive);
    [reflexivity|apply list_tgz_reads|cbn; lia].
Defined.

Lemma extractArchive_makes_tree_witness :
  content (extractArchive list_tgz 6 "/tmp/ctx" (machine, sample_archive)).2.1
    ["tmp"; "ctx"; "acme-1f"; "Dockerfile"] = Some "FROM scratch"%string ∧
  wp (extractArchive list_tgz 6 "/tmp/ctx")
     (λ r w, r = Ok () ∧ extracted ["tmp"; "ctx"] sample_archive machine w.1) (machine, sample_archive).
Proof.
  split; [vm_compute; reflexivity|].
  apply (extractArchive_makes_tree list_tgz 6 ["tmp"; "ctx"] machine sample_archive sample_archive sample_archive);
    [apply tmp_ctx_abs|apply machine_ready|reflexivity|apply list_tgz_reads|cbn; lia|apply sample_archive_ok].
Defined.

(** An archive with a file and a hard link to it, which breaks off. *)
Definition linked_archive : list tar_file :=
  [entry TypeReg "a/./f" "" "x"; entry TypeLink "a/g" "a/f" ""; entry 7 "h" "" ""].

Lemma extract_contained_witness :
  (extractArchive list_tgz 4 "/tmp/ctx" (machine, linked_archive)).1 =
    Err (stream_error (ErrText ("h: unknown type flag: " +:+ String (ascii_of_nat 7) ""))) ∧
  wp (extractArchive list_tgz 4 "/tmp/ctx") (λ _ w, outside_same ["tmp"; "ctx"] machine w.1)
     (machine, linked_archive).
Proof.
  split; [vm_compute; reflexivity|].
  apply (extract_contained list_tgz 4 ["tmp"; "ctx"] machine linked_archive linked_archive linked_archive ErrEOF);
    [apply tmp_ctx_abs|apply machine_tidy|reflexivity|apply list_tgz_reads|cbn; lia|].
  unfold linked_archive. repeat (apply Forall_cons; split); [..|done];
    (split_and!; [by apply (bool_decide_unpack _)|done|by intros; apply (bool_decide_unpack _)]).
Defined.

#[local] Existing Instance milli_quantity.

(** A server with the GitHub fetcher, no data layer, and a network that is down. *)
Definition down_net : GitHubNet (list tar_file) := {|
  GetCommitSHA1 _ _ _ l := (Err (ErrNetOp true true), l);
  GetArchiveLink _ _ _ l := (Err (ErrNetOp true true), l);
  gh_NewRequest _ := Ok ();
  gh_Do _ l := (Err (ErrNetOp true true), l);
|}.

Definition github_server : Server (fs * list tar_file) := {|
  DL := None; BM := None;
  CFFactory := Some (λ _, fetcher list_tgz down_net 10);
  Opts := {| APM := false; CredentialDecryptionKey := []; Cache := BuildCacheOpts_zero;
             LogFunc := None; JobHandoffTimeout := 0;
             MaxResources := {| MaxCPUReq := milli 0; MaxMemReq := milli 0; MaxCPULim := milli 0;
                                MaxMemLim := milli 0 |} |};
  methods := None;
|}.

Definition ownerless_request : BuildRequest := {|
  rq_Build := Some {| bd_GithubRepo := "widget"; bd_GithubCredential := "token";
                      bd_DockerfilePath := ""; bd_Ref := "master"; bd_Tags := [];
                      bd_TagWithCommitSha := true; bd_Args := ∅; bd_CacheOptions := None;
                      bd_Resources := None |};
  rq_Push := None; rq_SkipIfExists := false;
|}.

Lemma ownerless_repo_panics_witness :
  StartBuild {| rand_Read n w := (([], None), w); rt_Now w := (GoTime.time_zero, w);
                ctx_Done _ w := (false, w) |}
    github_server CtxCaller ownerless_request (machine, []) =
  (Panic "index out of range [1] with length 1", (machine, [])).
Proof.
  eapply (ownerless_repo_panics list_tgz down_net 10); [reflexivity..|discriminate|discriminate|reflexivity].
Defined.
