(* ===== verification/Lifecycle.v ===== *)
(** * The life of a build across its processes

    The row of a build is written by three kinds of process, which share nothing
    but the database: the goroutine StartBuild leaves in the server
    ([Grpc.start_job]), the pods of the build's job ([Builder.Run]), and the
    clients that cancel it ([Grpc.CancelBuild]).  Each of them reads the status and
    writes it in separate calls of the data layer.

    A process is an automaton over its calls ([server_next], [pod_next],
    [client_next]); [effect] is what a call does to the row, whether or not its caller
    learns of it; the step relations interleave the calls of the three.  Module
    LifecycleFacts shows that the processes make no other calls. *)

From S2P Require Import Prelude Uuid Models Datalayer.
From Stdlib Require Export Relations.

#[local] Open Scope Z_scope.

(** ** Calls and the row *)

(** The status a call writes, and whether it returned without an error. *)
Definition written (c : dlcall) : option Z :=
  match c with
  | LSetStatus _ s _ | LSetCompleted _ _ s _ => Some s
  | LSetRunning _ _ _ => Some BuildStatusRunning
  | LCancel _ _ => Some BuildStatusCancelRequested
  | LCreate _ _ | LAddEvent _ _ _ _ | LDelete _ _ => None
  end.

Definition confirmed (c : dlcall) : bool :=
  match c with
  | LSetStatus _ _ ok | LSetCompleted _ _ _ ok | LSetRunning _ _ ok | LCancel _ ok
  | LAddEvent _ _ _ ok | LDelete _ ok => ok
  | LCreate _ r => isOk r
  end.

(** A write that fails may have happened all the same: the connection broke after the
    commit. *)
Definition effect (c : dlcall) (s s' : Z) : Prop :=
  match written c with
  | Some x => s' = x ∨ (confirmed c = false ∧ s' = s)
  | None => s' = s
  end.

(** A write its caller does not know to have happened. *)
Definition unsure (c : dlcall) : bool :=
  match written c with Some _ => negb (confirmed c) | None => false end.

(** ** The processes *)

(** The goroutine in the server: in [BM.Start]; Start failed, about to set the build as
    failed; gone. *)
Inductive server := SvStarting | SvFailing | SvGone.

Inductive server_next (id : uuid) : server → dlcall → server → Prop :=
  | sn_event v ctx i ev ok : server_next id v (LAddEvent ctx i ev ok) v
  | sn_set_failed ok :
      server_next id SvFailing (LSetCompleted CtxBackground id BuildStatusFailure ok) SvGone.

(** The pod of the job: not there (yet, or again); it read NotStarted and is about to
    set the build as running; at work; over. *)
Inductive pod := PodNone | PodRead | PodWorking | PodOver.

Inductive pod_next (id : uuid) : pod → dlcall → pod → Prop :=
  | pn_event p ctx i ev ok : pod_next id p (LAddEvent ctx i ev ok) p
  | pn_running ctx : pod_next id PodRead (LSetRunning ctx id true) PodWorking
  (* not handed over, as far as the pod knows: it gives up *)
  | pn_not_running ctx : pod_next id PodRead (LSetRunning ctx id false) PodOver
  | pn_ends ctx s : s = BuildStatusSuccess ∨ s = BuildStatusSkipped →
      pod_next id PodWorking (LSetCompleted ctx id s true) PodOver
  (* the error of the completion is an error of the body *)
  | pn_not_ended ctx s : s = BuildStatusSuccess ∨ s = BuildStatusSkipped →
      pod_next id PodWorking (LSetCompleted ctx id s false) PodWorking
  (* the deferred completion *)
  | pn_fails s ok : s = BuildStatusFailure ∨ s = BuildStatusCancelled →
      pod_next id PodWorking (LSetCompleted CtxBackground id s ok) PodOver.

(** A client that cancels: idle, or it saw the build running and is about to write. *)
Inductive client := CxIdle | CxSawRunning.

Inductive client_next (id : uuid) : client → dlcall → client → Prop :=
  | cn_cancel ok : client_next id CxSawRunning (LCancel id ok) CxIdle.

(** The calls [cs] of a process take it from [p] to [p']. *)
Inductive trace {P} (next : P → dlcall → P → Prop) : P → list dlcall → P → Prop :=
  | trace_nil p : trace next p [] p
  | trace_cons p c p1 cs p2 : next p c p1 → trace next p1 cs p2 → trace next p (c :: cs) p2.

(** ** The interleaving *)

Record state := State {
  status : Z;              (* the row of the build *)
  sv : server;
  pd : pod;
  pods_left : nat;         (* the pods Kubernetes may still start: BackoffLimit *)
  cx : client;
  cancelled : bool;        (* ghost: a cancellation was requested *)
  crashed : bool;          (* ghost: a pod died at work *)
  spurious : bool;         (* ghost: the handoff was reported without having happened *)
  unconfirmed : bool;      (* ghost: a write failed, or seemed to *)
}.

(** CreateBuild has committed; a job runs one pod and up to three more. *)
Definition init : state :=
  State BuildStatusNotStarted SvStarting PodNone 4 CxIdle false false false false.

Section steps.
Variable id : uuid.

(** [start_job]: Start returned an error, or the handoff was reported. *)
Inductive server_step : state → state → Prop :=
  | sv_start_fails s p n c x k g u :
      server_step (State s SvStarting p n c x k g u) (State s SvFailing p n c x k g u)
  | sv_handed_over s p n c x k g u :
      s ≠ BuildStatusNotStarted →
      server_step (State s SvStarting p n c x k g u) (State s SvGone p n c x k g u)
  (* listening for the handoff failed and the watcher of the job chose the wrong channel, or a
     reused connection brought it the notification of something else (JobWatch) *)
  | sv_spurious s p n c x k g u :
      server_step (State s SvStarting p n c x k g u) (State s SvGone p n c x k true u)
  | sv_call s s' v v' p n c x k g u a :
      server_next id v a v' → effect a s s' →
      server_step (State s v p n c x k g u) (State s' v' p n c x k g (u || unsure a)).

(** [Manager.Run], and Kubernetes starting pods. *)
Inductive pod_step : state → state → Prop :=
  (* a pod starts and reads NotStarted; or it reads anything else, or nothing, and gives up *)
  | pod_reads v n c x k g u :
      pod_step (State BuildStatusNotStarted v PodNone (S n) c x k g u)
        (State BuildStatusNotStarted v PodRead n c x k g u)
  | pod_gives_up s v n c x k g u :
      pod_step (State s v PodNone (S n) c x k g u) (State s v PodOver n c x k g u)
  (* Cancelled is only written after the cancellation that set the flag (Builder.Cancellation) *)
  | pod_call s s' v p p' n c x k g u a :
      pod_next id p a p' → effect a s s' →
      (written a = Some BuildStatusCancelled → x = true) →
      pod_step (State s v p n c x k g u) (State s' v p' n c x k g (u || unsure a))
  (* the pod is killed: nothing runs the deferred functions *)
  | pod_lost s v n c x k g u :
      pod_step (State s v PodRead n c x k g u) (State s v PodOver n c x k g u)
  | pod_killed s v n c x k g u :
      pod_step (State s v PodWorking n c x k g u) (State s v PodOver n c x true g u)
  (* Kubernetes replaces a pod that failed *)
  | pod_again s v n c x k g u :
      pod_step (State s v PodOver (S n) c x k g u) (State s v PodNone (S n) c x k g u).

(** CancelBuild: the checks (in the handler and in the data layer), then the update. *)
Inductive client_step : state → state → Prop :=
  | cx_reads v p n x k g u :
      client_step (State BuildStatusRunning v p n CxIdle x k g u)
        (State BuildStatusRunning v p n CxSawRunning x k g u)
  | cx_call s s' v p n c c' x k g u a :
      client_next id c a c' → effect a s s' →
      client_step (State s v p n c x k g u) (State s' v p n c' true k g (u || unsure a)).

Definition step (st st' : state) : Prop :=
  server_step st st' ∨ pod_step st st' ∨ client_step st st'.

Definition reachable : state → Prop := rtc step init.
End steps.

(** No process is left that would write the row. *)
Definition quiescent (st : state) : Prop :=
  sv st = SvGone ∧ (pd st = PodOver ∨ pd st = PodNone) ∧ pods_left st = 0%nat ∧ cx st = CxIdle.
