(* ===== verification/LifecycleFacts.v ===== *)
(** * The life of a build: its theorems

    The processes of a build make the calls the automata of Lifecycle allow; what the row
    of a build says once every process is gone; what becomes of a build whose pod is
    killed; and the writes that may undo a final status. *)

From S2P Require Import Prelude Uuid Models Datalayer Lifecycle.

#[local] Open Scope Z_scope.

(** The final statuses, as a pod writes them. *)
Definition final (s : Z) : Prop :=
  s = BuildStatusSuccess ∨ s = BuildStatusSkipped ∨ s = BuildStatusFailure ∨ s = BuildStatusCancelled.

Lemma final_not s : final s →
  s ≠ BuildStatusNotStarted ∧ s ≠ BuildStatusRunning ∧ s ≠ BuildStatusCancelRequested.
Proof. by intros [->|[->|[->| ->]]]. Qed.

(** What the row says, by who is at work: NotStarted until a pod or the server writes it
    (so a server that is gone has seen it written, unless the handoff was spurious or the
    write was lost); Running only while a pod is at work on it, or was killed, or a write
    was lost; CancelRequested only after a cancellation. *)
Record life_inv (st : state) : Prop := {
  li_known : status st = BuildStatusNotStarted ∨ status st = BuildStatusRunning ∨
             status st = BuildStatusCancelRequested ∨ final (status st);
  li_fresh : status st = BuildStatusNotStarted → pd st ≠ PodWorking;
  li_server : status st = BuildStatusNotStarted → sv st = SvGone →
              spurious st = true ∨ unconfirmed st = true;
  li_running : status st = BuildStatusRunning →
               pd st = PodWorking ∨ crashed st = true ∨ unconfirmed st = true;
  li_cancel : status st = BuildStatusCancelRequested → cancelled st = true;
}.

Lemma life_inv_init : life_inv init.
Proof. constructor; simpl; try done; auto. Qed.

(** A write of a final status keeps the invariant, whoever is at work. *)
Lemma life_inv_final st : final (status st) → life_inv st.
Proof. intros Hf. destruct (final_not _ Hf) as (H1 & H2 & H3). constructor; try done; auto. Qed.

(** The effect of a call: the status it writes, or nothing although it wanted to. *)
Lemma effect_cases a s s' : effect a s s' →
  (written a = Some s') ∨ (s' = s ∧ (written a = None ∨ unsure a = true)).
Proof.
  unfold effect, unsure. destruct (written a) as [x|]; [|by auto].
  intros [->|[-> ->]]; [by left|]. right. auto.
Qed.

Section steps.
Variable id : uuid.

Lemma life_inv_server st st' : life_inv st → server_step id st st' → life_inv st'.
Proof.
  intros [Hk Hf Hs Hr Hc] Hstep. destruct Hstep as [| | |s s' v v' p n c x k g u a Hn He]; simpl in *;
    [constructor; simpl; naive_solver..|].
  destruct Hn as [v ctx i ev ok|ok].
  - cbn in *. subst. rewrite orb_false_r. by constructor.
  - destruct He as [->|[Hok ->]]; [apply life_inv_final; by right; right; left|].
    cbn in Hok. subst ok. cbn. rewrite orb_true_r. constructor; simpl; naive_solver.
Qed.

Lemma life_inv_pod st st' : life_inv st → pod_step id st st' → life_inv st'.
Proof.
  intros [Hk Hf Hs Hr Hc] Hstep.
  destruct Hstep as [| |s s' v p p' n c x k g u a Hn He Hx| | |]; simpl in *;
    [constructor; simpl; naive_solver..| | | |]; [|constructor; simpl; naive_solver..].
  destruct Hn as [p ctx i ev ok|ctx|ctx|ctx z Hz|ctx z Hz|z ok Hz]; cbn in *.
  - subst. rewrite orb_false_r. by constructor.
  - destruct He as [->|[? _]]; [|done]. constructor; simpl; try done; auto.
  - rewrite orb_true_r. destruct He as [->|[_ ->]]; constructor; simpl; try done; auto; naive_solver.
  - destruct He as [->|[? _]]; [|done]. apply life_inv_final. unfold final. simpl. tauto.
  - rewrite orb_true_r. destruct He as [->|[_ ->]]; [apply life_inv_final; unfold final; simpl; tauto|].
    constructor; simpl; naive_solver.
  - destruct He as [->|[-> ->]]; [apply life_inv_final; unfold final; simpl; tauto|].
    cbn. rewrite orb_true_r. constructor; simpl; naive_solver.
Qed.

Lemma life_inv_client st st' : life_inv st → client_step id st st' → life_inv st'.
Proof.
  intros [Hk Hf Hs Hr Hc] Hstep. destruct Hstep as [|s s' v p n c c' x k g u a Hn He]; simpl in *.
  - constructor; simpl; naive_solver.
  - destruct Hn as [ok]. destruct He as [->|[Hok ->]]; cbn in *.
    + constructor; simpl; try done; auto.
    + subst ok. rewrite orb_true_r. constructor; simpl; naive_solver.
Qed.

Lemma life_inv_reachable st : reachable id st → life_inv st.
Proof.
  unfold reachable. intros Hr. pose proof life_inv_init as H0. revert H0.
  induction Hr as [|x y z Hs _ IH]; intros Hx; [done|]. apply IH.
  destruct Hs as [Hs|[Hs|Hs]]; eauto using life_inv_server, life_inv_pod, life_inv_client.
Qed.

(** ** Executions *)

Lemma by_server st st' : server_step id st st' → step id st st'.
Proof. by left. Qed.
Lemma by_pod st st' : pod_step id st st' → step id st st'.
Proof. by right; left. Qed.
Lemma by_client st st' : client_step id st st' → step id st st'.
Proof. by right; right. Qed.
End steps.

Ltac quiet := unfold quiescent; simpl; split_and!; auto.

(** Run the rule [r] of one of the processes; a call [r] that writes, or is lost. *)
Tactic Notation "run_server" uconstr(r) := eapply rtc_l; [apply by_server; eapply r|].
Tactic Notation "run_pod" uconstr(r) := eapply rtc_l; [apply by_pod; eapply r|].
Tactic Notation "run_client" uconstr(r) := eapply rtc_l; [apply by_client; eapply r|].
Tactic Notation "pod_writes" uconstr(r) :=
  eapply rtc_l; [apply by_pod; eapply pod_call; [eapply r; auto|by left|done]|]; cbn [orb unsure written confirmed negb].
Tactic Notation "pod_loses" uconstr(r) :=
  eapply rtc_l; [apply by_pod; eapply pod_call; [eapply r; auto|by right|done]|]; cbn [orb unsure written confirmed negb].

Section executions.
Variable id : uuid.
Abbreviation step := (step id).
Abbreviation reachable := (reachable id).

(** The remaining pods start, see a status that is not NotStarted, and give up. *)
Lemma drain_pods s v n c x k g u :
  rtc step (State s v PodOver n c x k g u) (State s v PodOver 0 c x k g u).
Proof. induction n as [|n IH]; [done|]. run_pod pod_again. by run_pod pod_gives_up. Qed.

(** The build is at work in its first pod, and the server has handed it over. *)
Definition at_work : state := State BuildStatusRunning SvGone PodWorking 3 CxIdle false false false false.

Lemma at_work_reachable : reachable at_work.
Proof.
  unfold Lifecycle.reachable, init. run_pod pod_reads. pod_writes (pn_running id CtxCaller).
  run_server sv_handed_over; [done|]. apply rtc_refl.
Qed.

Lemma reach_by st st' : reachable st → rtc step st st' → reachable st'.
Proof. unfold Lifecycle.reachable. intros. by etrans. Qed.

(** C4: Once every process of a build is gone, its row is final - unless a pod was killed
    or a write was lost and left it Running, a cancellation was written too late and left
    it CancelRequested, or a spurious handoff or a lost write left it NotStarted.  Each of
    these happens, the first three although no write failed. *)
Theorem quiescent_outcome :
  (∀ st, reachable st → quiescent st →
     final (status st) ∨
     (status st = BuildStatusRunning ∧ (crashed st = true ∨ unconfirmed st = true)) ∨
     (status st = BuildStatusCancelRequested ∧ cancelled st = true) ∨
     (status st = BuildStatusNotStarted ∧ (spurious st = true ∨ unconfirmed st = true))) ∧
  (∃ st, reachable st ∧ quiescent st ∧ status st = BuildStatusRunning ∧ unconfirmed st = false) ∧
  (∃ st, reachable st ∧ quiescent st ∧ status st = BuildStatusCancelRequested ∧
     crashed st = false ∧ unconfirmed st = false) ∧
  (∃ st, reachable st ∧ quiescent st ∧ status st = BuildStatusNotStarted ∧ unconfirmed st = false) ∧
  (∃ st, reachable st ∧ quiescent st ∧ status st = BuildStatusRunning ∧ crashed st = false).
Proof.
  split_and!.
  - intros st Hr (Hsv & Hpd & _ & _). destruct (life_inv_reachable _ _ Hr) as [Hk _ Hs Hrun Hc].
    destruct Hk as [Hk|[Hk|[Hk|Hk]]]; [|right; left|right; right; left|by left].
    + right; right; right. split; [done|]. by apply Hs.
    + split; [done|]. destruct (Hrun Hk) as [H|H]; [|done]. destruct Hpd; congruence.
    + split; [done|]. by apply Hc.
  - exists (State BuildStatusRunning SvGone PodOver 0 CxIdle false true false false).
    split; [|by quiet].
    apply (reach_by at_work); [apply at_work_reachable|]. run_pod pod_killed. apply drain_pods.
  - exists (State BuildStatusCancelRequested SvGone PodOver 0 CxIdle true false false false).
    split; [|by quiet]. apply (reach_by at_work); [apply at_work_reachable|].
    run_client cx_reads. pod_writes (pn_ends id CtxCaller BuildStatusSuccess).
    run_client cx_call; [apply (cn_cancel id true)|by left|]. apply drain_pods.
  - exists (State BuildStatusNotStarted SvGone PodOver 0 CxIdle false false true false).
    split; [|by quiet]. unfold Lifecycle.reachable, init.
    run_server sv_spurious. run_pod pod_gives_up. apply drain_pods.
  - exists (State BuildStatusRunning SvGone PodOver 0 CxIdle false false false true).
    split; [|by quiet]. apply (reach_by at_work); [apply at_work_reachable|].
    pod_loses (pn_fails id BuildStatusFailure false). apply drain_pods.
Qed.

(** The server is gone, no client is mid-cancel, and no pod is at work. *)
Definition settled (st : state) : Prop :=
  sv st = SvGone ∧ cx st = CxIdle ∧ (pd st = PodOver ∨ pd st = PodNone).

(** The server is gone, and no pod is at work: only a cancellation writes the row, and
    only while it says Running. *)
Definition abandoned (st : state) : Prop := sv st = SvGone ∧ (pd st = PodOver ∨ pd st = PodNone).

Lemma abandoned_step st st' : abandoned st → status st ≠ BuildStatusNotStarted → step st st' →
  abandoned st' ∧
  (status st' = status st ∧ (cx st' = cx st ∨ status st = BuildStatusRunning ∨ cx st' = CxIdle) ∨
   (cx st = CxSawRunning ∧ status st' = BuildStatusCancelRequested)).
Proof.
  intros (Hs & Hp) Hn [Hstep|[Hstep|Hstep]].
  - destruct Hstep as [| | |s s' v v' p n c x k g u a Ha He]; simpl in *; try done.
    destruct Ha; cbn in *; subst; [|done]. split; [by split|]. auto.
  - destruct Hstep as [| |s s' v p p' n c x k g u a Ha He _| | |]; simpl in *; try (by destruct Hp).
    + split; [split; simpl; auto|]. auto.
    + destruct Ha; cbn in *; try (by destruct Hp). subst. split; [by split|]. auto.
    + split; [split; simpl; auto|]. auto.
  - destruct Hstep as [|s s' v p n c c' x k g u a Ha He]; simpl in *.
    + split; [by split|]. auto.
    + destruct Ha. destruct He as [->|[_ ->]]; (split; [by split|]); auto.
Qed.

Lemma settled_step st st' : settled st → final (status st) → step st st' →
  settled st' ∧ status st' = status st.
Proof.
  intros (Hs & Hc & Hp) Hf Hstep. destruct (final_not _ Hf) as (H1 & H2 & _).
  destruct (abandoned_step st st' (conj Hs Hp) H1 Hstep) as [[Hs' Hp'] [[Hst Hcx]|[Hcx _]]]; [|congruence].
  split; [|done]. split_and!; [done| |done]. destruct Hcx as [?|[?|?]]; congruence.
Qed.

(** C18: A final status stays once the server is gone, no cancellation is under way and no
    pod is at work; before that it may be undone, without any write being lost: a build the
    server gave up on (and recorded as failed) may start running after all and succeed, and
    a build that succeeded may become CancelRequested.  The status is read and written in
    separate statements, without a guard in the update. *)
Theorem final_status_stable :
  (∀ st st', settled st → final (status st) → rtc step st st' → status st' = status st) ∧
  (∃ st1 st2 st3, reachable st1 ∧ status st1 = BuildStatusFailure ∧ rtc step st1 st2 ∧
     status st2 = BuildStatusRunning ∧ rtc step st2 st3 ∧ status st3 = BuildStatusSuccess ∧
     cancelled st3 = false ∧ crashed st3 = false ∧ unconfirmed st3 = false) ∧
  (∃ st1 st2, reachable st1 ∧ status st1 = BuildStatusSuccess ∧ rtc step st1 st2 ∧
     status st2 = BuildStatusCancelRequested ∧ unconfirmed st2 = false).
Proof.
  split; [|split].
  - intros st st' Hs Hf Hr. induction Hr as [|x y z Hxy _ IH]; [done|].
    destruct (settled_step _ _ Hs Hf Hxy) as [Hs' Heq]. rewrite <-Heq. apply IH; [done|].
    by rewrite Heq.
  - exists (State BuildStatusFailure SvGone PodRead 3 CxIdle false false false false),
      (State BuildStatusRunning SvGone PodWorking 3 CxIdle false false false false),
      (State BuildStatusSuccess SvGone PodOver 3 CxIdle false false false false).
    split_and!; try done.
    + unfold Lifecycle.reachable, init. run_pod pod_reads. run_server sv_start_fails.
      run_server sv_call; [apply (sn_set_failed id true)|by left|]. apply rtc_refl.
    + pod_writes (pn_running id CtxCaller). apply rtc_refl.
    + pod_writes (pn_ends id CtxCaller BuildStatusSuccess). apply rtc_refl.
  - exists (State BuildStatusSuccess SvGone PodOver 3 CxSawRunning false false false false),
      (State BuildStatusCancelRequested SvGone PodOver 3 CxIdle true false false false).
    split_and!; try done.
    + apply (reach_by at_work); [apply at_work_reachable|]. run_client cx_reads.
      pod_writes (pn_ends id CtxCaller BuildStatusSuccess). apply rtc_refl.
    + run_client cx_call; [apply (cn_cancel id true)|by left|]. apply rtc_refl.
Qed.

Lemma cancelled_steps st st' : rtc step st st' → cancelled st = true → cancelled st' = true.
Proof. induction 1 as [|x y z [H|[H|H]] _ IH]; intros Hc; [done|..]; apply IH; by destruct H. Qed.

(** A status that changes once the build is abandoned was changed by a cancellation. *)
Lemma abandoned_cancelled st st' : abandoned st → status st ≠ BuildStatusNotStarted → step st st' →
  status st' = status st ∨ status st' = BuildStatusCancelRequested ∧ cancelled st' = true.
Proof.
  intros Ha Hn Hstep. pose proof (abandoned_step _ _ Ha Hn Hstep) as [_ [[Heq _]|[_ Heq]]]; [by left|].
  destruct Hstep as [H|[H|H]].
  - destruct Ha as [Hs _]. destruct H as [| | |s s' v v' p n c x k g u a Hc He]; simpl in *; try done; [by left..|].
    destruct Hc; [by left|done].
  - destruct Ha as [_ Hp]. destruct H as [| |s s' v p p' n c x k g u a Hc He _| | |]; simpl in *; try by left.
    destruct Hc; try (by destruct Hp). by left.
  - destruct H; [by left|by right].
Qed.

(** C22: A build whose pod is killed at work after the server's goroutine is gone never ends:
    whatever pods Kubernetes starts, it stays Running, and if it is cancelled, it becomes
    CancelRequested and stays that.  A goroutine that is still waiting for the handoff may
    yet complete it as failed. *)
Theorem killed_build_never_ends :
  (∀ st st', sv st = SvGone → (pd st = PodOver ∨ pd st = PodNone) →
     status st = BuildStatusRunning ∨ status st = BuildStatusCancelRequested →
     rtc step st st' →
     TerminalState (status st') = false ∧
     (status st' = status st ∨ status st' = BuildStatusCancelRequested ∧ cancelled st' = true)) ∧
  (∃ st st', reachable st ∧ sv st = SvStarting ∧ pd st = PodOver ∧ crashed st = true ∧
     status st = BuildStatusRunning ∧ rtc step st st' ∧ status st' = BuildStatusFailure).
Proof.
  split.
  - intros st st' Hs Hp Hst Hr.
    assert (status st' = status st ∨ status st' = BuildStatusCancelRequested ∧ cancelled st' = true) as Hend.
    { pose proof (conj Hs Hp : abandoned st) as Ha. clear Hs Hp.
      induction Hr as [|x y z Hxy Hyz IH]; [by left|].
      assert (status x ≠ BuildStatusNotStarted) as Hn by (by destruct Hst as [-> | ->]).
      destruct (abandoned_step x y Ha Hn Hxy) as [Hy _].
      pose proof (abandoned_cancelled x y Ha Hn Hxy) as Hxy'.
      assert (status y = BuildStatusRunning ∨ status y = BuildStatusCancelRequested) as Hst'
        by (destruct Hxy' as [->|[-> _]]; auto).
      destruct (IH Hst' Hy) as [Heq|Hc]; [|by right]. rewrite Heq. destruct Hxy' as [->|[-> Hc]]; [by left|right].
      split; [done|]. by apply (cancelled_steps y z). }
    split; [|done]. destruct Hend as [->|[-> _]]; [|done]. by destruct Hst as [-> | ->].
  - exists (State BuildStatusRunning SvStarting PodOver 3 CxIdle false true false false),
      (State BuildStatusFailure SvGone PodOver 3 CxIdle false true false false).
    split_and!; try done.
    + unfold Lifecycle.reachable, init. run_pod pod_reads. pod_writes (pn_running id CtxCaller).
      run_pod pod_killed. apply rtc_refl.
    + run_server sv_start_fails. run_server sv_call; [apply (sn_set_failed id true)|by left|]. apply rtc_refl.
Qed.

End executions.

Lemma killed_build_never_ends_witness :
  reachable uuid_Nil (State BuildStatusRunning SvGone PodOver 3 CxIdle false true false false) ∧
  TerminalState BuildStatusRunning = false.
Proof.
  split.
  - apply (reach_by _ at_work); [apply at_work_reachable|]. run_pod pod_killed. apply rtc_refl.
  - apply (proj1 (killed_build_never_ends uuid_Nil) (State BuildStatusRunning SvGone PodOver 3 CxIdle false true false false)
      (State BuildStatusRunning SvGone PodOver 0 CxIdle false true false false));
      [reflexivity|by left|by left|]. apply drain_pods.
Defined.
