(* ===== verification/LifecycleRefines.v ===== *)
(** * The processes of a build implement their automata

    The definitions of Grpc and Builder, run on a logged data layer, make the calls that
    the automata of Lifecycle allow, and a call of a data layer that meets its contract
    has the effect Lifecycle gives it. *)

From S2P Require Import Prelude GoStrings Uuid Models Datalayer FakeDL K8s Grpc GrpcFacts.
From S2P Require Import Builder BuilderFacts Lifecycle.

#[local] Open Scope Z_scope.

(** ** Traces *)

Section traces.
Context {P : Type} (next : P → dlcall → P → Prop).

Lemma trace_app p cs p1 cs' p2 : trace next p cs p1 → trace next p1 cs' p2 → trace next p (cs ++ cs') p2.
Proof. intros H H'. induction H as [|? ? ? ? ? Hn _ IH]; [done|]. econstructor; eauto. Qed.

Lemma trace_one p c p' : next p c p' → trace next p [c] p'.
Proof. intros H. econstructor; [exact H|constructor]. Qed.

(** Calls that leave a process where it is. *)
Lemma trace_stays p cs : Forall (λ c, next p c p) cs → trace next p cs p.
Proof. intros H. induction H; econstructor; eauto. Qed.
End traces.

Lemma server_events id v evs : Forall is_event evs → trace (server_next id) v evs v.
Proof.
  intros H. apply trace_stays. eapply Forall_impl; [exact H|]. intros [] Hc; try done. constructor.
Qed.

Lemma pod_events id p evs : Forall is_event evs → trace (pod_next id) p evs p.
Proof.
  intros H. apply trace_stays. eapply Forall_impl; [exact H|]. intros [] Hc; try done. constructor.
Qed.

(** ** The calls of the processes *)

(** What the process did after [l]: the calls take its automaton from [p] to one of [ps]. *)
Definition did {P W} (next : P → dlcall → P → Prop) (l : list dlcall) (p : P) (ps : P → Prop)
    (w : W * list dlcall) : Prop := ∃ calls p', w.2 = l ++ calls ∧ trace next p calls p' ∧ ps p'.

Lemma did_nothing {P W} (next : P → dlcall → P → Prop) l p (ps : P → Prop) (w : W) :
  ps p → did next l p ps (w, l).
Proof. intros Hp. exists [], p. rewrite app_nil_r. split_and!; [done|constructor|done]. Qed.

(** The pod, after it read the status: over, or it read NotStarted and wrote nothing. *)
Definition pod_ended (p : pod) : Prop := p = PodOver ∨ p = PodRead.

Lemma run_log_trace {W} (os : OS (W * list dlcall)) out id l r (w : W * list dlcall) :
  (∀ p, r ≠ Panic p) → run_log os out id l r w → did (pod_next id) l PodRead pod_ended w.
Proof.
  intros Hp Hr. destruct r as [[]|e|p]; [| |by destruct (Hp p)].
  - destruct Hr as (ctx2 & pre & s & post & Hs & _ & Hpre & Hpost & Hl).
    do 2 eexists. split; [exact Hl|]. split; [|by left].
    econstructor; [apply pn_running|]. eapply trace_app; [by apply pod_events|].
    econstructor; [by apply pn_ends|]. by apply pod_events.
  - destruct Hr as [(lead & evs & Hlead & Hevs & Hl)|(ctx2 & pre & v & cxl & ok1 & ok2 & post & _ & Hpre & Hpost & Hl)].
    + destruct Hlead as [->|[ctx ->]]; (do 2 eexists; split; [exact Hl|]).
      * split; [by apply pod_events|by right].
      * split; [|by left]. econstructor; [apply pn_not_running|]. by apply pod_events.
    + do 2 eexists. split; [exact Hl|]. split; [|by left].
      econstructor; [apply pn_running|]. eapply trace_app.
      { apply trace_stays. eapply Forall_impl; [exact Hpre|]. intros c [Hc|(s' & Hs' & ->)].
        - destruct c; try done. constructor.
        - by constructor. }
      econstructor; [apply pn_event|]. econstructor; [apply pn_fails; destruct cxl; auto|]. by apply pod_events.
Qed.

Section processes.
Context `{K8sQuantity} {W : Type} `{SecretBox} (dl : DataLayer W) {obs : W → gmap uuid Build} `{!DataLayerSpec dl obs}.
Context (rt : Runtime (W * list dlcall)) (os : OS (W * list dlcall)).

(** The status of the row of [id]. *)
Definition row (w : W) (id : uuid) : option Z := b_Status <$> obs w !! id.

(** Where the pod is once it has read the row. *)
Definition pod_start (w : W) (id : uuid) : pod :=
  if decide (row w id = Some BuildStatusNotStarted) then PodRead else PodOver.

Lemma Run_calls m ctx id w l :
  framed_manager os dl m → map_Forall (λ id b, b_ID b = id) (obs w) →
  wp (Run os m ctx id) (λ r w', (∀ p, r ≠ Panic p) → did (pod_next id) l (pod_start w id) pod_ended w') (w, l).
Proof.
  intros Hm Hids. unfold pod_start. destruct (decide _) as [Hst|Hst].
  - eapply wp_mono; [|by apply (wp_Run os dl m (obs := obs))]. intros r w' Hr Hp. by eapply run_log_trace.
  - eapply wp_mono; [|apply (Run_only_not_started os dl m (obs := obs)); [done|]].
    + intros r w' Hr Hp. destruct r as [[]|e|p]; [done| |by destruct (Hp p)].
      destruct Hr as (evs & Hl & Hevs). do 2 eexists. split; [exact Hl|]. split; [by apply pod_events|by left].
    + intros b Hb Hs. apply Hst. unfold row. by rewrite Hb, <-Hs.
Qed.

(** The goroutine is where the start of the job left it, and ends gone. *)
Lemma start_job_calls gr bm id opts w l :
  framed rt dl gr → BM _ gr = Some bm →
  wp (start_job rt gr id opts) (λ r w', r = Ok () → ∃ ctx s,
    let v := if isOk (bm_Start bm ctx opts s).1 then SvGone else SvFailing in
    ∃ calls, did (server_next id) l SvStarting (eq SvStarting) (w, l ++ calls) ∧
             did (server_next id) (l ++ calls) v (eq SvGone) w') (w, l).
Proof.
  intros Hgr Hbm. eapply wp_mono; [|by apply (wp_start_job rt dl gr bm id opts w l)]. intros r w' Hr ->.
  destruct Hr as (x & y & ok1 & evs & ok2 & Hr). cbn zeta in Hr. set (before := l ++ _) in Hr.
  destruct Hr as (Hevs & _ & Hl). exists (handoff_ctx gr), (x, before). cbn zeta.
  exists (LAddEvent CtxBackground id "creating build job" ok1 :: evs). split.
  { do 2 eexists. split; [reflexivity|]. split; [|done]. by apply server_events; constructor. }
  assert (l ++ LAddEvent CtxBackground id "creating build job" ok1 :: evs = before ++ evs) as ->
    by (unfold before; by rewrite <-app_assoc).
  destruct (bm_Start bm (handoff_ctx gr) opts (x, before)).1 as [[]|err|p]; [| |done].
  - destruct Hl as [z Hl]. do 2 eexists. split; [exact Hl|]. split; [apply trace_one; constructor|done].
  - destruct Hl as [ok3 Hl]. do 2 eexists. split; [rewrite Hl, <-app_assoc; reflexivity|]. split; [|done].
    econstructor; [constructor|]. apply trace_one. constructor.
Qed.

(** The handler goes on after its check only if the row says Running. *)
Lemma CancelBuild_calls gr ctx s w l :
  framed rt dl gr → map_Forall (λ id b, b_ID b = id) (obs w) →
  wp (CancelBuild gr ctx s) (λ r w', (∀ p, r ≠ Panic p) → w'.2 = l ∨
    ∃ id, FromString s = Ok id ∧ row w id = Some BuildStatusRunning ∧
          did (client_next id) l CxSawRunning (eq CxIdle) w') (w, l).
Proof.
  intros Hgr Hids. eapply wp_mono; [|by apply (CancelBuild_cancels_running rt dl gr (obs := obs))].
  assert (∀ id b ok (w' : W * list dlcall), FromString s = Ok id → obs w !! id = Some b →
    b_Status b = BuildStatusRunning → w'.2 = l ++ [LCancel id ok] →
    ∃ id, FromString s = Ok id ∧ row w id = Some BuildStatusRunning ∧
          did (client_next id) l CxSawRunning (eq CxIdle) w') as Hdid.
  { intros id b ok w' Hid Hb Hs Hl. exists id. split; [done|]. split; [unfold row; by rewrite Hb, <-Hs|].
    do 2 eexists. split; [exact Hl|]. split; [apply trace_one; constructor|done]. }
  intros r w' Hr Hp. destruct r as [sid|e|p]; [| |by destruct (Hp p)].
  - destruct Hr as (id & b & ? & ? & ? & ? & _). right. by eapply Hdid.
  - destruct e as [| | | | | | | |c msg]; try done. destruct c; try done; [by destruct Hr; left| |by destruct Hr; left].
    destruct Hr as [?|(id & b & ? & ? & ? & ?)]; [by left|]. right. by eapply Hdid.
Qed.

(** ** The calls of a data layer *)

(** The call that was logged has the effect on the row that Lifecycle gives it. *)
Definition has_effect (id : uuid) (l : list dlcall) (w : W) (w' : W * list dlcall) : Prop :=
  ∃ c, w'.2 = l ++ [c] ∧ ∀ s, row w id = Some s → ∃ s', row w'.1 id = Some s' ∧ effect c s s'.

Lemma changes_effect {A} id l (f : Build → Build) (log : res A → dlcall) (m : M W A) w :
  wp m (changes obs (alter f id) w) w →
  (∀ r b, effect (log r) (b_Status b) (b_Status (f b))) →
  (∀ r b, isOk r = false → effect (log r) (b_Status b) (b_Status b)) →
  wp (logging log m) (λ _ w', has_effect id l w w') (w, l).
Proof.
  intros Hm Hf Hn. rewrite wp_logging. eapply wp_mono; [|exact Hm]. intros r w' Hch.
  exists (log r). split; [done|]. unfold row. intros s Hs. cbn [fst].
  destruct (obs w !! id) as [b|] eqn:Hb; [|done]. injection Hs as <-.
  assert (isOk r = false ∧ obs w' = obs w ∨ obs w' = alter f id (obs w)) as [[Hok ->]|Ho].
  { destruct r; cbn in Hch |- *; [by right|..]; destruct Hch as [?|?]; auto. }
  - rewrite Hb. eexists. split; [done|]. by apply Hn.
  - rewrite Ho, lookup_alter_eq, Hb. eexists. split; [done|]. apply Hf.
Qed.

Lemma calls_have_effect ctx id w l :
  wp (SetBuildAsRunning (logged dl) ctx id) (λ _ w', has_effect id l w w') (w, l) ∧
  (∀ s, TerminalState s = true →
     wp (SetBuildAsCompleted (logged dl) ctx id s) (λ _ w', has_effect id l w w') (w, l)) ∧
  (∀ ev, wp (AddEvent (logged dl) ctx id ev) (λ _ w', has_effect id l w w') (w, l)) ∧
  (row w id = Some BuildStatusRunning →
     wp (Datalayer.CancelBuild (logged dl) ctx id) (λ _ w', has_effect id l w w') (w, l)).
Proof.
  split; [|split; [intros s Hs|split; [intros ev|intros Hr]]]; cbn [logged SetBuildAsRunning SetBuildAsCompleted AddEvent Datalayer.CancelBuild].
  - eapply changes_effect; [apply spec_SetRunning|by left|by right].
  - eapply changes_effect; [by apply spec_SetCompleted|by left|by right].
  - eapply changes_effect; [apply spec_AddEvent|done|done].
  - unfold row in Hr. destruct (obs w !! id) as [b|] eqn:Hb; [|done]. injection Hr as Hr.
    assert (Running b = true) as Hrun by by apply Running_spec.
    eapply changes_effect; [by apply (spec_Cancel ctx id b w Hb Hrun)|by left|by right].
Qed.

(** C5: The processes of a build are those of Lifecycle.  Whatever a pod, the goroutine of
    the server or a cancelling client does, the calls it makes take its automaton from
    where it starts (a pod and a client: by what they read) to an end; and each call of a
    data layer that meets its contract, failing calls included, has the effect on the row
    that the interleaving gives it. *)
Theorem processes_implement_lifecycle gr bm m ctx id s opts w l :
  framed rt dl gr → BM _ gr = Some bm → framed_manager os dl m →
  map_Forall (λ id b, b_ID b = id) (obs w) →
  wp (Run os m ctx id) (λ r w', (∀ p, r ≠ Panic p) → did (pod_next id) l (pod_start w id) pod_ended w') (w, l) ∧
  wp (start_job rt gr id opts) (λ r w', r = Ok () → ∃ ctx s,
    let v := if isOk (bm_Start bm ctx opts s).1 then SvGone else SvFailing in
    ∃ calls, did (server_next id) l SvStarting (eq SvStarting) (w, l ++ calls) ∧
             did (server_next id) (l ++ calls) v (eq SvGone) w') (w, l) ∧
  wp (CancelBuild gr ctx s) (λ r w', (∀ p, r ≠ Panic p) → w'.2 = l ∨
    ∃ id, FromString s = Ok id ∧ row w id = Some BuildStatusRunning ∧
          did (client_next id) l CxSawRunning (eq CxIdle) w') (w, l) ∧
  wp (SetBuildAsRunning (logged dl) ctx id) (λ _ w', has_effect id l w w') (w, l) ∧
  (∀ z, TerminalState z = true →
     wp (SetBuildAsCompleted (logged dl) ctx id z) (λ _ w', has_effect id l w w') (w, l)) ∧
  (∀ ev, wp (AddEvent (logged dl) ctx id ev) (λ _ w', has_effect id l w w') (w, l)) ∧
  (row w id = Some BuildStatusRunning →
     wp (Datalayer.CancelBuild (logged dl) ctx id) (λ _ w', has_effect id l w w') (w, l)).
Proof.
  intros Hgr Hbm Hm Hids. split; [by apply Run_calls|]. split; [by apply start_job_calls|].
  split; [by apply CancelBuild_calls|]. apply calls_have_effect.
Qed.
End processes.

(** ** Witness *)

#[local] Existing Instance milli_quantity.

(** A pod whose BuildKit fails, on a build that is not started. *)
Definition sample_pod : res () * (fake_world * list dlcall) :=
  Run sample_os (sample_manager (throw (ErrText "no buildkit"))) CtxCaller uuid_Nil
    (fake_world_with (waiting_build BuildStatusNotStarted), []).

Lemma processes_implement_lifecycle_witness :
  pod_start (obs := fake_obs) (fake_world_with (waiting_build BuildStatusNotStarted)) uuid_Nil = PodRead ∧
  did (pod_next uuid_Nil) [] PodRead pod_ended sample_pod.2 ∧ length sample_pod.2.2 = 3%nat.
Proof.
  assert (pod_start (obs := fake_obs) (fake_world_with (waiting_build BuildStatusNotStarted)) uuid_Nil = PodRead)
    as Hstart by (vm_compute; reflexivity).
  split; [exact Hstart|]. split; [|vm_compute; reflexivity].
  destruct (processes_implement_lifecycle Fake.dl (obs := fake_obs) idle_runtime sample_os (sample_server false)
    failing_manager (sample_manager (throw (ErrText "no buildkit"))) CtxCaller uuid_Nil ""
    BuildOpts_zero (fake_world_with (waiting_build BuildStatusNotStarted)) []) as [Hrun _].
  - apply sample_framed.
  - reflexivity.
  - by apply sample_manager_framed.
  - apply fake_world_with_ids.
  - unfold wp in Hrun. rewrite Hstart in Hrun. apply Hrun. intros p. vm_compute. discriminate.
Defined.
