(* ===== verification/Testsuite.v ===== *)
(** * pkg/datalayer/testsuite: the tests of a data layer

    What a data layer is tested for, as programs over any [DataLayer].  A test keeps the
    failures it reported next to the world: [Errorf] adds one and goes on, [Fatalf] adds one
    and ends the test.  A failure is recorded by its format string.  The tests of the
    listening calls start the call in a goroutine and do what it waits for in another; how
    the two run, and what their timeouts make of it, is [tr_go]. *)

From S2P Require Import Prelude GoStrings GoTime Uuid Models Datalayer.

#[local] Open Scope Z_scope.

(** What became of a call in a goroutine of its own, and of what was done while it waited:
    what the call had returned before, and what it returned after, if it did in time. *)
Record meanwhile (A : Type) := {
  early : option (res A);
  acted : res ();
  late : option (res A);
}.
Arguments early {_} _.
Arguments acted {_} _.
Arguments late {_} _.

(** What a test asks Go for.  [tr_go listen act] runs [listen] in a goroutine, lets it
    listen, runs [act] in another and waits for both, or for the timeout of the test.
    [tr_send] sends on a channel whose reader takes three messages, [tr_taken]. *)
Record TestRuntime (W : Type) := {
  tr_NewV4 : M W uuid;
  tr_Now : M W time;
  tr_go : ∀ A : Type, M W A → M W () → M W (meanwhile A);
  tr_send : string → M W ();
  tr_taken : W → list string;
}.

Arguments tr_NewV4 {_} _.
Arguments tr_Now {_} _.
Arguments tr_go {_} _ {_} _ _.
Arguments tr_send {_} _ _.
Arguments tr_taken {_} _ _.

Section testsuite.
Context {W : Type} (rt : TestRuntime W) (tb_ID : uuid) (tb_Created : time).
Implicit Types dl : DataLayer W.

Local Abbreviation T := (M (W * list string)) (only parsing).

Definition Errorf (msg : string) : T () := λ '(w, fs), (Ok (), (w, fs ++ [msg])).
Definition FailNow : error := ErrText "FailNow".
Definition Fatalf {A} (msg : string) : T A := λ '(w, fs), (Err FailNow, (w, fs ++ [msg])).

(** [r, err := f()]; [if err != nil { t.Fatalf(msg) }]. *)
Definition must {A} (msg : string) (m : M W A) : T A :=
  r ← attempt (on_fst m);
  match r with Ok a => mret a | _ => Fatalf msg end.

(** The same with [t.Errorf]: the test goes on with the zero value [z]. *)
Definition should {A} (msg : string) (z : A) (m : M W A) : T A :=
  r ← attempt (on_fst m);
  match r with Ok a => mret a | _ => Errorf msg ;; mret z end.

(** [if _, err := f(); err == nil { fail }]. *)
Definition must_fail {A} (fail : T ()) (m : M W A) : T () :=
  r ← attempt (on_fst m);
  match r with Ok _ => fail | _ => mret () end.

(** [a, _ := f()]. *)
Definition ignoring {A} (z : A) (m : M W A) : T A :=
  r ← attempt (on_fst m);
  match r with Ok a => mret a | _ => mret z end.

(** [if cond { fail }]. *)
Definition fail_if (cond : bool) (fail : T ()) : T () := if cond then fail else mret ().

(** [uuid.Must(uuid.NewV4())]. *)
Definition MustNewV4 : T uuid :=
  r ← attempt (on_fst (tr_NewV4 rt));
  match r with Ok id => mret id | _ => panic "uuid.Must" end.

Definition tb : Build := {|
  b_ID := tb_ID; b_Created := tb_Created; b_Updated := time_zero; b_Completed := time_zero;
  b_GitHubRepo := "foobar/baz"; b_GitHubRef := "master"; b_EncryptedGitHubCredential := [];
  b_ImageRepos := ["quay.io/foobar/baz"%string]; b_Tags := ["master"%string]; b_CommitSHATag := true;
  b_BuildOptions := BuildOpts_zero;
  b_Request := {|
    rq_Build := Some {| bd_GithubRepo := "foobar/baz"; bd_GithubCredential := ""; bd_DockerfilePath := "";
                        bd_Ref := "master"; bd_Tags := ["master"%string]; bd_TagWithCommitSha := true;
                        bd_Args := ∅; bd_CacheOptions := None; bd_Resources := None |};
    rq_Push := Some [Some "quay.io/foobar/baz"%string]; rq_SkipIfExists := false |};
  b_Status := 1; b_Events := [] |}.

Definition create_tb dl : T uuid :=
  must "error creating build: %v" (CreateBuild dl CtxBackground tb).

Definition delete_tb dl (id : uuid) : T () :=
  must "error deleting build: %v" (DeleteBuild dl CtxBackground id).

Definition testDBCreateBuild dl : T () :=
  id ← create_tb dl;
  b ← ignoring Build_zero (GetBuildByID dl CtxBackground id);
  fail_if (negb (b_Status b =? BuildStatusNotStarted)) (Fatalf "bad status: %v") ;;
  delete_tb dl id.

Definition testDBDeleteBuild dl : T () :=
  must "error creating build: %v" (DeleteBuild dl CtxBackground tb_ID).

(** [b.Request.GetBuild().GithubRepo]: GetBuild returns the field, which may be nil. *)
Definition request_repo (b : Build) : T string := bd ← deref (rq_Build (b_Request b)); mret (bd_GithubRepo bd).

Definition testDBGetBuildByID dl : T () :=
  id ← create_tb dl;
  b ← must "error getting build by ID: %v" (GetBuildByID dl CtxBackground id);
  fail_if (bool_decide (b_GitHubRepo b ≠ b_GitHubRepo tb))
    (Fatalf "incorrect github repo: %v (expected %v)") ;;
  got ← request_repo b;
  wanted ← request_repo tb;
  fail_if (bool_decide (got ≠ wanted)) (Fatalf "unexpected req.build.github_repo: %v") ;;
  other ← MustNewV4;
  must_fail (Fatalf "expected id missing error") (GetBuildByID dl CtxBackground other) ;;
  delete_tb dl id.

(** ** Listing *)

(** The fields in the order of the struct. *)
Definition list_options (repo ref image : string) (status : Z) (cafter safter cbefore sbefore : time) (limit : N) :
    ListBuildsOptions := {|
  WithGitHubRepo := repo; WithGitHubRef := ref; WithImageRepo := image; WithStatus := status;
  CompletedAfter := cafter; StartedAfter := safter; CompletedBefore := cbefore; StartedBefore := sbefore;
  Limit := limit |}.

Definition opts_repo (s : string) : ListBuildsOptions :=
  list_options s "" "" BuildStatusUnknown time_zero time_zero time_zero time_zero 0.
Definition opts_ref (s : string) : ListBuildsOptions :=
  list_options "" s "" BuildStatusUnknown time_zero time_zero time_zero time_zero 0.
Definition opts_image (s : string) : ListBuildsOptions :=
  list_options "" "" s BuildStatusUnknown time_zero time_zero time_zero time_zero 0.
Definition opts_status (s : Z) : ListBuildsOptions :=
  list_options "" "" "" s time_zero time_zero time_zero time_zero 0.
Definition opts_completed (after before : time) : ListBuildsOptions :=
  list_options "" "" "" BuildStatusUnknown after time_zero before time_zero 0.
Definition opts_started (after before : time) (limit : N) : ListBuildsOptions :=
  list_options "" "" "" BuildStatusUnknown time_zero after time_zero before limit.

Definition build_with (repo ref : string) (images : list string) : Build :=
  {| b_ID := uuid_Nil; b_Created := time_zero; b_Updated := time_zero; b_Completed := time_zero;
     b_GitHubRepo := repo; b_GitHubRef := ref; b_EncryptedGitHubCredential := [];
     b_ImageRepos := images; b_Tags := []; b_CommitSHATag := false; b_BuildOptions := BuildOpts_zero;
     b_Request := BuildRequest_zero; b_Status := BuildStatusUnknown; b_Events := [] |}.

(** A listing that must not fail, and the check of what it returns. *)
Definition list_checked dl (opts : ListBuildsOptions) (failed : string) (ok : list Build → res bool) (bad : string) : T () :=
  builds ← should failed [] (ListBuilds dl CtxBackground opts);
  good ← lift_res (ok builds);
  fail_if (negb good) (Errorf bad).

(** [len(builds) != 1 || builds[0].ID != id || !p(builds[0])], negated. *)
Definition only (id : uuid) (p : Build → res bool) (builds : list Build) : res bool :=
  match builds with
  | [b] => if bool_decide (b_ID b = id) then p b else Ok false
  | _ => Ok false
  end.

Definition first_image_is (s : string) (b : Build) : res bool :=
  match b_ImageRepos b with
  | i :: _ => Ok (bool_decide (i = s))
  | [] => Panic "index out of range [0] with length 0"
  end.

Definition count (n : nat) (builds : list Build) : res bool := Ok (bool_decide (length builds = n)).

(** time.Date(2020, time.January, 4, 1, 1, 1, 1, time.UTC) and the same on January 2. *)
Definition completedAfter : time := time_Unix 1578099661 1.
Definition completedBefore : time := time_Unix 1577926861 1.

Record listed_builds := { lb_startedAfter : time; lb_startedBefore : time; lb_ids : list uuid }.
Definition lb_id (l : listed_builds) (n : nat) : uuid := nth (n - 1) (lb_ids l) uuid_Nil.

(** The builds the listings are about. *)
Definition list_setup dl : T listed_builds :=
  let create b := ignoring uuid_Nil (CreateBuild dl CtxBackground b) in
  startedAfter ← on_fst (tr_Now rt);
  id1 ← create (build_with "foo/bar" "" []);
  id2 ← create (build_with "" "asdf" []);
  id3 ← create (build_with "" "" ["some/repo"%string]);
  id4 ← create Build_zero;
  ignoring () (SetBuildStatus dl CtxBackground id4 BuildStatusFailure) ;;
  id5 ← create Build_zero;
  ignoring () (SetBuildCompletedTimestamp dl CtxBackground id5 (time_Add completedAfter (1 * Hour))) ;;
  id6 ← create Build_zero;
  ignoring () (SetBuildCompletedTimestamp dl CtxBackground id6 (time_Add completedBefore (-1 * Hour))) ;;
  now ← on_fst (tr_Now rt);
  mret {| lb_startedAfter := startedAfter; lb_startedBefore := time_Add now (1 * Hour);
          lb_ids := [id1; id2; id3; id4; id5; id6] |}.

(** The options that are refused. *)
Definition list_refused dl (l : listed_builds) : T () :=
  must_fail (Errorf "empty list options should return error")
    (ListBuilds dl CtxBackground ListBuildsOptions_zero) ;;
  must_fail (Errorf "duplicate timestamps should return error")
    (ListBuilds dl CtxBackground (opts_started (lb_startedAfter l) (lb_startedAfter l) 0)).

(** One option at a time. *)
Definition list_single dl (l : listed_builds) : T () :=
  list_checked dl (opts_repo "foo/bar") "list builds by github repo failed: %v"
    (only (lb_id l 1) (λ b, Ok (bool_decide (b_GitHubRepo b = "foo/bar"%string))))
    "bad result for listing by github repo: %+v" ;;
  list_checked dl (opts_ref "asdf") "list builds by github ref failed: %v"
    (only (lb_id l 2) (λ b, Ok (bool_decide (b_GitHubRef b = "asdf"%string))))
    "bad result for listing by github ref: %+v" ;;
  list_checked dl (opts_image "some/repo") "list builds by image repo failed: %v"
    (only (lb_id l 3) (first_image_is "some/repo"))
    "bad result for listing by image repo: %+v" ;;
  list_checked dl (opts_status BuildStatusFailure) "list builds by status failed: %v"
    (only (lb_id l 4) (λ b, Ok (b_Status b =? BuildStatusFailure)))
    "bad result for listing by status: %+v" ;;
  list_checked dl (opts_completed completedAfter time_zero) "list builds by completed after failed: %v"
    (only (lb_id l 5) (λ b, Ok (After (b_Completed b) completedAfter || Equal (b_Completed b) completedAfter)))
    "bad result for listing by completed after: %+v" ;;
  list_checked dl (opts_completed time_zero completedBefore) "list builds by completed before failed: %v"
    (only (lb_id l 6) (λ b, Ok (Before (b_Completed b) completedBefore)))
    "bad result for listing by completed before: %+v".

(** Windows of starting times, the limit, and a window that is empty. *)
Definition list_windows dl (l : listed_builds) : T () :=
  list_checked dl (opts_started (lb_startedAfter l) time_zero 0) "list builds by started after failed: %v"
    (count 6) "bad result for listing by started after: %+v" ;;
  list_checked dl (opts_started time_zero (lb_startedBefore l) 0) "list builds by started before failed: %v"
    (count 6) "bad result for listing by started before: %+v" ;;
  list_checked dl (opts_started time_zero (lb_startedBefore l) 2)
    "list builds by started before with limit failed: %v"
    (count 2) "bad result for listing by started before with limit: %+v" ;;
  list_checked dl (opts_started (lb_startedBefore l) (time_Add (lb_startedBefore l) (-1 * Hour)) 0)
    "impossible options failed: %v" (count 0) "bad result for impossible options: %+v".

(** All options but the completion times, on a seventh build. *)
Definition list_ands dl (l : listed_builds) : T () :=
  id7 ← ignoring uuid_Nil (CreateBuild dl CtxBackground (build_with "foo/bar2" "1234" ["abc"%string; "def"%string]));
  ignoring () (SetBuildStatus dl CtxBackground id7 BuildStatusRunning) ;;
  list_checked dl
    (list_options "foo/bar2" "1234" "def" BuildStatusRunning time_zero (lb_startedAfter l) time_zero time_zero 0)
    "multiple options failed: %v" (only id7 (λ _, Ok true)) "bad result for AND check multiple options: %+v" ;;
  list_checked dl
    (list_options "foo/bar2" "1234" "invalid" BuildStatusRunning time_zero (lb_startedBefore l) time_zero time_zero 0)
    "non-matching multiple options failed: %v" (count 0)
    "non-matching multiple options should return no results: %+v".

Definition testDBListBuilds dl : T () :=
  l ← list_setup dl;
  list_refused dl l ;; list_single dl l ;; list_windows dl l ;; list_ands dl l.

(** ** Writing *)

(** [t.Truncate(time.Second)]. *)
Definition to_second (t : time) : time := Time (t_sec t) 0.

Definition testDBSetBuildCompletedTimestamp dl : T () :=
  id ← create_tb dl;
  now ← on_fst (tr_Now rt);
  must "error setting build completed timestamp: %v" (SetBuildCompletedTimestamp dl CtxBackground id now) ;;
  b ← must "error getting build by id: %v" (GetBuildByID dl CtxBackground id);
  fail_if (bool_decide (to_second (b_Completed b) ≠ to_second now))
    (Fatalf "bad completed timestamp: %v (expected %v)") ;;
  delete_tb dl id.

Definition testDBSetBuildStatus dl : T () :=
  id ← create_tb dl;
  b ← must "error getting build by id (initial): %v" (GetBuildByID dl CtxBackground id);
  fail_if (negb (b_Status b =? BuildStatusNotStarted)) (Fatalf "bad initial status: %v (expected %v)") ;;
  must "error setting build state: %v" (SetBuildStatus dl CtxBackground id BuildStatusSuccess) ;;
  b ← must "error getting build by id (after): %v" (GetBuildByID dl CtxBackground id);
  fail_if (negb (b_Status b =? BuildStatusSuccess)) (Fatalf "bad status: %v (expected %v)") ;;
  delete_tb dl id.

(** ** Listening *)

(** A send on a channel that nobody reads. *)
Definition unread (_ : string) : M W () := panic "blocked forever".

Definition refusesBuildEvents dl : T uuid :=
  id ← create_tb dl;
  must "error setting build status 1: %v" (SetBuildStatus dl CtxBackground id BuildStatusFailure) ;;
  must_fail (Fatalf "listen should have returned error for bad build status")
    (ListenForBuildEvents dl CtxBackground id (Some unread)) ;;
  must "error setting build status 2: %v" (SetBuildStatus dl CtxBackground id BuildStatusRunning) ;;
  mret id.

(** The three events are added one after the other. *)
Definition add_events dl (id : uuid) : M W () :=
  let ctx := CtxWithCancel CtxBackground in
  on_err (λ _, ErrText "error adding event 1: %v") (AddEvent dl ctx id "something happened - 'embedded quoted string'") ;;
  on_err (λ _, ErrText "error adding event 2: %v") (AddEvent dl ctx id "something else happened") ;;
  on_err (λ _, ErrText "error adding event 3: %v") (AddEvent dl ctx id "ok done").

Definition testDBListenAndAddEvents dl : T () :=
  id ← refusesBuildEvents dl;
  r ← on_fst (tr_go rt (ListenForBuildEvents dl (CtxWithCancel CtxBackground) id (Some (tr_send rt))) (add_events dl id));
  match acted r with
  | Err (ErrText msg) => Fatalf msg
  | _ =>
      revents ← on_fst (λ w, (Ok (tr_taken rt w), w));
      fail_if (length revents <? 3)%nat (Fatalf "time out waiting for 3 events") ;;
      fail_if (negb (length revents =? 3)%nat) (Fatalf "expected 3 events, got %v")
  end.

(** [if err := f(); err != nil { t.Errorf(msg) }] of what was done meanwhile. *)
Definition acted_ok {A} (msg : string) (r : meanwhile A) : T () :=
  match acted r with Err _ => Errorf msg | _ => mret () end.

(** The channel is closed when the call has returned: it can be read more than once. *)
Definition signalled {A} (too_early failed timeout : string) (r : meanwhile A) : T () :=
  fail_if (bool_decide (is_Some (early r))) (Errorf too_early) ;;
  acted_ok failed r ;;
  fail_if (bool_decide (early r = None) && bool_decide (late r = None)) (Errorf timeout).

Definition refusesOrKnowsCancellation dl : T uuid :=
  id ← create_tb dl;
  must_fail (Fatalf "listen should have returned error for bad build status")
    (ListenForCancellation dl CtxBackground id) ;;
  must "error setting build status to cancelled: %v"
    (SetBuildStatus dl CtxBackground id BuildStatusCancelRequested) ;;
  must "listen should have returned immediately since status is cancel requested"
    (ListenForCancellation dl CtxBackground id) ;;
  must "error setting build status to running: %v" (SetBuildStatus dl CtxBackground id BuildStatusRunning) ;;
  mret id.

Definition testDBCancelBuildAndListenForCancellation dl : T () :=
  id ← refusesOrKnowsCancellation dl;
  let ctx := CtxWithCancel CtxBackground in
  r ← on_fst (tr_go rt (ListenForCancellation dl ctx id) (CancelBuild dl ctx id));
  signalled "build shouldn't be cancelled but is" "error cancelling build: %v"
    "timeout: build not cancelled yet but should be" r.

Definition refusesOrKnowsRunning dl : T uuid :=
  id ← create_tb dl;
  must "error setting build status to success: %v" (SetBuildStatus dl CtxBackground id BuildStatusSuccess) ;;
  must_fail (Fatalf "listen should have returned error for bad build status")
    (ListenForBuildRunning dl CtxBackground id) ;;
  must "error setting build status to running: %v" (SetBuildStatus dl CtxBackground id BuildStatusRunning) ;;
  must "listen should have returned immediately since status is running"
    (ListenForBuildRunning dl CtxBackground id) ;;
  must "error setting build status to not started: %v" (SetBuildStatus dl CtxBackground id BuildStatusNotStarted) ;;
  mret id.

Definition testDBSetBuildAsRunningAndListenForBuildRunning dl : T () :=
  id ← refusesOrKnowsRunning dl;
  let ctx := CtxWithCancel CtxBackground in
  r ← on_fst (tr_go rt (ListenForBuildRunning dl ctx id) (SetBuildAsRunning dl ctx id));
  signalled "build shouldn't be running but is" "error setting build as running: %v"
    "timeout: build not running yet but should be" r.

Definition refusesOrKnowsCompleted dl : T uuid :=
  id ← create_tb dl;
  must "error setting build status to unknown: %v" (SetBuildStatus dl CtxBackground id BuildStatusUnknown) ;;
  must_fail (Fatalf "listen should have returned error for unknown build status")
    (ListenForBuildCompleted dl CtxBackground id) ;;
  must "error setting build status to success: %v" (SetBuildStatus dl CtxBackground id BuildStatusSuccess) ;;
  must "listen should have returned immediately since status is success"
    (ListenForBuildCompleted dl CtxBackground id) ;;
  must "error setting build status to running: %v" (SetBuildStatus dl CtxBackground id BuildStatusRunning) ;;
  mret id.

(** The status the call returned comes on a channel, once. *)
Definition testDBSetBuildAsCompletedAndListenForBuildCompleted dl : T () :=
  id ← refusesOrKnowsCompleted dl;
  let ctx := CtxWithCancel CtxBackground in
  r ← on_fst (tr_go rt (ListenForBuildCompleted dl ctx id) (SetBuildAsCompleted dl ctx id BuildStatusSuccess));
  fail_if (bool_decide (is_Some (early r))) (Errorf "build shouldn't be completed but is") ;;
  acted_ok "error setting build as completed: %v" r ;;
  match early r, late r with
  | None, Some s =>
      fail_if (negb (match s with Ok z => z | _ => BuildStatusUnknown end =? BuildStatusSuccess))
        (Errorf "bad build status (wanted success): %v")
  | _, _ => Errorf "timeout: build not completed yet but should be"
  end.

(** ** API keys *)

Definition read_only_key : APIKey := {|
  ak_ID := uuid_Nil; ak_Created := time_zero; ak_GitHubUser := ""; ak_Name := ""; ak_Description := "";
  ak_ReadOnly := true |}.

Definition create_key dl : T uuid :=
  must "error creating api key: %v" (CreateAPIKey dl CtxBackground read_only_key).

Definition testDBCreateAPIKey dl : T () :=
  id ← create_key dl;
  fail_if (bool_decide (id = uuid_Nil)) (Fatalf "zero value id") ;;
  ak ← must "error getting key: %v" (GetAPIKey dl CtxBackground id);
  fail_if (negb (ak_ReadOnly ak)) (Fatalf "expected read only") ;;
  must "error deleting api key: %v" (DeleteAPIKey dl CtxBackground id).

Definition testDBGetAPIKey dl : T () :=
  id ← create_key dl;
  ak ← must "error getting api key: %v" (GetAPIKey dl CtxBackground id);
  fail_if (negb (ak_ReadOnly ak)) (Fatalf "expected read only") ;;
  other ← MustNewV4;
  must_fail (Fatalf "expected id missing error") (GetAPIKey dl CtxBackground other) ;;
  must "error deleting build: %v" (DeleteAPIKey dl CtxBackground id).

Definition testDBDeleteAPIKey dl : T () :=
  id ← create_key dl;
  must "error deleting api key: %v" (DeleteAPIKey dl CtxBackground id) ;;
  other ← MustNewV4;
  must "error deleting missing api key: %v" (DeleteAPIKey dl CtxBackground other).

(** The table of RunTests. *)
Definition tests : list (string * (DataLayer W → T ())) := [
  ("create build", testDBCreateBuild); ("delete build", testDBDeleteBuild);
  ("get build by ID", testDBGetBuildByID); ("list builds", testDBListBuilds);
  ("set build completed timestamp", testDBSetBuildCompletedTimestamp);
  ("set build status", testDBSetBuildStatus);
  ("listen for and add events", testDBListenAndAddEvents);
  ("cancellation and listen for cancellation", testDBCancelBuildAndListenForCancellation);
  ("set build as running and listen for running", testDBSetBuildAsRunningAndListenForBuildRunning);
  ("set build as completed and listen for completion", testDBSetBuildAsCompletedAndListenForBuildCompleted);
  ("create API key", testDBCreateAPIKey); ("get API key", testDBGetAPIKey);
  ("delete API key", testDBDeleteAPIKey)]%string.

(** [RunTests]: each test gets an empty data layer of its own, [fresh]; the failures by
    the name of the test.  A panic ends the run. *)
Definition RunTests (dl : DataLayer W) (fresh : W) : res (list (string * list string)) :=
  foldr (λ (t : string * (DataLayer W → T ())) rest,
    match t.2 dl (fresh, []), rest with
    | (Panic p, _), _ => Panic p
    | (_, (_, fs)), Ok l => Ok (if decide (fs = []) then l else (t.1, fs) :: l)
    | _, r => r
    end) (Ok []) tests.

End testsuite.
