(* ===== verification/TestsuiteFacts.v ===== *)
(** * Facts about the tests of a data layer

    The tests of single builds follow from the contract of the interface; and both data
    layers, run on an environment of their own, pass every test of the suite. *)

From S2P Require Import Prelude GoStrings GoTime Uuid Models Datalayer FakeDL Postgres PostgresFacts Testsuite.

#[local] Open Scope Z_scope.

Section testsuite.
Context {W : Type} (rt : TestRuntime W) (dl : DataLayer W) (obs : W → gmap uuid Build).
Context `{!DataLayerSpec dl obs} (tb_ID : uuid) (tb_Created : time).

Lemma wp_must {A} msg (m : M W A) Q w fs :
  wp (must msg m) Q (w, fs) ↔
  wp m (λ r w', match r with
                | Ok a => Q (Ok a) (w', fs)
                | Err _ => Q (Err FailNow) (w', fs ++ [msg])
                | Panic p => Q (Panic p) (w', fs)
                end) w.
Proof. unfold must. rewrite wp_bind, wp_attempt, wp_on_fst. unfold wp. by destruct (m w) as [[?|?|?] ?]. Qed.

Lemma wp_ignoring {A} z (m : M W A) (Q : res A → W * list string → Prop) w fs :
  wp (ignoring z m) Q (w, fs) ↔
  wp m (λ r w', match r with Ok a => Q (Ok a) (w', fs) | Err _ => Q (Ok z) (w', fs)
                | Panic p => Q (Panic p) (w', fs) end) w.
Proof. unfold ignoring. rewrite wp_bind, wp_attempt, wp_on_fst. unfold wp. by destruct (m w) as [[?|?|?] ?]. Qed.

Lemma wp_must_fail {A} fail (m : M W A) (Q : res () → W * list string → Prop) w fs :
  wp (must_fail fail m) Q (w, fs) ↔
  wp m (λ r w', match r with Ok _ => wp fail Q (w', fs) | Err _ => Q (Ok ()) (w', fs)
                | Panic p => Q (Panic p) (w', fs) end) w.
Proof. unfold must_fail. rewrite wp_bind, wp_attempt, wp_on_fst. unfold wp. by destruct (m w) as [[?|?|?] ?]. Qed.

Lemma wp_fail_if_not cond fail (Q : res () → W * list string → Prop) s :
  cond = false → Q (Ok ()) s → wp (fail_if cond fail) Q s.
Proof. by intros ->. Qed.

(** A data layer whose calls do not fail, in an environment with identifiers for [k] more
    builds or questions ([I k]). *)
Record reliable (I : nat → W → Prop) : Prop := {
  rl_create k ctx b w : I (S k) w →
    wp (CreateBuild dl ctx b) (λ r w', I k w' ∧ ∃ id, r = Ok id ∧ obs w !! id = None) w;
  rl_get k ctx id w : I k w →
    wp (GetBuildByID dl ctx id) (λ r w', I k w' ∧ (is_Some (obs w !! id) → isOk r = true)) w;
  rl_status k ctx id s w : I k w → wp (SetBuildStatus dl ctx id s) (λ r w', I k w' ∧ r = Ok ()) w;
  rl_delete k ctx id w : I k w → wp (DeleteBuild dl ctx id) (λ r w', I k w' ∧ r = Ok ()) w;
  rl_new k w : I (S k) w →
    wp (tr_NewV4 rt) (λ r w', I k w' ∧ obs w' = obs w ∧ ∃ id, r = Ok id ∧ obs w !! id = None) w;
}.

Context (I : nat → W → Prop) (HI : reliable I).

Lemma wp_create_tb k Q w fs : I (S k) w →
  (∀ id b w', I k w' → obs w !! id = None → obs w' = <[id := b]> (obs w) →
              created_from (tb tb_ID tb_Created) b id → Q (Ok id) (w', fs)) →
  wp (create_tb tb_ID tb_Created dl) Q (w, fs).
Proof.
  intros Hw HQ. unfold create_tb. rewrite wp_must.
  eapply wp_mono; [|apply wp_and; split; [apply spec_Create|by eapply (rl_create _ HI)]].
  intros r w' [Hspec [HI' (id & -> & Hid)]]. destruct Hspec as (b & ? & ?). by eapply HQ.
Qed.

Lemma wp_must_get msg k id b Q w fs : I k w → obs w !! id = Some b →
  (∀ b' w', I k w' → obs w' = obs w → view b' = b → Q (Ok b') (w', fs)) →
  wp (must msg (GetBuildByID dl CtxBackground id)) Q (w, fs).
Proof.
  intros Hw Hb HQ. rewrite wp_must.
  eapply wp_mono; [|apply wp_and; split; [apply spec_Get|by eapply (rl_get _ HI)]].
  intros r w' [[Ho Hl] [HI' Hok]]. rewrite Hb in Hok. specialize (Hok (ltac:(by eexists))).
  destruct r as [b'|?|?]; [|done..]. apply HQ; [done..|congruence].
Qed.

Lemma wp_ignoring_get k id b Q w fs : I k w → obs w !! id = Some b →
  (∀ b' w', I k w' → obs w' = obs w → view b' = b → Q (Ok b') (w', fs)) →
  wp (ignoring Build_zero (GetBuildByID dl CtxBackground id)) Q (w, fs).
Proof.
  intros Hw Hb HQ. rewrite wp_ignoring. pose proof (wp_must_get "" k id b Q w fs Hw Hb HQ) as H.
  rewrite wp_must in H. revert H. pose proof (rl_get _ HI k CtxBackground id w Hw) as Hok. rewrite Hb in Hok.
  unfold wp in *. destruct (GetBuildByID _ _ _ w) as [[?|?|?] ?]; try done.
  by destruct Hok as [_ Hok]; discriminate Hok; eexists.
Qed.

Lemma wp_must_status msg k id s Q w fs : I k w →
  (∀ w', I k w' → obs w' = alter (with_Status s) id (obs w) → Q (Ok ()) (w', fs)) →
  wp (must msg (SetBuildStatus dl CtxBackground id s)) Q (w, fs).
Proof.
  intros Hw HQ. rewrite wp_must.
  eapply wp_mono; [|apply wp_and; split; [apply spec_SetStatus|by eapply (rl_status _ HI)]].
  intros r w' [Hs [HI' ->]]. by apply HQ.
Qed.

Lemma wp_must_delete msg k id Q w fs : I k w →
  (∀ w', I k w' → obs w' = delete id (obs w) → Q (Ok ()) (w', fs)) →
  wp (must msg (DeleteBuild dl CtxBackground id)) Q (w, fs).
Proof.
  intros Hw HQ. rewrite wp_must.
  eapply wp_mono; [|apply wp_and; split; [apply spec_Delete|by eapply (rl_delete _ HI)]].
  intros r w' [Hs [HI' ->]]. by apply HQ.
Qed.

(** The test passes, without a failure, and leaves the builds as they were. *)
Definition passes (t : DataLayer W → M (W * list string) ()) (w : W) : Prop :=
  wp (t dl) (λ r s, r = Ok () ∧ s.2 = [] ∧ obs s.1 = obs w) (w, []).

Lemma wp_MustNewV4 k Q w fs : I (S k) w →
  (∀ id w', I k w' → obs w' = obs w → obs w !! id = None → Q (Ok id) (w', fs)) →
  wp (MustNewV4 rt) Q (w, fs).
Proof.
  intros Hw HQ. unfold MustNewV4. rewrite wp_bind, wp_attempt, wp_on_fst.
  eapply wp_mono; [|by apply (rl_new _ HI)]. intros r w' (Hk & Ho & id & -> & Hid). by apply HQ.
Qed.

Lemma wp_must_miss fail k id (Q : res () → W * list string → Prop) w fs :
  I k w → obs w !! id = None →
  (∀ w', I k w' → obs w' = obs w → Q (Ok ()) (w', fs)) →
  wp (must_fail fail (GetBuildByID dl CtxBackground id)) Q (w, fs).
Proof.
  intros Hw Hid HQ. rewrite wp_must_fail.
  eapply wp_mono; [|apply wp_and; split; [apply spec_Get|by eapply (rl_get _ HI)]].
  intros r w' [[Ho Hl] [HI' _]]. destruct r as [b|e|p]; [congruence| |done]. by apply HQ.
Qed.

Lemma view_status b b' : view b' = b → b_Status b' = b_Status b.
Proof. by intros <-. Qed.

Lemma test_create k w : I (S k) w → passes (testDBCreateBuild tb_ID tb_Created) w.
Proof.
  intros Hw. unfold passes, testDBCreateBuild. rewrite wp_bind. eapply wp_create_tb; [done|].
  intros id b w1 H1 Hid Ho [_ Hst _ _ _ _ _ _ _ _ _ _ _]. rewrite wp_bind.
  eapply wp_ignoring_get; [done|by rewrite Ho, lookup_insert_eq|].
  intros b' w2 H2 Ho2 Hb'%view_status. rewrite wp_bind.
  apply wp_fail_if_not; [by rewrite Hb', Hst|].
  eapply wp_must_delete; [done|]. intros w3 _ Ho3. split_and!; [done..|].
  cbn. by rewrite Ho3, Ho2, Ho, delete_insert_id.
Qed.

Lemma test_status k w : I (S k) w → passes (testDBSetBuildStatus tb_ID tb_Created) w.
Proof.
  intros Hw. unfold passes, testDBSetBuildStatus. rewrite wp_bind. eapply wp_create_tb; [done|].
  intros id b w1 H1 Hid Ho [_ Hst _ _ _ _ _ _ _ _ _ _ _]. rewrite wp_bind.
  eapply wp_must_get; [done|by rewrite Ho, lookup_insert_eq|].
  intros b' w2 H2 Ho2 Hb'%view_status. rewrite wp_bind. apply wp_fail_if_not; [by rewrite Hb', Hst|].
  rewrite wp_bind. eapply wp_must_status; [done|]. intros w3 H3 Ho3. rewrite wp_bind.
  eapply wp_must_get; [done|by rewrite Ho3, Ho2, Ho, lookup_alter_eq, lookup_insert_eq|].
  intros b3 w4 H4 Ho4 Hb3%view_status. rewrite wp_bind. apply wp_fail_if_not; [by rewrite Hb3|].
  eapply wp_must_delete; [done|]. intros w5 _ Ho5. split_and!; [done..|].
  cbn. by rewrite Ho5, Ho4, Ho3, Ho2, Ho, delete_alter_eq, delete_insert_id.
Qed.

Lemma scrubbed_repo b bd : scrub (b_Request b) = scrub (b_Request (tb tb_ID tb_Created)) →
  rq_Build (b_Request b) = Some bd → bd_GithubRepo bd = "foobar/baz"%string.
Proof. intros Hs%(f_equal rq_Build) Hb. cbn in Hs. rewrite Hb in Hs. by injection Hs. Qed.

Lemma test_get k w : I (S (S k)) w → passes (testDBGetBuildByID rt tb_ID tb_Created) w.
Proof.
  intros Hw. unfold passes, testDBGetBuildByID. rewrite wp_bind. eapply wp_create_tb; [done|].
  intros id b w1 H1 Hid Ho [_ _ Hrepo _ _ _ _ _ _ _ _ _ Hreq]. rewrite wp_bind.
  eapply wp_must_get; [done|by rewrite Ho, lookup_insert_eq|]. intros b' w2 H2 Ho2 <-.
  rewrite wp_bind. apply wp_fail_if_not; [apply bool_decide_eq_false; by intros []|].
  rewrite wp_bind. unfold request_repo at 1. rewrite wp_bind. cbn in Hreq.
  destruct (rq_Build (b_Request b')) as [bd|] eqn:Hbd; [|apply (f_equal rq_Build) in Hreq; cbn in Hreq; by rewrite Hbd in Hreq].
  cbn [deref]. rewrite !wp_ret, wp_bind. unfold request_repo at 1. rewrite wp_bind. cbn [deref rq_Build b_Request tb].
  rewrite !wp_ret, wp_bind. apply wp_fail_if_not.
  { apply bool_decide_eq_false. intros []. by eapply scrubbed_repo. }
  rewrite wp_bind. eapply wp_MustNewV4; [done|]. intros other w3 H3 Ho3 Hother. rewrite wp_bind.
  eapply wp_must_miss; [done|by rewrite Ho3|]. intros w4 H4 Ho4.
  eapply wp_must_delete; [done|]. intros w5 _ Ho5. split_and!; [done..|].
  cbn. by rewrite Ho5, Ho4, Ho3, Ho2, Ho, delete_insert_id.
Qed.

Lemma test_delete k w : I k w → obs w !! tb_ID = None → passes (testDBDeleteBuild tb_ID) w.
Proof.
  intros Hw Hid. eapply wp_must_delete; [done|]. intros w1 _ Ho. split_and!; [done..|].
  cbn. by rewrite Ho, delete_id.
Qed.

(** C36: Four tests of the suite - testDBCreateBuild, testDBDeleteBuild, testDBGetBuildByID
    and testDBSetBuildStatus - test no more than the contract of the interface: a data
    layer that meets it and whose calls do not fail passes them, and its builds are
    afterwards what they were before.  (testDBSetBuildCompletedTimestamp does not follow
    from the contract, which leaves timestamps out; it is run below, as the rest of the
    suite is, on the two data layers.) *)
Theorem contract_passes_tests k w : I (S (S k)) w → obs w !! tb_ID = None →
  ∀ t, t ∈ [testDBCreateBuild tb_ID tb_Created; testDBDeleteBuild tb_ID;
            testDBGetBuildByID rt tb_ID tb_Created; testDBSetBuildStatus tb_ID tb_Created] → passes t w.
Proof.
  intros Hw Hid t Ht. repeat (apply elem_of_cons in Ht as [->|Ht]); [| | | |by apply not_elem_of_nil in Ht].
  - by apply test_create with (S k).
  - by apply test_delete with (S (S k)).
  - by apply test_get with k.
  - by apply test_status with (S k).
Qed.
End testsuite.

(** ** The in-memory data layer *)

(** What was sent since [s0], by the [log] of a store. *)
Definition since {S} (log : S → list wake) (s0 s : S) : list wake := drop (length (log s0)) (log s).

(** The environment [e] in which a call that blocks before anything was sent finds that
    [act] was done, and gets [ws]; later it gets nothing. *)
Definition when_blocked {S} (log : S → list wake) (act : M (env S) ()) (ws : list wake) (e : env S) : env S :=
  let wakened s := if decide (since log (store e) s = []) then store (act (set_store s e)).2 else s in
  Env (store e) (rand_uuid e) (clock e) (map_order e) (λ _, (wakened, ws)) (tick e).

(** A call that blocks and is not woken fails when its context ends, so it has returned
    early if it succeeds in a world where nobody wakes it, and in time if it succeeds after
    [act].  What it is sent depends on where it listens: it gets that in a second run. *)
Definition env_go {S} (log : S → list wake) (A : Type) (listen : M (env S) A) (act : M (env S) ()) :
    M (env S) (meanwhile A) := λ e,
  let alone := (listen (when_blocked log (mret ()) [] e)).1 in
  let rehearsal := (listen (when_blocked log act [] e)).2 in
  let '(r, e') := listen (when_blocked log act (since log (store e) (store rehearsal)) e) in
  (Ok {| early := if isOk alone then Some alone else None; acted := (act e).1;
         late := if isOk r then Some r else None |},
   Env (store e') (rand_uuid e) (clock e) (map_order e) (blocked e) (tick e')).

(** Go's random UUIDs and clock, as the environment of a data layer has them; the channel
    the tests read is a record in the store. *)
Definition env_runtime {S} (log : S → list wake) (send : string → S → S) (taken : S → list string) :
    TestRuntime (env S) := {|
  tr_NewV4 := NewV4; tr_Now := Now; tr_go := @env_go S log;
  tr_send ev := modify_store (send ev); tr_taken e := taken (store e) |}.

(** In memory: what is sent on channels; the tests read channel 0, and three times. *)
Definition wake_of (v : chan_val) : wake :=
  Notified match v with VEvent ev => ev | VSignal => "" | VStatus s => fmt_int s end.

Definition fake_runtime : TestRuntime fake_world :=
  env_runtime (λ s, wake_of ∘ snd <$> sent s)
    (λ ev s, FakeStore (fdl s) (sent s ++ [(0%nat, VEvent ev)]) (closed s))
    (λ s, take 3 (omap (λ m, match m with (0%nat, VEvent ev) => Some ev | _ => None end) (sent s))).

(** In the database: the connection of a listener gets the notifications; what the tests
    read is noted with them. *)
Definition pg_runtime : TestRuntime pg_world :=
  env_runtime (λ s, Notified ∘ snd <$> notified s)
    (λ ev s, PgStore (db s) (notified s ++ [("test"%string, ev)]) (idle s) (in_use s) (faults s) (pg_now s))
    (λ s, take 3 (snd <$> base.filter (λ n, n.1 = "test"%string) (notified s))).

(** The UUIDs of the next [2 * k] ticks are there, new and different. *)
Definition fresh (k : nat) (e : fake_world) : Prop :=
  (∀ n, (tick e ≤ n < tick e + 2 * k)%nat → ∃ id, rand_uuid e n = Ok id ∧ Fake.d (store e) !! id = None) ∧
  (∀ n m, (tick e ≤ n < m)%nat → (m < tick e + 2 * k)%nat → rand_uuid e n ≠ rand_uuid e m).

(** Whatever keeps the stored identifiers and uses no tick keeps the supply. *)
Lemma fresh_same k e s : (∀ id, Fake.d (store e) !! id = None → Fake.d s !! id = None) →
  fresh k e → fresh k (set_store s e).
Proof. intros Hs [Hn Hd]. split; [|done]. intros n (id & Hid & Ho)%Hn. exists id. split; [done|]. by apply Hs. Qed.

Lemma fresh_next k e id : rand_uuid e (tick e) = Ok id → fresh (S k) e → fresh k (next e) ∧ Fake.d (store e) !! id = None.
Proof.
  intros Hid [Hn Hd]. split.
  - split; cbn.
    + intros n Hr. apply Hn. lia.
    + intros n m Hr Hr'. apply Hd; lia.
  - destruct (Hn (tick e)) as (id' & Hid' & Ho); [lia|]. congruence.
Qed.

Lemma fresh_create k e id b : rand_uuid e (tick e) = Ok id → fresh (S k) e →
  fresh k (set_store (Fake.with_d (<[id := b]> (Fake.d (store e))) (store e)) (next (next e))).
Proof.
  intros Hid [Hn Hd]. split; cbn.
  - intros n Hr. destruct (Hn n) as (id' & Hid' & Ho); [lia|]. exists id'. split; [done|].
    change (<[id := b]> (Fake.d (store e)) !! id' = None). rewrite lookup_insert_ne; [done|].
    intros <-. apply (Hd (tick e) n); [lia..|congruence].
  - intros n m Hr Hr'. apply Hd; lia.
Qed.

Lemma Fake_reliable : reliable fake_runtime Fake.dl fake_obs fresh.
Proof.
  split; cbn; intros k.
  - intros _ b e He. destruct (proj1 He (tick e)) as (id & Hid & Ho); [lia|].
    unfold Fake.CreateBuild, Fake.init, NewV4, Now, wp, mbind, M_bind, modify_store.
    cbn [rand_uuid set_store tick]. rewrite Hid. cbn -[fresh fake_obs]. split.
    + apply (fresh_create k (set_store (Fake.init_store (store e)) e)); [done|by apply fresh_same].
    + exists id. split; [done|]. unfold fake_obs. by rewrite lookup_fmap, Ho.
  - intros _ id e He. unfold Fake.GetBuildByID. wp_simpl. rewrite d_init. unfold fake_obs. rewrite lookup_fmap.
    destruct (Fake.d (store e) !! id) as [b|]; wp_simpl; (split; [by apply fresh_same|]); [done|by intros []].
  - intros _ id s e He. fake_simpl. split; [|done]. apply fresh_same; [|by apply fresh_same].
    intros id' Hn. rewrite d_with_d. apply lookup_alter_None. by rewrite d_init.
  - intros _ id e He. fake_simpl. split; [|done]. apply fresh_same; [|by apply fresh_same].
    intros id' Hn. rewrite d_with_d. apply lookup_delete_None. right. by rewrite d_init.
  - intros e He. unfold NewV4, wp. cbn. destruct (proj1 He (tick e)) as (id & Hid & _); [lia|]. rewrite Hid.
    destruct (fresh_next k e id Hid He) as [Hf Ho]. split; [done|]. split; [done|]. exists id. split; [done|].
    unfold fake_obs. by rewrite lookup_fmap, Ho.
Qed.

(** ** The whole suite *)

Definition numbered (n : nat) : res uuid := Ok (sample_id (ascii_of_nat (n mod 256))).
Definition ticking (n : nat) : time := time_Unix (1591000000 + Z.of_nat n) 0.
Definition env_of {S} (s : S) : env S := Env s numbered ticking (λ _ _, 0%N) (λ _, (λ s, s, [])) 1.
Definition fresh_fake : fake_world := env_of (FakeStore (MkFake None None None None None None) [] []).
Definition fresh_pg : pg_world :=
  env_of (PgStore {| builds := ∅; api_keys := ∅ |} [] [] [] (λ _, None) ticking).

(** Both data layers, each with a fresh store, a clock that ticks and nobody else around,
    pass the suite. *)
Lemma both_pass :
  RunTests fake_runtime (sample_id "255") time_zero Fake.dl fresh_fake = Ok [] ∧
  RunTests pg_runtime (sample_id "255") time_zero (PG.dl 10) fresh_pg = Ok [].
Proof. split; vm_compute; reflexivity. Qed.

Lemma contract_passes_tests_witness :
  Forall (λ t, passes Fake.dl fake_obs t fresh_fake)
    [testDBCreateBuild (sample_id "255") time_zero; testDBDeleteBuild (sample_id "255");
     testDBGetBuildByID fake_runtime (sample_id "255") time_zero;
     testDBSetBuildStatus (sample_id "255") time_zero].
Proof.
  apply Forall_forall. apply (contract_passes_tests fake_runtime Fake.dl fake_obs (sample_id "255") time_zero fresh Fake_reliable 0).
  - split.
    + intros n Hn. exists (sample_id (ascii_of_nat (n mod 256))). done.
    + intros n m Hn Hm. cbn in Hn, Hm.
      assert (n < 5 ∧ m < 5)%nat as [Hn' Hm'] by lia.
      do 5 (destruct n as [|n]; [do 5 (destruct m as [|m]; [by (lia || discriminate)|]); lia|]). lia.
  - reflexivity.
Defined.
